(* ===== verification/_CoqProject ===== *)
-Q . S2P
Prelude.v
Ipv4.v
Ipnet.v
CidrNet.v
Proto.v
Config.v
Overcommit.v
DbTypes.v
JsonText.v
Ipam.v
Clusters.v
Hosts.v
Vms.v
Teardown.v
Outbox.v
Schema.v
Scheduler.v
Ctl.v
Wire.v
Api.v
Pools.v
Agent.v
Service.v
Streams.v
Identity.v
Machines.v
Create.v
Text.v
HashName.v
IpAddr.v
Gobgp.v
Client.v
Crds.v
Provider.v
Reconcilers.v
Triple.v
Gauges.v
Metrics.v
MetricsFacts.v
Host.v
Lvm.v
Resources.v
Ledger.v
Nvlink.v
Capacity.v
Gpu.v
Net.v
Dataplane.v
Image.v
HostVm.v
Sweep.v
AgentMain.v
AgentStart.v
Bgp.v
ControllerMain.v
BgpFacts.v
Frames.v
VmFacts.v
AgentFacts.v
AgentRun.v
DataplaneFacts.v
NameFacts.v
SimHost.v
AgentDemo.v
RunDemo.v
AgentMetrics.v
SimNet.v
Cell.v
CellDemo.v
SimGobgp.v
RestartDemo.v
BasisCtl.v
ClientFacts.v
BasisCtlFacts.v
ProviderFacts.v
SimKube.v
Startup.v
