(* ===== verification/Prelude.v ===== *)
(** * Basis: a verification development of the hypervisor cell

    Basis places virtual machines of Kubernetes clusters on a cell of
    hypervisors. A controller (crates/basis-controller) keeps the state of the
    cell in SQLite, answers the gRPC API the Cluster API provider calls
    (CreateCluster, CreateMachine, ...), and holds one stream per agent. It
    sends an agent CreateVm commands and reconcile commands (the clusters the
    host should carry, and tombstones of clusters and VMs it should tear
    down). The agent (crates/basis-agent) runs on a hypervisor: it creates
    volumes, network devices and units through commands and files, keeps a
    local database of what it owns, and answers with heartbeats, VM states,
    disk assignments and acknowledgements of tombstones. Deletion is by
    tombstone: a row becomes PENDING_TEARDOWN, and disappears when the host
    acknowledges that nothing of the VM or cluster is left there. The
    controller is also the route reflector of the cell: it configures a local
    GoBGP daemon, as every agent does its own. The provider
    (crates/basis-capi-provider) turns BasisCluster and BasisMachine resources
    into calls of the controller through the client (crates/basis-client); so
    does the command line (crates/basis-ctl).

    ** Files and the code they model

    Shared.
    - [Prelude]: results, the state and error monad [SE] with transactions,
      machine integers with their wrap-around, SQL on tables as lists
      ([select], [update_where], [delete_where]), shared lemmas and tactics.
      [Triple]: Hoare triples with an exceptional postcondition for [SE], and
      [fixes], that a call leaves a projection of the state alone.
    - [Ipv4], [IpAddr]: the text of addresses, printed by Rust and by SQL.
      [Text]: the string and path functions of the standard library.
      [HashName]: DefaultHasher (SipHash-1-3), and the tap, MAC and unit names
      derived from a VM id (network/mod.rs, vm.rs).
    - [Proto]: enums and messages of basis.proto (crates/basis-proto).
    - [Resources]: the configuration files of controller and agent
      (basis-common/src/resource.rs, both config.rs).
    - [Gobgp]: the GoBGP client (basis-common/src/gobgp.rs).
    - [Identity]: from a certificate to the caller (basis-common/src/tls.rs).
    - [Gauges]: metric families and their series.

    Controller, storage layer (db.rs). Every method of [Db] that changes state
    is a definition of the same name, of type [DbM A]: the transaction it
    runs, with the constraint checks of the statements in it.
    - [Config]: NetworkConfig and its validation (config.rs). [Overcommit]:
      total_cpu * ratio as an IEEE double, and its truncation.
    - [DbTypes]: the tables (record [Db]) and row types.
    - [Ipam]: address allocation; [Clusters]: cluster rows, membership, the
      LAN owner; [Hosts]: hosts, pools, devices, drains; [Vms]: the commit of
      a placement, reads, usage; [Teardown]: VM states and acknowledgements;
      [Outbox]: queued commands and disk assignments.
    - [Schema]: the invariant of the schema (unique keys, no dangling
      reference), kept by every operation.

    Controller, scheduling (scheduler.rs): [Scheduler].

    Controller, services (server.rs, host.rs). The state [Ctl] is the
    database, the connected agents with what was sent to each, the waiters of
    CreateMachine and the generation counter.
    - [Ctl]: SharedCtx: reconcile commands, pushes, inventories, cleanup.
    - [Api]: the RPC handlers. A handler takes [env], what the other tasks do
      while it awaits, one function per await point that matters. [Pools]:
      ListPools.
    - [Agent]: the agent stream: registration, replay, messages, periodic
      push, disconnection; the health checker.
    - [Bgp]: the reconcilers of the route reflector (bgp.rs), and the speaker
      and the route watcher of a host (agent bgp.rs, bgp_routes.rs).
    - [Metrics]: the families and the poller of metrics.rs.
    - [ControllerMain]: main.rs, and the life of a controller over restarts.
    - [Service], [Streams], [Machines], [Create], [MetricsFacts], [BgpFacts]:
      theorems about the whole controller.

    Agent. The state [Agt] is the local database (VM rows and the ledger of
    volume reservations), the tracked and pending VMs, the live clusters, what
    was sent to the controller, and [World], the machine behind commands and
    files. Every operation is a sequence of commands that can fail anywhere.
    - [Host]: the state, the class [Host] (run a command, touch a file) and
      db.rs. [Lvm], [Capacity]: lvm.rs and the storage part of config.rs,
      host_info.rs. [Nvlink], [Gpu]: gpu.rs. [Net]: network/mod.rs.
      [Dataplane]: network/cluster.rs. [Image]: image.rs. [HostVm]: vm.rs and
      handlers.rs. [Sweep]: reconcile.rs. [AgentMain]: the session of main.rs.
    - [AgentStart]: start, reload and the background loops of main.rs.
      [AgentRun]: the process as a step relation [agent_step] over all of
      them. [AgentMetrics]: metrics.rs.
    - [Ledger], [Frames], [VmFacts], [AgentFacts], [DataplaneFacts],
      [NameFacts]: theorems about the agent.

    Provider, client, command line.
    - [Client]: the calls with their retry loop; [ClientFacts] runs it against
      the handlers of [Api].
    - [Crds], [Provider], [Reconcilers]: resources, patches, and one pass of
      both reconcilers; [ProviderFacts] their theorems. [Startup]: the waits
      at start (startup.rs, main.rs).
    - [BasisCtl], [BasisCtlFacts]: resource files and commands.

    Both sides. [Cell]: one round of the teardown protocol, the controller's
    command applied by the agent and its acknowledgement handled by the
    controller.

    ** Interfaces

    Code outside the repository is a class: its operations are parameters and
    its laws state documented behaviour. Each that has laws has an instance on
    which they are proved and the witnesses evaluate.
    - [Ipnet], [IpnetHosts], [Ipnet6] (the ipnet crate): [CidrNet],
      [AgentDemo], [SimGobgp].
    - [DbJson], [AgentJson] (serde_json, SQLite's JSON functions):
      [JsonText], [Host].
    - [Prost] (protobuf encoding of outbox rows): [Wire].
    - [Sqlite] (which constraint an error names), [HashOrder] (the iteration
      order of a HashMap).
    - [Host], [LvmHost] (what lvcreate, lvremove and lvs do to the set of
      volumes, and that no other tool touches it): [SimHost], a machine whose
      commands are executable. A command may fail at any time.
    - [Oci], [OciLvm] (registry client, SHA-256), [Speaker], [SpeakerLvm]
      (the BGP speaker): [AgentDemo].
    - [KernelHost] (what ip and bridge do to one entry of a kernel table):
      [SimNet].
    - [Gobgp], [HostGobgp] (the daemon): [SimGobgp].
    - [BasisStub], [Stopwatch] (what tonic generates, a timer): [ClientFacts].
    - [Kube], [Finalizer] (the Kubernetes API, kube-runtime): [SimKube].
    - [Yaml], [ConfigYaml] (serde_yaml), [ControllerHost], [Bootstrap],
      [X509], [Humantime]: [BasisCtlFacts], [RunDemo], [RestartDemo],
      [Startup], [Identity], [MetricsFacts].
    [AgentDemo], [RunDemo], [SimNet], [SimGobgp], [SimKube], [CellDemo] and
    [RestartDemo] hold the witnesses that need them.

    ** What the theorems show

    - Placement commits (C1, C2): a committed VM fits the host's capacity,
      GPUs and disks have one owner.
    - Failing calls (C3, C10): CreateMachine and CreateCluster leak no address
      whatever the other tasks do meanwhile.
    - The two sides together (C4): a row leaves the controller's database only
      when nothing of the VM is left on the host.
    - The agent: creating a VM with its rollback under any failure (C5), the
      ledger agrees with the volumes over any run of the process (C6),
      acknowledgements are sound (C7), the sweep spares known VMs (C15), the
      kernel's tables converge without a gap (C16), one ARP responder for a
      VIP (C18), a changed endpoint ends the session (C20), the union-find of
      NVLink groups ends and is exact (C32).
    - BGP: the import policy isolates clusters (C8), the neighbors are those
      of the database (C17).
    - The provider: a lifted finalizer means the VM is doomed or gone (C9), a
      machine keeps its VM (C13) and its credentials (C14), the start ends,
      ready or with an error (C33).
    - The controller: the database is sound over restarts (C11), only
      certified callers act (C12), a late cleanup spares a newer stream (C19),
      registration replays the outbox (C36).
    - Scheduling (C21, C22): decisions are feasible and best, and agree with
      the commit gate.
    - Addresses and configuration (C23, C24, C31): allocations are aligned and
      disjoint, also under racing requests; the configurations accepted are
      exactly those the allocators can serve.
    - Reconcile and teardown on the controller (C25 to C27).
    - What operators see and do: metrics of the controller (C28) and of the
      agent (C34, C35), ListPools (C30), basis-ctl delete (C29).
    - Behaviour that departs from what the code means to do (C37 to C40).
    Theorems without a number cover more of the same: refused commits, disk
    reports, the retry budget of the client, storage configurations, replayed
    commands, learned routes.

    ** Bounds and fuel

    Integers are [Z] with the wrap-around of their width written out where an
    operation can overflow. Loops over collections are structural. The block
    search of [allocate_service_block] has fuel [block_fuel], shown enough by
    [block_fuel_enough]; linear searches ([find_upto]) have the length of the
    range; the retry loops of CreateCluster, CreateMachine and the client have
    the constants of the code; [find] of the union-find has the number of
    devices, enough because a path to a root visits a device once; SipHash has
    one unit per byte and one more, where a round takes eight bytes; the
    subscription to learned routes has the size of the stream; the polls at
    the provider's start have [poll_budget], one per interval before the
    deadline and one after, shown enough because a sleep lasts its interval.

    ** Not modelled

    - Time: timestamps are arguments, loops over time are one round each, and
      timeouts are left out, except the client's pauses and the provider's
      deadlines. A task of the agent is one step: tasks come in any order but
      do not interleave inside; its locks are taken to be free, except the
      volume-group gates, whose [Busy] answer is a parameter of the world.
    - Histograms and counters, which other code feeds and nothing reads; the
      HTTP endpoints of metrics and health; logs and the text of errors.
    - Opening the databases: connection options and the text of the migrations
      (CREATE TABLE IF NOT EXISTS), whose constraints are in [Schema].
    - Command-line parsing (clap), column widths of basis-ctl's tables, and
      the text of the provider's install manifests (components.rs).
    - Opening the netlink socket at the start of the agent.
    - Generated code: tonic services and protobuf encoding. *)

From Stdlib Require Export ZArith Lia Bool.
From stdpp Require Export gmap strings list fin_maps pretty sorting.

Declare Scope basis_scope.
Delimit Scope basis_scope with basis.
#[global] Open Scope Z_scope.
#[global] Open Scope basis_scope.

(** ** Notation and automation *)

(** Rust's [==] on [String]. *)
Notation "x =$ y" := (String.eqb x y) (at level 70, no associativity) : basis_scope.
Notation "x <>$ y" := (negb (String.eqb x y)) (at level 70, no associativity) : basis_scope.

Create HintDb basis.
Create Rewrite HintDb basis_bool.

#[export] Hint Rewrite andb_true_iff orb_true_iff andb_false_iff orb_false_iff
  negb_true_iff negb_false_iff String.eqb_eq String.eqb_neq
  Z.eqb_eq Z.eqb_neq Z.leb_le Z.leb_gt Z.ltb_lt Z.ltb_ge Z.geb_le
  bool_decide_eq_true bool_decide_eq_false : basis_bool.

(** [bsimp] turns boolean tests of the code into the propositions they decide. *)
Ltac bsimp := autorewrite with basis_bool in *; try done.

(** [dmatch H] splits every [match] and [if] scrutinised in [H]. *)
Ltac dmatch H :=
  repeat match type of H with
  | context [match ?x with _ => _ end] => destruct x eqn:?; simplify_eq/=
  end.

(** [gmatch] splits the matches of the goal. *)
Ltac gmatch :=
  repeat match goal with
  | |- context [match ?x with _ => _ end] => destruct x eqn:?; simplify_eq/=
  end.

(** ** Results, and effects as a state and error monad *)

Inductive result (E A : Type) : Type :=
  | Ok (a : A)
  | Err (e : E).
Arguments Ok {E A} a.
Arguments Err {E A} e.

Definition is_ok {E A} (r : result E A) : bool :=
  match r with Ok _ => true | Err _ => false end.

(** [Result::map_err]. *)
Definition map_err {E F A} (f : E -> F) (r : result E A) : result F A :=
  match r with Ok a => Ok a | Err e => Err (f e) end.

(** [Option::ok_or_else]. *)
Definition ok_or {E A} (e : E) (o : option A) : result E A :=
  match o with Some a => Ok a | None => Err e end.

(** A fallible computation over a state [S]: what an [async fn] of the
    controller does to the database and what it returns. *)
Definition SE (S E A : Type) : Type := S -> S * result E A.

Definition se_ret {S E A} (a : A) : SE S E A := fun s => (s, Ok a).
Definition se_fail {S E A} (e : E) : SE S E A := fun s => (s, Err e).
Definition se_of {S E A} (r : result E A) : SE S E A := fun s => (s, r).
Definition se_gets {S E A} (f : S -> A) : SE S E A := fun s => (s, Ok (f s)).
Definition se_modify {S E} (f : S -> S) : SE S E unit := fun s => (f s, Ok tt).
Definition se_bind {S E A B} (m : SE S E A) (k : A -> SE S E B) : SE S E B :=
  fun s => match m s with
           | (s', Ok a) => k a s'
           | (s', Err e) => (s', Err e)
           end.
(** A transaction: an early return drops the transaction and rolls it back. *)
Definition se_tx {S E A} (m : SE S E A) : SE S E A :=
  fun s => match m s with
           | (s', Ok a) => (s', Ok a)
           | (_, Err e) => (s, Err e)
           end.

Notation "'do!' x <- m ; k" := (se_bind m (fun x => k))
  (at level 10, x name, m at level 100, k at level 200) : basis_scope.
Notation "'run!' m ; k" := (se_bind m (fun _ => k))
  (at level 10, m at level 100, k at level 200) : basis_scope.

(** A [for] loop whose body may fail. *)
Fixpoint se_for {S E A} (l : list A) (body : A -> SE S E unit) : SE S E unit :=
  match l with
  | [] => se_ret tt
  | x :: l' => run! body x ; se_for l' body
  end.

(** A loop that collects a value per element. *)
Fixpoint se_map {S E A B} (l : list A) (body : A -> SE S E B) : SE S E (list B) :=
  match l with
  | [] => se_ret []
  | x :: l' => do! y <- body x ; do! ys <- se_map l' body ; se_ret (y :: ys)
  end.

(** Run a call and hand its result over as a value ([match call.await]). *)
Definition se_try {S E F A} (m : SE S E A) : SE S F (result E A) :=
  fun s => let '(s', r) := m s in (s', Ok r).

(** [m.map_err(f)]. *)
Definition se_map_err {S E F A} (f : E -> F) (m : SE S E A) : SE S F A :=
  fun s => let '(s', r) := m s in (s', map_err f r).

Lemma se_tx_err {S E A} (m : SE S E A) s s' e :
  se_tx m s = (s', Err e) -> s' = s.
Proof. unfold se_tx. intros H. dmatch H. done. Qed.

Lemma se_tx_ok {S E A} (m : SE S E A) s s' a :
  se_tx m s = (s', Ok a) -> m s = (s', Ok a).
Proof. unfold se_tx. intros H. dmatch H. done. Qed.

(** A loop keeps what its body keeps. *)
Lemma se_for_inv {S E A} (P : S -> Prop) (body : A -> SE S E unit) l s :
  (forall x s, x ∈ l -> P s -> P (fst (body x s))) ->
  P s -> P (fst (se_for l body s)).
Proof.
  revert s. induction l as [|x l IH]; intros s Hb Hs; simpl; [done|].
  unfold se_bind. pose proof (Hb x s ltac:(set_solver) Hs) as H1.
  destruct (body x s) as [s1 [[]|e]]; simpl in *; [|done].
  apply IH; [|done]. intros; apply Hb; set_solver.
Qed.

(** [keeps Q m]: the call keeps [Q], whatever it returns. *)
Definition keeps {S E A} (Q : S -> Prop) (m : SE S E A) : Prop := forall s, Q s -> Q (fst (m s)).

Lemma keeps_run {S E A} (Q : S -> Prop) (m : SE S E A) s s' r : keeps Q m -> m s = (s', r) -> Q s -> Q s'.
Proof. intros Hm E1 Hs. specialize (Hm s Hs). by rewrite E1 in Hm. Qed.

Lemma se_bind_ok {S E A B} (m : SE S E A) (k : A -> SE S E B) s s' b :
  se_bind m k s = (s', Ok b) -> exists s1 a, m s = (s1, Ok a) /\ k a s1 = (s', Ok b).
Proof. unfold se_bind. destruct (m s) as [s1 [a|e]]; intros H; [|done]. by exists s1, a. Qed.

Section keeps.
Context {S E : Type} (Q : S -> Prop).

Lemma keeps_ret {A} (a : A) : keeps Q (se_ret (E:=E) a).
Proof. by intros s. Qed.
Lemma keeps_of {A} (r : result E A) : keeps Q (se_of r).
Proof. by intros s. Qed.
Lemma keeps_fail {A} e : keeps Q (se_fail (E:=E) (A:=A) e).
Proof. by intros s. Qed.
Lemma keeps_gets {A} (f : S -> A) : keeps Q (se_gets (E:=E) f).
Proof. by intros s. Qed.
Lemma keeps_modify f : (forall s, Q s -> Q (f s)) -> keeps Q (se_modify (E:=E) f).
Proof. intros H s Hs. by apply H. Qed.
Lemma keeps_bind {A B} (m : SE S E A) (k : A -> SE S E B) :
  keeps Q m -> (forall a, keeps Q (k a)) -> keeps Q (se_bind m k).
Proof.
  intros Hm Hk s H. unfold se_bind. specialize (Hm s H).
  destruct (m s) as [s1 [a|e]]; simpl in *; [by apply Hk|done].
Qed.
Lemma keeps_tx {A} (m : SE S E A) : keeps Q m -> keeps Q (se_tx m).
Proof. intros Hm s H. unfold se_tx. specialize (Hm s H). by destruct (m s) as [s1 [a|e]]. Qed.
Lemma keeps_for {A} (l : list A) (body : A -> SE S E unit) :
  (forall x, keeps Q (body x)) -> keeps Q (se_for l body).
Proof. intros Hb s H. apply se_for_inv; [|done]. intros x s1 _. apply Hb. Qed.
Lemma keeps_map {A B} (l : list A) (body : A -> SE S E B) :
  (forall x, keeps Q (body x)) -> keeps Q (se_map l body).
Proof.
  intros Hb. induction l as [|x l IH]; [apply keeps_ret|]. simpl.
  apply keeps_bind; [apply Hb|]. intros y. apply keeps_bind; [apply IH|]. intros ys. apply keeps_ret.
Qed.
Lemma keeps_try {F A} (m : SE S E A) : keeps Q m -> keeps Q (se_try (F:=F) m).
Proof. intros Hm s H. unfold se_try. specialize (Hm s H). by destruct (m s) as [s1 r]. Qed.
Lemma keeps_read {A} (m : SE S E A) : (forall s, fst (m s) = s) -> keeps Q m.
Proof. intros H s Hs. by rewrite H. Qed.
Lemma keeps_map_err {F A} (f : E -> F) (m : SE S E A) : keeps Q m -> keeps Q (se_map_err f m).
Proof. intros Hm s H. unfold se_map_err. specialize (Hm s H). by destruct (m s) as [s1 r]. Qed.
End keeps.

#[export] Hint Resolve keeps_ret keeps_of keeps_fail keeps_gets keeps_modify keeps_bind keeps_tx
  keeps_for keeps_map keeps_try keeps_map_err : basis.

(** ** Machine integers *)

(** [x as u32], [x as i32], [x as i64], [x as u64]: truncation to the width. *)
Definition as_u32 (x : Z) : Z := x mod 2 ^ 32.
Definition as_u64 (x : Z) : Z := x mod 2 ^ 64.
Definition as_i32 (x : Z) : Z := (x + 2 ^ 31) mod 2 ^ 32 - 2 ^ 31.
Definition as_i64 (x : Z) : Z := (x + 2 ^ 63) mod 2 ^ 64 - 2 ^ 63.

Definition i64_max : Z := 2 ^ 63 - 1.
Definition i64_min : Z := - 2 ^ 63.
Definition u32_max : Z := 2 ^ 32 - 1.

(** Saturation to [i64]: [saturating_mul], [saturating_sub], float casts. *)
Definition sat_i64 (x : Z) : Z := Z.max i64_min (Z.min i64_max x).
Definition sat_u32 (x : Z) : Z := Z.max 0 (Z.min u32_max x).

Definition is_u32 (x : Z) : Prop := 0 <= x < 2 ^ 32.
Definition is_i64 (x : Z) : Prop := - 2 ^ 63 <= x < 2 ^ 63.

#[global] Instance is_u32_dec x : Decision (is_u32 x).
Proof. unfold is_u32. apply _. Defined.
#[global] Instance is_i64_dec x : Decision (is_i64 x).
Proof. unfold is_i64. apply _. Defined.

Lemma as_u32_range x : is_u32 (as_u32 x).
Proof. unfold as_u32, is_u32. apply Z.mod_pos_bound. lia. Qed.

Lemma as_u32_small x : is_u32 x -> as_u32 x = x.
Proof. unfold as_u32, is_u32. apply Z.mod_small. Qed.

Lemma as_u32_le x : 0 <= x -> as_u32 x <= x.
Proof. unfold as_u32. intros. apply Z.mod_le; lia. Qed.

Lemma as_i64_small x : is_i64 x -> as_i64 x = x.
Proof. unfold as_i64, is_i64. intros. rewrite Z.mod_small; lia. Qed.

Lemma sat_i64_small x : is_i64 x -> sat_i64 x = x.
Proof. unfold sat_i64, is_i64, i64_max, i64_min. lia. Qed.

#[export] Hint Resolve as_u32_range as_u32_le : basis.

(** ** Searches for the lowest number that passes a test *)

(** Test [lo], [lo+1], ... for [fuel] numbers. *)
Fixpoint find_upto (p : Z -> bool) (fuel : nat) (lo : Z) : option Z :=
  match fuel with
  | O => None
  | S f => if p lo then Some lo else find_upto p f (lo + 1)
  end.

(** Rust's [(lo..=hi).find(p)]. *)
Definition find_incl (p : Z -> bool) (lo hi : Z) : option Z :=
  find_upto p (Z.to_nat (hi - lo + 1)) lo.

(** The recursive table [SELECT lo UNION ALL SELECT n + 1 WHERE n < hi],
    filtered, ordered and cut to its first row. The seed row [lo] is always
    present, also when [hi < lo]. *)
Definition find_cte (p : Z -> bool) (lo hi : Z) : option Z :=
  find_upto p (S (Z.to_nat (hi - lo))) lo.

Lemma find_upto_Some p fuel lo n :
  find_upto p fuel lo = Some n ->
  lo <= n < lo + Z.of_nat fuel /\ p n = true /\ forall m, lo <= m < n -> p m = false.
Proof.
  revert lo. induction fuel as [|f IH]; intros lo H; simpl in H; [done|].
  destruct (p lo) eqn:E; simplify_eq.
  - split_and!; [lia|lia|done|lia].
  - apply IH in H as (? & ? & Hm). split_and!; [lia|lia|done|].
    intros m Hr. destruct (decide (m = lo)) as [->|]; [done|]. apply Hm. lia.
Qed.

Lemma find_upto_None p fuel lo :
  find_upto p fuel lo = None <-> forall m, lo <= m < lo + Z.of_nat fuel -> p m = false.
Proof.
  revert lo. induction fuel as [|f IH]; intros lo; simpl; [split; [lia|done]|].
  destruct (p lo) eqn:E.
  - split; [done|]. intros H. rewrite H in E by lia. done.
  - rewrite IH. split.
    + intros H m ?. destruct (decide (m = lo)) as [->|]; [done|]. apply H. lia.
    + intros H m ?. apply H. lia.
Qed.

Lemma find_incl_Some p lo hi n :
  find_incl p lo hi = Some n ->
  lo <= n <= hi /\ p n = true /\ forall m, lo <= m < n -> p m = false.
Proof. intros (? & ? & ?)%find_upto_Some. split_and!; [lia|lia|done|done]. Qed.

Lemma find_incl_None p lo hi :
  find_incl p lo hi = None <-> forall m, lo <= m <= hi -> p m = false.
Proof.
  unfold find_incl. rewrite find_upto_None.
  split; intros H m ?; apply H; lia.
Qed.

Lemma find_cte_incl p lo hi : lo <= hi -> find_cte p lo hi = find_incl p lo hi.
Proof.
  intros. unfold find_cte, find_incl.
  by replace (S (Z.to_nat (hi - lo))) with (Z.to_nat (hi - lo + 1)) by lia.
Qed.

(** ** Tables: a table is its list of rows *)

Section tables.
Context {A : Type}.
Implicit Types (p : A -> bool) (f : A -> A) (t : list A).

(** [SELECT ... WHERE p]. *)
Definition select p t : list A := List.filter p t.
(** [SELECT ... WHERE p] with [fetch_optional]. *)
Definition select1 p t : option A := head (select p t).
(** [UPDATE ... SET f WHERE p]. *)
Definition update_where p f t : list A := map (fun r => if p r then f r else r) t.
(** [DELETE ... WHERE p]. *)
Definition delete_where p t : list A := List.filter (fun r => negb (p r)) t.
(** [SELECT COUNT(...) WHERE p]. *)
Definition count_where p t : Z := Z.of_nat (length (select p t)).

Lemma elem_of_select p t r : r ∈ select p t <-> r ∈ t /\ p r = true.
Proof. unfold select. rewrite !list_elem_of_In, filter_In. done. Qed.

Lemma elem_of_delete_where p t r : r ∈ delete_where p t <-> r ∈ t /\ p r = false.
Proof.
  unfold delete_where. rewrite !list_elem_of_In, filter_In, negb_true_iff. done.
Qed.

Lemma elem_of_update_where p f t r :
  r ∈ update_where p f t <->
  exists r0, r0 ∈ t /\ r = if p r0 then f r0 else r0.
Proof.
  unfold update_where. rewrite list_elem_of_In, in_map_iff.
  setoid_rewrite list_elem_of_In.
  split; intros (r0 & ? & ?); exists r0; by subst.
Qed.

Lemma select1_Some p t r : select1 p t = Some r -> r ∈ t /\ p r = true.
Proof.
  unfold select1. intros H. apply elem_of_select.
  destruct (select p t) eqn:E; simplify_eq/=. set_solver.
Qed.

Lemma select1_only p t r :
  r ∈ t -> p r = true -> (forall r', r' ∈ t -> p r' = true -> r' = r) -> select1 p t = Some r.
Proof.
  intros Hr Hp Hu. destruct (select1 p t) as [r'|] eqn:E.
  - apply select1_Some in E as [? ?]. f_equal. by apply Hu.
  - unfold select1 in E. assert (r ∈ select p t) as Hin by (by apply elem_of_select).
    destruct (select p t); [by apply not_elem_of_nil in Hin|done].
Qed.

Lemma select1_None p t : select1 p t = None <-> forall r, r ∈ t -> p r = false.
Proof.
  unfold select1. destruct (select p t) as [|r l] eqn:E; simpl.
  - split; [|done]. intros _ r Hr. destruct (p r) eqn:Ep; [|done].
    assert (r ∈ select p t) as Hin by (by apply elem_of_select).
    rewrite E in Hin. set_solver.
  - split; [done|]. intros H. exfalso.
    assert (r ∈ select p t) as [Hin Hp]%elem_of_select by (rewrite E; set_solver).
    rewrite H in Hp; done.
Qed.

Lemma existsb_false p t : existsb p t = false <-> forall r, r ∈ t -> p r = false.
Proof.
  split.
  - intros H r Hr. destruct (p r) eqn:E; [|done].
    assert (existsb p t = true); [|congruence].
    apply existsb_exists. exists r. rewrite <- list_elem_of_In. done.
  - intros H. destruct (existsb p t) eqn:E; [|done].
    apply existsb_exists in E as (r & Hr%list_elem_of_In & Hp). rewrite H in Hp; done.
Qed.

Lemma existsb_true p t : existsb p t = true <-> exists r, r ∈ t /\ p r = true.
Proof. rewrite existsb_exists. setoid_rewrite list_elem_of_In. done. Qed.

Lemma forallb_false_exists p t : forallb p t = false -> exists r, r ∈ t /\ p r = false.
Proof.
  induction t as [|r t IH]; simpl; [done|]. intros [H|H]%andb_false_iff.
  - exists r. set_solver.
  - destruct (IH H) as (r' & ? & ?). exists r'. set_solver.
Qed.

Lemma count_where_zero p t : count_where p t = 0 <-> forall r, r ∈ t -> p r = false.
Proof.
  unfold count_where. split.
  - intros H r Hr. destruct (p r) eqn:E; [|done].
    assert (r ∈ select p t) as Hin by (by apply elem_of_select).
    destruct (select p t); [set_solver|simpl in H; lia].
  - intros H. destruct (select p t) as [|r l] eqn:E; [done|].
    assert (r ∈ select p t) as [? Hp]%elem_of_select by (rewrite E; set_solver).
    rewrite H in Hp; done.
Qed.
End tables.

#[export] Hint Rewrite @elem_of_select @elem_of_delete_where @elem_of_update_where
  @existsb_true @existsb_false : basis_bool.

(** A column that is a key stays one when rows are deleted or updated
    without touching it. *)
Section keys.
Context {A K : Type}.
Implicit Types (k : A -> K).

Lemma NoDup_delete_where (p : A -> bool) k t :
  NoDup (map k t) -> NoDup (map k (delete_where p t)).
Proof.
  induction t as [|r t IH]; simpl; [done|]. intros [Hr Ht]%NoDup_cons.
  destruct (p r); simpl; [by apply IH|]. apply NoDup_cons. split; [|by apply IH].
  rewrite !list_elem_of_In, in_map_iff in *. intros (r' & He & Hin). apply Hr.
  exists r'. split; [done|]. apply filter_In in Hin. tauto.
Qed.

Lemma map_update_where (p : A -> bool) (f : A -> A) k t :
  (forall r, k (f r) = k r) -> map k (update_where p f t) = map k t.
Proof.
  intros Hk. unfold update_where. rewrite List.map_map. apply List.map_ext.
  intros r. destruct (p r); auto.
Qed.

Lemma map_update_where_p (p : A -> bool) (f : A -> A) k t :
  (forall r, r ∈ t -> p r = true -> k (f r) = k r) -> map k (update_where p f t) = map k t.
Proof.
  intros Hk. unfold update_where. rewrite List.map_map. apply List.map_ext_in.
  intros r Hr%list_elem_of_In. destruct (p r) eqn:E; auto.
Qed.

Lemma NoDup_map_app k t r :
  NoDup (map k t) -> (forall r', r' ∈ t -> k r' <> k r) -> NoDup (map k (t ++ [r])).
Proof.
  intros Ht Hr. rewrite List.map_app. apply NoDup_app. split_and!; [done| |].
  - intros x (r' & <- & Hin%list_elem_of_In)%list_elem_of_In%in_map_iff Hx.
    simpl in Hx. apply list_elem_of_singleton in Hx. by eapply Hr.
  - simpl. apply NoDup_singleton.
Qed.

Lemma NoDup_map_inj k t r1 r2 :
  NoDup (map k t) -> r1 ∈ t -> r2 ∈ t -> k r1 = k r2 -> r1 = r2.
Proof.
  induction t as [|r t IH]; simpl; [set_solver|].
  intros [Hr Ht]%NoDup_cons H1 H2 He.
  assert (forall r', r' ∈ t -> k r' ∈ map k t) as Hin.
  { intros r' ?. apply list_elem_of_In, in_map. by apply list_elem_of_In. }
  apply elem_of_cons in H1 as [E1|H1]; apply elem_of_cons in H2 as [E2|H2].
  - congruence.
  - subst r1. exfalso. apply Hr. rewrite He. by apply Hin.
  - subst r2. exfalso. apply Hr. rewrite <- He. by apply Hin.
  - by apply IH.
Qed.
End keys.

(** ** Sums over a column *)

Definition sum_of {A} (f : A -> Z) (t : list A) : Z := foldr (fun r acc => f r + acc) 0 t.

(** SQLite's [SUM] over an integer column: an error when the total leaves
    [i64]. (The columns summed are non-negative, so a partial sum overflows
    only when the total does.) *)
Definition sql_sum {A} (f : A -> Z) (t : list A) : option Z :=
  let s := sum_of f t in if bool_decide (is_i64 s) then Some s else None.

Lemma sum_of_app {A} (f : A -> Z) t1 t2 : sum_of f (t1 ++ t2) = sum_of f t1 + sum_of f t2.
Proof. induction t1; simpl; lia. Qed.

Lemma sum_of_nonneg {A} (f : A -> Z) t : (forall r, r ∈ t -> 0 <= f r) -> 0 <= sum_of f t.
Proof.
  induction t as [|r t IH]; simpl; [lia|]. intros H.
  pose proof (H r ltac:(set_solver)). specialize (IH ltac:(set_solver)). lia.
Qed.

Lemma sum_of_ext {A} (f g : A -> Z) t :
  (forall r, r ∈ t -> f r = g r) -> sum_of f t = sum_of g t.
Proof.
  induction t as [|r t IH]; simpl; [done|]. intros H.
  rewrite H, IH by set_solver. done.
Qed.

Lemma sum_of_select_update {A} (f : A -> Z) (q p : A -> bool) (g : A -> A) t :
  (forall r, f (g r) = f r) -> (forall r, q (g r) = q r) ->
  sum_of f (select q (update_where p g t)) = sum_of f (select q t).
Proof.
  intros Hf Hq. induction t as [|r t IH]; simpl; [done|].
  assert (q (if p r then g r else r) = q r) as -> by (destruct (p r); auto).
  destruct (q r); simpl; [|done]. rewrite IH. destruct (p r); rewrite ?Hf; done.
Qed.

Lemma sum_of_select_delete {A} (f : A -> Z) (q p : A -> bool) t :
  (forall r, r ∈ t -> 0 <= f r) ->
  sum_of f (select q (delete_where p t)) <= sum_of f (select q t).
Proof.
  induction t as [|r t IH]; simpl; [lia|]. intros H.
  pose proof (H r ltac:(set_solver)). specialize (IH ltac:(set_solver)).
  destruct (p r), (q r) eqn:E; simpl; rewrite ?E; simpl; lia.
Qed.

(** ** Options *)

(** [Option::unwrap_or]. *)
Definition unwrap_or {A} (d : A) (o : option A) : A := from_option id d o.

(** ** Powers of two *)

Fixpoint pos_ctz (p : positive) : Z :=
  match p with
  | xO q => 1 + pos_ctz q
  | _ => 0
  end.

(** [u32::trailing_zeros] ([32] for zero). *)
Definition trailing_zeros (n : Z) : Z :=
  match n with Zpos p => pos_ctz p | _ => 32 end.

(** [u32::is_power_of_two]: exactly one bit is set. *)
Definition is_power_of_two (n : Z) : bool := (0 <? n) && (Z.land n (n - 1) =? 0).

Lemma pos_ctz_nonneg p : 0 <= pos_ctz p.
Proof. induction p; simpl; lia. Qed.

Lemma pos_power_of_two p :
  Z.land (Zpos p) (Zpos p - 1) = 0 -> Zpos p = 2 ^ pos_ctz p.
Proof.
  induction p as [p IH|p IH|]; intros H; simpl pos_ctz.
  - exfalso. assert (Z.land (2 * Z.pos p + 1) (2 * Z.pos p) = 2 * Z.pos p) as E.
    { apply Z.bits_inj'. intros n Hn.
      destruct (decide (n = 0)) as [->|].
      - rewrite Z.land_spec, !Z.testbit_even_0. apply andb_false_r.
      - replace n with (Z.succ (n - 1)) by lia.
        rewrite Z.land_spec, Z.testbit_odd_succ, Z.testbit_even_succ by lia.
        apply andb_diag. }
    replace (Z.pos p~1 - 1) with (2 * Z.pos p) in H by lia.
    change (Z.pos p~1) with (2 * Z.pos p + 1) in H. lia.
  - rewrite Z.add_comm, Z.pow_add_r by (pose proof (pos_ctz_nonneg p); lia).
    rewrite <- IH; [lia|].
    assert (Z.land (2 * Z.pos p) (2 * Z.pos p - 1) = 2 * Z.land (Z.pos p) (Z.pos p - 1)) as E.
    { apply Z.bits_inj'. intros n Hn.
      destruct (decide (n = 0)) as [->|].
      - rewrite Z.land_spec, !Z.testbit_even_0. done.
      - replace n with (Z.succ (n - 1)) by lia.
        rewrite Z.land_spec, !Z.testbit_even_succ, Z.land_spec by lia.
        replace (2 * Z.pos p - 1) with (2 * (Z.pos p - 1) + 1) by lia.
        rewrite Z.testbit_odd_succ by lia. done. }
    change (Z.pos p~0) with (2 * Z.pos p) in H. lia.
  - done.
Qed.

Lemma pow2_is_power_of_two k : 0 <= k -> is_power_of_two (2 ^ k) = true.
Proof.
  intros Hk. unfold is_power_of_two. pose proof (Z.pow_pos_nonneg 2 k ltac:(lia) Hk).
  apply andb_true_iff. split; [by apply Z.ltb_lt|]. apply Z.eqb_eq.
  rewrite Z.sub_1_r, <- Z.ones_equiv, Z.land_ones by done. apply Z_mod_same_full.
Qed.

Lemma is_power_of_two_spec n :
  is_power_of_two n = true -> n = 2 ^ trailing_zeros n /\ 0 <= trailing_zeros n.
Proof.
  unfold is_power_of_two. intros [Hn H]%andb_true_iff. bsimp.
  destruct n as [|p|p]; [lia| |lia]. simpl. split; [|apply pos_ctz_nonneg].
  by apply pos_power_of_two.
Qed.

Lemma power_of_two_u32 n :
  is_power_of_two n = true -> is_u32 n -> 0 <= trailing_zeros n <= 31.
Proof.
  intros [He Hz]%is_power_of_two_spec Hu. split; [done|].
  destruct (Z.le_gt_cases (trailing_zeros n) 31); [done|].
  assert (2 ^ 32 <= 2 ^ trailing_zeros n) by (apply Z.pow_le_mono_r; lia).
  unfold is_u32 in Hu. lia.
Qed.
