(* ===== verification/Ipv4.v ===== *)
(** * IPv4 addresses as the controller stores them

    Addresses live in the database as dotted quads ([TEXT] columns) and in
    the allocators as host-order [u32] numbers. This file models the three
    renderings the code relies on ([Ipv4Addr]'s [Display], its [FromStr] and
    the [printf] of the allocation statements in db.rs) and shows that they
    agree, plus [ParsedRange], the inclusive range the allocators walk. *)

From Stdlib Require Import Ascii.
From S2P Require Import Prelude.

(** ** Rendering *)

(** The four octets, most significant first ([u32::to_be_bytes]). *)
Definition octet (n : Z) (i : Z) : Z := n / 2 ^ (8 * i) mod 256.

Definition dotted (a b c d : Z) : string :=
  pretty a +:+ String "."%char (pretty b +:+ String "."%char (pretty c +:+ String "."%char (pretty d))).

(** [Ipv4Addr::from(n).to_string()]. *)
Definition ip_to_string (n : Z) : string :=
  dotted (octet n 3) (octet n 2) (octet n 1) (octet n 0).

(** [printf('%d.%d.%d.%d', (n >> 24) & 255, (n >> 16) & 255, (n >> 8) & 255, n & 255)]. *)
Definition sql_printf_ip (n : Z) : string :=
  dotted (Z.land (Z.shiftr n 24) 255) (Z.land (Z.shiftr n 16) 255)
         (Z.land (Z.shiftr n 8) 255) (Z.land n 255).

(** ** Parsing: [str::parse::<Ipv4Addr>] *)

Definition digit (c : ascii) : option Z :=
  let k := Z.of_N (Ascii.N_of_ascii c) in
  if (48 <=? k) && (k <=? 57) then Some (k - 48) else None.

(** Read a [u8] in decimal: at most three digits, a value of at most 255. *)
Fixpoint read_digits (s : string) (acc : Z) (count : nat) : option (Z * nat * string) :=
  match s with
  | String c s' =>
      match digit c with
      | Some d =>
          let acc' := acc * 10 + d in
          if 255 <? acc' then None
          else if (3 <? S count)%nat then None
          else read_digits s' acc' (S count)
      | None => Some (acc, count, s)
      end
  | EmptyString => Some (acc, count, s)
  end.

(** An octet has a digit, and no leading zero unless it is the single digit 0. *)
Definition read_octet (s : string) : option (Z * string) :=
  match read_digits s 0 0 with
  | Some (v, count, rest) =>
      let leading_zero := match s with String "0"%char _ => true | _ => false end in
      if (count =? 0)%nat then None
      else if leading_zero && (1 <? count)%nat then None
      else Some (v, rest)
  | None => None
  end.

Definition read_dot (s : string) : option string :=
  match s with String "."%char s' => Some s' | _ => None end.

Definition ip_parse (s : string) : option Z :=
  if (15 <? String.length s)%nat then None
  else
    '(a, s1) ← read_octet s; s1 ← read_dot s1;
    '(b, s2) ← read_octet s1; s2 ← read_dot s2;
    '(c, s3) ← read_octet s2; s3 ← read_dot s3;
    '(d, s4) ← read_octet s3;
    match s4 with
    | EmptyString => Some (a * 2 ^ 24 + b * 2 ^ 16 + c * 2 ^ 8 + d)
    | _ => None
    end.

(** ** ParsedRange *)

Record ParsedRange := { range_start : Z; range_end : Z }.

(** ** Facts *)

Lemma octet_range n i : 0 <= octet n i <= 255.
Proof. unfold octet. pose proof (Z.mod_pos_bound (n / 2 ^ (8 * i)) 256). lia. Qed.

Lemma octets_recompose n :
  is_u32 n -> octet n 3 * 2 ^ 24 + octet n 2 * 2 ^ 16 + octet n 1 * 2 ^ 8 + octet n 0 = n.
Proof. unfold is_u32, octet. simpl. intros. Z.to_euclidean_division_equations. lia. Qed.

(** Every octet is one of the 256 rendered below. *)
Lemma octet_cases (P : Z -> Prop) :
  Forall P (seqZ 0 256) -> forall a, 0 <= a <= 255 -> P a.
Proof.
  intros H a Ha. rewrite Forall_forall in H. apply H, elem_of_seqZ. lia.
Qed.

Lemma read_octet_dot a r :
  0 <= a <= 255 -> read_octet (pretty a +:+ String "."%char r) = Some (a, String "."%char r).
Proof.
  revert a. apply octet_cases. vm_compute seqZ. repeat constructor.
Qed.

Lemma read_octet_end a : 0 <= a <= 255 -> read_octet (pretty a) = Some (a, EmptyString).
Proof. revert a. apply octet_cases. vm_compute seqZ. repeat constructor. Qed.

Lemma pretty_octet_length a : 0 <= a <= 255 -> (String.length (pretty a) <= 3)%nat.
Proof.
  revert a. apply octet_cases. vm_compute seqZ.
  repeat (apply Forall_cons; split; [vm_compute; lia|]). constructor.
Qed.

Lemma length_string_app s1 s2 :
  String.length (s1 +:+ s2) = (String.length s1 + String.length s2)%nat.
Proof. induction s1 as [|c s1 IH]; [done|]. simpl. f_equal. apply IH. Qed.

Lemma dotted_length a b c d :
  0 <= a <= 255 -> 0 <= b <= 255 -> 0 <= c <= 255 -> 0 <= d <= 255 ->
  (String.length (dotted a b c d) <= 15)%nat.
Proof.
  intros Ha Hb Hc Hd. unfold dotted.
  repeat (rewrite length_string_app; simpl).
  apply pretty_octet_length in Ha, Hb, Hc, Hd. lia.
Qed.

Lemma dotted_parse a b c d :
  0 <= a <= 255 -> 0 <= b <= 255 -> 0 <= c <= 255 -> 0 <= d <= 255 ->
  ip_parse (dotted a b c d) = Some (a * 2 ^ 24 + b * 2 ^ 16 + c * 2 ^ 8 + d).
Proof.
  intros Ha Hb Hc Hd. unfold ip_parse.
  pose proof (dotted_length a b c d Ha Hb Hc Hd) as Hl.
  destruct (Nat.ltb_spec 15 (String.length (dotted a b c d))); [lia|].
  unfold dotted. rewrite read_octet_dot by done. simpl.
  rewrite read_octet_dot by done. simpl. rewrite read_octet_dot by done. simpl.
  rewrite read_octet_end by done. done.
Qed.

Lemma ip_parse_to_string n : is_u32 n -> ip_parse (ip_to_string n) = Some n.
Proof.
  intros Hn. unfold ip_to_string.
  rewrite dotted_parse by apply octet_range. by rewrite octets_recompose.
Qed.

Lemma ip_to_string_inj n m :
  is_u32 n -> is_u32 m -> ip_to_string n = ip_to_string m -> n = m.
Proof.
  intros Hn Hm He. apply ip_parse_to_string in Hn, Hm. rewrite He in Hn. congruence.
Qed.

Lemma sql_printf_ip_eq n : sql_printf_ip n = ip_to_string n.
Proof.
  unfold sql_printf_ip, ip_to_string, octet.
  assert (forall x, Z.land x 255 = x mod 256) as E by (intros x; apply (Z.land_ones x 8); lia).
  rewrite !E, !Z.shiftr_div_pow2 by lia. simpl. by rewrite Z.div_1_r.
Qed.

(** What the parser accepts is a [u32]. *)
Lemma read_digits_range s acc count v c r :
  0 <= acc <= 255 -> read_digits s acc count = Some (v, c, r) -> 0 <= v <= 255.
Proof.
  revert acc count. induction s as [|ch s IH]; intros acc count Ha H; simpl in H; [by simplify_eq|].
  unfold digit in H. destruct (_ && _) eqn:E in H; [|by simplify_eq].
  bsimp. destruct (255 <? _) eqn:E2; [done|]. bsimp.
  destruct (_ <? _)%nat; [done|]. eapply IH; [|done]. lia.
Qed.

Lemma read_octet_range s v r : read_octet s = Some (v, r) -> 0 <= v <= 255.
Proof.
  unfold read_octet. intros H. destruct (read_digits s 0 0) as [[[v' c'] r']|] eqn:E; [|done].
  apply read_digits_range in E; [|lia].
  destruct (c' =? 0)%nat; [done|].
  destruct (_ && (1 <? c')%nat); [done|]. by simplify_eq.
Qed.

Lemma ip_parse_range s n : ip_parse s = Some n -> is_u32 n.
Proof.
  unfold ip_parse. intros H. destruct (_ <? _)%nat; [done|].
  repeat match type of H with
  | (_ ≫= _) = Some _ => apply bind_Some in H as (? & ? & H); simplify_option_eq
  | (let '(_, _) := ?p in _) = Some _ => destruct p
  end.
  destruct s3; simplify_eq.
  repeat match goal with H : read_octet _ = Some _ |- _ => apply read_octet_range in H end.
  unfold is_u32. lia.
Qed.

Example parse_rejects_leading_zero : ip_parse "10.0.01.4" = None.
Proof. reflexivity. Qed.
Example parse_rejects_overflow : ip_parse "10.0.256.4" = None.
Proof. reflexivity. Qed.
Example print_192 : ip_to_string 3232261121 = "192.168.100.1".
Proof. vm_compute. reflexivity. Qed.

(** The rendering the allocation statements compute in SQL is the one
    [Ipv4Addr] prints, and parsing it gives the number back. *)
Theorem ip_text_roundtrip n :
  is_u32 n ->
  sql_printf_ip n = ip_to_string n /\ ip_parse (sql_printf_ip n) = Some n.
Proof. intros Hn. rewrite sql_printf_ip_eq. split; [done|by apply ip_parse_to_string]. Qed.

Lemma ip_text_roundtrip_witness :
  sql_printf_ip 3232261121 = ip_to_string 3232261121 /\ ip_parse (sql_printf_ip 3232261121) = Some 3232261121.
Proof. apply ip_text_roundtrip. unfold is_u32. lia. Defined.
