(* ===== verification/Ipnet.v ===== *)
(** * The interface to the [ipnet] crate

    CIDR networks ([ipnet::Ipv4Net]) come from a third-party crate, so the
    model takes them as an interface: the operations config.rs and db.rs
    call, and, in a second class, the documented behaviour the code relies
    on. CidrNet.v holds a concrete implementation of both, which the witnesses
    run on. *)

From Stdlib Require Import Ascii.
From S2P Require Import Prelude Ipv4.

Class Ipnet := {
  Ipv4Net : Type;
  (** [FromStr] and [Display]. *)
  net_parse : string -> option Ipv4Net;
  net_to_string : Ipv4Net -> string;
  net_prefix_len : Ipv4Net -> Z;
  (** [u32::from(n.network())] and [u32::from(n.broadcast())]. *)
  net_network : Ipv4Net -> Z;
  net_broadcast : Ipv4Net -> Z;
  net_contains : Ipv4Net -> Z -> bool;
  (** [n.subnets(new_prefix_len)], [None] for a [PrefixLenError]. *)
  net_subnets : Ipv4Net -> Z -> option (list Ipv4Net);
}.

Class IpnetLaws `(I : Ipnet) := {
  net_parse_to_string (n : Ipv4Net) : net_parse (net_to_string n) = Some n;
  net_prefix_range (n : Ipv4Net) : 0 <= net_prefix_len n <= 32;
  net_network_u32 (n : Ipv4Net) : is_u32 (net_network n);
  net_network_aligned (n : Ipv4Net) : net_network n mod 2 ^ (32 - net_prefix_len n) = 0;
  net_broadcast_eq (n : Ipv4Net) :
    net_broadcast n = net_network n + 2 ^ (32 - net_prefix_len n) - 1;
  net_contains_iff (n : Ipv4Net) (a : Z) :
    is_u32 a -> net_contains n a = true <-> net_network n <= a <= net_broadcast n;
  net_subnets_some (n : Ipv4Net) (p : Z) :
    is_Some (net_subnets n p) <-> net_prefix_len n <= p <= 32;
  net_subnets_length (n : Ipv4Net) (p : Z) l :
    net_subnets n p = Some l -> Z.of_nat (length l) = 2 ^ (p - net_prefix_len n);
  net_subnets_lookup (n : Ipv4Net) (p : Z) l (i : nat) s :
    net_subnets n p = Some l -> l !! i = Some s ->
    net_prefix_len s = p /\ net_network s = net_network n + Z.of_nat i * 2 ^ (32 - p);
}.

(** [cidrs_overlap] of db.rs and config.rs. *)
Definition cidrs_overlap `{Ipnet} (a b : Ipv4Net) : bool :=
  net_contains a (net_network b) || net_contains b (net_network a).

(** The addresses of a network. *)
Definition in_net `{Ipnet} (n : Ipv4Net) (a : Z) : Prop :=
  net_network n <= a <= net_broadcast n.

Section laws.
Context `{L : IpnetLaws}.
Implicit Types (a b n : Ipv4Net).

Lemma net_size_pos n : 0 < 2 ^ (32 - net_prefix_len n).
Proof. pose proof (net_prefix_range n). apply Z.pow_pos_nonneg; lia. Qed.

Lemma net_network_in n : in_net n (net_network n).
Proof. unfold in_net. rewrite net_broadcast_eq. pose proof (net_size_pos n). lia. Qed.

(** [2 ^ k] divides [2 ^ m] for [k <= m]: an aligned network of the larger
    size is aligned to the smaller one. *)
Lemma net_aligned_at n p :
  net_prefix_len n <= p <= 32 -> net_network n mod 2 ^ (32 - p) = 0.
Proof.
  intros Hp. pose proof (net_prefix_range n). pose proof (net_network_aligned n) as Ha.
  apply Z.mod_divide in Ha; [|lia]. apply Z.mod_divide; [lia|].
  etrans; [|exact Ha]. exists (2 ^ (p - net_prefix_len n)).
  rewrite <- Z.pow_add_r by lia. f_equal. lia.
Qed.

Lemma net_end_u32 n : net_network n + 2 ^ (32 - net_prefix_len n) <= 2 ^ 32.
Proof.
  pose proof (net_prefix_range n) as Hp. pose proof (net_network_u32 n) as Hu.
  pose proof (net_network_aligned n) as Ha. unfold is_u32 in Hu.
  set (S := 2 ^ (32 - net_prefix_len n)) in *.
  assert (2 ^ 32 = 2 ^ net_prefix_len n * S) as HS.
  { unfold S. rewrite <- Z.pow_add_r by lia. f_equal. lia. }
  assert (0 < S) by (apply Z.pow_pos_nonneg; lia).
  apply Z.mod_divide in Ha as [k Hk]; [|lia].
  assert (k < 2 ^ net_prefix_len n) by nia. nia.
Qed.

Lemma net_broadcast_u32 n : is_u32 (net_broadcast n).
Proof.
  rewrite net_broadcast_eq. pose proof (net_end_u32 n). pose proof (net_size_pos n).
  pose proof (net_network_u32 n) as Hu. unfold is_u32 in *. lia.
Qed.

(** The overlap test decides whether two networks share an address. *)
Lemma cidrs_overlap_spec a b :
  cidrs_overlap a b = true <-> exists x, in_net a x /\ in_net b x.
Proof.
  unfold cidrs_overlap.
  rewrite orb_true_iff, !net_contains_iff by apply net_network_u32.
  split.
  - intros [H|H]; [exists (net_network b)|exists (net_network a)];
      split; auto; apply net_network_in.
  - intros (x & Ha & Hb). unfold in_net in *.
    destruct (Z.le_gt_cases (net_network a) (net_network b)); [left|right]; lia.
Qed.

Lemma cidrs_overlap_false a b :
  cidrs_overlap a b = false <-> forall x, in_net a x -> in_net b x -> False.
Proof.
  rewrite <- not_true_iff_false, cidrs_overlap_spec. naive_solver.
Qed.

(** The subnets of a network lie in it and are pairwise disjoint. *)
Lemma subnet_in n p l i s x :
  net_subnets n p = Some l -> l !! i = Some s -> in_net s x -> in_net n x.
Proof.
  intros Hs Hi Hx. pose proof (net_subnets_lookup n p l i s Hs Hi) as [Hp Hn].
  pose proof (net_subnets_length n p l Hs) as Hl. apply lookup_lt_Some in Hi.
  assert (net_prefix_len n <= p <= 32) as Hpr by (apply net_subnets_some; eauto).
  pose proof (net_prefix_range n).
  unfold in_net in *. rewrite !net_broadcast_eq, Hp, Hn in *.
  assert (2 ^ (32 - net_prefix_len n) = 2 ^ (p - net_prefix_len n) * 2 ^ (32 - p)) as E.
  { rewrite <- Z.pow_add_r by lia. f_equal. lia. }
  assert (0 < 2 ^ (32 - p)) by (apply Z.pow_pos_nonneg; lia).
  rewrite E, <- Hl. nia.
Qed.

Lemma subnets_disjoint n p l i j s t :
  net_subnets n p = Some l -> l !! i = Some s -> l !! j = Some t -> i <> j ->
  cidrs_overlap s t = false.
Proof.
  intros Hs Hi Hj Hne. apply cidrs_overlap_false. intros x Hx Hy.
  pose proof (net_subnets_lookup n p l i s Hs Hi) as [Hp Hn].
  pose proof (net_subnets_lookup n p l j t Hs Hj) as [Hp' Hn'].
  assert (net_prefix_len n <= p <= 32) as Hpr by (apply net_subnets_some; eauto).
  assert (0 < 2 ^ (32 - p)) by (apply Z.pow_pos_nonneg; lia).
  unfold in_net in *. rewrite !net_broadcast_eq, ?Hp, ?Hp', ?Hn, ?Hn' in *.
  assert (i < j \/ j < i)%nat as [?|?] by lia; nia.
Qed.
End laws.
