(* ===== verification/CidrNet.v ===== *)
(** * A concrete CIDR type

    An implementation of the [Ipnet] interface on which its laws are proved
    and the witnesses of the development evaluate: an address with a prefix
    length, printed and parsed as [a.b.c.d/len]. It shows that the documented
    behaviour assumed of the [ipnet] crate can be met. *)

From Stdlib Require Import Ascii.
From S2P Require Import Prelude Ipv4 Ipnet.

Definition cidr_valid (a l : Z) : bool :=
  (0 <=? a) && (a <? 4294967296) && (0 <=? l) && (l <=? 32).

Record Cidr := mkCidr {
  cidr_addr : Z;
  cidr_len : Z;
  cidr_ok : cidr_valid cidr_addr cidr_len = true;
}.

Definition mk_cidr (a l : Z) : option Cidr :=
  match decide (cidr_valid a l = true) with
  | left H => Some (mkCidr a l H)
  | right _ => None
  end.

Lemma mk_cidr_eta (c : Cidr) : mk_cidr (cidr_addr c) (cidr_len c) = Some c.
Proof.
  destruct c as [a l H]. unfold mk_cidr; simpl.
  destruct (decide _) as [H'|]; [|done]. do 2 f_equal. apply proof_irrel.
Qed.

Lemma cidr_bounds (c : Cidr) : is_u32 (cidr_addr c) /\ 0 <= cidr_len c <= 32.
Proof. destruct c as [a l H]; simpl. unfold cidr_valid in H. unfold is_u32. bsimp. lia. Qed.

Lemma mk_cidr_inv a l c :
  mk_cidr a l = Some c -> cidr_addr c = a /\ cidr_len c = l.
Proof. unfold mk_cidr. intros H. destruct (decide _); by simplify_eq/=. Qed.

Lemma mk_cidr_some a l : is_u32 a -> 0 <= l <= 32 -> exists c, mk_cidr a l = Some c.
Proof.
  intros. unfold mk_cidr. destruct (decide _) as [|n]; [eauto|].
  exfalso. apply n. unfold cidr_valid, is_u32 in *. bsimp. lia.
Qed.

(** ** Text *)

Fixpoint split_slash (s : string) : option (string * string) :=
  match s with
  | EmptyString => None
  | String c s' =>
      if Ascii.eqb c "/"%char then Some (EmptyString, s')
      else '(a, b) ← split_slash s'; Some (String c a, b)
  end.

Definition parse_len (s : string) : option Z :=
  match read_octet s with Some (v, EmptyString) => Some v | _ => None end.

Definition cidr_parse (s : string) : option Cidr :=
  '(a, l) ← split_slash s; a ← ip_parse a; l ← parse_len l; mk_cidr a l.

Definition cidr_to_string (c : Cidr) : string :=
  ip_to_string (cidr_addr c) +:+ String "/"%char (pretty (cidr_len c)).

Fixpoint no_slash (s : string) : bool :=
  match s with
  | EmptyString => true
  | String c s' => negb (Ascii.eqb c "/"%char) && no_slash s'
  end.

Lemma no_slash_app s1 s2 : no_slash (s1 +:+ s2) = no_slash s1 && no_slash s2.
Proof.
  induction s1 as [|c s1 IH]; [done|].
  change (no_slash (String c (s1 +:+ s2)) = no_slash (String c s1) && no_slash s2).
  simpl. by rewrite IH, andb_assoc.
Qed.

Lemma no_slash_octet a : 0 <= a <= 255 -> no_slash (pretty a) = true.
Proof. revert a. apply octet_cases. vm_compute seqZ. repeat constructor. Qed.

Lemma no_slash_ip n : no_slash (ip_to_string n) = true.
Proof.
  unfold ip_to_string, dotted.
  repeat (rewrite no_slash_app; simpl).
  rewrite !no_slash_octet by apply octet_range. done.
Qed.

Lemma split_slash_app a b :
  no_slash a = true -> split_slash (a +:+ String "/"%char b) = Some (a, b).
Proof.
  induction a as [|c a IH]; [done|].
  change (String c a +:+ String "/"%char b) with (String c (a +:+ String "/"%char b)).
  simpl. intros [Hc Ha]%andb_true_iff. apply negb_true_iff in Hc.
  rewrite Hc, IH by done. done.
Qed.

Lemma cidr_parse_to_string c : cidr_parse (cidr_to_string c) = Some c.
Proof.
  destruct (cidr_bounds c) as [Ha Hl]. unfold cidr_parse, cidr_to_string.
  rewrite split_slash_app by apply no_slash_ip. simpl.
  rewrite ip_parse_to_string by done. simpl. unfold parse_len.
  rewrite read_octet_end by lia. simpl. apply mk_cidr_eta.
Qed.

(** ** Arithmetic *)

Definition cidr_size (c : Cidr) : Z := 2 ^ (32 - cidr_len c).
Definition cidr_network (c : Cidr) : Z := cidr_addr c / cidr_size c * cidr_size c.
Definition cidr_broadcast (c : Cidr) : Z := cidr_network c + cidr_size c - 1.
Definition cidr_contains (c : Cidr) (a : Z) : bool :=
  (cidr_network c <=? a) && (a <=? cidr_broadcast c).
Definition cidr_subnets (c : Cidr) (p : Z) : option (list Cidr) :=
  if (cidr_len c <=? p) && (p <=? 32) then
    Some (omap (fun i => mk_cidr (cidr_network c + i * 2 ^ (32 - p)) p)
               (seqZ 0 (2 ^ (p - cidr_len c))))
  else None.

Lemma cidr_size_pos c : 0 < cidr_size c.
Proof. destruct (cidr_bounds c). apply Z.pow_pos_nonneg; lia. Qed.

Lemma cidr_network_u32 c : is_u32 (cidr_network c).
Proof.
  destruct (cidr_bounds c) as [Ha _]. pose proof (cidr_size_pos c).
  unfold is_u32, cidr_network in *.
  pose proof (Z.mul_div_le (cidr_addr c) (cidr_size c)).
  pose proof (Z.div_pos (cidr_addr c) (cidr_size c)). nia.
Qed.

(** The [i]-th subnet starts inside the address space. *)
Lemma cidr_subnet_u32 c p i :
  cidr_len c <= p <= 32 -> 0 <= i < 2 ^ (p - cidr_len c) ->
  is_u32 (cidr_network c + i * 2 ^ (32 - p)).
Proof.
  intros Hp Hi. destruct (cidr_bounds c) as [_ Hl].
  pose proof (cidr_network_u32 c) as Hn. unfold is_u32 in *.
  assert (cidr_size c = 2 ^ (p - cidr_len c) * 2 ^ (32 - p)) as Hs.
  { unfold cidr_size. rewrite <- Z.pow_add_r by lia. f_equal. lia. }
  assert (2 ^ 32 = 2 ^ cidr_len c * cidr_size c) as Ht.
  { unfold cidr_size. rewrite <- Z.pow_add_r by lia. f_equal. lia. }
  pose proof (cidr_size_pos c). unfold cidr_network in *.
  assert (0 < 2 ^ (32 - p)) by (apply Z.pow_pos_nonneg; lia).
  assert (cidr_addr c / cidr_size c < 2 ^ cidr_len c) by nia.
  nia.
Qed.

(** All the subnets fit, so none is dropped. *)
Lemma cidr_subnets_lookup c p (n : nat) lo l :
  cidr_len c <= p <= 32 -> 0 <= lo -> lo + Z.of_nat n <= 2 ^ (p - cidr_len c) ->
  omap (fun i => mk_cidr (cidr_network c + i * 2 ^ (32 - p)) p) (seqZ lo (Z.of_nat n)) = l ->
  length l = n /\
  forall i s, l !! i = Some s ->
    cidr_addr s = cidr_network c + (lo + Z.of_nat i) * 2 ^ (32 - p) /\ cidr_len s = p.
Proof.
  intros Hp. revert lo l. induction n as [|n IH]; intros lo l Hlo Hn <-.
  { simpl. split; [done|]. intros i s ?. by rewrite lookup_nil in *. }
  rewrite seqZ_cons by lia. simpl.
  destruct (mk_cidr_some (cidr_network c + lo * 2 ^ (32 - p)) p) as [s0 Hs0].
  { apply cidr_subnet_u32; lia. } { destruct (cidr_bounds c); lia. }
  rewrite Hs0. replace (Z.pred (Z.of_nat (S n))) with (Z.of_nat n) by lia.
  destruct (IH (Z.succ lo) _ ltac:(lia) ltac:(lia) eq_refl) as [Hlen Hlk].
  split; [cbn [length]; f_equal; exact Hlen|].
  intros [|i] s Hs; simpl in Hs; simplify_eq.
  - apply mk_cidr_inv in Hs0 as [-> ->]. split; [|done]. f_equal. lia.
  - apply Hlk in Hs as [-> ->]. split; [|done]. f_equal. f_equal. lia.
Qed.

#[export] Instance cidr_ipnet : Ipnet := {|
  Ipv4Net := Cidr;
  net_parse := cidr_parse;
  net_to_string := cidr_to_string;
  net_prefix_len := cidr_len;
  net_network := cidr_network;
  net_broadcast := cidr_broadcast;
  net_contains := cidr_contains;
  net_subnets := cidr_subnets;
|}.

Lemma cidr_subnets_inv c p l :
  cidr_subnets c p = Some l ->
  cidr_len c <= p <= 32 /\
  omap (fun i => mk_cidr (cidr_network c + i * 2 ^ (32 - p)) p)
       (seqZ 0 (Z.of_nat (Z.to_nat (2 ^ (p - cidr_len c))))) = l.
Proof.
  unfold cidr_subnets. intros H. destruct (_ && _) eqn:E; [|done]. bsimp.
  simplify_eq. split; [lia|]. do 2 f_equal.
  assert (0 < 2 ^ (p - cidr_len c)) by (apply Z.pow_pos_nonneg; lia). lia.
Qed.

Lemma cidr_network_aligned c : cidr_network c mod cidr_size c = 0.
Proof. unfold cidr_network. apply Z_mod_mult. Qed.

Lemma cidr_network_id c : cidr_addr c mod cidr_size c = 0 -> cidr_network c = cidr_addr c.
Proof.
  intros H. unfold cidr_network. pose proof (cidr_size_pos c).
  rewrite Z.mul_comm. symmetry. apply Z_div_exact_full_2; [lia|done].
Qed.

Lemma cidr_network_divide c p :
  cidr_len c <= p <= 32 -> (2 ^ (32 - p) | cidr_network c).
Proof.
  intros Hp. destruct (cidr_bounds c). pose proof (cidr_size_pos c).
  trans (cidr_size c); [|apply Z.mod_divide; [lia|apply cidr_network_aligned]].
  exists (2 ^ (p - cidr_len c)). unfold cidr_size.
  rewrite <- Z.pow_add_r by lia. f_equal. lia.
Qed.

#[export] Instance cidr_ipnet_laws : IpnetLaws cidr_ipnet.
Proof.
  split; simpl.
  - apply cidr_parse_to_string.
  - intros n. apply cidr_bounds.
  - apply cidr_network_u32.
  - apply cidr_network_aligned.
  - done.
  - intros n a _. unfold cidr_contains. rewrite andb_true_iff, !Z.leb_le. done.
  - intros n p. unfold cidr_subnets. split.
    + intros [l H]. destruct (_ && _) eqn:E; bsimp; lia.
    + intros [H1 H2]. apply Z.leb_le in H1, H2. rewrite H1, H2. eauto.
  - intros n p l [Hp Hl]%cidr_subnets_inv.
    assert (0 < 2 ^ (p - cidr_len n)) by (apply Z.pow_pos_nonneg; lia).
    apply cidr_subnets_lookup in Hl as [Hlen _]; lia.
  - intros n p l i s [Hp Hl]%cidr_subnets_inv Hi.
    assert (0 < 2 ^ (p - cidr_len n)) by (apply Z.pow_pos_nonneg; lia).
    apply cidr_subnets_lookup in Hl as [Hlen Hlk]; [|lia..].
    apply Hlk in Hi as [Ha <-]. split; [done|].
    rewrite cidr_network_id; [rewrite Ha; lia|].
    rewrite Ha. apply Z.mod_divide; [pose proof (cidr_size_pos s); lia|].
    apply Z.divide_add_r; [apply cidr_network_divide; lia|].
    apply Z.divide_mul_r. unfold cidr_size. reflexivity.
Qed.
