(* ===== verification/Proto.v ===== *)
(** * Enumerations of the wire protocol

    The prost enumerations of crates/basis-proto that the controller branches
    on, with their wire numbers, their checked conversion from [i32]
    ([try_from]) and the text forms the database columns hold. *)

From S2P Require Import Prelude.

Inductive MachineState :=
  | Pending | Creating | Running | Stopping | Stopped | Failed | PendingTeardown.

Definition machine_state_num (s : MachineState) : Z :=
  match s with
  | Pending => 0 | Creating => 1 | Running => 2 | Stopping => 3
  | Stopped => 4 | Failed => 5 | PendingTeardown => 6
  end.

(** The prost accessor of an enum field: an unknown number reads as the default. *)
Definition machine_state_of (n : Z) : MachineState :=
  if n =? 1 then Creating else if n =? 2 then Running else if n =? 3 then Stopping
  else if n =? 4 then Stopped else if n =? 5 then Failed
  else if n =? 6 then PendingTeardown else Pending.

Inductive DiskPurpose := PurposeUnspecified | Replicated | GenericData.

Definition disk_purpose_num (p : DiskPurpose) : Z :=
  match p with PurposeUnspecified => 0 | Replicated => 1 | GenericData => 2 end.

Definition disk_purpose_try_from (n : Z) : option DiskPurpose :=
  if n =? 0 then Some PurposeUnspecified
  else if n =? 1 then Some Replicated
  else if n =? 2 then Some GenericData
  else None.

(** [DiskPurpose::as_db_str]. *)
Definition disk_purpose_as_db_str (p : DiskPurpose) : string :=
  match p with
  | PurposeUnspecified => "unspecified"
  | Replicated => "replicated"
  | GenericData => "generic-data"
  end.

Inductive DevicePhysicalHealth :=
  | DeviceHealthUnspecified | DeviceHealthReady | DeviceHealthDegraded | DeviceHealthMissing.

Definition device_health_num (h : DevicePhysicalHealth) : Z :=
  match h with
  | DeviceHealthUnspecified => 0 | DeviceHealthReady => 1 | DeviceHealthDegraded => 2 | DeviceHealthMissing => 3
  end.

Definition device_health_try_from (n : Z) : option DevicePhysicalHealth :=
  if n =? 0 then Some DeviceHealthUnspecified
  else if n =? 1 then Some DeviceHealthReady
  else if n =? 2 then Some DeviceHealthDegraded
  else if n =? 3 then Some DeviceHealthMissing
  else None.

(** [DevicePhysicalHealth::as_db_str]. *)
Definition device_health_as_db_str (h : DevicePhysicalHealth) : string :=
  match h with
  | DeviceHealthUnspecified => "Unspecified"
  | DeviceHealthReady => "Ready"
  | DeviceHealthDegraded => "Degraded"
  | DeviceHealthMissing => "Missing"
  end.

(** [DevicePhysicalHealth::from_db_str]. *)
Definition device_health_from_db_str (s : string) : DevicePhysicalHealth :=
  if s =$ "Ready" then DeviceHealthReady
  else if s =$ "Degraded" then DeviceHealthDegraded
  else if s =$ "Missing" then DeviceHealthMissing
  else DeviceHealthUnspecified.

Inductive PoolHealthState :=
  | PoolHealthUnspecified | PoolHealthReady | PoolHealthDegraded | PoolHealthUnhealthy.

Definition pool_health_num (h : PoolHealthState) : Z :=
  match h with
  | PoolHealthUnspecified => 0 | PoolHealthReady => 1 | PoolHealthDegraded => 2 | PoolHealthUnhealthy => 3
  end.

Definition pool_health_try_from (n : Z) : option PoolHealthState :=
  if n =? 0 then Some PoolHealthUnspecified
  else if n =? 1 then Some PoolHealthReady
  else if n =? 2 then Some PoolHealthDegraded
  else if n =? 3 then Some PoolHealthUnhealthy
  else None.

Inductive ApiserverVisibility := ApiserverPublic | ApiserverPrivate.

Definition visibility_num (v : ApiserverVisibility) : Z :=
  match v with ApiserverPublic => 0 | ApiserverPrivate => 1 end.

Definition visibility_try_from (n : Z) : option ApiserverVisibility :=
  if n =? 0 then Some ApiserverPublic
  else if n =? 1 then Some ApiserverPrivate
  else None.

#[global] Instance machine_state_eq_dec : EqDecision MachineState.
Proof. solve_decision. Defined.
#[global] Instance disk_purpose_eq_dec : EqDecision DiskPurpose.
Proof. solve_decision. Defined.
#[global] Instance device_health_eq_dec : EqDecision DevicePhysicalHealth.
Proof. solve_decision. Defined.
#[global] Instance pool_health_eq_dec : EqDecision PoolHealthState.
Proof. solve_decision. Defined.
#[global] Instance visibility_eq_dec : EqDecision ApiserverVisibility.
Proof. solve_decision. Defined.

(** Only a healthy device is written as the text the scheduler looks for. *)
Lemma device_health_ready_str h : device_health_as_db_str h = "Ready" <-> h = DeviceHealthReady.
Proof. destruct h; split; done. Qed.

(** The text form reads back. *)
Lemma device_health_db_roundtrip h : device_health_from_db_str (device_health_as_db_str h) = h.
Proof. by destruct h. Qed.

Lemma disk_purpose_replicated_str p : disk_purpose_as_db_str p = "replicated" <-> p = Replicated.
Proof. destruct p; split; done. Qed.
