(* ===== verification/Config.v ===== *)
(** * Controller network configuration (crates/basis-controller/src/config.rs)

    [NetworkConfig], [Pool], their lookups and [validate]. The theorems show
    what a configuration that passed [validate] guarantees to the allocators:
    disjoint pools, room for the bridge and VM ranges of every cluster, and at
    least one aligned service block in every pool. *)

From S2P Require Import Prelude Ipv4 Ipnet CidrNet.

Record VniRange := { vni_start : Z; vni_end : Z }.

Inductive PoolScope := Lan | Tree.

Record Pool := { pool_name : string; pool_cidr : string; pool_scope : PoolScope }.

Record NetworkConfig := {
  cluster_supernet : string;
  cluster_prefix : Z;
  bridge_reserve : Z;
  default_external_service_ips : Z;
  vni_range : VniRange;
  pools : list Pool;
}.

(** One constructor per [bail!] of the validators. *)
Inductive ConfigError :=
  | BadCidr (label : string)
  | PrefixOutOfRange
  | NoVmCapacity
  | VniRangeInvalid
  | VniRangeTooLarge
  | ServiceIpsNotPowerOfTwo
  | NoPools
  | NoLanPool
  | PoolDuplicated (name : string)
  | PoolNameEmpty
  | PoolTooNarrow (name : string)
  | SupernetOverlap (name : string)
  | PoolOverlap (name other : string)
  | PoolCannotFitBlock (name : string).

Definition is_tree (p : Pool) : bool :=
  match pool_scope p with Tree => true | Lan => false end.

Definition pool_by_name (net : NetworkConfig) (name : string) : option Pool :=
  List.find (fun p => pool_name p =$ name) (pools net).

Section validate.
Context `{I : Ipnet}.

(** [parse_cidr]. *)
Definition parse_cidr (label s : string) : result ConfigError Ipv4Net :=
  ok_or (BadCidr label) (net_parse s).

(** [Pool::validate], returning the parsed CIDR its caller re-parses. *)
Definition pool_validate (p : Pool) : result ConfigError Ipv4Net :=
  if pool_name p =$ "" then Err PoolNameEmpty
  else match parse_cidr (pool_name p) (pool_cidr p) with
       | Err e => Err e
       | Ok net =>
           if 31 <=? net_prefix_len net then Err (PoolTooNarrow (pool_name p))
           else Ok net
       end.

(** The prefix length of the default service block. *)
Definition service_prefix (net : NetworkConfig) : Z :=
  32 - trailing_zeros (default_external_service_ips net).

(** The first earlier pool that overlaps [n]. *)
Definition overlapping (n : Ipv4Net) (seen : list (Pool * Ipv4Net)) : option Pool :=
  fst <$> List.find (fun '(_, m) => cidrs_overlap n m) seen.

(** The loop of [validate] over the pools, in order; [seen] are the pools
    before the current one with their networks. *)
Fixpoint validate_pools (cfg : NetworkConfig) (supernet : Ipv4Net)
    (seen : list (Pool * Ipv4Net)) (ps : list Pool) : result ConfigError unit :=
  match ps with
  | [] => Ok tt
  | p :: ps' =>
      if existsb (fun '(q, _) => pool_name q =$ pool_name p) seen
      then Err (PoolDuplicated (pool_name p))
      else match pool_validate p with
      | Err e => Err e
      | Ok net =>
          if cidrs_overlap supernet net then Err (SupernetOverlap (pool_name p))
          else match overlapping net seen with
          | Some other => Err (PoolOverlap (pool_name p) (pool_name other))
          | None =>
              if (service_prefix cfg <? 32) && (service_prefix cfg <? net_prefix_len net + 2)
              then Err (PoolCannotFitBlock (pool_name p))
              else validate_pools cfg supernet (seen ++ [(p, net)]) ps'
          end
      end
  end.

(** [1u32 << (32 - cluster_prefix)], with the shift masked to the width. *)
Definition addrs_per_cluster (net : NetworkConfig) : Z :=
  as_u32 (2 ^ ((32 - cluster_prefix net) mod 32)).

(** [NetworkConfig::validate]. *)
Definition validate (net : NetworkConfig) : result ConfigError unit :=
  match parse_cidr "network.clusterSupernet" (cluster_supernet net) with
  | Err e => Err e
  | Ok supernet =>
      if (cluster_prefix net <? net_prefix_len supernet) || (30 <? cluster_prefix net)
      then Err PrefixOutOfRange
      else if addrs_per_cluster net <=? sat_u32 (bridge_reserve net + 2)
      then Err NoVmCapacity
      else if (vni_start (vni_range net) =? 0)
           || (vni_end (vni_range net) <? vni_start (vni_range net))
      then Err VniRangeInvalid
      else if 2 ^ 24 <=? vni_end (vni_range net)
      then Err VniRangeTooLarge
      else if negb (is_power_of_two (default_external_service_ips net))
      then Err ServiceIpsNotPowerOfTwo
      else match pools net with
      | [] => Err NoPools
      | _ =>
          if negb (existsb (fun p => negb (is_tree p)) (pools net))
          then Err NoLanPool
          else validate_pools net supernet [] (pools net)
      end
  end.
End validate.

(** Field values are of the Rust types: [u8] and [u32]. *)
Record config_typed (net : NetworkConfig) : Prop := {
  ct_prefix : 0 <= cluster_prefix net < 256;
  ct_bridge : is_u32 (bridge_reserve net);
  ct_service : is_u32 (default_external_service_ips net);
  ct_vni_start : is_u32 (vni_start (vni_range net));
  ct_vni_end : is_u32 (vni_end (vni_range net));
}.

(** What the allocators rely on. *)
Record config_wf `{Ipnet} (net : NetworkConfig) (supernet : Ipv4Net) : Prop := {
  wf_supernet : net_parse (cluster_supernet net) = Some supernet;
  wf_prefix : net_prefix_len supernet <= cluster_prefix net <= 30;
  wf_prefix_pos : 0 < cluster_prefix net;
  wf_room : bridge_reserve net + 2 < 2 ^ (32 - cluster_prefix net);
  wf_vni : 0 < vni_start (vni_range net) <= vni_end (vni_range net) /\
           vni_end (vni_range net) < 2 ^ 24;
  wf_service : exists k, 0 <= k <= 31 /\ default_external_service_ips net = 2 ^ k;
  wf_names : NoDup (pool_name <$> pools net);
  wf_pool (p : Pool) : p ∈ pools net ->
    pool_name p <> "" /\
    exists n, net_parse (pool_cidr p) = Some n /\ net_prefix_len n <= 30 /\
      cidrs_overlap supernet n = false /\
      (default_external_service_ips net <> 1 ->
       net_prefix_len n + 2 <= service_prefix net);
  wf_disjoint (i j : nat) p q n m : (i < j)%nat ->
    pools net !! i = Some p -> pools net !! j = Some q ->
    net_parse (pool_cidr p) = Some n -> net_parse (pool_cidr q) = Some m ->
    cidrs_overlap m n = false;
  wf_lan : exists p, p ∈ pools net /\ is_tree p = false;
}.

Section validate_facts.
Context `{L : IpnetLaws}.

(** What one iteration of the pool loop established for [p]. *)
Record pool_checked (cfg : NetworkConfig) (supernet : Ipv4Net)
    (seen : list (Pool * Ipv4Net)) (p : Pool) (net : Ipv4Net) : Prop := {
  pc_name : forall q m, (q, m) ∈ seen -> pool_name q <> pool_name p;
  pc_named : pool_name p <> "";
  pc_parse : net_parse (pool_cidr p) = Some net;
  pc_len : net_prefix_len net <= 30;
  pc_supernet : cidrs_overlap supernet net = false;
  pc_disjoint : forall q m, (q, m) ∈ seen -> cidrs_overlap net m = false;
  pc_block : service_prefix cfg < 32 -> net_prefix_len net + 2 <= service_prefix cfg;
}.

Lemma validate_pools_step cfg supernet seen p ps :
  validate_pools cfg supernet seen (p :: ps) = Ok tt ->
  exists net, pool_checked cfg supernet seen p net /\
    validate_pools cfg supernet (seen ++ [(p, net)]) ps = Ok tt.
Proof.
  simpl. intros H.
  destruct (existsb _ seen) eqn:Edup; [done|].
  unfold pool_validate, parse_cidr in H.
  destruct (pool_name p =$ "") eqn:En; [done|].
  destruct (net_parse (pool_cidr p)) as [net|] eqn:Ep; simpl in H; [|done].
  destruct (31 <=? net_prefix_len net) eqn:El; [done|].
  destruct (cidrs_overlap supernet net) eqn:Es; [done|].
  unfold overlapping in H.
  destruct (List.find _ seen) as [[q m]|] eqn:Eo; [done|]. simpl in H.
  destruct (_ && _) eqn:Eb; [done|].
  exists net. split; [|done]. split; [|by apply String.eqb_neq|done| |done| |].
  - intros q m Hq. rewrite existsb_false in Edup. specialize (Edup _ Hq).
    simpl in Edup. by apply String.eqb_neq.
  - bsimp. lia.
  - intros q m Hq. apply list_elem_of_In in Hq.
    by apply (List.find_none _ _ Eo) in Hq.
  - intros Hlt. apply andb_false_iff in Eb as [Eb|Eb]; bsimp; lia.
Qed.

(** By the end of the loop the pools are pairwise distinct and disjoint. *)
Lemma validate_pools_ok cfg supernet ps :
  forall seen, validate_pools cfg supernet seen ps = Ok tt ->
  exists nets, length nets = length ps /\
    forall i p, ps !! i = Some p -> exists net, nets !! i = Some net /\
      pool_checked cfg supernet (seen ++ zip (take i ps) (take i nets)) p net.
Proof.
  induction ps as [|p ps IH]; intros seen H.
  { exists []. split; [done|]. intros i p Hi. by rewrite lookup_nil in Hi. }
  apply validate_pools_step in H as (net & Hc & H).
  destruct (IH _ H) as (nets & Hlen & Hn). exists (net :: nets).
  split; [simpl; lia|]. intros [|i] q Hi; simpl in Hi.
  - simplify_eq. exists net. split; [done|]. simpl. by rewrite app_nil_r.
  - apply Hn in Hi as (net' & ? & Hc'). exists net'. split; [done|].
    simpl. by rewrite <- app_assoc in Hc'.
Qed.

Lemma zip_take_elem (ps : list Pool) (nets : list Ipv4Net) i j q m :
  (i < j)%nat -> ps !! i = Some q -> nets !! i = Some m ->
  (q, m) ∈ zip (take j ps) (take j nets).
Proof.
  intros Hij Hq Hm. apply (list_elem_of_lookup_2 _ i).
  apply lookup_zip_Some. by rewrite !lookup_take_lt.
Qed.

(** The checks before the pools. *)
Record scalars_ok (net : NetworkConfig) (sn : Ipv4Net) : Prop := {
  so_supernet : net_parse (cluster_supernet net) = Some sn;
  so_prefix : net_prefix_len sn <= cluster_prefix net <= 30;
  so_room : sat_u32 (bridge_reserve net + 2) < addrs_per_cluster net;
  so_vni : vni_start (vni_range net) <> 0 /\ vni_start (vni_range net) <= vni_end (vni_range net);
  so_vni_end : vni_end (vni_range net) < 2 ^ 24;
  so_service : is_power_of_two (default_external_service_ips net) = true;
  so_lan : exists p, p ∈ pools net /\ is_tree p = false;
}.

Lemma validate_scalars net :
  validate net = Ok tt <-> exists sn, scalars_ok net sn /\ validate_pools net sn [] (pools net) = Ok tt.
Proof.
  unfold validate, parse_cidr. split.
  - destruct (net_parse (cluster_supernet net)) as [sn|] eqn:Esn; simpl; [|done]. intros H.
    destruct (_ || _) eqn:E1 in H; [done|]. destruct (_ <=? _) eqn:E2 in H; [done|].
    destruct (_ || _) eqn:E3 in H; [done|]. destruct (_ <=? _) eqn:E4 in H; [done|].
    destruct (negb _) eqn:E5 in H; [done|]. exists sn.
    assert (existsb (fun p => negb (is_tree p)) (pools net) = true /\
            validate_pools net sn [] (pools net) = Ok tt) as [Hlan Hv].
    { destruct (pools net); [done|]. destruct (existsb _ _); done. }
    split; [|done]. apply orb_false_iff in E1 as [E1a E1b], E3 as [E3a E3b].
    apply negb_false_iff in E5. split; try done; try (bsimp; lia).
    apply existsb_true in Hlan as (p & Hp & Ht%negb_true_iff). by exists p.
  - intros (sn & [-> [P1 P2] R [V1 V2] V3 Sv (p & Hp & Ht)] & Hv). simpl.
    rewrite (proj2 (Z.ltb_ge _ _)) by lia. rewrite (proj2 (Z.ltb_ge 30 _)) by lia. simpl.
    rewrite (proj2 (Z.leb_gt _ _)) by lia. rewrite (proj2 (Z.eqb_neq _ _)) by lia.
    rewrite (proj2 (Z.ltb_ge _ (vni_start _))) by lia. simpl. rewrite (proj2 (Z.leb_gt _ _)) by lia.
    rewrite Sv. simpl. destruct (pools net) as [|q ps] eqn:E; [by apply not_elem_of_nil in Hp|].
    rewrite <- E in *. assert (existsb (fun p => negb (is_tree p)) (pools net) = true) as ->; [|done].
    apply existsb_true. exists p. by rewrite Ht.
Qed.

Lemma addrs_pow net : 1 <= cluster_prefix net <= 30 -> addrs_per_cluster net = 2 ^ (32 - cluster_prefix net).
Proof.
  intros. unfold addrs_per_cluster. rewrite Z.mod_small by lia. apply as_u32_small.
  split; [apply Z.pow_nonneg; lia|]. apply Z.pow_lt_mono_r; lia.
Qed.

(** The capacity check, with its saturating addition and its masked shift, is
    the exact inequality. *)
Lemma cluster_room_exact net : config_typed net -> 0 <= cluster_prefix net <= 30 ->
  sat_u32 (bridge_reserve net + 2) < addrs_per_cluster net <->
  cluster_prefix net <> 0 /\ bridge_reserve net + 2 < 2 ^ (32 - cluster_prefix net).
Proof.
  intros T Hp. destruct (ct_bridge _ T) as [B1 B2]. unfold sat_u32, u32_max.
  destruct (decide (cluster_prefix net = 0)) as [E|E].
  - unfold addrs_per_cluster. rewrite E. change (as_u32 (2 ^ ((32 - 0) mod 32))) with 1. lia.
  - rewrite addrs_pow by lia.
    assert (2 ^ (32 - cluster_prefix net) < 2 ^ 32) by (apply Z.pow_lt_mono_r; lia). lia.
Qed.

(** The accepted pools, pairwise. *)
Lemma pools_wf net sn nets :
  length nets = length (pools net) ->
  (forall i p, pools net !! i = Some p -> exists n, nets !! i = Some n /\
     pool_checked net sn (zip (take i (pools net)) (take i nets)) p n) ->
  NoDup (pool_name <$> pools net) /\
  (forall i j p q n m, (i < j)%nat -> pools net !! i = Some p -> pools net !! j = Some q ->
     net_parse (pool_cidr p) = Some n -> net_parse (pool_cidr q) = Some m -> cidrs_overlap m n = false).
Proof.
  intros Hlen Hn. split.
  - apply NoDup_alt. intros i j x Hi Hj. rewrite list_lookup_fmap, fmap_Some in Hi, Hj.
    destruct Hi as (p & Hi & ->), Hj as (q & Hj & Hpq).
    destruct (decide (i = j)) as [|Hne]; [done|exfalso].
    destruct (Hn i p Hi) as (m & Hm & Cm), (Hn j q Hj) as (k & Hk & Ck).
    assert (i < j \/ j < i)%nat as [?|?] by lia.
    + by eapply (pc_name _ _ _ _ _ Ck p m); [apply (zip_take_elem _ _ i)|].
    + by eapply (pc_name _ _ _ _ _ Cm q k); [apply (zip_take_elem _ _ j)|].
  - intros i j p q n m Hij Hi Hj Hp Hq.
    destruct (Hn i p Hi) as (m' & Hm & Cm), (Hn j q Hj) as (k & Hk & Ck).
    rewrite (pc_parse _ _ _ _ _ Cm) in Hp. rewrite (pc_parse _ _ _ _ _ Ck) in Hq.
    simplify_eq. eapply (pc_disjoint _ _ _ _ _ Ck p n). by apply (zip_take_elem _ _ i).
Qed.

(** One address more than none: the default block is wider than an address
    exactly when its prefix is shorter than 32. *)
Lemma service_prefix_lt net :
  is_u32 (default_external_service_ips net) -> is_power_of_two (default_external_service_ips net) = true ->
  default_external_service_ips net <> 1 <-> service_prefix net < 32.
Proof.
  intros Hu Hp. pose proof (power_of_two_u32 _ Hp Hu) as Hz.
  pose proof (proj1 (is_power_of_two_spec _ Hp)) as Hpow. unfold service_prefix. split.
  - intros H1. assert (trailing_zeros (default_external_service_ips net) <> 0); [|lia].
    intros E. apply H1. rewrite Hpow, E. done.
  - intros H1 E. rewrite E in H1. vm_compute in H1. done.
Qed.

Lemma validate_wf net :
  config_typed net -> validate net = Ok tt -> exists supernet, config_wf net supernet.
Proof.
  intros T (sn & [Hsn Hpre Hroom Hvni Hend Hsv Hlan] & Hv)%validate_scalars. exists sn.
  pose proof (net_prefix_range sn) as Hsp. destruct (ct_vni_start _ T).
  apply (cluster_room_exact net T) in Hroom as [Hp0 Hroom]; [|lia].
  pose proof (power_of_two_u32 _ Hsv (ct_service _ T)) as Hz.
  pose proof (proj1 (is_power_of_two_spec _ Hsv)) as Hpow.
  apply validate_pools_ok in Hv as (nets & Hlen & Hn). simpl in Hn.
  destruct (pools_wf net sn nets Hlen Hn) as [Hnd Hdis].
  split; try done; try lia.
  - by exists (trailing_zeros (default_external_service_ips net)).
  - intros p [i Hi]%list_elem_of_lookup. destruct (Hn i p Hi) as (m & Hm & Cm).
    destruct Cm as [_ ? ? ? ? _ Hb]. split; [done|]. exists m. split_and!; [done..|].
    intros H1. by apply Hb, service_prefix_lt; [apply ct_service| |].
Qed.

(** The loop accepts pools that are named, parse, are apart and have room. *)
Lemma validate_pools_complete cfg sn ps seen :
  (forall p, p ∈ ps -> pool_name p <> "" /\ exists n, net_parse (pool_cidr p) = Some n /\
     net_prefix_len n <= 30 /\ cidrs_overlap sn n = false /\
     (service_prefix cfg < 32 -> net_prefix_len n + 2 <= service_prefix cfg)) ->
  NoDup ((pool_name ∘ fst <$> seen) ++ (pool_name <$> ps)) ->
  (forall q m p n, (q, m) ∈ seen -> p ∈ ps -> net_parse (pool_cidr p) = Some n -> cidrs_overlap n m = false) ->
  (forall i j p q n m, (i < j)%nat -> ps !! i = Some p -> ps !! j = Some q ->
     net_parse (pool_cidr p) = Some n -> net_parse (pool_cidr q) = Some m -> cidrs_overlap m n = false) ->
  validate_pools cfg sn seen ps = Ok tt.
Proof.
  revert seen. induction ps as [|p ps IH]; intros seen Hp Hnd Hseen Hpair; [done|]. simpl.
  destruct (Hp p ltac:(set_solver)) as (Hname & n & Hn & Hlen & Hsn & Hb).
  assert (existsb (fun '(q, _) => pool_name q =$ pool_name p) seen = false) as ->.
  { apply existsb_false. intros [q m] Hq. apply String.eqb_neq. intros E.
    apply NoDup_app in Hnd as (_ & Hx & _). apply (Hx (pool_name q)); [|rewrite E; simpl; set_solver].
    apply list_elem_of_fmap. by exists (q, m). }
  unfold pool_validate, parse_cidr. rewrite (proj2 (String.eqb_neq _ _) Hname), Hn. simpl.
  rewrite (proj2 (Z.leb_gt _ _)) by lia. rewrite Hsn. unfold overlapping.
  destruct (List.find _ seen) as [[q m]|] eqn:Ef.
  { apply List.find_some in Ef as [Hq%list_elem_of_In Ho].
    by rewrite (Hseen q m p n Hq ltac:(set_solver) Hn) in Ho. }
  simpl. assert ((service_prefix cfg <? 32) && (service_prefix cfg <? net_prefix_len n + 2) = false) as ->.
  { apply andb_false_iff. destruct (Z.ltb_spec (service_prefix cfg) 32) as [Hl|]; [right|by left].
    apply Z.ltb_ge. by apply Hb. }
  apply IH.
  - intros p' H'. apply Hp. set_solver.
  - rewrite fmap_app, <- app_assoc. simpl. done.
  - intros q m p' n' [Hq|[= -> ->]%list_elem_of_singleton]%elem_of_app Hin Hn'.
    + apply (Hseen q m p' n' Hq); [set_solver|done].
    + apply list_elem_of_lookup in Hin as [j Hj]. apply (Hpair 0%nat (S j) p p' n n'); [lia|done..].
  - intros i j p1 p2 n1 n2 Hij H1 H2. apply (Hpair (S i) (S j)); [lia|done..].
Qed.

(** C31: the controller starts on exactly the configurations its allocators can
    work with. [validate] accepts a configuration if and only if the supernet
    parses and has room for at least one cluster with its bridge reserve, the
    VNI range is non-empty and fits 24 bits, the default service block is a
    power of two, and the pools are named, distinct, parse, lie apart from the
    supernet and from each other, can hold service blocks, and one is on the
    LAN. *)
Theorem validate_exact net :
  config_typed net -> validate net = Ok tt <-> exists supernet, config_wf net supernet.
Proof.
  intros T. split; [by apply validate_wf|]. intros (sn & W). apply validate_scalars. exists sn.
  destruct W as [Hsn Hpre Hpos Hroom [Hv1 Hv2] (k & Hk & Hpow) Hnd Hpool Hdis Hlan].
  assert (is_power_of_two (default_external_service_ips net) = true) as Hsv
    by (rewrite Hpow; apply pow2_is_power_of_two; lia).
  pose proof (net_prefix_range sn) as Hsp. split.
  - split; try done; try lia. apply cluster_room_exact; [done|lia|]. split; [lia|done].
  - apply validate_pools_complete; [|done| |done].
    + intros p Hin. destruct (Hpool p Hin) as (Hname & n & H1 & H2 & H3 & H4). split; [done|].
      exists n. split_and!; [done..|]. intros Hlt. apply H4, service_prefix_lt; [apply ct_service| |]; done.
    + intros q m p n Hin. by apply not_elem_of_nil in Hin.
Qed.
End validate_facts.

(** ** An example *)

Definition example_net : NetworkConfig := {|
  cluster_supernet := "10.0.0.0/22";
  cluster_prefix := 24;
  bridge_reserve := 32;
  default_external_service_ips := 16;
  vni_range := {| vni_start := 10000; vni_end := 10010 |};
  pools := [{| pool_name := "cell-public"; pool_cidr := "192.168.100.0/24"; pool_scope := Lan |};
            {| pool_name := "cell-tree"; pool_cidr := "172.16.0.0/24"; pool_scope := Tree |}];
|}.

Lemma example_net_typed : config_typed example_net.
Proof. split; vm_compute; split; done. Qed.

Lemma validate_exact_witness : exists supernet, config_wf example_net supernet.
Proof.
  apply (validate_exact example_net example_net_typed). vm_compute. reflexivity.
Defined.
