(* ===== verification/Overcommit.v ===== *)
(** * The CPU overcommit multiplication

    Both the scheduler ([Available::from]) and the commit gate of
    [Db::insert_vm] scale a host's core count by an [f32] ratio in [f64]
    arithmetic and truncate. IEEE arithmetic is Rocq's [SpecFloat]; the
    [f32] to [f64] widening is exact, so a ratio is its [f64] value. *)

From Stdlib Require Import SpecFloat.
From S2P Require Import Prelude.

Definition f64 : Type := spec_float.

(** [x as f64] for an integer (round to nearest, ties to even). *)
Definition f64_of_int (x : Z) : f64 := binary_normalize 53 1024 x 0 false.

Definition f64_mul (x y : f64) : f64 := SFmul 53 1024 x y.
Definition f64_add (x y : f64) : f64 := SFadd 53 1024 x y.
Definition f64_div (x y : f64) : f64 := SFdiv 53 1024 x y.

(** [x as i64]: truncation toward zero, saturating, and 0 for NaN. *)
Definition f64_to_i64 (x : f64) : Z :=
  match x with
  | S754_zero _ | S754_nan => 0
  | S754_infinity s => if s then i64_min else i64_max
  | S754_finite s m e =>
      let a := if 0 <=? e then Z.pos m * 2 ^ e else Z.pos m / 2 ^ (- e) in
      sat_i64 (if s then - a else a)
  end.

(** [(host.total_cpu as f64 * cpu_overcommit_ratio as f64) as i64]. *)
Definition effective_cpu (ratio : f64) (total_cpu : Z) : Z :=
  f64_to_i64 (f64_mul (f64_of_int total_cpu) ratio).

(** [CAST(h.total_cpu * ? AS INTEGER)] in SQLite: NULL for NaN, otherwise
    truncation clamped to 64 bits. *)
Definition sql_effective_cpu (ratio : f64) (total_cpu : Z) : option Z :=
  match f64_mul (f64_of_int total_cpu) ratio with
  | S754_nan => None
  | x => Some (f64_to_i64 x)
  end.

Lemma sql_effective_cpu_eq ratio n v :
  sql_effective_cpu ratio n = Some v -> effective_cpu ratio n = v.
Proof. unfold sql_effective_cpu, effective_cpu. intros H. by dmatch H. Qed.

Lemma sql_effective_cpu_none ratio n :
  sql_effective_cpu ratio n = None -> effective_cpu ratio n = 0.
Proof. unfold sql_effective_cpu, effective_cpu. intros H. by dmatch H. Qed.

(** Ratios 1.0, 1.5 and 4.0. *)
Definition ratio_1 : f64 := S754_finite false 4503599627370496 (-52).
Definition ratio_1_5 : f64 := S754_finite false 6755399441055744 (-52).
Definition ratio_4 : f64 := S754_finite false 4503599627370496 (-50).

Example effective_cpu_4 : effective_cpu ratio_4 16 = 64.
Proof. vm_compute. reflexivity. Qed.
Example effective_cpu_1_5 : effective_cpu ratio_1_5 7 = 10.
Proof. vm_compute. reflexivity. Qed.
