(* ===== verification/DbTypes.v ===== *)
(** * The controller database: rows, tables and errors

    The SQLite schema of [Db::migrate] (crates/basis-controller/src/db.rs)
    as a record of tables. A table is the list of its rows in insertion
    order; the constraints of the schema are enforced by the statements in
    the files that follow, which refuse a violating row the way SQLite does.
    JSON columns are text: the codec (serde_json on the Rust side, the JSON
    functions of SQLite on the SQL side) is the [DbJson] interface. *)

From S2P Require Import Prelude Proto Overcommit.

(** ** Rows *)

Record GpuInfo := {
  pci_address : string;
  model : string;
  iommu_group : string;
  nvlink_group : Z;
}.

Record HostRow := {
  h_id : string;
  h_hostname : string;
  h_total_cpu : Z;
  h_total_memory_mib : Z;
  h_rootfs_total_bytes : Z;
  h_rootfs_free_bytes : Z;
  h_rootfs_metadata_total_bytes : Z;
  h_rootfs_metadata_free_bytes : Z;
  h_data_total_bytes : Z;
  h_data_free_bytes : Z;
  h_gpu_inventory : list GpuInfo;
  h_vtep_address : string;
  h_last_heartbeat : string;
  h_healthy : bool;
  h_rank : Z;
  h_labels : gmap string string;
}.

Record ClusterRow := {
  c_id : string;
  c_name : string;
  c_vni : Z;
  c_cidr : string;
  c_bridge_range_start : string;
  c_bridge_range_end : string;
  c_vm_range_start : string;
  c_vm_range_end : string;
  c_prefix_len : Z;
  c_control_plane_endpoint : string;
  c_apiserver_visibility : Z;
  c_external_pool : string;
  c_service_block_cidr : string;
  c_trust_domain : string;
  c_created_at : string;
}.

(** [host_clusters]; [state] is 0 for ACTIVE and 1 for PENDING_TEARDOWN. *)
Record HostClusterRow := {
  hc_cluster_id : string;
  hc_host_id : string;
  hc_ip_address : string;
  hc_state : Z;
}.

Record VmRow := {
  vm_id : string;
  vm_name : string;
  vm_cluster_id : string;
  vm_host_id : string;
  vm_ip_address : string;
  vm_state : Z;
  vm_cpu : Z;
  vm_memory_mib : Z;
  vm_disk_gib : Z;
  vm_storage_disks : string;
  vm_image : string;
  vm_error_message : string;
  vm_created_at : string;
  vm_updated_at : string;
}.

(** One entry of the JSON array in [vms.storage_disks]. *)
Record StoredDisk := {
  sd_disk_index : Z;
  sd_min_size_gib : Z;
  sd_purpose : string;
  sd_pool : option string;
  sd_device_id : option string;
  sd_assignment_id : option string;
  sd_actual_size_gib : option Z;
  sd_device_path : option string;
}.

Record HostPoolRow := {
  hp_host_id : string;
  hp_pool : string;
  hp_backend : string;
  hp_labels : string;
  hp_configured_total_bytes : Z;
  hp_ready_total_bytes : Z;
  hp_schedulable_total_bytes : Z;
  hp_schedulable_free_bytes : Z;
}.

Record HostPoolDeviceRow := {
  hpd_host_id : string;
  hpd_pool : string;
  hpd_device_id : string;
  hpd_total_bytes : Z;
  hpd_free_bytes : Z;
  hpd_physical : string;
  hpd_physical_reason : string;
}.

Record PoolDiskAssignmentRow := {
  pda_assignment_id : string;
  pda_host_id : string;
  pda_pool : string;
  pda_device_id : string;
  pda_vm_id : string;
  pda_disk_index : Z;
  pda_cluster_id : string;
  pda_purpose : string;
  pda_min_size_gib : Z;
  pda_actual_size_gib : option Z;
  pda_state : string;
}.

Record DeviceSchedulingStateRow := {
  dss_host_id : string;
  dss_pool : string;
  dss_device_id : string;
  dss_state : string;
  dss_reason : option string;
}.

(** The payload is the prost-encoded command: bytes. *)
Record PendingCommandRow := {
  pc_id : Z;
  pc_host_id : string;
  pc_vm_id : string;
  pc_payload : list Byte.byte;
  pc_state : string;
}.

Record LanVipOwnerRow := { lvo_cluster_id : string; lvo_host_id : string }.

(** [vm_gpus]. *)
Record GpuAssignment := {
  ga_vm_id : string;
  ga_host_id : string;
  ga_pci_address : string;
  ga_model : string;
  ga_iommu_group : string;
  ga_nvlink_group : Z;
}.

Record IpAllocationRow := {
  ipa_ip_address : string;
  ipa_scope : string;
  ipa_vm_id : option string;
  ipa_cluster_id : option string;
}.

#[global] Instance gpu_info_eq_dec : EqDecision GpuInfo.
Proof. solve_decision. Defined.
#[global] Instance host_cluster_row_eq_dec : EqDecision HostClusterRow.
Proof. solve_decision. Defined.
#[global] Instance vm_row_eq_dec : EqDecision VmRow.
Proof. solve_decision. Defined.
#[global] Instance cluster_row_eq_dec : EqDecision ClusterRow.
Proof. solve_decision. Defined.
#[global] Instance stored_disk_eq_dec : EqDecision StoredDisk.
Proof. solve_decision. Defined.
#[global] Instance gpu_assignment_eq_dec : EqDecision GpuAssignment.
Proof. solve_decision. Defined.
#[global] Instance ip_allocation_eq_dec : EqDecision IpAllocationRow.
Proof. solve_decision. Defined.

(** ** The database *)

Record Db := mkDb {
  hosts : list HostRow;
  clusters : list ClusterRow;
  host_clusters : list HostClusterRow;
  vms : list VmRow;
  host_pools : list HostPoolRow;
  host_pool_devices : list HostPoolDeviceRow;
  pool_disk_assignment : list PoolDiskAssignmentRow;
  device_scheduling_state : list DeviceSchedulingStateRow;
  pending_command : list PendingCommandRow;
  (** The AUTOINCREMENT counter of [pending_command]. *)
  pending_command_seq : Z;
  cluster_lan_vip_owner : list LanVipOwnerRow;
  vm_gpus : list GpuAssignment;
  ip_allocations : list IpAllocationRow;
}.

(** The tables [migrate] creates, empty. *)
Definition db_empty : Db := mkDb [] [] [] [] [] [] [] [] [] 0 [] [] [].

Definition set_hosts f (d : Db) : Db :=
  let '(mkDb a b c e g h i j k l m n o) := d in mkDb (f a) b c e g h i j k l m n o.
Definition set_clusters f (d : Db) : Db :=
  let '(mkDb a b c e g h i j k l m n o) := d in mkDb a (f b) c e g h i j k l m n o.
Definition set_host_clusters f (d : Db) : Db :=
  let '(mkDb a b c e g h i j k l m n o) := d in mkDb a b (f c) e g h i j k l m n o.
Definition set_vms f (d : Db) : Db :=
  let '(mkDb a b c e g h i j k l m n o) := d in mkDb a b c (f e) g h i j k l m n o.
Definition set_host_pools f (d : Db) : Db :=
  let '(mkDb a b c e g h i j k l m n o) := d in mkDb a b c e (f g) h i j k l m n o.
Definition set_host_pool_devices f (d : Db) : Db :=
  let '(mkDb a b c e g h i j k l m n o) := d in mkDb a b c e g (f h) i j k l m n o.
Definition set_pool_disk_assignment f (d : Db) : Db :=
  let '(mkDb a b c e g h i j k l m n o) := d in mkDb a b c e g h (f i) j k l m n o.
Definition set_device_scheduling f (d : Db) : Db :=
  let '(mkDb a b c e g h i j k l m n o) := d in mkDb a b c e g h i (f j) k l m n o.
Definition set_pending_command f (d : Db) : Db :=
  let '(mkDb a b c e g h i j k l m n o) := d in mkDb a b c e g h i j (f k) l m n o.
Definition set_pending_command_seq f (d : Db) : Db :=
  let '(mkDb a b c e g h i j k l m n o) := d in mkDb a b c e g h i j k (f l) m n o.
Definition set_lan_vip_owner f (d : Db) : Db :=
  let '(mkDb a b c e g h i j k l m n o) := d in mkDb a b c e g h i j k l (f m) n o.
Definition set_vm_gpus f (d : Db) : Db :=
  let '(mkDb a b c e g h i j k l m n o) := d in mkDb a b c e g h i j k l m (f n) o.
Definition set_ip_allocations f (d : Db) : Db :=
  let '(mkDb a b c e g h i j k l m n o) := d in mkDb a b c e g h i j k l m n (f o).

(** [dbsimp] reads a table of a database whose other tables were replaced. *)
Ltac dbsimp :=
  repeat match goal with
  | d : Db |- _ => destruct d
  end; simpl in *.

(** ** Errors *)

(** What SQLite reports; a unique violation names the columns it is about. *)
Inductive SqlxError :=
  | UniqueViolation (columns : string)
  | ForeignKeyViolation
  | CheckViolation
  | IntegerOverflow
  | RowNotFound.

Inductive DbError :=
  | Sqlx (e : SqlxError)
  | NotFound (what : string)
  | Conflict (what : string)
  | Exhausted (what : string)
  | HostUnavailable (host : string)
  | CapacityRaced (host : string)
  | AllocationRaced (what : string)
  | Malformed (what : string).

#[global] Instance sqlx_error_eq_dec : EqDecision SqlxError.
Proof. solve_decision. Defined.
#[global] Instance db_error_eq_dec : EqDecision DbError.
Proof. solve_decision. Defined.

(** A database call. *)
Abbreviation DbM A := (SE Db DbError A).

(** ** The JSON interface *)

(** The five values [commit_disk_assignment] writes into one array entry. *)
Record DiskPatch := {
  patch_actual_size_gib : Z;
  patch_device_path : string;
  patch_assignment_id : string;
  patch_pool : string;
  patch_device_id : string;
}.

Class DbJson := {
  (** [serde_json::to_string] and [from_str] at [Vec<StoredDisk>]. *)
  disks_to_json : list StoredDisk -> string;
  disks_of_json : string -> option (list StoredDisk);
  (** [CAST(json_extract(je.value, '$.min_size_gib') AS INTEGER)] for every
      row [je] of [json_each(storage_disks)]. *)
  sql_min_sizes : string -> list Z;
  (** [json_set(storage_disks, '$[i].actual_size_gib', ..., ...)]. *)
  sql_json_set_disk : string -> Z -> DiskPatch -> string;
  (** [serde_json] at [BTreeMap<String, String>]. *)
  labels_to_json : gmap string string -> string;
  labels_of_json : string -> option (gmap string string);
}.

(** A disk entry of the Rust type: [u32] index, [u64] sizes. *)
Definition disk_typed (d : StoredDisk) : Prop :=
  is_u32 (sd_disk_index d) /\ 0 <= sd_min_size_gib d < 2 ^ 64 /\
  forall n, sd_actual_size_gib d = Some n -> 0 <= n < 2 ^ 64.

Definition patch_disk (p : DiskPatch) (d : StoredDisk) : StoredDisk := {|
  sd_disk_index := sd_disk_index d;
  sd_min_size_gib := sd_min_size_gib d;
  sd_purpose := sd_purpose d;
  sd_pool := Some (patch_pool p);
  sd_device_id := Some (patch_device_id p);
  sd_assignment_id := Some (patch_assignment_id p);
  sd_actual_size_gib := Some (patch_actual_size_gib p);
  sd_device_path := Some (patch_device_path p);
|}.

Class DbJsonLaws `(J : DbJson) := {
  disks_roundtrip ds : Forall disk_typed ds -> disks_of_json (disks_to_json ds) = Some ds;
  (** SQLite reads the sizes serde wrote, as long as they fit its integers. *)
  sql_min_sizes_spec s ds :
    disks_of_json s = Some ds -> Forall (fun d => is_i64 (sd_min_size_gib d)) ds ->
    sql_min_sizes s = map sd_min_size_gib ds;
  sql_json_set_spec s ds i p :
    disks_of_json s = Some ds -> 0 <= i < Z.of_nat (length ds) ->
    0 <= patch_actual_size_gib p ->
    disks_of_json (sql_json_set_disk s i p) = Some (alter (patch_disk p) (Z.to_nat i) ds);
  labels_roundtrip m : labels_of_json (labels_to_json m) = Some m;
}.

(** [GIB]. *)
Definition GIB : Z := 2 ^ 30.

(** [VM_STATE_PENDING_TEARDOWN]. *)
Definition VM_STATE_PENDING_TEARDOWN : Z := machine_state_num PendingTeardown.
