(* ===== verification/JsonText.v ===== *)
(** * A concrete codec for the JSON columns

    An implementation of the [DbJson] interface on which its laws are proved
    and the examples of the development evaluate. It writes a value as the
    bits of its code number; it shows that the documented behaviour assumed of
    serde_json and of SQLite's JSON functions can be met together. *)

From Stdlib Require Import Ascii.
From stdpp Require Import countable.
From S2P Require Import Prelude Proto Overcommit DbTypes.

Fixpoint bits_of (p : positive) : string :=
  match p with
  | xH => EmptyString
  | xO q => String "0"%char (bits_of q)
  | xI q => String "1"%char (bits_of q)
  end.

Fixpoint of_bits (s : string) : option positive :=
  match s with
  | EmptyString => Some xH
  | String c s' =>
      q ← of_bits s';
      if Ascii.eqb c "0"%char then Some (xO q) else if Ascii.eqb c "1"%char then Some (xI q) else None
  end.

Lemma of_bits_of p : of_bits (bits_of p) = Some p.
Proof. induction p as [p IH|p IH|]; simpl; by rewrite ?IH. Qed.

Definition disk_tuple (d : StoredDisk) :=
  (sd_disk_index d, sd_min_size_gib d, sd_purpose d, sd_pool d, sd_device_id d,
   sd_assignment_id d, sd_actual_size_gib d, sd_device_path d).

Definition tuple_disk '(i, m, p, po, dv, a, ac, pa) : StoredDisk := {|
  sd_disk_index := i; sd_min_size_gib := m; sd_purpose := p; sd_pool := po;
  sd_device_id := dv; sd_assignment_id := a; sd_actual_size_gib := ac; sd_device_path := pa |}.

#[global] Instance stored_disk_countable : Countable StoredDisk.
Proof. apply (inj_countable' disk_tuple tuple_disk). by intros []. Defined.

Definition to_text {A} `{Countable A} (a : A) : string := bits_of (encode a).
Definition of_text {A} `{Countable A} (s : string) : option A := p ← of_bits s; decode p.

Lemma of_to_text {A} `{Countable A} (a : A) : of_text (to_text a) = Some a.
Proof. unfold of_text, to_text. rewrite of_bits_of. simpl. apply decode_encode. Qed.

#[global] Instance text_json : DbJson := {|
  disks_to_json := to_text;
  disks_of_json := of_text;
  sql_min_sizes s := map sd_min_size_gib (unwrap_or [] (of_text s));
  sql_json_set_disk s i p :=
    match of_text (A:=list StoredDisk) s with
    | Some ds => to_text (alter (patch_disk p) (Z.to_nat i) ds)
    | None => s
    end;
  labels_to_json := to_text;
  labels_of_json := of_text;
|}.

#[global] Instance text_json_laws : DbJsonLaws text_json.
Proof.
  split.
  - intros ds _. apply of_to_text.
  - intros s ds H _. simpl in *. by rewrite H.
  - intros s ds i p H _ _. simpl in *. rewrite H. apply of_to_text.
  - intros m. apply of_to_text.
Qed.
