(* ===== verification/Ipam.v ===== *)
(** * Address and VNI allocation (crates/basis-controller/src/db.rs)

    The allocators of [Db]: a cluster's VNI and CIDR, the apiserver VIP and
    VM addresses ([allocate_from_range]), aligned LoadBalancer blocks
    ([allocate_service_block]), and the releases. Theorems: what is handed
    out is free, in range and the lowest such choice; allocation fails
    exactly when nothing is free; the block search terminates. *)

From S2P Require Import Prelude Ipv4 Ipnet CidrNet Proto Config Overcommit DbTypes.

(** ** Cluster networks *)

Section cluster_network.
Context `{I : Ipnet}.

Record ClusterNetwork := {
  cn_vni : Z;
  cn_cidr : Ipv4Net;
  cn_prefix_len : Z;
  cn_bridge_start : Z;
  cn_bridge_end : Z;
  cn_vm_start : Z;
  cn_vm_end : Z;
}.

(** [ClusterNetwork::carve], in [u32] arithmetic. *)
Definition carve (vni : Z) (cidr : Ipv4Net) (prefix_len bridge_reserve : Z) : ClusterNetwork :=
  let net := net_network cidr in
  let bcast := net_broadcast cidr in
  let bridge_end := as_u32 (net + bridge_reserve) in {|
    cn_vni := vni;
    cn_cidr := cidr;
    cn_prefix_len := prefix_len;
    cn_bridge_start := as_u32 (net + 1);
    cn_bridge_end := bridge_end;
    cn_vm_start := as_u32 (bridge_end + 1);
    cn_vm_end := as_u32 (bcast - 1);
  |}.

(** [ClusterNetwork::private_apiserver_ip]. *)
Definition private_apiserver_ip (cn : ClusterNetwork) : Z :=
  as_u32 (net_broadcast (cn_cidr cn) - 1).

(** The CIDRs of the existing clusters; the first one that does not parse
    is an error. *)
Fixpoint parse_cidrs (cs : list ClusterRow) : result DbError (list Ipv4Net) :=
  match cs with
  | [] => Ok []
  | c :: cs' =>
      match net_parse (c_cidr c) with
      | None => Err (Malformed ("clusters.cidr '" +:+ c_cidr c +:+ "'"))
      | Some n => match parse_cidrs cs' with
                  | Ok ns => Ok (n :: ns)
                  | Err e => Err e
                  end
      end
  end.

(** The picks [allocate_cluster_network] makes from a snapshot of [clusters]. *)
Definition pick_cluster_network (net : NetworkConfig) (cs : list ClusterRow)
    : result DbError ClusterNetwork :=
  match parse_cidrs cs with
  | Err e => Err e
  | Ok used_cidrs =>
      let used_vnis := map (fun c => as_u32 (c_vni c)) cs in
      match find_incl (fun v => negb (existsb (Z.eqb v) used_vnis))
              (vni_start (vni_range net)) (vni_end (vni_range net)) with
      | None => Err (Exhausted "VNI range fully allocated")
      | Some vni =>
          match net_parse (cluster_supernet net) with
          | None => Err (Malformed "cluster_supernet")
          | Some supernet =>
              match net_subnets supernet (cluster_prefix net) with
              | None => Err (Malformed "cluster_prefix")
              | Some subnets =>
                  match List.find
                          (fun c => negb (existsb (fun u => cidrs_overlap u c) used_cidrs))
                          subnets with
                  | None => Err (Exhausted "cluster supernet fully carved")
                  | Some candidate =>
                      Ok (carve vni candidate (cluster_prefix net) (bridge_reserve net))
                  end
              end
          end
      end
  end.

(** [Db::allocate_cluster_network]: a read-only transaction. *)
Definition allocate_cluster_network (net : NetworkConfig) : DbM ClusterNetwork :=
  fun db => (db, pick_cluster_network net (clusters db)).

(** [ParsedRange::parse_pool_range]. *)
Definition parse_pool_range (pool : Pool) : result DbError ParsedRange :=
  match net_parse (pool_cidr pool) with
  | None => Err (Malformed ("pool '" +:+ pool_name pool +:+ "' cidr"))
  | Some net => Ok {| range_start := as_u32 (net_network net + 1);
                      range_end := as_u32 (net_broadcast net - 1) |}
  end.
End cluster_network.

(** [ParsedRange::parse]. *)
Definition parse_range (s e cluster_id kind : string) : result DbError ParsedRange :=
  match ip_parse s with
  | None => Err (Malformed ("cluster " +:+ cluster_id +:+ " " +:+ kind +:+ "_range_start '" +:+ s +:+ "'"))
  | Some a =>
      match ip_parse e with
      | None => Err (Malformed ("cluster " +:+ cluster_id +:+ " " +:+ kind +:+ "_range_end '" +:+ e +:+ "'"))
      | Some b => Ok {| range_start := a; range_end := b |}
      end
  end.

(** [ClusterRow::bridge_range] and [ClusterRow::vm_range]. *)
Definition bridge_range (c : ClusterRow) : result DbError ParsedRange :=
  parse_range (c_bridge_range_start c) (c_bridge_range_end c) (c_id c) "bridge".
Definition vm_range (c : ClusterRow) : result DbError ParsedRange :=
  parse_range (c_vm_range_start c) (c_vm_range_end c) (c_id c) "vm".

(** ** The address table *)

(** [INSERT INTO ip_allocations]: the CHECK, then the primary key. *)
Definition insert_ip (row : IpAllocationRow) : DbM unit :=
  fun db =>
    if Bool.eqb (bool_decide (ipa_vm_id row = None)) (bool_decide (ipa_cluster_id row = None))
    then (db, Err (Sqlx CheckViolation))
    else if existsb (fun r => ipa_ip_address r =$ ipa_ip_address row) (ip_allocations db)
    then (db, Err (Sqlx (UniqueViolation "ip_allocations.ip_address")))
    else (set_ip_allocations (fun t => t ++ [row]) db, Ok tt).

(** The rows of one scope. *)
Definition scope_ips (db : Db) (scope : string) : list string :=
  map ipa_ip_address (select (fun r => ipa_scope r =$ scope) (ip_allocations db)).

(** [SELECT vtep_address FROM hosts WHERE vtep_address != '']. *)
Definition host_vteps (db : Db) : list string :=
  map h_vtep_address (select (fun h => h_vtep_address h <>$ "") (hosts db)).

(** The WHERE clause of [allocate_from_range]. *)
Definition ip_available (db : Db) (scope : string) (n : Z) : bool :=
  negb (existsb (String.eqb (sql_printf_ip n)) (scope_ips db scope)) &&
  negb (existsb (String.eqb (sql_printf_ip n)) (host_vteps db)).

Definition allocate_from_range (scope : string) (range : ParsedRange)
    (vm cluster : option string) : DbM string :=
  fun db =>
    match find_cte (ip_available db scope) (range_start range) (range_end range) with
    | None => (db, Err (Exhausted ("no available IPs in scope '" +:+ scope +:+ "'")))
    | Some n =>
        let ip := sql_printf_ip n in
        (run! insert_ip {| ipa_ip_address := ip; ipa_scope := scope;
                           ipa_vm_id := vm; ipa_cluster_id := cluster |} ;
         se_ret ip) db
    end.

(** [Db::allocate_pool_vip]. *)
Definition allocate_pool_vip `{Ipnet} (pool : Pool) (cluster_id : string) : DbM string :=
  do! range <- se_of (parse_pool_range pool) ;
  allocate_from_range (pool_name pool) range None (Some cluster_id).

Definition cluster_scope (cluster_id : string) : string := "cluster:" +:+ cluster_id.

(** [Db::allocate_cluster_vm_ip]. *)
Definition allocate_cluster_vm_ip (cluster : ClusterRow) (vm : string) : DbM string :=
  do! range <- se_of (vm_range cluster) ;
  allocate_from_range (cluster_scope (c_id cluster)) range (Some vm) None.

(** [Db::reserve_specific_ip]. *)
Definition reserve_specific_ip (scope ip : string) (vm cluster : option string) : DbM unit :=
  fun db =>
    match insert_ip {| ipa_ip_address := ip; ipa_scope := scope;
                       ipa_vm_id := vm; ipa_cluster_id := cluster |} db with
    | (db', Err (Sqlx (UniqueViolation _))) =>
        (db', Err (Conflict ("ip " +:+ ip +:+ " already allocated in scope '" +:+ scope +:+ "'")))
    | r => r
    end.

(** [Db::release_vm_ips] and [Db::release_cluster_ips]. *)
Definition release_vm_ips (vm : string) : DbM unit :=
  se_modify (set_ip_allocations (delete_where (fun r => bool_decide (ipa_vm_id r = Some vm)))).
Definition release_cluster_ips (cluster_id : string) : DbM unit :=
  se_modify (set_ip_allocations
    (delete_where (fun r => bool_decide (ipa_cluster_id r = Some cluster_id)))).

(** ** Service blocks *)

(** The set [used] of [allocate_service_block]: allocations of the scope and
    host underlay addresses, as numbers. *)
Definition block_used (db : Db) (scope : string) : list Z :=
  omap ip_parse (scope_ips db scope ++ host_vteps db).

(** [start..=end] has no used address. *)
Definition block_free (used : list Z) (start count : Z) : bool :=
  forallb (fun n => negb (existsb (Z.eqb n) used)) (seqZ start count).

(** [(range.start + (count - 1)) & !(count - 1)]. *)
Definition align_up (x count : Z) : Z :=
  Z.land (as_u32 (x + (count - 1))) (u32_max - (count - 1)).

(** The search loop, from [start] upward in steps of [count]. *)
Fixpoint find_block (used : list Z) (count range_end : Z) (fuel : nat) (start : Z) : option Z :=
  match fuel with
  | O => None
  | S f =>
      let e := start + (count - 1) in
      if (u32_max <? e) || (range_end <? e) then None
      else if block_free used start count then Some start
      else if u32_max <? start + count then None
      else find_block used count range_end f (start + count)
  end.

(** Enough steps to walk past the end of the range. *)
Definition block_fuel (count range_end start : Z) : nat :=
  Z.to_nat ((range_end - start) / count + 2).

Definition block_cidr (start prefix_len : Z) : string :=
  ip_to_string start +:+ "/" +:+ pretty prefix_len.

(** [Db::allocate_service_block]. *)
Definition allocate_service_block (scope : string) (range : ParsedRange)
    (cluster_id : string) (count : Z) : DbM string :=
  if (count =? 0) || negb (is_power_of_two count)
  then se_fail (Malformed ("service block count " +:+ pretty count +:+ " must be a power of two"))
  else se_tx (fun db =>
    let start0 := align_up (range_start range) count in
    match find_block (block_used db scope) count (range_end range)
            (block_fuel count (range_end range) start0) start0 with
    | None => (db, Err (Exhausted ("no aligned block free in scope '" +:+ scope +:+ "'")))
    | Some start =>
        (run! se_for (seqZ start count)
           (fun n => insert_ip {| ipa_ip_address := ip_to_string n; ipa_scope := scope;
                                  ipa_vm_id := None; ipa_cluster_id := Some cluster_id |}) ;
         se_ret (block_cidr start (32 - trailing_zeros count))) db
    end).

(** ** Single addresses *)

Definition owner_ok (vm cluster : option string) : bool :=
  negb (Bool.eqb (bool_decide (vm = None)) (bool_decide (cluster = None))).

Definition all_ips (db : Db) : list string := map ipa_ip_address (ip_allocations db).

Lemma existsb_string_In s l : existsb (String.eqb s) l = true <-> s ∈ l.
Proof.
  rewrite existsb_true. split.
  - intros (x & Hx & ->%String.eqb_eq). done.
  - intros H. exists s. by rewrite String.eqb_refl.
Qed.

Lemma existsb_string_not_In s l : existsb (String.eqb s) l = false <-> s ∉ l.
Proof. rewrite <- not_true_iff_false, existsb_string_In. done. Qed.

Lemma existsb_Z_not_In (n : Z) l : existsb (Z.eqb n) l = false <-> n ∉ l.
Proof.
  rewrite existsb_false. split.
  - intros H Hn. specialize (H _ Hn). bsimp.
  - intros H r Hr. apply Z.eqb_neq. intros ->. done.
Qed.

Lemma existsb_ip_taken ip db :
  existsb (fun r => ipa_ip_address r =$ ip) (ip_allocations db) = true <-> ip ∈ all_ips db.
Proof.
  rewrite existsb_true. unfold all_ips. rewrite list_elem_of_fmap.
  split; intros (r & H1 & H2); exists r; bsimp; naive_solver.
Qed.

Lemma insert_ip_cases row db :
  owner_ok (ipa_vm_id row) (ipa_cluster_id row) = true ->
  insert_ip row db =
    if bool_decide (ipa_ip_address row ∈ all_ips db)
    then (db, Err (Sqlx (UniqueViolation "ip_allocations.ip_address")))
    else (set_ip_allocations (fun t => t ++ [row]) db, Ok tt).
Proof.
  unfold owner_ok, insert_ip. intros ->%negb_true_iff.
  destruct (existsb _ _) eqn:E.
  - apply existsb_ip_taken in E. by rewrite bool_decide_eq_true_2.
  - rewrite bool_decide_eq_false_2; [done|].
    rewrite <- existsb_ip_taken, E. done.
Qed.

Lemma ip_available_spec db scope n :
  ip_available db scope n = true <->
  ip_to_string n ∉ scope_ips db scope /\ ip_to_string n ∉ host_vteps db.
Proof.
  unfold ip_available. rewrite sql_printf_ip_eq, andb_true_iff, !negb_true_iff.
  by rewrite !existsb_string_not_In.
Qed.

Lemma ip_unavailable_spec db scope n :
  ip_available db scope n = false <->
  ip_to_string n ∈ scope_ips db scope \/ ip_to_string n ∈ host_vteps db.
Proof.
  rewrite <- not_true_iff_false, ip_available_spec.
  destruct (decide (ip_to_string n ∈ scope_ips db scope)),
    (decide (ip_to_string n ∈ host_vteps db)); naive_solver.
Qed.

Lemma set_ip_all_ips db f : all_ips (set_ip_allocations f db) = map ipa_ip_address (f (ip_allocations db)).
Proof. by destruct db. Qed.

(** What a successful [allocate_from_range] did. *)
Lemma allocate_from_range_ok scope range vm cluster db db' ip :
  owner_ok vm cluster = true -> range_start range <= range_end range ->
  allocate_from_range scope range vm cluster db = (db', Ok ip) ->
  exists n, range_start range <= n <= range_end range /\ ip = ip_to_string n /\
    ip ∉ all_ips db /\ ip ∉ host_vteps db /\
    (forall m, range_start range <= m < n ->
       ip_to_string m ∈ scope_ips db scope \/ ip_to_string m ∈ host_vteps db) /\
    db' = set_ip_allocations (fun t => t ++
      [{| ipa_ip_address := ip; ipa_scope := scope; ipa_vm_id := vm; ipa_cluster_id := cluster |}]) db.
Proof.
  intros Ho Hr. unfold allocate_from_range. rewrite find_cte_incl by done.
  destruct (find_incl _ _ _) as [n|] eqn:E; [|done].
  apply find_incl_Some in E as (Hn & Ha & Hl).
  unfold se_bind. rewrite insert_ip_cases by done. simpl.
  case_bool_decide as Hin; [done|]. unfold se_ret. rewrite sql_printf_ip_eq in *.
  intros H. simplify_eq. apply ip_available_spec in Ha as [??].
  exists n. split_and!; try done; [lia|lia|].
  intros m ?. apply ip_unavailable_spec. auto.
Qed.

(** ** Blocks *)

Lemma block_free_spec used start count :
  0 <= count ->
  block_free used start count = true <->
  forall n, start <= n < start + count -> n ∉ used.
Proof.
  intros Hc. unfold block_free. rewrite forallb_forall. split.
  - intros H n Hn. apply existsb_Z_not_In, negb_true_iff, H.
    apply list_elem_of_In, elem_of_seqZ. done.
  - intros H n Hn%list_elem_of_In%elem_of_seqZ.
    apply negb_true_iff, existsb_Z_not_In. auto.
Qed.

Lemma block_taken used start count :
  block_free used start count = false ->
  exists n, start <= n < start + count /\ n ∈ used.
Proof.
  intros (n & Hn%elem_of_seqZ & H%negb_false_iff)%forallb_false_exists.
  exists n. split; [done|]. apply existsb_true in H as (m & ? & ->%Z.eqb_eq). done.
Qed.

Lemma land_high_bits y k :
  0 <= k <= 32 -> 0 <= y < 2 ^ 32 ->
  Z.land y (u32_max - (2 ^ k - 1)) = 2 ^ k * (y / 2 ^ k).
Proof.
  intros Hk Hy. unfold u32_max.
  replace (2 ^ 32 - 1 - (2 ^ k - 1)) with (Z.shiftl (Z.ones (32 - k)) k).
  2:{ rewrite Z.shiftl_mul_pow2, Z.ones_equiv by lia.
      assert (2 ^ 32 = 2 ^ (32 - k) * 2 ^ k) by (rewrite <- Z.pow_add_r by lia; f_equal; lia). lia. }
  rewrite Z.mul_comm, <- Z.shiftl_mul_pow2, <- Z.shiftr_div_pow2 by lia.
  apply Z.bits_inj'. intros n Hn. rewrite Z.land_spec.
  destruct (Z.lt_ge_cases n k).
  - rewrite !Z.shiftl_spec_low by lia. apply andb_false_r.
  - rewrite !Z.shiftl_spec, Z.shiftr_spec by lia.
    replace (n - k + k) with n by lia.
    destruct (Z.lt_ge_cases n 32).
    + rewrite Z.ones_spec_low by lia. apply andb_true_r.
    + assert (Z.testbit y n = false) as ->; [|done].
      destruct (decide (y = 0)) as [->|]; [apply Z.bits_0|].
      apply Z.bits_above_log2; [lia|]. apply Z.log2_lt_pow2; [lia|].
      apply Z.lt_le_trans with (2 ^ 32); [lia|]. apply Z.pow_le_mono_r; lia.
Qed.

(** Aligning up gives the least multiple of [2 ^ k] that is at least [x]. *)
Lemma align_up_spec x k :
  0 <= k <= 32 -> 0 <= x -> x + (2 ^ k - 1) < 2 ^ 32 ->
  exists q, align_up x (2 ^ k) = 2 ^ k * q /\ x <= 2 ^ k * q < x + 2 ^ k.
Proof.
  intros Hk Hx Ho. assert (0 < 2 ^ k) by (apply Z.pow_pos_nonneg; lia).
  unfold align_up. rewrite as_u32_small by (unfold is_u32; lia).
  rewrite land_high_bits by lia. eexists. split; [done|].
  pose proof (Z.div_mod (x + (2 ^ k - 1)) (2 ^ k)).
  pose proof (Z.mod_pos_bound (x + (2 ^ k - 1)) (2 ^ k)). lia.
Qed.

Lemma find_block_Some used count e fuel start s :
  0 < count -> find_block used count e fuel start = Some s ->
  exists i, 0 <= i /\ s = start + i * count /\ s + count - 1 <= e /\
    (forall n, s <= n < s + count -> n ∉ used) /\
    (forall j, 0 <= j < i -> exists n, start + j * count <= n < start + (j + 1) * count /\ n ∈ used).
Proof.
  intros Hc. revert start. induction fuel as [|f IH]; intros start H; simpl in H; [done|].
  destruct (_ || _) eqn:E1; [done|]. apply orb_false_iff in E1 as [E1 E2].
  apply Z.ltb_ge in E1, E2.
  destruct (block_free used start count) eqn:Ef.
  - simplify_eq. exists 0. split_and!; [lia|lia|lia| |lia].
    by apply block_free_spec; [lia|].
  - destruct (_ <? _) eqn:E3; [done|].
    apply IH in H as (i & Hi & -> & He & Hfree & Hlow).
    exists (i + 1). split_and!; [lia|lia|lia| |].
    + intros n Hn. apply Hfree. lia.
    + intros j Hj. destruct (decide (j = 0)) as [->|Hj0].
      * apply block_taken in Ef as (n & Hn & Hu). exists n. split; [lia|done].
      * destruct (Hlow (j - 1) ltac:(lia)) as (n & Hn & Hu).
        exists n. split; [lia|done].
Qed.

Lemma find_block_None used count e fuel start :
  0 < count -> e <= u32_max -> e - start < Z.of_nat fuel * count ->
  find_block used count e fuel start = None ->
  forall j, 0 <= j -> start + (j + 1) * count - 1 <= e ->
    exists n, start + j * count <= n < start + (j + 1) * count /\ n ∈ used.
Proof.
  intros Hc He. revert start. induction fuel as [|f IH]; intros start Hf H j Hj Hje; [nia|].
  simpl in H. destruct (_ || _) eqn:E1.
  { apply orb_true_iff in E1 as [E1|E1]; apply Z.ltb_lt in E1; nia. }
  destruct (block_free used start count) eqn:Ef; [done|].
  apply block_taken in Ef as (n & Hn & Hu).
  destruct (decide (j = 0)) as [->|Hj0]; [exists n; split; [lia|done]|].
  destruct (_ <? _) eqn:E3 in H; [apply Z.ltb_lt in E3; unfold u32_max in *; nia|].
  destruct (IH (start + count) ltac:(lia) H (j - 1) ltac:(lia) ltac:(lia)) as (m & Hm & Hmu).
  exists m. split; [lia|done].
Qed.

Lemma block_fuel_enough count e start :
  0 < count -> e - start < Z.of_nat (block_fuel count e start) * count.
Proof.
  intros Hc. unfold block_fuel. pose proof (Z.div_mod (e - start) count).
  pose proof (Z.mod_pos_bound (e - start) count). nia.
Qed.

(** The rows of a block. *)
Definition block_rows (scope cluster_id : string) (start count : Z) : list IpAllocationRow :=
  map (fun n => {| ipa_ip_address := ip_to_string n; ipa_scope := scope;
                   ipa_vm_id := None; ipa_cluster_id := Some cluster_id |}) (seqZ start count).

Lemma set_ip_app_app (t1 t2 : list IpAllocationRow) db :
  set_ip_allocations (fun t => t ++ t2) (set_ip_allocations (fun t => t ++ t1) db) =
  set_ip_allocations (fun t => t ++ (t1 ++ t2)) db.
Proof. destruct db; simpl. by rewrite app_assoc. Qed.

Lemma insert_block_ok scope cluster_id ns db db' :
  se_for ns (fun n => insert_ip {| ipa_ip_address := ip_to_string n; ipa_scope := scope;
                                  ipa_vm_id := None; ipa_cluster_id := Some cluster_id |}) db
    = (db', Ok tt) ->
  db' = set_ip_allocations (fun t => t ++
    map (fun n => {| ipa_ip_address := ip_to_string n; ipa_scope := scope;
                     ipa_vm_id := None; ipa_cluster_id := Some cluster_id |}) ns) db /\
  (forall n, n ∈ ns -> ip_to_string n ∉ all_ips db).
Proof.
  revert db. induction ns as [|n ns IH]; intros db H; simpl in H.
  { unfold se_ret in H. simplify_eq. split; [|set_solver]. destruct db'; simpl. by rewrite app_nil_r. }
  unfold se_bind in H. rewrite insert_ip_cases in H by done. simpl in H.
  case_bool_decide as Hn; [done|]. apply IH in H as [-> Hns].
  rewrite set_ip_app_app. split; [done|]. intros m [->|Hm]%elem_of_cons; [done|].
  intros Hin. apply (Hns m Hm). rewrite set_ip_all_ips, List.map_app.
  apply elem_of_app. left. done.
Qed.

(** Recording a block never reports exhaustion. *)
Lemma insert_block_errors scope cluster_id ns db db' msg :
  se_for ns (fun n => insert_ip {| ipa_ip_address := ip_to_string n; ipa_scope := scope;
                                  ipa_vm_id := None; ipa_cluster_id := Some cluster_id |}) db
    <> (db', Err (Exhausted msg)).
Proof.
  revert db. induction ns as [|n ns IH]; intros db H; simpl in H; [done|].
  unfold se_bind in H. rewrite insert_ip_cases in H by done.
  case_bool_decide; [done|]. by apply IH in H.
Qed.

(** What a successful [allocate_service_block] did. *)
Lemma allocate_service_block_ok scope range cluster_id count db db' cidr :
  is_u32 count -> 0 <= range_start range -> range_start range + (count - 1) < 2 ^ 32 ->
  allocate_service_block scope range cluster_id count db = (db', Ok cidr) ->
  exists start q, start = count * q /\
    range_start range <= start /\ start + count - 1 <= range_end range /\
    cidr = block_cidr start (32 - trailing_zeros count) /\
    (forall n, start <= n < start + count ->
       n ∉ block_used db scope /\ ip_to_string n ∉ all_ips db) /\
    (forall q', range_start range <= count * q' < start ->
       exists n, count * q' <= n < count * (q' + 1) /\ n ∈ block_used db scope) /\
    db' = set_ip_allocations (fun t => t ++ block_rows scope cluster_id start count) db.
Proof.
  intros Hu Hr Ho. unfold allocate_service_block.
  destruct (_ || _) eqn:E; [done|]. apply orb_false_iff in E as [E0 E1%negb_false_iff].
  intros H%se_tx_ok. pose proof (power_of_two_u32 _ E1 Hu) as Hk.
  destruct (is_power_of_two_spec _ E1) as [Hp _].
  destruct (align_up_spec (range_start range) (trailing_zeros count)) as (q0 & Ha & Hq0);
    [lia|lia|lia|]. rewrite <- Hp in Ha, Hq0.
  apply Z.eqb_neq in E0. assert (0 < count) as Hc by (unfold is_u32 in Hu; lia).
  destruct (find_block _ _ _ _ _) as [start|] eqn:Ef; [|done].
  apply find_block_Some in Ef as (i & Hi & Hs & He & Hfree & Hlow); [|done].
  unfold se_bind in H. destruct (se_for _ _ db) as [db1 [[]|]] eqn:Ei; [|done].
  apply insert_block_ok in Ei as [-> Hins]. unfold se_ret in H.
  injection H as <- <-. rewrite Ha in Hs, Hlow. exists start, (q0 + i). split_and!; [lia|lia|lia|done| | |done].
  - intros n Hn. split; [by apply Hfree|]. apply Hins, elem_of_seqZ. lia.
  - intros q' Hq'. destruct (Hlow (q' - q0)) as (n & Hn & Hin); [nia|].
    exists n. split; [nia|done].
Qed.

(** ** Networks of clusters *)

Section cluster_network_facts.
Context `{L : IpnetLaws}.

Lemma parse_cidrs_ok cs ns :
  parse_cidrs cs = Ok ns -> Forall2 (fun c n => net_parse (c_cidr c) = Some n) cs ns.
Proof.
  revert ns. induction cs as [|c cs IH]; intros ns H; simpl in H; [by simplify_eq; constructor|].
  destruct (net_parse (c_cidr c)) as [n|] eqn:En; [|done].
  destruct (parse_cidrs cs) as [ns'|] eqn:Ens; [|done]. simplify_eq. constructor; auto.
Qed.

Lemma parse_cidrs_total cs :
  (forall c, c ∈ cs -> is_Some (net_parse (c_cidr c))) -> exists ns, parse_cidrs cs = Ok ns.
Proof.
  induction cs as [|c cs IH]; intros H; simpl; [eauto|].
  destruct (H c ltac:(set_solver)) as [n ->].
  destruct IH as [ns ->]; [set_solver|]. eauto.
Qed.

Lemma parse_cidrs_in cs ns c n :
  parse_cidrs cs = Ok ns -> c ∈ cs -> net_parse (c_cidr c) = Some n -> n ∈ ns.
Proof.
  intros H%parse_cidrs_ok [i Hi]%list_elem_of_lookup Hn.
  destruct (Forall2_lookup_l _ _ _ _ _ H Hi) as (n' & Hn' & He).
  simplify_eq. by eapply list_elem_of_lookup_2.
Qed.

Lemma parse_cidrs_inv cs ns n :
  parse_cidrs cs = Ok ns -> n ∈ ns -> exists c, c ∈ cs /\ net_parse (c_cidr c) = Some n.
Proof.
  intros H%parse_cidrs_ok [i Hi]%list_elem_of_lookup.
  destruct (Forall2_lookup_r _ _ _ _ _ H Hi) as (c & Hc & He).
  exists c. split; [|done]. by eapply list_elem_of_lookup_2.
Qed.

(** [find] returns the first element that passes. *)
Lemma list_find_first {A} (p : A -> bool) l x :
  List.find p l = Some x ->
  exists i, l !! i = Some x /\ p x = true /\ forall j y, (j < i)%nat -> l !! j = Some y -> p y = false.
Proof.
  induction l as [|a l IH]; simpl; [done|]. destruct (p a) eqn:Ea.
  - intros [= ->]. exists 0%nat. split_and!; [done|done|lia].
  - intros (i & Hi & Hp & Hl)%IH. exists (S i). split_and!; [done|done|].
    intros [|j] y Hj Hy; simplify_eq/=; [done|]. eapply Hl; [|done]. lia.
Qed.

(** Everything a successful pick satisfies. *)
Lemma pick_cluster_network_ok net cs cn supernet subnets :
  net_parse (cluster_supernet net) = Some supernet ->
  net_subnets supernet (cluster_prefix net) = Some subnets ->
  pick_cluster_network net cs = Ok cn ->
  exists used (i : nat),
    parse_cidrs cs = Ok used /\
    cn = carve (cn_vni cn) (cn_cidr cn) (cluster_prefix net) (bridge_reserve net) /\
    vni_start (vni_range net) <= cn_vni cn <= vni_end (vni_range net) /\
    cn_vni cn ∉ map (fun c => as_u32 (c_vni c)) cs /\
    (forall v, vni_start (vni_range net) <= v < cn_vni cn ->
       v ∈ map (fun c => as_u32 (c_vni c)) cs) /\
    subnets !! i = Some (cn_cidr cn) /\
    (forall u, u ∈ used -> cidrs_overlap u (cn_cidr cn) = false) /\
    (forall j s, (j < i)%nat -> subnets !! j = Some s ->
       exists u, u ∈ used /\ cidrs_overlap u s = true).
Proof.
  intros Hsn Hsub. unfold pick_cluster_network. rewrite Hsn, Hsub.
  destruct (parse_cidrs cs) as [used|] eqn:Eu; [|done].
  destruct (find_incl _ _ _) as [vni|] eqn:Ev; [|done].
  destruct (List.find _ subnets) as [cand|] eqn:Ec; [|done]. intros [= <-].
  apply find_incl_Some in Ev as (Hv & Hf & Hl).
  apply list_find_first in Ec as (i & Hi & Hp & Hlow).
  exists used, i. simpl. split_and!; try done.
  - lia. - lia.
  - by apply existsb_Z_not_In, negb_true_iff.
  - intros v Hr. apply Hl, negb_false_iff, existsb_true in Hr as (m & ? & ->%Z.eqb_eq). done.
  - apply negb_true_iff in Hp. by rewrite existsb_false in Hp.
  - intros j s Hj Hs. apply (Hlow j s Hj), negb_false_iff, existsb_true in Hs. done.
Qed.

(** The ranges of a carved network, in plain arithmetic. *)
Lemma carve_ranges vni cidr bridge :
  net_prefix_len cidr <= 30 -> 0 <= bridge ->
  bridge + 2 < 2 ^ (32 - net_prefix_len cidr) ->
  forall cn, cn = carve vni cidr (net_prefix_len cidr) bridge ->
  cn_bridge_start cn = net_network cidr + 1 /\
  cn_bridge_end cn = net_network cidr + bridge /\
  cn_vm_start cn = net_network cidr + bridge + 1 /\
  cn_vm_end cn = net_broadcast cidr - 1 /\
  private_apiserver_ip cn = net_broadcast cidr - 1 /\
  net_broadcast cidr = net_network cidr + 2 ^ (32 - net_prefix_len cidr) - 1.
Proof.
  intros Hp Hb Hroom cn ->. pose proof (net_end_u32 cidr). pose proof (net_network_u32 cidr) as Hu.
  unfold is_u32 in Hu. unfold carve, private_apiserver_ip; simpl. rewrite !net_broadcast_eq.
  rewrite !as_u32_small; unfold is_u32; lia.
Qed.
End cluster_network_facts.

(** ** Properties *)

(** [allocate_from_range], on every branch. On success the address is the
    lowest one of the range that is neither allocated in the scope nor the
    underlay address of a registered host; it was in no scope before, and
    exactly one row is added. [Exhausted] is returned, with nothing changed,
    exactly when every address of the range is taken. The only other outcome
    is a primary-key violation, when the lowest free address of this scope is
    allocated in another scope; nothing changes then either. *)
Theorem allocate_from_range_lowest_free scope range vm cluster db :
  owner_ok vm cluster = true -> range_start range <= range_end range ->
  let taken m := ip_to_string m ∈ scope_ips db scope \/ ip_to_string m ∈ host_vteps db in
  match allocate_from_range scope range vm cluster db with
  | (db', Ok ip) =>
      exists n, range_start range <= n <= range_end range /\ ip = ip_to_string n /\
        ~ taken n /\ (forall m, range_start range <= m < n -> taken m) /\
        ip ∉ all_ips db /\
        db' = set_ip_allocations (fun t => t ++
          [{| ipa_ip_address := ip; ipa_scope := scope;
              ipa_vm_id := vm; ipa_cluster_id := cluster |}]) db
  | (db', Err (Exhausted _)) =>
      db' = db /\ forall m, range_start range <= m <= range_end range -> taken m
  | (db', Err e) =>
      db' = db /\ e = Sqlx (UniqueViolation "ip_allocations.ip_address") /\
      exists n row, range_start range <= n <= range_end range /\ row ∈ ip_allocations db /\
        ipa_ip_address row = ip_to_string n /\ ipa_scope row <> scope
  end.
Proof.
  intros Ho Hr taken. destruct (allocate_from_range _ _ _ _ _) as [db' [ip|e]] eqn:E.
  - destruct (allocate_from_range_ok _ _ _ _ _ _ _ Ho Hr E)
      as (n & Hn & -> & Hall & Hv & Hl & ->).
    exists n. split_and!; [lia|lia|done| |exact Hl|done|done].
    intros [Hs|Hs]; [|done].
    apply Hall. unfold scope_ips, all_ips in *. apply list_elem_of_fmap in Hs as (r & Hr0 & Hs). rewrite Hr0.
    apply list_elem_of_fmap. exists r. split; [done|]. by apply elem_of_select in Hs as [? _].
  - unfold allocate_from_range in E. rewrite find_cte_incl in E by done.
    destruct (find_incl _ _ _) as [n|] eqn:Ef.
    + unfold se_bind in E. rewrite insert_ip_cases in E by done. simpl in E.
      case_bool_decide as Hin; [|done]. simplify_eq. split_and!; [done|done|].
      apply find_incl_Some in Ef as (Hn & Ha & _). rewrite sql_printf_ip_eq in Hin.
      apply ip_available_spec in Ha as [Ha _].
      apply list_elem_of_fmap in Hin as (r & Hr' & Hin). exists n, r.
      split_and!; [lia|lia|done|done|]. intros Hs. apply Ha. apply list_elem_of_fmap.
      exists r. split; [done|]. apply elem_of_select. split; [done|]. simpl. apply String.eqb_eq. exact Hs.
    + simplify_eq. split; [done|]. intros m Hm. apply ip_unavailable_spec.
      by apply (proj1 (find_incl_None _ _ _) Ef).
Qed.

(** A database with one host at 10.0.0.3 and one address of the scope taken. *)
Definition ipam_example_db : Db :=
  set_ip_allocations (fun _ => [{| ipa_ip_address := "10.0.0.2"; ipa_scope := "pool";
                                   ipa_vm_id := None; ipa_cluster_id := Some "c1" |}])
  (set_hosts (fun _ => [{| h_id := "h1"; h_hostname := "h1"; h_total_cpu := 16;
     h_total_memory_mib := 65536; h_rootfs_total_bytes := 200 * GIB;
     h_rootfs_free_bytes := 200 * GIB; h_rootfs_metadata_total_bytes := 0;
     h_rootfs_metadata_free_bytes := 0; h_data_total_bytes := 800 * GIB;
     h_data_free_bytes := 800 * GIB; h_gpu_inventory := [];
     h_vtep_address := "10.0.0.3"; h_last_heartbeat := "2025-01-01T00:00:00Z";
     h_healthy := true; h_rank := 0; h_labels := ∅ |}]) db_empty).

Definition ipam_example_range : ParsedRange :=
  {| range_start := 167772162; range_end := 167772190 |}.

(** 10.0.0.2 is allocated and 10.0.0.3 is a host: 10.0.0.4 is next. *)
Lemma allocate_from_range_lowest_free_witness :
  snd (allocate_from_range "pool" ipam_example_range None (Some "c2") ipam_example_db)
    = Ok "10.0.0.4" /\
  let taken m := ip_to_string m ∈ scope_ips ipam_example_db "pool" \/
                 ip_to_string m ∈ host_vteps ipam_example_db in
  match allocate_from_range "pool" ipam_example_range None (Some "c2") ipam_example_db with
  | (db', Ok ip) =>
      exists n, range_start ipam_example_range <= n <= range_end ipam_example_range /\
        ip = ip_to_string n /\
        ~ taken n /\ (forall m, range_start ipam_example_range <= m < n -> taken m) /\
        ip ∉ all_ips ipam_example_db /\
        db' = set_ip_allocations (fun t => t ++
          [{| ipa_ip_address := ip; ipa_scope := "pool";
              ipa_vm_id := None; ipa_cluster_id := Some "c2" |}]) ipam_example_db
  | (db', Err (Exhausted _)) =>
      db' = ipam_example_db /\
      forall m, range_start ipam_example_range <= m <= range_end ipam_example_range -> taken m
  | (db', Err e) =>
      db' = ipam_example_db /\ e = Sqlx (UniqueViolation "ip_allocations.ip_address") /\
      exists n row, range_start ipam_example_range <= n <= range_end ipam_example_range /\
        row ∈ ip_allocations ipam_example_db /\
        ipa_ip_address row = ip_to_string n /\ ipa_scope row <> "pool"
  end.
Proof.
  split; [vm_compute; reflexivity|].
  apply (allocate_from_range_lowest_free "pool" ipam_example_range None (Some "c2") ipam_example_db);
    [reflexivity|vm_compute; discriminate].
Defined.

(** C24: a service block is aligned to its size, lies inside the range, avoids
    every address of the scope and every host underlay address, is the lowest
    such block, and exactly its addresses are recorded for the cluster. *)
Theorem allocate_service_block_aligned scope range cluster_id count db db' cidr :
  is_u32 count -> 0 <= range_start range -> range_start range + (count - 1) < 2 ^ 32 ->
  range_end range < 2 ^ 32 ->
  allocate_service_block scope range cluster_id count db = (db', Ok cidr) ->
  exists start,
    start mod count = 0 /\
    range_start range <= start /\ start + count - 1 <= range_end range /\
    cidr = block_cidr start (32 - trailing_zeros count) /\
    (forall n, start <= n < start + count ->
       ip_to_string n ∉ all_ips db /\ ip_to_string n ∉ host_vteps db) /\
    (forall s, s mod count = 0 -> range_start range <= s < start ->
       exists n, s <= n < s + count /\ n ∈ block_used db scope) /\
    db' = set_ip_allocations (fun t => t ++ block_rows scope cluster_id start count) db.
Proof.
  intros Hu Hr Ho He H.
  destruct (allocate_service_block_ok _ _ _ _ _ _ _ Hu Hr Ho H)
    as (start & q & Hq & Hs & Hend & -> & Hfree & Hlow & ->).
  assert (count <> 0) as Hc0.
  { intros ->. unfold allocate_service_block in H. simpl in H. done. }
  assert (0 < count) by (unfold is_u32 in Hu; lia).
  exists start. split_and!; try done.
  - rewrite Hq, Z.mul_comm. by apply Z_mod_mult.
  - intros n Hn. destruct (Hfree n Hn) as [Hb Hi]. split; [done|].
    intros Hv. apply Hb. unfold block_used. apply list_elem_of_omap.
    exists (ip_to_string n). split; [set_solver|]. apply ip_parse_to_string. unfold is_u32. lia.
  - intros s Hs0 Hsr. apply Z.mod_divide in Hs0 as [q' ->]; [|done].
    destruct (Hlow q') as (n & Hn & Hin); [lia|]. exists n. split; [nia|done].
Qed.

Lemma allocate_service_block_aligned_witness :
  exists db', allocate_service_block "pool" ipam_example_range "c2" 8 ipam_example_db
                = (db', Ok "10.0.0.8/29") /\
  exists start,
    start mod 8 = 0 /\
    range_start ipam_example_range <= start /\
    start + 8 - 1 <= range_end ipam_example_range /\
    "10.0.0.8/29" = block_cidr start (32 - trailing_zeros 8) /\
    (forall n, start <= n < start + 8 ->
       ip_to_string n ∉ all_ips ipam_example_db /\ ip_to_string n ∉ host_vteps ipam_example_db) /\
    (forall s, s mod 8 = 0 -> range_start ipam_example_range <= s < start ->
       exists n, s <= n < s + 8 /\ n ∈ block_used ipam_example_db "pool") /\
    db' = set_ip_allocations (fun t => t ++ block_rows "pool" "c2" start 8) ipam_example_db.
Proof.
  eexists. split; [vm_compute; reflexivity|].
  apply (allocate_service_block_aligned "pool" ipam_example_range "c2" 8 ipam_example_db);
    [vm_compute; split; [discriminate|reflexivity]|vm_compute; discriminate
    |vm_compute; reflexivity|vm_compute; reflexivity|vm_compute; reflexivity].
Defined.

(** The block search is complete and failures change nothing: an
    [Exhausted] answer means that every aligned block inside the range has a
    taken address, and any error leaves the database as it was. *)
Theorem allocate_service_block_errors scope range cluster_id count db db' e :
  is_u32 count -> 0 <= range_start range -> range_start range + (count - 1) < 2 ^ 32 ->
  range_end range < 2 ^ 32 ->
  allocate_service_block scope range cluster_id count db = (db', Err e) ->
  db' = db /\
  (forall msg, e = Exhausted msg ->
     forall s, s mod count = 0 -> range_start range <= s -> s + count - 1 <= range_end range ->
     exists n, s <= n < s + count /\ n ∈ block_used db scope).
Proof.
  intros Hu Hr Ho He. unfold allocate_service_block.
  destruct (_ || _) eqn:E; [intros H; unfold se_fail in H; by simplify_eq|].
  apply orb_false_iff in E as [E0 E1%negb_false_iff]. apply Z.eqb_neq in E0.
  intros H. split; [by eapply se_tx_err|]. intros msg -> s Hs0 Hs1 Hs2.
  pose proof (power_of_two_u32 _ E1 Hu) as Hk. destruct (is_power_of_two_spec _ E1) as [Hp _].
  destruct (align_up_spec (range_start range) (trailing_zeros count)) as (q0 & Ha & Hq0);
    [lia|lia|lia|]. rewrite <- Hp in Ha, Hq0.
  assert (0 < count) as Hc by (unfold is_u32 in Hu; lia).
  unfold se_tx in H. destruct (find_block _ _ _ _ _) as [start|] eqn:Ef.
  { unfold se_bind in H. destruct (se_for _ _ db) as [db1 [[]|e1]] eqn:Ei; [done|].
    simplify_eq. exfalso. by apply insert_block_errors in Ei. }
  apply Z.mod_divide in Hs0 as [q ->]; [|done].
  assert (range_end range <= u32_max) as Hm by (unfold u32_max; lia).
  destruct (find_block_None _ _ _ _ _ Hc Hm
              (block_fuel_enough count (range_end range) _ Hc) Ef (q - q0)) as (n & Hn & Hin);
    rewrite ?Ha in *; [nia|nia|]. exists n. split; [nia|done].
Qed.

Lemma allocate_service_block_errors_witness :
  allocate_service_block "pool" ipam_example_range "c2" 64 ipam_example_db =
    (ipam_example_db, Err (Exhausted "no aligned block free in scope 'pool'")) /\
  ipam_example_db = ipam_example_db /\
  (forall msg, Exhausted "no aligned block free in scope 'pool'" = Exhausted msg ->
     forall s, s mod 64 = 0 -> range_start ipam_example_range <= s ->
     s + 64 - 1 <= range_end ipam_example_range ->
     exists n, s <= n < s + 64 /\ n ∈ block_used ipam_example_db "pool").
Proof.
  split; [vm_compute; reflexivity|].
  apply (allocate_service_block_errors "pool" ipam_example_range "c2" 64 ipam_example_db);
    [vm_compute; split; [discriminate|reflexivity]|vm_compute; discriminate
    |vm_compute; reflexivity|vm_compute; reflexivity|vm_compute; reflexivity].
Defined.

(** ** VNIs and CIDRs stay in step *)

Section alignment.
Context `{L : IpnetLaws}.
Variables (net : NetworkConfig) (supernet : Ipv4Net) (subnets : list Ipv4Net).
Hypothesis Hwf : config_wf net supernet.
Hypothesis Hsubnets : net_subnets supernet (cluster_prefix net) = Some subnets.

(** The [i]-th VNI goes with the [i]-th slice of the supernet. *)
Definition slot (i : nat) (vni : Z) (cidr : Ipv4Net) : Prop :=
  subnets !! i = Some cidr /\ vni = vni_start (vni_range net) + Z.of_nat i.

Definition aligned (c : ClusterRow) : Prop :=
  exists i s, slot i (c_vni c) s /\ c_cidr c = net_to_string s.

Lemma slot_vni_u32 i v s : slot i v s -> as_u32 v = v.
Proof.
  intros [Hi%lookup_lt_Some ->]. pose proof (net_subnets_length _ _ _ Hsubnets) as Hl.
  destruct Hwf as [_ Hp _ _ Hv _ _ _ _ _]. pose proof (net_prefix_range supernet).
  assert (2 ^ (cluster_prefix net - net_prefix_len supernet) <= 2 ^ 30)
    by (apply Z.pow_le_mono_r; lia).
  apply as_u32_small. unfold is_u32. lia.
Qed.

Lemma slot_inj i j v w s t : slot i v s -> slot j w t -> cidrs_overlap s t = true -> i = j.
Proof.
  intros [Hi _] [Hj _] Ho. destruct (decide (i = j)) as [|Hne]; [done|].
  by rewrite (subnets_disjoint _ _ _ _ _ _ _ Hsubnets Hi Hj Hne) in Ho.
Qed.

Lemma cidrs_overlap_refl n : cidrs_overlap n n = true.
Proof. apply cidrs_overlap_spec. exists (net_network n). split; apply net_network_in. Qed.

Lemma aligned_parse c i s :
  slot i (c_vni c) s -> c_cidr c = net_to_string s -> net_parse (c_cidr c) = Some s.
Proof. intros _ ->. apply net_parse_to_string. Qed.

(** A fresh pick stays in step. *)
Lemma pick_aligned cs cn :
  (forall c, c ∈ cs -> aligned c) -> pick_cluster_network net cs = Ok cn ->
  exists i, slot i (cn_vni cn) (cn_cidr cn).
Proof.
  intros Hal H. destruct (pick_cluster_network_ok _ _ _ _ _ (wf_supernet _ _ Hwf) Hsubnets H)
    as (used & i & Hu & _ & Hv & Hfresh & Hlow & Hi & Hfree & Hused).
  exists i. split; [done|].
  set (k := Z.to_nat (cn_vni cn - vni_start (vni_range net))).
  assert (cn_vni cn = vni_start (vni_range net) + Z.of_nat k) as Hk by lia.
  destruct (decide (k = i)) as [<-|Hne]; [done|exfalso].
  assert (k < i \/ i < k)%nat as [Hlt|Hlt] by lia.
  - assert (is_Some (subnets !! k)) as [s Hs].
    { apply lookup_lt_is_Some. apply lookup_lt_Some in Hi. lia. }
    destruct (Hused k s Hlt Hs) as (u & Hin & Ho).
    destruct (parse_cidrs_inv _ _ _ Hu Hin) as (c & Hc & Hpc).
    destruct (Hal c Hc) as (j & t & Hslot & Hcidr).
    rewrite (aligned_parse _ _ _ Hslot Hcidr) in Hpc. simplify_eq.
    assert (j = k) as -> by (eapply slot_inj; [exact Hslot|by split|done]).
    apply Hfresh. apply list_elem_of_fmap. exists c. split; [|done].
    rewrite (slot_vni_u32 _ _ _ Hslot). destruct Hslot as [_ ->]. lia.
  - assert (vni_start (vni_range net) + Z.of_nat i ∈ map (fun c => as_u32 (c_vni c)) cs) as Hin.
    { apply Hlow. lia. }
    apply list_elem_of_fmap in Hin as (c & Hvc & Hc).
    destruct (Hal c Hc) as (j & t & Hslot & Hcidr).
    rewrite (slot_vni_u32 _ _ _ Hslot) in Hvc. pose proof Hslot as [Hj Hvj].
    assert (j = i) as -> by lia. rewrite Hj in Hi. simplify_eq.
    pose proof (parse_cidrs_in _ _ _ _ Hu Hc (aligned_parse _ _ _ Hslot Hcidr)) as Hu'.
    apply Hfree in Hu'. by rewrite cidrs_overlap_refl in Hu'.
Qed.

(** Rows in step with distinct VNIs have disjoint CIDRs. *)
Lemma aligned_disjoint c1 c2 n1 n2 :
  aligned c1 -> aligned c2 -> c_vni c1 <> c_vni c2 ->
  net_parse (c_cidr c1) = Some n1 -> net_parse (c_cidr c2) = Some n2 ->
  cidrs_overlap n1 n2 = false.
Proof.
  intros (i & s & Hs & Ec) (j & t & Ht & Ed) Hne H1 H2.
  rewrite (aligned_parse _ _ _ Hs Ec) in H1. rewrite (aligned_parse _ _ _ Ht Ed) in H2.
  simplify_eq. destruct (cidrs_overlap n1 n2) eqn:Eo; [|done].
  assert (i = j) as -> by (by eapply slot_inj). destruct Hs as [_ Hs], Ht as [_ Ht]. lia.
Qed.
End alignment.

(** Under a validated configuration, a freshly allocated cluster network
    has an unused 24-bit VNI and a CIDR that shares no address with the CIDR
    of any existing cluster; its bridge range is exactly [bridge_reserve]
    addresses above the network address, and the VM range is non-empty and
    fills the rest up to the broadcast address. Nothing is written. *)
Theorem cluster_network_fresh `{L : IpnetLaws} net db db' cn :
  config_typed net -> validate net = Ok tt ->
  allocate_cluster_network net db = (db', Ok cn) ->
  db' = db /\
  (vni_start (vni_range net) <= cn_vni cn <= vni_end (vni_range net) /\ cn_vni cn < 2 ^ 24) /\
  (forall c, c ∈ clusters db -> as_u32 (c_vni c) <> cn_vni cn) /\
  (forall c m x, c ∈ clusters db -> net_parse (c_cidr c) = Some m ->
     in_net m x -> in_net (cn_cidr cn) x -> False) /\
  cn_bridge_start cn = net_network (cn_cidr cn) + 1 /\
  cn_bridge_end cn = net_network (cn_cidr cn) + bridge_reserve net /\
  cn_vm_start cn = cn_bridge_end cn + 1 /\
  cn_vm_start cn <= cn_vm_end cn /\ cn_vm_end cn = net_broadcast (cn_cidr cn) - 1.
Proof.
  intros T V. destruct (validate_wf _ T V) as [supernet W].
  unfold allocate_cluster_network. intros [= <- H].
  destruct (proj2 (net_subnets_some supernet (cluster_prefix net))) as [subnets Hsub].
  { pose proof (wf_prefix _ _ W). lia. }
  destruct (pick_cluster_network_ok _ _ _ _ _ (wf_supernet _ _ W) Hsub H)
    as (used & i & Hu & Hcn & Hv & Hfresh & _ & Hi & Hfree & _).
  destruct (net_subnets_lookup _ _ _ _ _ Hsub Hi) as [Hlen _].
  pose proof (wf_prefix _ _ W). pose proof (wf_room _ _ W) as Hroom. rewrite <- Hlen in Hroom.
  destruct (carve_ranges (cn_vni cn) (cn_cidr cn) (bridge_reserve net)) with (cn := cn)
    as (E1 & E2 & E3 & E4 & _ & E5); [lia|by destruct (ct_bridge _ T)|done|by rewrite Hlen|].
  split_and!; [done|lia|lia|pose proof (wf_vni _ _ W); lia| | |lia|lia|lia|lia|lia].
  - intros c Hc He. apply Hfresh. apply list_elem_of_fmap. exists c. done.
  - intros c m x Hc Hm Hx Hy. pose proof (parse_cidrs_in _ _ _ _ Hu Hc Hm) as Hin.
    apply Hfree in Hin. rewrite cidrs_overlap_false in Hin. by eapply Hin.
Qed.

(** A small cell. *)
Lemma cluster_network_fresh_witness :
  exists cn, allocate_cluster_network example_net db_empty = (db_empty, Ok cn) /\
  db_empty = db_empty /\
  (10000 <= cn_vni cn <= 10010 /\ cn_vni cn < 2 ^ 24) /\
  (forall c, c ∈ clusters db_empty -> as_u32 (c_vni c) <> cn_vni cn) /\
  (forall c m x, c ∈ clusters db_empty -> net_parse (c_cidr c) = Some m ->
     in_net m x -> in_net (cn_cidr cn) x -> False) /\
  cn_bridge_start cn = net_network (cn_cidr cn) + 1 /\
  cn_bridge_end cn = net_network (cn_cidr cn) + bridge_reserve example_net /\
  cn_vm_start cn = cn_bridge_end cn + 1 /\
  cn_vm_start cn <= cn_vm_end cn /\ cn_vm_end cn = net_broadcast (cn_cidr cn) - 1.
Proof.
  assert (is_ok (pick_cluster_network example_net []) = true) as Hok by (vm_compute; reflexivity).
  destruct (pick_cluster_network example_net []) as [cn|e] eqn:Hcn; [|discriminate].
  assert (allocate_cluster_network example_net db_empty = (db_empty, Ok cn)) as Ha
    by (unfold allocate_cluster_network; simpl; by rewrite Hcn).
  exists cn. split; [exact Ha|].
  apply (cluster_network_fresh example_net db_empty db_empty cn);
    [exact example_net_typed|vm_compute; reflexivity|exact Ha].
Defined.
