(* ===== verification/Clusters.v ===== *)
(** * Clusters and their presence on hosts (crates/basis-controller/src/db.rs)

    Cluster rows, the [host_clusters] membership rows with their ACTIVE /
    PENDING_TEARDOWN life cycle and per-host bridge addresses, and the sticky
    owner of a cluster's LAN addresses. *)

From S2P Require Import Prelude Ipv4 Ipnet CidrNet Proto Config Overcommit DbTypes Ipam.

(** Which of several violated UNIQUE constraints a failed INSERT names is up
    to SQLite. *)
Class Sqlite := { report_unique : list string -> string }.
Class SqliteLaws `(S : Sqlite) := {
  report_unique_in l : l <> [] -> report_unique l ∈ l;
}.

(** ** Cluster rows *)

Record ClusterIdentity := {
  ci_id : string;
  ci_name : string;
  ci_control_plane_endpoint : string;
  ci_apiserver_visibility : Z;
  ci_external_pool : string;
  ci_service_block_cidr : string;
  ci_trust_domain : string;
  ci_created_at : string;
}.

(** [ClusterRow::from_network]. *)
Definition from_network `{Ipnet} (identity : ClusterIdentity) (network : ClusterNetwork) : ClusterRow := {|
  c_id := ci_id identity;
  c_name := ci_name identity;
  c_vni := cn_vni network;
  c_cidr := net_to_string (cn_cidr network);
  c_bridge_range_start := ip_to_string (cn_bridge_start network);
  c_bridge_range_end := ip_to_string (cn_bridge_end network);
  c_vm_range_start := ip_to_string (cn_vm_start network);
  c_vm_range_end := ip_to_string (cn_vm_end network);
  c_prefix_len := cn_prefix_len network;
  c_control_plane_endpoint := ci_control_plane_endpoint identity;
  c_apiserver_visibility := ci_apiserver_visibility identity;
  c_external_pool := ci_external_pool identity;
  c_service_block_cidr := ci_service_block_cidr identity;
  c_trust_domain := ci_trust_domain identity;
  c_created_at := ci_created_at identity;
|}.

(** [ClusterRow::is_apiserver_public]. *)
Definition is_apiserver_public (c : ClusterRow) : bool := c_apiserver_visibility c =? 0.

(** The UNIQUE constraints of [clusters] a row would violate. *)
Definition cluster_violations (c : ClusterRow) (t : list ClusterRow) : list string :=
  (if existsb (fun r => c_id r =$ c_id c) t then ["clusters.id"] else []) ++
  (if existsb (fun r => c_name r =$ c_name c) t then ["clusters.name"] else []) ++
  (if existsb (fun r => c_vni r =? c_vni c) t then ["clusters.vni"] else []).

(** [Db::insert_cluster]. *)
Definition insert_cluster `{Sqlite} (c : ClusterRow) : DbM unit :=
  fun db =>
    match cluster_violations c (clusters db) with
    | [] => (set_clusters (fun t => t ++ [c]) db, Ok tt)
    | vs =>
        let column := report_unique vs in
        if (column =$ "clusters.vni") || (column =$ "clusters.cidr")
        then (db, Err (AllocationRaced ("UNIQUE constraint failed: " +:+ column)))
        else (db, Err (Conflict ("cluster '" +:+ c_name c +:+ "' already exists")))
    end.

(** [Db::get_cluster], [get_cluster_by_name] and [list_clusters]. *)
Definition get_cluster (id : string) : DbM ClusterRow :=
  fun db => (db, ok_or (NotFound ("cluster '" +:+ id +:+ "'"))
                       (select1 (fun c => c_id c =$ id) (clusters db))).
Definition get_cluster_by_name (name : string) : DbM (option ClusterRow) :=
  se_gets (fun db => select1 (fun c => c_name c =$ name) (clusters db)).
Definition list_clusters : DbM (list ClusterRow) := se_gets clusters.

Definition with_trust_domain (td : string) (c : ClusterRow) : ClusterRow := {|
  c_id := c_id c; c_name := c_name c; c_vni := c_vni c; c_cidr := c_cidr c;
  c_bridge_range_start := c_bridge_range_start c; c_bridge_range_end := c_bridge_range_end c;
  c_vm_range_start := c_vm_range_start c; c_vm_range_end := c_vm_range_end c;
  c_prefix_len := c_prefix_len c; c_control_plane_endpoint := c_control_plane_endpoint c;
  c_apiserver_visibility := c_apiserver_visibility c; c_external_pool := c_external_pool c;
  c_service_block_cidr := c_service_block_cidr c; c_trust_domain := td;
  c_created_at := c_created_at c |}.

(** [Db::update_cluster_trust_domain]. *)
Definition update_cluster_trust_domain (id td : string) : DbM unit :=
  se_modify (set_clusters (update_where (fun c => c_id c =$ id) (with_trust_domain td))).

(** The foreign keys on [clusters(id)] without a cascade. *)
Definition cluster_referenced (db : Db) (id : string) : bool :=
  existsb (fun r => hc_cluster_id r =$ id) (host_clusters db) ||
  existsb (fun v => vm_cluster_id v =$ id) (vms db).

(** [DELETE FROM clusters WHERE id = ?]: refused while referenced, and
    cascading to [cluster_lan_vip_owner]. *)
Definition delete_cluster_row (id : string) : DbM unit :=
  fun db =>
    if existsb (fun c => c_id c =$ id) (clusters db) && cluster_referenced db id
    then (db, Err (Sqlx ForeignKeyViolation))
    else (set_lan_vip_owner (delete_where (fun r => lvo_cluster_id r =$ id))
            (set_clusters (delete_where (fun c => c_id c =$ id)) db), Ok tt).

(** [Db::delete_cluster]. *)
Definition delete_cluster (id : string) : DbM unit := delete_cluster_row id.

(** ** Membership rows *)

Definition at_pair (cluster_id host_id : string) (r : HostClusterRow) : bool :=
  (hc_cluster_id r =$ cluster_id) && (hc_host_id r =$ host_id).

Definition with_hc_state (s : Z) (r : HostClusterRow) : HostClusterRow := {|
  hc_cluster_id := hc_cluster_id r; hc_host_id := hc_host_id r;
  hc_ip_address := hc_ip_address r; hc_state := s |}.

(** The addresses of a cluster's bridges. *)
Definition bridge_ips (db : Db) (cluster_id : string) : list string :=
  map hc_ip_address (select (fun r => hc_cluster_id r =$ cluster_id) (host_clusters db)).

(** The foreign keys of a membership row. *)
Definition pair_references_ok (db : Db) (cluster_id host_id : string) : bool :=
  existsb (fun c => c_id c =$ cluster_id) (clusters db) &&
  existsb (fun h => h_id h =$ host_id) (hosts db).

(** [Db::ensure_host_cluster_active]. *)
Definition ensure_host_cluster_active (cluster : ClusterRow) (host_id : string) : DbM string :=
  do! range <- se_of (bridge_range cluster) ;
  se_tx (fun db =>
    match select1 (at_pair (c_id cluster) host_id) (host_clusters db) with
    | Some r =>
        (set_host_clusters (update_where (at_pair (c_id cluster) host_id) (with_hc_state 0)) db,
         Ok (hc_ip_address r))
    | None =>
        match find_cte (fun n => negb (existsb (String.eqb (sql_printf_ip n))
                                               (bridge_ips db (c_id cluster))))
                       (range_start range) (range_end range) with
        | None => (db, Err (Exhausted ("cluster " +:+ c_id cluster +:+ " bridge_range fully allocated")))
        | Some n =>
            if pair_references_ok db (c_id cluster) host_id then
              (set_host_clusters (fun t => t ++
                 [{| hc_cluster_id := c_id cluster; hc_host_id := host_id;
                     hc_ip_address := sql_printf_ip n; hc_state := 0 |}]) db,
               Ok (sql_printf_ip n))
            else (db, Err (Sqlx ForeignKeyViolation))
        end
    end).

(** A VM of the pair that is not being torn down. *)
Definition live_vm_of (cluster_id host_id : string) (v : VmRow) : bool :=
  (vm_host_id v =$ host_id) && (vm_cluster_id v =$ cluster_id) &&
  negb (vm_state v =? VM_STATE_PENDING_TEARDOWN).

(** [Db::mark_host_cluster_pending_teardown]. *)
Definition mark_host_cluster_pending_teardown (cluster_id host_id : string) : DbM unit :=
  se_modify (fun db =>
    set_host_clusters
      (update_where (fun r => at_pair cluster_id host_id r &&
                              negb (existsb (live_vm_of cluster_id host_id) (vms db)))
                    (with_hc_state 1)) db).

(** [Db::mark_cluster_pending_teardown_all_hosts]: the affected hosts. *)
Definition mark_cluster_pending_teardown_all_hosts (cluster_id : string) : DbM (list string) :=
  fun db =>
    (set_host_clusters (update_where (fun r => hc_cluster_id r =$ cluster_id) (with_hc_state 1)) db,
     Ok (map hc_host_id (select (fun r => hc_cluster_id r =$ cluster_id) (host_clusters db)))).

(** [clusters c JOIN host_clusters hc ON hc.cluster_id = c.id WHERE
    hc.host_id = ? AND hc.state = ?]. *)
Definition join_host_clusters (db : Db) (host_id : string) (state : Z)
    : list (ClusterRow * HostClusterRow) :=
  c ← clusters db;
  map (pair c) (select (fun r => (hc_cluster_id r =$ c_id c) && (hc_host_id r =$ host_id) &&
                                 (hc_state r =? state)) (host_clusters db)).

(** [Db::list_active_host_clusters]: each cluster with this host's bridge IP. *)
Definition list_active_host_clusters (host_id : string) : DbM (list (ClusterRow * string)) :=
  se_gets (fun db => map (fun '(c, r) => (c, hc_ip_address r)) (join_host_clusters db host_id 0)).

Record PendingClusterTombstone := { pt_cluster_id : string; pt_vni : Z; pt_cidr : string }.

(** [Db::list_pending_cluster_tombstones]. *)
Definition list_pending_cluster_tombstones (host_id : string) : DbM (list PendingClusterTombstone) :=
  se_gets (fun db => map (fun '(c, _) => {| pt_cluster_id := c_id c; pt_vni := c_vni c;
                                            pt_cidr := c_cidr c |})
                         (join_host_clusters db host_id 1)).

(** [host_clusters hc JOIN hosts h ON h.id = hc.host_id], ACTIVE rows of a cluster. *)
Definition active_hosts (db : Db) (cluster_id : string) : list (HostClusterRow * HostRow) :=
  r ← select (fun r => (hc_cluster_id r =$ cluster_id) && (hc_state r =? 0)) (host_clusters db);
  map (pair r) (select (fun h => h_id h =$ hc_host_id r) (hosts db)).

(** [Db::list_cluster_vteps]. *)
Definition list_cluster_vteps (cluster_id : string) : DbM (list string) :=
  se_gets (fun db => remove_dups
    (map (fun '(_, h) => h_vtep_address h)
         (select (fun '(_, h) => h_vtep_address h <>$ "") (active_hosts db cluster_id)))).

(** [Db::list_hosts_in_cluster]. *)
Definition list_hosts_in_cluster (cluster_id : string) : DbM (list string) :=
  se_gets (fun db => remove_dups
    (map vm_host_id (select (fun v => vm_cluster_id v =$ cluster_id) (vms db)))).

(** [Db::list_active_carriers]: [ORDER BY hc.host_id ASC]. *)
Definition list_active_carriers (cluster_id : string) : DbM (list string) :=
  se_gets (fun db => merge_sort String.le
    (map (fun '(r, _) => hc_host_id r)
         (select (fun '(_, h) => h_healthy h) (active_hosts db cluster_id)))).

(** ** The owner of the LAN addresses *)

(** [INSERT OR REPLACE INTO cluster_lan_vip_owner]. *)
Definition replace_lan_vip_owner (cluster_id host_id : string) : DbM unit :=
  fun db =>
    if existsb (fun c => c_id c =$ cluster_id) (clusters db) then
      (set_lan_vip_owner (fun t =>
         delete_where (fun r => lvo_cluster_id r =$ cluster_id) t ++
         [{| lvo_cluster_id := cluster_id; lvo_host_id := host_id |}]) db, Ok tt)
    else (db, Err (Sqlx ForeignKeyViolation)).

(** [Db::elect_lan_vip_owner]. *)
Definition elect_lan_vip_owner (cluster_id : string) (carriers : list string) : DbM string :=
  fun db =>
    let prev := lvo_host_id <$>
                select1 (fun r => lvo_cluster_id r =$ cluster_id) (cluster_lan_vip_owner db) in
    match prev with
    | Some p =>
        if existsb (fun h => h =$ p) carriers then (db, Ok p)
        else match carriers with
             | [] => (db, Ok "")
             | h :: _ => (run! replace_lan_vip_owner cluster_id h ; se_ret h) db
             end
    | None =>
        match carriers with
        | [] => (db, Ok "")
        | h :: _ => (run! replace_lan_vip_owner cluster_id h ; se_ret h) db
        end
    end.

(** ** Membership: bridge addresses *)

(** The keys of [host_clusters]: one row per (cluster, host), and bridge
    addresses unique within a cluster. *)
Record members_ok (t : list HostClusterRow) : Prop := {
  mo_pair : NoDup (map (fun r => (hc_cluster_id r, hc_host_id r)) t);
  mo_ip : NoDup (map (fun r => (hc_cluster_id r, hc_ip_address r)) t);
}.

Lemma at_pair_spec c h r : at_pair c h r = true <-> hc_cluster_id r = c /\ hc_host_id r = h.
Proof. unfold at_pair. bsimp. Qed.

Lemma members_update t p s : members_ok t -> members_ok (update_where p (with_hc_state s) t).
Proof.
  intros [Hp Hi]. split; rewrite map_update_where; done.
Qed.

Lemma members_app t r :
  members_ok t -> (forall r', r' ∈ t -> at_pair (hc_cluster_id r) (hc_host_id r) r' = false) ->
  (forall r', r' ∈ t -> hc_cluster_id r' = hc_cluster_id r -> hc_ip_address r' <> hc_ip_address r) ->
  members_ok (t ++ [r]).
Proof.
  intros [Hp Hi] Hn Hf. split; apply NoDup_map_app; try done.
  - intros r' Hr [= E1 E2]. apply Hn in Hr. unfold at_pair in Hr. bsimp. naive_solver.
  - intros r' Hr [= E1 E2]. by eapply Hf.
Qed.

Lemma members_unique t c h r1 r2 :
  members_ok t -> r1 ∈ t -> r2 ∈ t -> at_pair c h r1 = true -> at_pair c h r2 = true -> r1 = r2.
Proof.
  intros [Hp _] H1 H2 [E1 E2]%at_pair_spec [E3 E4]%at_pair_spec.
  eapply (NoDup_map_inj _ _ _ _ Hp H1 H2). congruence.
Qed.

Lemma update_where_id {A} (p : A -> bool) f (t : list A) :
  (forall r, r ∈ t -> p r = true -> f r = r) -> update_where p f t = t.
Proof.
  induction t as [|r t IH]; intros H; simpl; [done|]. unfold update_where in *.
  rewrite IH by set_solver. destruct (p r) eqn:E; [|done]. by rewrite H by set_solver.
Qed.

Lemma elem_of_bridge_ips db c ip :
  ip ∈ bridge_ips db c <-> exists r, r ∈ host_clusters db /\ hc_cluster_id r = c /\ hc_ip_address r = ip.
Proof.
  unfold bridge_ips. rewrite list_elem_of_fmap. setoid_rewrite elem_of_select.
  split; [intros (r & ? & ? & ?)|intros (r & ? & ? & ?)]; exists r; bsimp.
Qed.

(** The two ways [ensure_host_cluster_active] succeeds. *)
Lemma ensure_cases cluster host db db' ip range :
  bridge_range cluster = Ok range -> range_start range <= range_end range ->
  ensure_host_cluster_active cluster host db = (db', Ok ip) ->
  (exists r, r ∈ host_clusters db /\ at_pair (c_id cluster) host r = true /\ ip = hc_ip_address r /\
     db' = set_host_clusters (update_where (at_pair (c_id cluster) host) (with_hc_state 0)) db) \/
  ((forall r, r ∈ host_clusters db -> at_pair (c_id cluster) host r = false) /\
   exists n, range_start range <= n <= range_end range /\ ip = ip_to_string n /\
     ip ∉ bridge_ips db (c_id cluster) /\
     pair_references_ok db (c_id cluster) host = true /\
     db' = set_host_clusters (fun t => t ++
       [{| hc_cluster_id := c_id cluster; hc_host_id := host;
           hc_ip_address := ip; hc_state := 0 |}]) db).
Proof.
  intros Hb Hr. unfold ensure_host_cluster_active, se_bind, se_of. rewrite Hb.
  intros H%se_tx_ok. destruct (select1 _ _) as [r|] eqn:Es.
  - left. simplify_eq. apply select1_Some in Es as [??]. by exists r.
  - right. pose proof (proj1 (select1_None _ _) Es) as Hn. split; [done|].
    rewrite find_cte_incl in H by done.
    destruct (find_incl _ _ _) as [n|] eqn:Ef; [|done].
    apply find_incl_Some in Ef as (Hn1 & Hfree & _).
    destruct (pair_references_ok _ _ _) eqn:Ep; [|done]. simplify_eq.
    rewrite sql_printf_ip_eq in *. exists n. split_and!; try done; try lia.
    by apply existsb_string_not_In, negb_true_iff.
Qed.

(** An active row makes the call a lookup. *)
Lemma ensure_again cluster host db range r :
  bridge_range cluster = Ok range -> members_ok (host_clusters db) ->
  r ∈ host_clusters db -> at_pair (c_id cluster) host r = true ->
  ensure_host_cluster_active cluster host db =
    (set_host_clusters (update_where (at_pair (c_id cluster) host) (with_hc_state 0)) db,
     Ok (hc_ip_address r)).
Proof.
  intros Hb Hm Hr Hp. unfold ensure_host_cluster_active, se_bind, se_of. rewrite Hb.
  unfold se_tx. destruct (select1 _ _) as [r'|] eqn:Es.
  - apply select1_Some in Es as [??]. by rewrite (members_unique _ (c_id cluster) host r' r Hm).
  - by rewrite (proj1 (select1_None _ _) Es r Hr) in Hp.
Qed.

(** The row of the pair after a successful call. *)
Lemma ensure_row cluster host db db' ip range :
  bridge_range cluster = Ok range -> range_start range <= range_end range ->
  ensure_host_cluster_active cluster host db = (db', Ok ip) ->
  {| hc_cluster_id := c_id cluster; hc_host_id := host; hc_ip_address := ip; hc_state := 0 |}
    ∈ host_clusters db'.
Proof.
  intros Hb Hr H. destruct (ensure_cases _ _ _ _ _ _ Hb Hr H)
    as [(r & Hin & Hp & -> & ->)|(_ & n & _ & _ & _ & _ & ->)]; destruct db; simpl in *.
  - apply elem_of_update_where. exists r. split; [done|]. rewrite Hp.
    apply at_pair_spec in Hp as [<- <-]. done.
  - set_solver.
Qed.

Lemma ensure_members cluster host db db' ip range :
  bridge_range cluster = Ok range -> range_start range <= range_end range ->
  members_ok (host_clusters db) ->
  ensure_host_cluster_active cluster host db = (db', Ok ip) -> members_ok (host_clusters db').
Proof.
  intros Hb Hr Hm H. destruct (ensure_cases _ _ _ _ _ _ Hb Hr H)
    as [(r & Hin & Hp & -> & ->)|(Hn & n & _ & _ & Hf & _ & ->)].
  - destruct db; simpl in *. by apply members_update.
  - rewrite elem_of_bridge_ips in Hf. destruct db; simpl in *. apply members_app; simpl; [done|done|].
    intros r' Hr' E1 E2. apply Hf. by exists r'.
Qed.

(** Putting a cluster on a host is idempotent and keeps addresses. A
    successful call leaves an ACTIVE row of the pair with the returned bridge
    address and every other row untouched; the address is the one the pair
    already had, or a fresh one from the bridge range that no other host of
    the cluster has; the uniqueness of pairs and of addresses is kept; and
    calling again returns the same address and changes nothing. *)
Theorem ensure_host_cluster_active_spec cluster host db db' ip range :
  bridge_range cluster = Ok range -> range_start range <= range_end range ->
  members_ok (host_clusters db) ->
  ensure_host_cluster_active cluster host db = (db', Ok ip) ->
  members_ok (host_clusters db') /\
  {| hc_cluster_id := c_id cluster; hc_host_id := host; hc_ip_address := ip; hc_state := 0 |}
    ∈ host_clusters db' /\
  (forall r, at_pair (c_id cluster) host r = false ->
     (r ∈ host_clusters db' <-> r ∈ host_clusters db)) /\
  ((exists r, r ∈ host_clusters db /\ at_pair (c_id cluster) host r = true /\ hc_ip_address r = ip) \/
   (exists n, range_start range <= n <= range_end range /\ ip = ip_to_string n /\
      ip ∉ bridge_ips db (c_id cluster))) /\
  ensure_host_cluster_active cluster host db' = (db', Ok ip).
Proof.
  intros Hb Hr Hm H. pose proof (ensure_members _ _ _ _ _ _ Hb Hr Hm H) as Hm'.
  pose proof (ensure_row _ _ _ _ _ _ Hb Hr H) as Hrow.
  assert (at_pair (c_id cluster) host {| hc_cluster_id := c_id cluster; hc_host_id := host;
            hc_ip_address := ip; hc_state := 0 |} = true) as Hp by (by apply at_pair_spec).
  split_and!; [done|done| | |].
  - intros r Hf. destruct (ensure_cases _ _ _ _ _ _ Hb Hr H)
      as [(r' & Hin & Hp' & -> & ->)|(Hn & n & _ & _ & Hfr & _ & ->)]; destruct db; simpl in *.
    + rewrite elem_of_update_where. split.
      * intros (r0 & Hr0 & ->). destruct (at_pair _ _ r0) eqn:E; [|done].
        unfold at_pair in *. simpl in Hf. congruence.
      * intros Hr0. exists r. by rewrite Hf.
    + rewrite elem_of_app, list_elem_of_singleton. split; [|tauto].
      intros [? | -> ]; [done|]. congruence.
  - destruct (ensure_cases _ _ _ _ _ _ Hb Hr H)
      as [(r' & Hin & Hp' & -> & ->)|(Hn & n & ? & ? & ? & _ & ->)]; [left|right]; eauto.
  - rewrite (ensure_again _ _ _ _ _ Hb Hm' Hrow Hp). simpl. f_equal.
    destruct db' as [a b hc]. simpl in *. f_equal. apply update_where_id.
    intros r Hin Hr'. by rewrite (members_unique _ _ _ _ _ Hm' Hin Hrow Hr' Hp).
Qed.

(** A bridge range is reported exhausted only when the host has no row
    for the cluster and every address of the range belongs to some other
    host; whatever the error, nothing is written. *)
Theorem ensure_host_cluster_active_errors cluster host db db' e range :
  bridge_range cluster = Ok range -> range_start range <= range_end range ->
  ensure_host_cluster_active cluster host db = (db', Err e) ->
  db' = db /\
  (forall r, r ∈ host_clusters db -> at_pair (c_id cluster) host r = false) /\
  (forall m, e = Exhausted m ->
     forall n, range_start range <= n <= range_end range ->
     exists r, r ∈ host_clusters db /\ hc_cluster_id r = c_id cluster /\
               hc_host_id r <> host /\ hc_ip_address r = ip_to_string n) /\
  ((forall m, e <> Exhausted m) -> pair_references_ok db (c_id cluster) host = false).
Proof.
  intros Hb Hr H. unfold ensure_host_cluster_active, se_bind, se_of in H. rewrite Hb in H.
  pose proof (se_tx_err _ _ _ _ H) as ->. unfold se_tx in H.
  destruct (select1 _ _) as [r|] eqn:Es; [done|].
  pose proof (proj1 (select1_None _ _) Es) as Hn. split; [done|]. split; [done|].
  rewrite find_cte_incl in H by done.
  destruct (find_incl _ _ _) as [n|] eqn:Ef.
  - destruct (pair_references_ok _ _ _); [done|]. simplify_eq. split; [done|]. done.
  - simplify_eq. split; [|intros Hx; by edestruct Hx].
    intros m _ n Hrange. apply (proj1 (find_incl_None _ _ _) Ef) in Hrange.
    apply negb_false_iff, existsb_string_In, elem_of_bridge_ips in Hrange
      as (r & Hin & Hc & Hip).
    exists r. split_and!; [done|done| |by rewrite Hip, sql_printf_ip_eq].
    intros Hh. specialize (Hn _ Hin). by rewrite (proj2 (at_pair_spec _ _ _) (conj Hc Hh)) in Hn.
Qed.

(** Deleting the last VM of a cluster on a host and recreating one before
    the tombstone is acknowledged gives back the same bridge: whatever
    [mark_host_cluster_pending_teardown] did, re-activating the pair returns
    the address it had and restores the membership table. *)
Theorem resurrection_cancels_teardown cluster host db db1 db2 ip range :
  bridge_range cluster = Ok range -> range_start range <= range_end range ->
  members_ok (host_clusters db) ->
  ensure_host_cluster_active cluster host db = (db1, Ok ip) ->
  mark_host_cluster_pending_teardown (c_id cluster) host db1 = (db2, Ok tt) ->
  exists db3, ensure_host_cluster_active cluster host db2 = (db3, Ok ip) /\
              host_clusters db3 = host_clusters db1.
Proof.
  intros Hb Hr Hm H1 H2. pose proof (ensure_members _ _ _ _ _ _ Hb Hr Hm H1) as Hm1.
  pose proof (ensure_row _ _ _ _ _ _ Hb Hr H1) as Hrow1.
  unfold mark_host_cluster_pending_teardown, se_modify in H2. injection H2 as <-.
  set (q r := at_pair (c_id cluster) host r && _).
  set (row := {| hc_cluster_id := c_id cluster; hc_host_id := host;
                 hc_ip_address := ip; hc_state := 0 |}) in *.
  assert (at_pair (c_id cluster) host row = true) as Hp by (by apply at_pair_spec).
  eexists. split.
  - rewrite (ensure_again cluster host _ range (if q row then with_hc_state 1 row else row) Hb).
    + by destruct (q row).
    + destruct db1; simpl. by apply members_update.
    + destruct db1; simpl in *. apply elem_of_update_where. by exists row.
    + by destruct (q row).
  - destruct db1 as [a b hc]; simpl in *. unfold update_where. rewrite List.map_map.
    rewrite <- (List.map_id hc) at 2. apply List.map_ext_in. intros r Hin%list_elem_of_In.
    destruct (at_pair (c_id cluster) host r) eqn:E.
    + rewrite (members_unique _ _ _ _ _ Hm1 Hin Hrow1 E Hp).
      assert (forall s, at_pair (c_id cluster) host (with_hc_state s row) = true) as Hps by done.
      destruct (q row); [by rewrite Hps|by rewrite Hp].
    + assert (q r = false) as -> by (unfold q; by rewrite E). by rewrite E.
Qed.

(** ** Carriers and the LAN owner *)

Lemma elem_of_active_hosts db c r h :
  (r, h) ∈ active_hosts db c <->
  r ∈ host_clusters db /\ hc_cluster_id r = c /\ hc_state r = 0 /\
  h ∈ hosts db /\ h_id h = hc_host_id r.
Proof.
  unfold active_hosts. rewrite list_elem_of_bind. split.
  - intros (r' & (h' & [= -> ->] & Hh)%list_elem_of_fmap & Hr).
    apply elem_of_select in Hh as [? ?], Hr as [? ?]. bsimp. naive_solver.
  - intros (Hr & Hc & Hs & Hh & Hi). exists r. split.
    + apply list_elem_of_fmap. exists h. split; [done|]. apply elem_of_select. bsimp.
    + apply elem_of_select. bsimp.
Qed.

(** The carriers of a cluster are exactly the healthy hosts with an
    ACTIVE membership row, in the order of their ids; the read changes
    nothing. *)
Theorem list_active_carriers_spec c db :
  exists l, list_active_carriers c db = (db, Ok l) /\ StronglySorted String.le l /\
  forall id, id ∈ l <-> exists r h,
    r ∈ host_clusters db /\ hc_cluster_id r = c /\ hc_state r = 0 /\
    h ∈ hosts db /\ h_id h = id /\ hc_host_id r = id /\ h_healthy h = true.
Proof.
  eexists. split; [done|]. split.
  - apply StronglySorted_merge_sort; apply _.
  - intros id. rewrite (merge_sort_Permutation String.le), list_elem_of_fmap. split.
    + intros ([r h] & -> & [Hin Hh]%elem_of_select).
      apply elem_of_active_hosts in Hin as (? & ? & ? & ? & ?). exists r, h. by split_and!.
    + intros (r & h & ? & ? & ? & ? & ? & ? & ?). exists (r, h). split; [done|].
      apply elem_of_select. split; [|done]. apply elem_of_active_hosts. split_and!; congruence.
Qed.

Definition owners_ok (t : list LanVipOwnerRow) : Prop := NoDup (map lvo_cluster_id t).

Lemma replace_owner_ok c h db db' :
  replace_lan_vip_owner c h db = (db', Ok tt) ->
  owners_ok (cluster_lan_vip_owner db) ->
  owners_ok (cluster_lan_vip_owner db') /\
  {| lvo_cluster_id := c; lvo_host_id := h |} ∈ cluster_lan_vip_owner db' /\
  (forall r, lvo_cluster_id r <> c ->
     (r ∈ cluster_lan_vip_owner db' <-> r ∈ cluster_lan_vip_owner db)).
Proof.
  unfold replace_lan_vip_owner. destruct (existsb _ _); [|done]. intros [= <-] Ho.
  destruct db; simpl in *. split_and!; [|set_solver|].
  - apply NoDup_map_app; [by apply NoDup_delete_where|].
    intros r' [_ Hr]%elem_of_delete_where. simpl. bsimp.
  - intros r Hr. rewrite elem_of_app, elem_of_delete_where, list_elem_of_singleton. bsimp.
    split; [|tauto]. intros [[? _]| -> ]; [done|]. done.
Qed.

Lemma elect_keeps c p carriers db :
  owners_ok (cluster_lan_vip_owner db) ->
  {| lvo_cluster_id := c; lvo_host_id := p |} ∈ cluster_lan_vip_owner db -> p ∈ carriers ->
  elect_lan_vip_owner c carriers db = (db, Ok p).
Proof.
  intros Ho Hin Hp. unfold elect_lan_vip_owner.
  destruct (select1 _ _) as [r|] eqn:Es; simpl.
  - apply select1_Some in Es as [Hr He]. bsimp.
    assert (r = {| lvo_cluster_id := c; lvo_host_id := p |}) as ->
      by (by eapply (NoDup_map_inj _ _ _ _ Ho)). simpl.
    by rewrite (proj2 (existsb_true _ _)) by (exists p; by rewrite String.eqb_refl).
  - apply (proj1 (select1_None _ _) Es) in Hin. simpl in Hin. by rewrite String.eqb_refl in Hin.
Qed.

(** The LAN owner is sticky. With a carrier available, the election
    returns one of the carriers and records it as the cluster's only owner;
    an owner that is still a carrier is kept and nothing is written; the
    owners of other clusters are untouched; and the elected host wins every
    later election in which it is still a carrier. *)
Theorem elect_lan_vip_owner_sticky c carriers db :
  owners_ok (cluster_lan_vip_owner db) ->
  existsb (fun r => c_id r =$ c) (clusters db) = true -> carriers <> [] ->
  exists h db', elect_lan_vip_owner c carriers db = (db', Ok h) /\
    h ∈ carriers /\ owners_ok (cluster_lan_vip_owner db') /\
    {| lvo_cluster_id := c; lvo_host_id := h |} ∈ cluster_lan_vip_owner db' /\
    (forall p, {| lvo_cluster_id := c; lvo_host_id := p |} ∈ cluster_lan_vip_owner db ->
       p ∈ carriers -> h = p /\ db' = db) /\
    (forall r, lvo_cluster_id r <> c ->
       (r ∈ cluster_lan_vip_owner db' <-> r ∈ cluster_lan_vip_owner db)) /\
    (forall carriers', h ∈ carriers' -> elect_lan_vip_owner c carriers' db' = (db', Ok h)).
Proof.
  intros Ho Hc Hne. destruct carriers as [|h0 carriers]; [done|].
  destruct (existsb (fun r => (lvo_cluster_id r =$ c) && bool_decide (lvo_host_id r ∈ h0 :: carriers))
              (cluster_lan_vip_owner db)) eqn:Ex.
  { apply existsb_true in Ex as ([c' p] & Hp & [Ec Hin]%andb_true_iff).
    apply String.eqb_eq in Ec. simpl in Ec. subst c'. apply bool_decide_eq_true in Hin.
    exists p, db. split_and!; [by apply elect_keeps|done|done|done| |done|].
    - intros p' Hp' _. assert ({| lvo_cluster_id := c; lvo_host_id := p |} =
        {| lvo_cluster_id := c; lvo_host_id := p' |}) by (by eapply (NoDup_map_inj _ _ _ _ Ho)).
      naive_solver.
    - intros. by apply elect_keeps. }
  assert (forall p, {| lvo_cluster_id := c; lvo_host_id := p |} ∈ cluster_lan_vip_owner db ->
                    p ∈ h0 :: carriers -> False) as Hno.
  { intros p Hp Hin. apply (proj1 (existsb_false _ _) Ex) in Hp. simpl in Hp.
    rewrite String.eqb_refl, bool_decide_eq_true_2 in Hp by done. done. }
  destruct (replace_lan_vip_owner c h0 db) as [db' r] eqn:Er.
  assert (r = Ok tt) as -> by (unfold replace_lan_vip_owner in Er; rewrite Hc in Er; by simplify_eq).
  destruct (replace_owner_ok _ _ _ _ Er Ho) as (Ho' & Hin' & Hoth).
  exists h0, db'. split_and!; [|set_solver|done|done| |done|by intros; apply elect_keeps].
  - unfold elect_lan_vip_owner, se_bind, se_ret. rewrite Er.
    destruct (select1 _ _) as [row|] eqn:Es; simpl; [|done].
    destruct (_ || _) eqn:Ee; [|done]. exfalso. apply (Hno (lvo_host_id row));
    apply select1_Some in Es as [Hrow Hrc]; bsimp; subst c; [by destruct row|].
    destruct Ee as [->|Hex]; [set_solver|]. destruct Hex as (x & Hx & ->%String.eqb_eq).
    set_solver.
  - intros p Hp Hin. exfalso. by eapply Hno.
Qed.

(** ** Racing cluster creations *)

Lemma insert_cluster_ok `{Sqlite} c db db' :
  insert_cluster c db = (db', Ok tt) ->
  clusters db' = clusters db ++ [c] /\
  forall r, r ∈ clusters db -> c_id r <> c_id c /\ c_name r <> c_name c /\ c_vni r <> c_vni c.
Proof.
  unfold insert_cluster, cluster_violations. intros Hi.
  destruct (existsb _ _) eqn:E1 in Hi; [simpl in Hi; by destruct (_ || _)|].
  destruct (existsb _ _) eqn:E2 in Hi; [simpl in Hi; by destruct (_ || _)|].
  destruct (existsb _ _) eqn:E3 in Hi; [simpl in Hi; by destruct (_ || _)|].
  simpl in Hi. injection Hi as <-. split; [by destruct db|]. intros r Hr.
  apply (proj1 (existsb_false _ _)) with (r := r) in E1, E2, E3; try done.
  apply String.eqb_neq in E1, E2. by apply Z.eqb_neq in E3.
Qed.

Section races.
Context `{L : IpnetLaws} `{Sqlite}.
Variable net : NetworkConfig.

(** The cluster tables a controller can reach: networks are picked from a
    snapshot, any earlier or concurrent table, and committed later. *)
Inductive cluster_table : list ClusterRow -> Prop :=
  | ct_empty : cluster_table []
  | ct_create snap db db' identity cn :
      cluster_table (clusters snap) -> cluster_table (clusters db) ->
      allocate_cluster_network net snap = (snap, Ok cn) ->
      insert_cluster (from_network identity cn) db = (db', Ok tt) ->
      cluster_table (clusters db')
  | ct_trust_domain db db' id td :
      cluster_table (clusters db) ->
      update_cluster_trust_domain id td db = (db', Ok tt) -> cluster_table (clusters db')
  | ct_delete db db' id :
      cluster_table (clusters db) ->
      delete_cluster id db = (db', Ok tt) -> cluster_table (clusters db').

Lemma cluster_table_aligned supernet subnets t :
  config_wf net supernet -> net_subnets supernet (cluster_prefix net) = Some subnets ->
  cluster_table t -> (forall c, c ∈ t -> aligned net subnets c) /\ NoDup (map c_vni t).
Proof.
  intros Hwf Hsub. induction 1 as [|snap db db' idn cn _ [IHs _] _ [IHd IHn] Ha Hi
                                  |db db' id td _ [IHd IHn] Hu|db db' id _ [IHd IHn] Hd].
  - split; [set_solver|constructor].
  - injection Ha as Ha. destruct (pick_aligned _ _ _ Hwf Hsub _ _ IHs Ha) as [i Hi'].
    destruct (insert_cluster_ok _ _ _ Hi) as [-> Hf]. split.
    + intros c [Hc|Hc]%elem_of_app; [by apply IHd|]. apply list_elem_of_singleton in Hc as ->.
      by exists i, (cn_cidr cn).
    + apply NoDup_map_app; [done|]. intros r Hr. by apply Hf.
  - injection Hu as <-. destruct db; simpl in *. split.
    + intros c (r & Hr & ->)%elem_of_update_where. destruct (_ =$ _); [|by apply IHd].
      destruct (IHd r Hr) as (i & s & Hs & Hc). by exists i, s.
    + rewrite map_update_where; done.
  - unfold delete_cluster, delete_cluster_row in Hd. destruct (_ && _); [done|].
    injection Hd as <-. destruct db; simpl in *. split.
    + intros c [Hc _]%elem_of_delete_where. by apply IHd.
    + by apply NoDup_delete_where.
Qed.
End races.

(** C23: clusters never share addresses, however their creations race. Every
    table reachable by picking networks from arbitrary (stale) snapshots and
    committing them later, by deletions and by re-tagging, has pairwise
    distinct VNIs and pairwise disjoint CIDRs: the UNIQUE constraint on the
    VNI alone is enough, because VNIs and CIDRs are handed out in step. *)
Theorem racing_clusters_disjoint `{L : IpnetLaws} `{Sqlite} net t i j c1 c2 :
  config_typed net -> validate net = Ok tt -> cluster_table net t ->
  t !! i = Some c1 -> t !! j = Some c2 -> i <> j ->
  c_vni c1 <> c_vni c2 /\
  exists n1 n2, net_parse (c_cidr c1) = Some n1 /\ net_parse (c_cidr c2) = Some n2 /\
    forall x, in_net n1 x -> in_net n2 x -> False.
Proof.
  intros T V Ht H1 H2 Hne. destruct (validate_wf _ T V) as [supernet W].
  destruct (proj2 (net_subnets_some supernet (cluster_prefix net))) as [subnets Hsub].
  { pose proof (wf_prefix _ _ W). lia. }
  destruct (cluster_table_aligned _ _ _ _ W Hsub Ht) as [Hal Hnd].
  assert (c_vni c1 <> c_vni c2) as Hv.
  { intros E. apply Hne. eapply (NoDup_lookup _ i j (c_vni c1) Hnd);
      rewrite list_lookup_fmap; [by rewrite H1|by rewrite H2, E]. }
  split; [done|].
  pose proof (Hal _ (list_elem_of_lookup_2 _ _ _ H1)) as A1.
  pose proof (Hal _ (list_elem_of_lookup_2 _ _ _ H2)) as A2.
  pose proof A1 as (k1 & s1 & Hs1 & E1). pose proof A2 as (k2 & s2 & Hs2 & E2).
  pose proof (aligned_parse _ _ _ _ _ Hs1 E1) as P1.
  pose proof (aligned_parse _ _ _ _ _ Hs2 E2) as P2.
  exists s1, s2. split_and!; [done|done|]. intros x. apply cidrs_overlap_false.
  exact (aligned_disjoint _ _ _ Hsub _ _ _ _ A1 A2 Hv P1 P2).
Qed.

(** ** Examples *)

(** An SQLite that names the first violated constraint of the schema. *)
#[global] Instance sqlite_first : Sqlite := {| report_unique l := unwrap_or EmptyString (head l) |}.

#[global] Instance sqlite_first_laws : SqliteLaws sqlite_first.
Proof. split. intros [|x l] H; [done|]. simpl. set_solver. Qed.

Definition example_identity (id : string) : ClusterIdentity := {|
  ci_id := id; ci_name := id; ci_control_plane_endpoint := "192.168.100.1";
  ci_apiserver_visibility := 0; ci_external_pool := "cell-public";
  ci_service_block_cidr := "192.168.100.16/28"; ci_trust_domain := "";
  ci_created_at := "2026-01-01T00:00:00Z" |}.

(** Pick from [snap], commit to [db]. *)
Definition create_from (snap db : Db) (id : string) : option Db :=
  match allocate_cluster_network example_net snap with
  | (_, Ok cn) =>
      match insert_cluster (from_network (example_identity id) cn) db with
      | (db', Ok _) => Some db'
      | (_, Err _) => None
      end
  | (_, Err _) => None
  end.

Lemma create_from_table snap db id db' :
  cluster_table example_net (clusters snap) -> cluster_table example_net (clusters db) ->
  create_from snap db id = Some db' -> cluster_table example_net (clusters db').
Proof.
  unfold create_from. destruct (allocate_cluster_network example_net snap) as [s [cn|e]] eqn:Ea;
    [|done]. assert (s = snap) as -> by (by injection Ea).
  destruct (insert_cluster _ db) as [d [[]|e]] eqn:Ei; [|done].
  intros Hs Hd [= <-]. exact (ct_create _ snap db d _ cn Hs Hd Ea Ei).
Qed.

Definition example_host (id vtep : string) : HostRow := {|
  h_id := id; h_hostname := id; h_total_cpu := 8; h_total_memory_mib := 4096;
  h_rootfs_total_bytes := 100 * GIB; h_rootfs_free_bytes := 100 * GIB;
  h_rootfs_metadata_total_bytes := GIB; h_rootfs_metadata_free_bytes := GIB;
  h_data_total_bytes := 100 * GIB; h_data_free_bytes := 100 * GIB;
  h_gpu_inventory := []; h_vtep_address := vtep;
  h_last_heartbeat := "2026-01-01T00:00:00Z"; h_healthy := true; h_rank := 0; h_labels := ∅ |}.

(** Two hosts and a cluster created on an empty cell. *)
Definition fleet_db : Db :=
  set_hosts (fun _ => [example_host "h1" "10.1.0.1"; example_host "h2" "10.1.0.2"])
    (unwrap_or db_empty (create_from db_empty db_empty "c1")).

Definition fleet_cluster : ClusterRow :=
  unwrap_or {| c_id := ""; c_name := ""; c_vni := 0; c_cidr := ""; c_bridge_range_start := "";
               c_bridge_range_end := ""; c_vm_range_start := ""; c_vm_range_end := "";
               c_prefix_len := 0; c_control_plane_endpoint := ""; c_apiserver_visibility := 0;
               c_external_pool := ""; c_service_block_cidr := ""; c_trust_domain := "";
               c_created_at := "" |} (head (clusters fleet_db)).

Definition fleet_bridge : ParsedRange := {| range_start := 167772161; range_end := 167772192 |}.

Lemma fleet_members : members_ok (host_clusters fleet_db).
Proof. split; vm_compute; constructor. Qed.

Lemma ensure_host_cluster_active_spec_witness :
  exists db', ensure_host_cluster_active fleet_cluster "h1" fleet_db = (db', Ok "10.0.0.1") /\
    members_ok (host_clusters db') /\
    ensure_host_cluster_active fleet_cluster "h1" db' = (db', Ok "10.0.0.1").
Proof.
  eexists. split; [vm_compute; reflexivity|].
  epose proof (ensure_host_cluster_active_spec fleet_cluster "h1" fleet_db _ "10.0.0.1" fleet_bridge
    ltac:(vm_compute; reflexivity) ltac:(vm_compute; discriminate) fleet_members
    ltac:(vm_compute; reflexivity)) as (H1 & _ & _ & _ & H2).
  split; [exact H1|exact H2].
Defined.

(** A cluster whose bridge range has one address. *)
Definition full_cluster : ClusterRow := {|
  c_id := "c1"; c_name := "c1"; c_vni := 10000; c_cidr := "10.0.0.0/24";
  c_bridge_range_start := "10.0.0.1"; c_bridge_range_end := "10.0.0.1";
  c_vm_range_start := "10.0.0.2"; c_vm_range_end := "10.0.0.254"; c_prefix_len := 24;
  c_control_plane_endpoint := "192.168.100.1"; c_apiserver_visibility := 0;
  c_external_pool := "cell-public"; c_service_block_cidr := ""; c_trust_domain := "";
  c_created_at := "2026-01-01T00:00:00Z" |}.

Definition full_range : ParsedRange := {| range_start := 167772161; range_end := 167772161 |}.

Definition full_db : Db := fst (ensure_host_cluster_active full_cluster "h1" fleet_db).

Lemma ensure_host_cluster_active_errors_witness :
  exists m, ensure_host_cluster_active full_cluster "h2" full_db = (full_db, Err (Exhausted m)) /\
  forall n, 167772161 <= n <= 167772161 ->
    exists r, r ∈ host_clusters full_db /\ hc_cluster_id r = "c1" /\
              hc_host_id r <> "h2" /\ hc_ip_address r = ip_to_string n.
Proof.
  eexists. split; [vm_compute; reflexivity|].
  epose proof (ensure_host_cluster_active_errors full_cluster "h2" full_db full_db _ full_range
    ltac:(vm_compute; reflexivity) ltac:(vm_compute; discriminate)
    ltac:(vm_compute; reflexivity)) as (_ & _ & H & _).
  exact (H _ eq_refl).
Defined.

Lemma resurrection_cancels_teardown_witness :
  exists db2 db3,
    mark_host_cluster_pending_teardown "c1" "h1" full_db = (db2, Ok tt) /\
    map hc_state (host_clusters db2) = [1] /\
    ensure_host_cluster_active full_cluster "h1" db2 = (db3, Ok "10.0.0.1") /\
    host_clusters db3 = host_clusters full_db.
Proof.
  epose proof (resurrection_cancels_teardown full_cluster "h1" fleet_db full_db _ "10.0.0.1" full_range
    ltac:(vm_compute; reflexivity) ltac:(vm_compute; discriminate) fleet_members
    ltac:(vm_compute; reflexivity) ltac:(reflexivity)) as (db3 & H1 & H2).
  eexists. exists db3. split; [reflexivity|]. split; [vm_compute; reflexivity|].
  split; [exact H1|exact H2].
Defined.

Lemma elect_lan_vip_owner_sticky_witness :
  exists h db', elect_lan_vip_owner "c1" ["h2"; "h1"] fleet_db = (db', Ok h) /\
    h ∈ ["h2"; "h1"] /\ elect_lan_vip_owner "c1" ["h1"; h] db' = (db', Ok h).
Proof.
  destruct (elect_lan_vip_owner_sticky "c1" ["h2"; "h1"] fleet_db) as (h & db' & H1 & H2 & H3);
    [vm_compute; constructor|vm_compute; reflexivity|discriminate|].
  exists h, db'. split; [exact H1|]. split; [exact H2|].
  destruct H3 as (_ & _ & _ & _ & H3). apply H3. do 2 constructor.
Defined.

(** Two clusters, the second picked after the first was committed. *)
Definition race_db1 : Db := unwrap_or db_empty (create_from db_empty db_empty "c1").
Definition race_db2 : Db := unwrap_or db_empty (create_from race_db1 race_db1 "c2").

Lemma race_table : cluster_table example_net (clusters race_db2).
Proof.
  assert (cluster_table example_net (clusters race_db1)).
  { eapply (create_from_table db_empty db_empty "c1"); [constructor|constructor|].
    vm_compute. reflexivity. }
  eapply (create_from_table race_db1 race_db1 "c2"); [done|done|]. vm_compute. reflexivity.
Qed.

Lemma racing_clusters_disjoint_witness :
  exists c1 c2, clusters race_db2 = [c1; c2] /\ c_vni c1 <> c_vni c2 /\
  exists n1 n2, net_parse (c_cidr c1) = Some n1 /\ net_parse (c_cidr c2) = Some n2 /\
    forall x, in_net n1 x -> in_net n2 x -> False.
Proof.
  destruct (clusters race_db2) as [|c1 [|c2 [|]]] eqn:E; try discriminate.
  exists c1, c2. split; [reflexivity|].
  apply (racing_clusters_disjoint example_net (clusters race_db2) 0%nat 1%nat c1 c2);
    [exact example_net_typed|vm_compute; reflexivity|exact race_table
    |rewrite E; reflexivity|rewrite E; reflexivity|discriminate].
Defined.
