(* ===== verification/Hosts.v ===== *)
(** * Hosts and their storage pools (crates/basis-controller/src/db.rs)

    Registration and heartbeats, health marking, the per-host pool and device
    tables, and the operator's per-device scheduling flag. *)

From S2P Require Import Prelude Proto Overcommit DbTypes.

(** ** Capacity reports *)

Record DeviceCapacity := {
  dc_device_id : string;
  dc_total_bytes : Z;
  dc_free_bytes : Z;
  dc_physical : Z;
  dc_physical_reason : string;
}.

Record PoolCapacity := {
  pcap_pool : string;
  pcap_backend : string;
  pcap_labels : gmap string string;
  pcap_configured_total_bytes : Z;
  pcap_ready_total_bytes : Z;
  pcap_schedulable_total_bytes : Z;
  pcap_schedulable_free_bytes : Z;
  pcap_devices : list DeviceCapacity;
}.

Record RootfsCapacity := {
  rc_total_bytes : Z;
  rc_free_bytes : Z;
  rc_metadata_total_bytes : Z;
  rc_metadata_free_bytes : Z;
}.

Record StorageCapacity := {
  sc_rootfs : option RootfsCapacity;
  sc_pools : list PoolCapacity;
}.

Record StorageCapacityBytes := {
  rootfs_total_bytes : Z;
  rootfs_free_bytes : Z;
  rootfs_metadata_total_bytes : Z;
  rootfs_metadata_free_bytes : Z;
  data_total_bytes : Z;
  data_free_bytes : Z;
}.

(** [StorageCapacityBytes::default]. *)
Definition capacity_default : StorageCapacityBytes := {|
  rootfs_total_bytes := 0; rootfs_free_bytes := 0;
  rootfs_metadata_total_bytes := 0; rootfs_metadata_free_bytes := 0;
  data_total_bytes := 0; data_free_bytes := 0 |}.

(** [StorageCapacityBytes::from_proto]: the data side is the sum over the pools. *)
Definition from_proto (c : StorageCapacity) : StorageCapacityBytes :=
  let rootfs f := unwrap_or 0 ((fun p => as_i64 (f p)) <$> sc_rootfs c) in
  let data_total := as_u64 (sum_of pcap_schedulable_total_bytes (sc_pools c)) in
  let data_free := as_u64 (sum_of pcap_schedulable_free_bytes (sc_pools c)) in {|
    rootfs_total_bytes := rootfs rc_total_bytes;
    rootfs_free_bytes := rootfs rc_free_bytes;
    rootfs_metadata_total_bytes := rootfs rc_metadata_total_bytes;
    rootfs_metadata_free_bytes := rootfs rc_metadata_free_bytes;
    data_total_bytes := as_i64 data_total;
    data_free_bytes := as_i64 data_free;
  |}.

(** [physical_health_str]. *)
Definition physical_health_str (p : Z) : string :=
  device_health_as_db_str (unwrap_or DeviceHealthUnspecified (device_health_try_from p)).

(** [HostPoolDeviceRow::is_ready]. *)
Definition is_ready (d : HostPoolDeviceRow) : bool := hpd_physical d =$ "Ready".

(** ** Hosts *)

(** [Db::upsert_host]: insert, or overwrite the row with this id; the
    hostname is unique. *)
Definition upsert_host (host : HostRow) : DbM unit :=
  fun db =>
    if existsb (fun h => (h_hostname h =$ h_hostname host) && (h_id h <>$ h_id host)) (hosts db)
    then (db, Err (Sqlx (UniqueViolation "hosts.hostname")))
    else if existsb (fun h => h_id h =$ h_id host) (hosts db)
    then (set_hosts (update_where (fun h => h_id h =$ h_id host) (fun _ => host)) db, Ok tt)
    else (set_hosts (fun t => t ++ [host]) db, Ok tt).

(** The UPDATE of [record_heartbeat]. *)
Definition heartbeat_row (now : string) (c : StorageCapacityBytes) (h : HostRow) : HostRow := {|
  h_id := h_id h; h_hostname := h_hostname h; h_total_cpu := h_total_cpu h;
  h_total_memory_mib := h_total_memory_mib h;
  h_rootfs_total_bytes := rootfs_total_bytes c;
  h_rootfs_free_bytes := rootfs_free_bytes c;
  h_rootfs_metadata_total_bytes := rootfs_metadata_total_bytes c;
  h_rootfs_metadata_free_bytes := rootfs_metadata_free_bytes c;
  h_data_total_bytes := data_total_bytes c;
  h_data_free_bytes := data_free_bytes c;
  h_gpu_inventory := h_gpu_inventory h; h_vtep_address := h_vtep_address h;
  h_last_heartbeat := now; h_healthy := true;
  h_rank := h_rank h; h_labels := h_labels h |}.

(** The rows a heartbeat writes for a pool and for a device. *)
Definition host_pool_row `{DbJson} (host_id : string) (p : PoolCapacity) : HostPoolRow := {|
  hp_host_id := host_id; hp_pool := pcap_pool p; hp_backend := pcap_backend p;
  hp_labels := labels_to_json (pcap_labels p);
  hp_configured_total_bytes := as_i64 (pcap_configured_total_bytes p);
  hp_ready_total_bytes := as_i64 (pcap_ready_total_bytes p);
  hp_schedulable_total_bytes := as_i64 (pcap_schedulable_total_bytes p);
  hp_schedulable_free_bytes := as_i64 (pcap_schedulable_free_bytes p) |}.

Definition pool_device_row (host_id pool : string) (d : DeviceCapacity) : HostPoolDeviceRow := {|
  hpd_host_id := host_id; hpd_pool := pool; hpd_device_id := dc_device_id d;
  hpd_total_bytes := as_i64 (dc_total_bytes d);
  hpd_free_bytes := as_i64 (dc_free_bytes d);
  hpd_physical := physical_health_str (dc_physical d);
  hpd_physical_reason := dc_physical_reason d |}.

(** [INSERT INTO host_pools]. *)
Definition insert_host_pool `{DbJson} (host_id : string) (p : PoolCapacity) : DbM unit :=
  fun db =>
    if existsb (fun r => (hp_host_id r =$ host_id) && (hp_pool r =$ pcap_pool p)) (host_pools db)
    then (db, Err (Sqlx (UniqueViolation "host_pools.host_id, host_pools.pool")))
    else (set_host_pools (fun t => t ++ [host_pool_row host_id p]) db, Ok tt).

(** [INSERT INTO host_pool_devices]. *)
Definition insert_pool_device (host_id pool : string) (d : DeviceCapacity) : DbM unit :=
  fun db =>
    if existsb (fun r => (hpd_host_id r =$ host_id) && (hpd_pool r =$ pool) &&
                         (hpd_device_id r =$ dc_device_id d)) (host_pool_devices db)
    then (db, Err (Sqlx (UniqueViolation "host_pool_devices.host_id, pool, device_id")))
    else (set_host_pool_devices (fun t => t ++ [pool_device_row host_id pool d]) db, Ok tt).

(** [Db::record_heartbeat]. *)
Definition record_heartbeat `{DbJson} (host_id now : string) (capacity : StorageCapacityBytes)
    (reported : list PoolCapacity) : DbM unit :=
  se_tx (fun db =>
    if negb (existsb (fun h => h_id h =$ host_id) (hosts db))
    then (db, Err (NotFound ("host '" +:+ host_id +:+ "'")))
    else
      let db := set_hosts (update_where (fun h => h_id h =$ host_id)
                                        (heartbeat_row now capacity)) db in
      let db := set_host_pool_devices (delete_where (fun r => hpd_host_id r =$ host_id)) db in
      let db := set_host_pools (delete_where (fun r => hp_host_id r =$ host_id)) db in
      se_for reported (fun p =>
        run! insert_host_pool host_id p ;
        se_for (pcap_devices p) (insert_pool_device host_id (pcap_pool p))) db).

(** [Db::get_host], [get_host_by_hostname], [list_healthy_hosts], [list_hosts]. *)
Definition get_host (id : string) : DbM HostRow :=
  fun db => (db, ok_or (NotFound ("host '" +:+ id +:+ "'"))
                       (select1 (fun h => h_id h =$ id) (hosts db))).
Definition get_host_by_hostname (hostname : string) : DbM (option HostRow) :=
  se_gets (fun db => select1 (fun h => h_hostname h =$ hostname) (hosts db)).
Definition list_healthy_hosts : DbM (list HostRow) :=
  se_gets (fun db => select h_healthy (hosts db)).
Definition list_hosts : DbM (list HostRow) := se_gets hosts.

Definition with_healthy (b : bool) (h : HostRow) : HostRow := {|
  h_id := h_id h; h_hostname := h_hostname h; h_total_cpu := h_total_cpu h;
  h_total_memory_mib := h_total_memory_mib h;
  h_rootfs_total_bytes := h_rootfs_total_bytes h; h_rootfs_free_bytes := h_rootfs_free_bytes h;
  h_rootfs_metadata_total_bytes := h_rootfs_metadata_total_bytes h;
  h_rootfs_metadata_free_bytes := h_rootfs_metadata_free_bytes h;
  h_data_total_bytes := h_data_total_bytes h; h_data_free_bytes := h_data_free_bytes h;
  h_gpu_inventory := h_gpu_inventory h; h_vtep_address := h_vtep_address h;
  h_last_heartbeat := h_last_heartbeat h; h_healthy := b;
  h_rank := h_rank h; h_labels := h_labels h |}.

(** [Db::mark_host_unhealthy]. *)
Definition mark_host_unhealthy (host_id : string) : DbM unit :=
  se_modify (set_hosts (update_where (fun h => h_id h =$ host_id) (with_healthy false))).

(** [healthy = 1 AND last_heartbeat < ?]: timestamps compare as text. *)
Definition stale (cutoff : string) (h : HostRow) : bool :=
  h_healthy h && String.ltb (h_last_heartbeat h) cutoff.

(** [Db::mark_stale_hosts_unhealthy]. *)
Definition mark_stale_hosts_unhealthy (cutoff : string) : DbM (list string) :=
  fun db =>
    let ids := map h_id (select (stale cutoff) (hosts db)) in
    match ids with
    | [] => (db, Ok [])
    | _ => (set_hosts (update_where (stale cutoff) (with_healthy false)) db, Ok ids)
    end.

(** ** Pools, devices and drain flags *)

(** [Db::list_host_pools], [list_pool_devices] ([ORDER BY device_id]). *)
Definition list_host_pools (host_id : string) : DbM (list HostPoolRow) :=
  se_gets (fun db => select (fun r => hp_host_id r =$ host_id) (host_pools db)).

Definition device_le (a b : HostPoolDeviceRow) : Prop :=
  String.le (hpd_device_id a) (hpd_device_id b).
#[global] Instance device_le_dec a b : Decision (device_le a b).
Proof. unfold device_le. apply _. Defined.

Definition list_pool_devices (host_id pool : string) : DbM (list HostPoolDeviceRow) :=
  se_gets (fun db => merge_sort device_le
    (select (fun r => (hpd_host_id r =$ host_id) && (hpd_pool r =$ pool)) (host_pool_devices db))).

(** [Db::host_drain_markers]: keyed by [(pool, device_id)]. *)
Definition host_drain_markers (host_id : string)
    : DbM (gmap (string * string) DeviceSchedulingStateRow) :=
  se_gets (fun db => list_to_map
    (map (fun r => ((dss_pool r, dss_device_id r), r))
         (select (fun r => dss_host_id r =$ host_id) (device_scheduling_state db)))).

Definition at_device (host_id pool device_id : string) (r : DeviceSchedulingStateRow) : bool :=
  (dss_host_id r =$ host_id) && (dss_pool r =$ pool) && (dss_device_id r =$ device_id).

(** [Db::set_device_scheduling_state]. *)
Definition set_device_scheduling_state (host_id pool device_id state : string)
    (reason : option string) : DbM unit :=
  fun db =>
    if state =$ "enabled" then
      (set_device_scheduling (delete_where (at_device host_id pool device_id)) db, Ok tt)
    else if state =$ "disabled" then
      let row := {| dss_host_id := host_id; dss_pool := pool; dss_device_id := device_id;
                    dss_state := "draining"; dss_reason := reason |} in
      (set_device_scheduling (fun t =>
         if existsb (at_device host_id pool device_id) t
         then update_where (at_device host_id pool device_id) (fun _ => row) t
         else t ++ [row]) db, Ok tt)
    else (db, Err (Malformed ("invalid scheduling state; expected enabled|disabled: " +:+ state))).

(** ** Heartbeats *)

Lemma set_devices_app t1 t2 db :
  set_host_pool_devices (fun t => t ++ t2) (set_host_pool_devices (fun t => t ++ t1) db) =
  set_host_pool_devices (fun t => t ++ (t1 ++ t2)) db.
Proof. destruct db; simpl. by rewrite app_assoc. Qed.

(** The device inserts of one pool: they succeed exactly when the reported
    ids are distinct and new. *)
Lemma insert_devices_ok host pool ds db :
  NoDup (map dc_device_id ds) ->
  (forall r d, r ∈ host_pool_devices db -> d ∈ ds ->
     hpd_host_id r = host -> hpd_pool r = pool -> hpd_device_id r <> dc_device_id d) ->
  se_for ds (insert_pool_device host pool) db =
    (set_host_pool_devices (fun t => t ++ map (pool_device_row host pool) ds) db, Ok tt).
Proof.
  revert db. induction ds as [|d ds IH]; intros db Hnd Hf.
  { simpl. unfold se_ret. f_equal. destruct db; simpl. by rewrite app_nil_r. }
  apply NoDup_cons in Hnd as [Hd Hnd]. simpl se_for. unfold se_bind, insert_pool_device at 1.
  destruct (existsb _ _) eqn:E.
  { apply existsb_true in E as (r & Hr & E). apply andb_true_iff in E as [E E3].
    apply andb_true_iff in E as [E1 E2]. apply String.eqb_eq in E1, E2, E3.
    exfalso. by eapply (Hf r d); [|set_solver|..]. }
  rewrite IH; [|done|].
  - f_equal. rewrite set_devices_app. done.
  - intros r d' Hr Hd' E1 E2. destruct db; simpl in *.
    apply elem_of_app in Hr as [Hr|Hr]; [by eapply Hf; [|set_solver|..]|].
    apply list_elem_of_singleton in Hr as ->. simpl. intros E3. apply Hd.
    rewrite E3. apply list_elem_of_fmap. by exists d'.
Qed.

Lemma insert_devices_inv host pool ds db db' :
  se_for ds (insert_pool_device host pool) db = (db', Ok tt) ->
  NoDup (map dc_device_id ds) /\ host_pools db' = host_pools db /\
  (forall d r, d ∈ ds -> r ∈ host_pool_devices db ->
     hpd_host_id r = host -> hpd_pool r = pool -> hpd_device_id r <> dc_device_id d).
Proof.
  revert db. induction ds as [|d ds IH]; intros db H; simpl in H.
  { injection H as <-. split_and!; [constructor|done|set_solver]. }
  unfold se_bind in H. unfold insert_pool_device in H at 1. destruct (existsb _ _) eqn:E; [done|].
  apply IH in H as (Hnd & Hp & Hf). split_and!.
  - simpl. apply NoDup_cons. split; [|done].
    intros (d' & Hd' & Hin)%list_elem_of_fmap.
    apply (Hf d' (pool_device_row host pool d)); try done. destruct db; simpl. set_solver.
  - rewrite Hp. by destruct db.
  - intros d' r [->|Hd']%elem_of_cons Hr E1 E2 E3.
    + apply (proj1 (existsb_false _ _) E) in Hr. subst. by rewrite E3, !String.eqb_refl in Hr.
    + eapply Hf; [done| |done..]. destruct db; simpl in *. set_solver.
Qed.

Section heartbeat.
Context `{J : DbJson} (host : string).

(** The body of the loop over the reported pools. *)
Definition report_pool (p : PoolCapacity) : DbM unit :=
  run! insert_host_pool host p ; se_for (pcap_devices p) (insert_pool_device host (pcap_pool p)).

Definition report_rows (reported : list PoolCapacity) : list HostPoolDeviceRow :=
  p ← reported; map (pool_device_row host (pcap_pool p)) (pcap_devices p).

(** No row of the host for any of these pools. *)
Definition unreported (reported : list PoolCapacity) (db : Db) : Prop :=
  (forall r p, r ∈ host_pools db -> p ∈ reported -> hp_host_id r = host -> hp_pool r <> pcap_pool p) /\
  (forall r p, r ∈ host_pool_devices db -> p ∈ reported ->
     hpd_host_id r = host -> hpd_pool r <> pcap_pool p).

Lemma report_pools_ok reported db :
  NoDup (map pcap_pool reported) ->
  (forall p, p ∈ reported -> NoDup (map dc_device_id (pcap_devices p))) ->
  unreported reported db ->
  se_for reported report_pool db =
    (set_host_pool_devices (fun t => t ++ report_rows reported)
       (set_host_pools (fun t => t ++ map (host_pool_row host) reported) db), Ok tt).
Proof.
  revert db. induction reported as [|p reported IH]; intros db Hnd Hdev [Hu1 Hu2].
  { simpl. unfold se_ret. f_equal. destruct db; simpl. by rewrite !app_nil_r. }
  apply NoDup_cons in Hnd as [Hp Hnd]. simpl se_for. unfold se_bind at 1.
  unfold report_pool at 1, se_bind, insert_host_pool at 1.
  destruct (existsb _ _) eqn:E.
  { apply existsb_true in E as (r & Hr & [E1 E2]%andb_true_iff). apply String.eqb_eq in E1, E2.
    exfalso. by eapply (Hu1 r p); [|set_solver|..]. }
  rewrite insert_devices_ok; [|apply Hdev; set_solver|].
  2:{ intros r d Hr _ E1 E2. exfalso. eapply (Hu2 r p); [|set_solver|done|done]. by destruct db. }
  rewrite IH; [|done|set_solver|].
  - f_equal. destruct db; simpl. by rewrite <- !app_assoc.
  - assert (forall p', p' ∈ reported -> pcap_pool p <> pcap_pool p') as Hne.
    { intros p' Hp' E'. apply Hp. rewrite E'. apply list_elem_of_fmap. by exists p'. }
    split; intros r p' Hr Hp' E1 E2; destruct db; simpl in *;
      apply elem_of_app in Hr as [Hr|Hr].
    + apply (Hu1 r p'); [done|set_solver|done|done].
    + apply list_elem_of_singleton in Hr as ->. by eapply Hne.
    + apply (Hu2 r p'); [done|set_solver|done|done].
    + apply list_elem_of_fmap in Hr as (d & -> & _). by eapply Hne.
Qed.

Lemma report_pools_inv reported db db' :
  se_for reported report_pool db = (db', Ok tt) ->
  NoDup (map pcap_pool reported) /\
  (forall p, p ∈ reported -> NoDup (map dc_device_id (pcap_devices p))) /\
  (forall r p, r ∈ host_pools db -> p ∈ reported -> hp_host_id r = host -> hp_pool r <> pcap_pool p).
Proof.
  revert db. induction reported as [|p reported IH]; intros db H; simpl in H.
  { split_and!; [constructor|set_solver|set_solver]. }
  unfold se_bind at 1 in H. destruct (report_pool p db) as [db1 [[]|e]] eqn:Ep; [|done].
  apply IH in H as (Hnd & Hdev & Hf). unfold report_pool, se_bind, insert_host_pool in Ep.
  destruct (existsb _ _) eqn:E; [done|].
  apply insert_devices_inv in Ep as (Hd & Hpools & _).
  assert (forall r, r ∈ host_pools db \/ r = host_pool_row host p -> r ∈ host_pools db1) as Hin.
  { intros r Hr. rewrite Hpools. destruct db; simpl in *. set_solver. }
  split_and!.
  - simpl. apply NoDup_cons. split; [|done]. intros (p' & Ep & Hp')%list_elem_of_fmap.
    by apply (Hf (host_pool_row host p) p'); [apply Hin; right|..].
  - intros p' [->|Hp']%elem_of_cons; [done|by apply Hdev].
  - intros r p' Hr [->|Hp']%elem_of_cons E1 E2.
    + apply (proj1 (existsb_false _ _) E) in Hr. by rewrite E1, E2, !String.eqb_refl in Hr.
    + by eapply (Hf r p'); [apply Hin; left|..].
Qed.
End heartbeat.

(** What a heartbeat leaves behind. *)
Definition heartbeat_db `{DbJson} (host_id now : string) (capacity : StorageCapacityBytes)
    (reported : list PoolCapacity) (db : Db) : Db :=
  set_host_pool_devices (fun t => delete_where (fun r => hpd_host_id r =$ host_id) t
                                  ++ report_rows host_id reported)
   (set_host_pools (fun t => delete_where (fun r => hp_host_id r =$ host_id) t
                             ++ map (host_pool_row host_id) reported)
     (set_hosts (update_where (fun h => h_id h =$ host_id) (heartbeat_row now capacity)) db)).

(** The outcome of a heartbeat. *)
Lemma record_heartbeat_outcome `{DbJson} host_id now capacity reported db :
  let well_formed :=
    existsb (fun h => h_id h =$ host_id) (hosts db) &&
    bool_decide (NoDup (map pcap_pool reported)) &&
    bool_decide (Forall (fun p => NoDup (map dc_device_id (pcap_devices p))) reported) in
  let '(db', r) := record_heartbeat host_id now capacity reported db in
  is_ok r = well_formed /\
  db' = if well_formed then heartbeat_db host_id now capacity reported db else db.
Proof.
  intros well_formed. destruct (record_heartbeat _ _ _ _ _) as [db' r] eqn:Er.
  unfold record_heartbeat, se_tx in Er. destruct (existsb _ (hosts db)) eqn:Eh.
  2:{ simpl in Er. injection Er as <- <-. by unfold well_formed. }
  cbn -[se_for] in Er. fold (report_pool host_id) in Er.
  set (db0 := set_host_pools _ _) in Er.
  assert (unreported host_id reported db0) as Hun.
  { subst db0. destruct db; simpl. split; intros row p [_ Hn]%elem_of_delete_where _ E;
      simpl in Hn; rewrite E, String.eqb_refl in Hn; done. }
  assert (well_formed = bool_decide (NoDup (map pcap_pool reported)) &&
    bool_decide (Forall (fun p => NoDup (map dc_device_id (pcap_devices p))) reported)) as Hwf by done.
  destruct well_formed.
  - symmetry in Hwf. apply andb_true_iff in Hwf as [H1 H2].
    apply bool_decide_eq_true in H1, H2. rewrite Forall_forall in H2.
    rewrite (report_pools_ok _ _ _ H1 H2 Hun) in Er. injection Er as <- <-.
    split; [done|]. subst db0. unfold heartbeat_db. by destruct db.
  - destruct (se_for _ _ db0) as [db1 [[]|e]] eqn:Ef.
    + apply report_pools_inv in Ef as (H1 & H2 & _). rewrite <- Forall_forall in H2.
      by rewrite !bool_decide_eq_true_2 in Hwf.
    + by injection Er as <- <-.
Qed.

(** A heartbeat replaces what is known of a host, or nothing. It succeeds
    exactly when the host exists and the reported pools, and the devices of
    each pool, have distinct names; it then marks the host healthy with the
    new capacity and makes its pool and device rows exactly the reported
    ones, leaving other hosts' rows alone. A duplicate or an unknown host
    rolls everything back. *)
Theorem record_heartbeat_replaces `{DbJson} host_id now capacity reported db :
  let well_formed :=
    existsb (fun h => h_id h =$ host_id) (hosts db) &&
    bool_decide (NoDup (map pcap_pool reported)) &&
    bool_decide (Forall (fun p => NoDup (map dc_device_id (pcap_devices p))) reported) in
  let '(db', r) := record_heartbeat host_id now capacity reported db in
  is_ok r = well_formed /\
  db' = if well_formed then heartbeat_db host_id now capacity reported db else db.
Proof. apply record_heartbeat_outcome. Qed.

(** ** Staleness *)

Lemma stale_after cutoff h : stale cutoff (if stale cutoff h then with_healthy false h else h) = false.
Proof. destruct (stale cutoff h) eqn:E; [done|exact E]. Qed.

(** The health check finds each lapsed host once. It returns the ids of
    exactly the healthy hosts whose last heartbeat is before the cutoff, in
    table order, flips exactly those to unhealthy, and finds nothing when run
    again. *)
Theorem mark_stale_hosts_unhealthy_spec cutoff db :
  exists ids db', mark_stale_hosts_unhealthy cutoff db = (db', Ok ids) /\
    ids = map h_id (select (stale cutoff) (hosts db)) /\
    db' = set_hosts (update_where (stale cutoff) (with_healthy false)) db /\
    (forall h, h ∈ hosts db' -> stale cutoff h = false) /\
    mark_stale_hosts_unhealthy cutoff db' = (db', Ok []).
Proof.
  set (db' := set_hosts (update_where (stale cutoff) (with_healthy false)) db).
  assert (forall h, h ∈ hosts db' -> stale cutoff h = false) as Hno.
  { subst db'. destruct db; simpl. intros h (h0 & _ & ->)%elem_of_update_where. apply stale_after. }
  exists (map h_id (select (stale cutoff) (hosts db))), db'. split_and!; [|done|done|done|].
  - unfold mark_stale_hosts_unhealthy.
    destruct (select (stale cutoff) (hosts db)) as [|h l] eqn:E; simpl; [|done].
    clear Hno. f_equal. subst db'. destruct db as [hs]; simpl in *. f_equal. symmetry.
    induction hs as [|h hs IH]; simpl in *; [done|].
    destruct (stale cutoff h) eqn:Eh; [done|]. f_equal. by apply IH.
  - unfold mark_stale_hosts_unhealthy. destruct (select (stale cutoff) (hosts db')) as [|h l] eqn:E.
    { done. }
    assert (h ∈ select (stale cutoff) (hosts db')) as [Hin Hs]%elem_of_select
      by (rewrite E; set_solver). by rewrite Hno in Hs.
Qed.

(** ** Drain markers *)

Lemma marker_lookup t host pool dev :
  (list_to_map (map (fun r => ((dss_pool r, dss_device_id r), r))
     (select (fun r => dss_host_id r =$ host) t)) : gmap (string * string) DeviceSchedulingStateRow)
    !! (pool, dev) = select1 (at_device host pool dev) t.
Proof.
  unfold select1. induction t as [|r t IH]; simpl; [done|].
  unfold at_device at 1. destruct (dss_host_id r =$ host); simpl; [|done].
  destruct ((dss_pool r =$ pool) && (dss_device_id r =$ dev)) eqn:E; simpl.
  - apply andb_true_iff in E as [<-%String.eqb_eq <-%String.eqb_eq]. by rewrite lookup_insert_eq.
  - rewrite lookup_insert_ne; [done|]. intros [= E1 E2]. subst. by rewrite !String.eqb_refl in E.
Qed.

Lemma select1_update_other {A} (p q : A -> bool) f t :
  (forall r, p r = true -> q r = false) -> (forall r, p r = true -> q (f r) = false) ->
  select1 q (update_where p f t) = select1 q t.
Proof.
  intros Hq Hf. unfold select1. induction t as [|r t IH]; simpl; [done|].
  destruct (p r) eqn:E; [rewrite Hf, Hq by done|destruct (q r)]; done.
Qed.

Lemma select1_delete_other {A} (p q : A -> bool) (t : list A) :
  (forall r, p r = true -> q r = false) -> select1 q (delete_where p t) = select1 q t.
Proof.
  intros Hq. unfold select1. induction t as [|r t IH]; simpl; [done|].
  destruct (p r) eqn:E; simpl; [by rewrite Hq|]. destruct (q r); done.
Qed.

Lemma select1_app_other {A} (q : A -> bool) (t : list A) r :
  q r = false -> select1 q (t ++ [r]) = select1 q t.
Proof.
  intros Hq. unfold select1. induction t as [|x t IH]; simpl; [by rewrite Hq|].
  destruct (q x); done.
Qed.

Lemma select1_upsert {A} (p : A -> bool) row (t : list A) :
  p row = true ->
  select1 p (if existsb p t then update_where p (fun _ => row) t else t ++ [row]) = Some row.
Proof.
  intros Hrow. unfold select1. destruct (existsb p t) eqn:E.
  - induction t as [|r t IH]; simpl in *; [done|].
    destruct (p r) eqn:Er; simpl; [by rewrite Hrow|]. rewrite Er. by apply IH.
  - induction t as [|r t IH]; simpl in *; [by rewrite Hrow|].
    apply orb_false_iff in E as [-> E]. by apply IH.
Qed.

Lemma at_device_other host pool dev pool' dev' r :
  (pool', dev') <> (pool, dev) -> at_device host pool dev r = true ->
  at_device host pool' dev' r = false.
Proof.
  unfold at_device. intros Hne H. apply andb_true_iff in H as [H E3%String.eqb_eq].
  apply andb_true_iff in H as [E1%String.eqb_eq E2%String.eqb_eq]. subst.
  destruct ((dss_pool r =$ pool') && (dss_device_id r =$ dev')) eqn:E.
  - apply andb_true_iff in E as [E2%String.eqb_eq E3%String.eqb_eq]. congruence.
  - by rewrite <- andb_assoc, E, andb_false_r.
Qed.

(** a drain marker is what was last set. After [disabled] the scheduler's
    view of the device holds a marker, whose state is ['draining'] and whose
    reason is the given one; after [enabled] it holds none; the other devices
    of the host keep theirs; any other word is refused and nothing is
    written. *)
Lemma set_device_scheduling_state_spec host pool dev reason db :
  let marker db k := match snd (host_drain_markers host db) with
                     | Ok m => m !! k | Err _ => None end in
  let setting state := fst (set_device_scheduling_state host pool dev state reason db) in
  marker (setting "disabled") (pool, dev) =
    Some {| dss_host_id := host; dss_pool := pool; dss_device_id := dev;
            dss_state := "draining"; dss_reason := reason |} /\
  marker (setting "enabled") (pool, dev) = None /\
  (forall state k, k <> (pool, dev) -> marker (setting state) k = marker db k) /\
  (forall state, state <> "enabled" -> state <> "disabled" ->
     setting state = db /\
     is_ok (snd (set_device_scheduling_state host pool dev state reason db)) = false).
Proof.
  intros marker setting. subst marker. cbv beta.
  assert (forall db k, match snd (host_drain_markers host db) with Ok m => m !! k | Err _ => None end
            = select1 (at_device host k.1 k.2) (device_scheduling_state db)) as Hm.
  { intros d [p v]. apply marker_lookup. }
  split_and!; [rewrite Hm|rewrite Hm| |].
  - subst setting. destruct db as [? ? ? ? ? ? ? t].
    apply (select1_upsert (at_device host pool dev)). unfold at_device. simpl.
    by rewrite !String.eqb_refl.
  - subst setting. destruct db as [? ? ? ? ? ? ? t]; simpl. apply select1_None.
    intros r [_ H]%elem_of_delete_where. done.
  - intros state [p v] Hk. rewrite !Hm. simpl. subst setting. unfold set_device_scheduling_state.
    pose proof (at_device_other host pool dev p v) as Ho.
    destruct db as [? ? ? ? ? ? ? t]. destruct (state =$ "enabled"); simpl.
    { apply select1_delete_other. auto. }
    destruct (state =$ "disabled"); simpl; [|done]. destruct (existsb _ t).
    + apply select1_update_other; [auto|]. intros r _. apply Ho; [done|].
      unfold at_device. simpl. by rewrite !String.eqb_refl.
    + apply select1_app_other, Ho; [done|]. unfold at_device. simpl. by rewrite !String.eqb_refl.
  - intros state H1%String.eqb_neq H2%String.eqb_neq. subst setting.
    unfold set_device_scheduling_state. by rewrite H1, H2.
Qed.
