(* ===== verification/Vms.v ===== *)
(** * VM rows, reservations and usage (crates/basis-controller/src/db.rs)

    [insert_vm], the commit step of placement: the capacity gate, the GPU
    reservations and the disk assignments in one transaction; the reads of
    [vms] and [vm_gpus]; and the usage snapshot the scheduler works from. *)

From S2P Require Import Prelude Ipv4 Ipnet CidrNet Proto Config Overcommit DbTypes JsonText Ipam Clusters Hosts.

(** One per-disk decision of the scheduler ([scheduler::DiskPlacement]). *)
Record DiskPlacement := {
  dp_disk_index : Z;
  dp_pool : string;
  dp_device_id : string;
  dp_min_size_gib : Z;
  dp_purpose : DiskPurpose;
}.

Record DiskAssignment := {
  da_assignment_id : string;
  da_vm_id : string;
  da_disk_index : Z;
  da_pool : string;
  da_device_id : string;
  da_actual_size_gib : Z;
  da_device_path : string;
}.

(** [GpuAssignment::from_scheduler_pick]. *)
Definition from_scheduler_pick (vm host : string) (info : GpuInfo) : GpuAssignment := {|
  ga_vm_id := vm; ga_host_id := host; ga_pci_address := pci_address info;
  ga_model := model info; ga_iommu_group := iommu_group info;
  ga_nvlink_group := nvlink_group info |}.

Section vms.
Context `{J : DbJson}.

(** [VmRow::storage_disks_sum_gib], [None] for unparseable JSON. *)
Definition storage_disks_sum_gib (vm : VmRow) : option Z :=
  ds ← disks_of_json (vm_storage_disks vm);
  Some (as_i64 (sum_of (fun d => as_i64 (sd_min_size_gib d)) ds)).

(** [VmRow::parsed_disk_assignments]: entries without an assignment are skipped. *)
Definition disk_assignment_of (vm : VmRow) (d : StoredDisk) : option DiskAssignment :=
  assignment_id ← sd_assignment_id d;
  pool ← sd_pool d;
  device_id ← sd_device_id d;
  Some {| da_assignment_id := assignment_id; da_vm_id := vm_id vm;
          da_disk_index := sd_disk_index d; da_pool := pool; da_device_id := device_id;
          da_actual_size_gib := unwrap_or (sd_min_size_gib d) (sd_actual_size_gib d);
          da_device_path := unwrap_or "" (sd_device_path d) |}.
Definition parsed_disk_assignments (vm : VmRow) : option (list DiskAssignment) :=
  ds ← disks_of_json (vm_storage_disks vm);
  Some (omap (M:=list) (disk_assignment_of vm) ds).

(** ** The capacity gate *)

Definition on_host (host : string) (v : VmRow) : bool := vm_host_id v =$ host.

(** The data-disk sizes of a host's VMs, as SQL sums them. *)
Definition host_min_sizes (host : string) (t : list VmRow) : list Z :=
  v ← select (on_host host) t; sql_min_sizes (vm_storage_disks v).

(** [a AND b] of two conditions whose evaluation may fail. *)
Definition and_then (a : option bool) (b : option bool) : option bool :=
  match a with Some true => b | _ => a end.

(** The WHERE clause of the INSERT for one row of [hosts]; [None] when a
    SUM overflows. *)
Definition gate_row (ratio : f64) (t : list VmRow) (h : HostRow)
    (cpu mem rootfs_bytes data_bytes : Z) : option bool :=
  let on := select (on_host (h_id h)) t in
  and_then (Some (h_healthy h)) $
  and_then (used ← sql_sum vm_cpu on;
            Some (match sql_effective_cpu ratio (h_total_cpu h) with
                  | Some eff => cpu <=? eff - used
                  | None => false
                  end)) $
  and_then (used ← sql_sum vm_memory_mib on;
            Some (mem <=? h_total_memory_mib h - used)) $
  and_then (used ← sql_sum vm_disk_gib on;
            Some (rootfs_bytes <=? h_rootfs_total_bytes h - used * GIB)) $
  (used ← sql_sum id (host_min_sizes (h_id h) t);
   Some (data_bytes <=? h_data_total_bytes h - used * GIB)).

(** [EXISTS (SELECT 1 FROM hosts h WHERE h.id = ? AND ...)]. *)
Definition capacity_gate (ratio : f64) (db : Db) (vm : VmRow) (rootfs_bytes data_bytes : Z)
    : option bool :=
  match select1 (fun h => h_id h =$ vm_host_id vm) (hosts db) with
  | None => Some false
  | Some h => gate_row ratio (vms db) h (vm_cpu vm) (vm_memory_mib vm) rootfs_bytes data_bytes
  end.

(** ** Reservations *)

(** [INSERT INTO vm_gpus]. *)
Definition insert_gpu (host : string) (g : GpuAssignment) : DbM unit :=
  fun db =>
    if existsb (fun r => ((ga_vm_id r =$ ga_vm_id g) && (ga_pci_address r =$ ga_pci_address g)) ||
                         ((ga_host_id r =$ ga_host_id g) && (ga_pci_address r =$ ga_pci_address g)))
               (vm_gpus db)
    then (db, Err (CapacityRaced host))
    else if existsb (fun v => vm_id v =$ ga_vm_id g) (vms db)
    then (set_vm_gpus (fun t => t ++ [g]) db, Ok tt)
    else (db, Err (Sqlx ForeignKeyViolation)).

Definition assignment_id_of (vm : string) (disk_index : Z) : string :=
  vm +:+ "-" +:+ pretty disk_index.

Definition pda_row (vm : VmRow) (d : DiskPlacement) : PoolDiskAssignmentRow := {|
  pda_assignment_id := assignment_id_of (vm_id vm) (dp_disk_index d);
  pda_host_id := vm_host_id vm; pda_pool := dp_pool d;
  pda_device_id := dp_device_id d; pda_vm_id := vm_id vm;
  pda_disk_index := dp_disk_index d; pda_cluster_id := vm_cluster_id vm;
  pda_purpose := disk_purpose_as_db_str (dp_purpose d);
  pda_min_size_gib := as_i64 (dp_min_size_gib d);
  pda_actual_size_gib := None; pda_state := "pending" |}.

(** [INSERT INTO pool_disk_assignment]. *)
Definition insert_disk (vm : VmRow) (d : DiskPlacement) : DbM unit :=
  fun db =>
    if existsb (fun r => (pda_assignment_id r =$ assignment_id_of (vm_id vm) (dp_disk_index d)) ||
                         ((pda_vm_id r =$ vm_id vm) && (pda_disk_index r =? dp_disk_index d)))
               (pool_disk_assignment db)
    then (db, Err (CapacityRaced (vm_host_id vm)))
    else (set_pool_disk_assignment (fun t => t ++ [pda_row vm d]) db, Ok tt).

(** The guarded [INSERT INTO vms]. *)
Definition insert_vm_row (ratio : f64) (vm : VmRow) : DbM unit :=
  fun db =>
    match storage_disks_sum_gib vm with
    | None => (db, Err (Malformed ("vm '" +:+ vm_id vm +:+ "': storage_disks unparseable")))
    | Some data_gib =>
        match capacity_gate ratio db vm (sat_i64 (vm_disk_gib vm * GIB))
                                        (sat_i64 (data_gib * GIB)) with
        | None => (db, Err (Sqlx IntegerOverflow))
        | Some false =>
            if existsb (fun h => (h_id h =$ vm_host_id vm) && h_healthy h) (hosts db)
            then (db, Err (CapacityRaced (vm_host_id vm)))
            else (db, Err (HostUnavailable (vm_host_id vm)))
        | Some true =>
            if existsb (fun v => (vm_id v =$ vm_id vm) ||
                                 ((vm_cluster_id v =$ vm_cluster_id vm) && (vm_name v =$ vm_name vm)))
                       (vms db)
            then (db, Err (Conflict ("vm '" +:+ vm_name vm +:+ "' already exists in cluster '" +:+
                                     vm_cluster_id vm +:+ "'")))
            else if existsb (fun c => c_id c =$ vm_cluster_id vm) (clusters db)
            then (set_vms (fun t => t ++ [vm]) db, Ok tt)
            else (db, Err (Sqlx ForeignKeyViolation))
        end
    end.

(** [Db::insert_vm]. *)
Definition insert_vm (ratio : f64) (vm : VmRow) (gpus : list GpuAssignment)
    (disks : list DiskPlacement) : DbM unit :=
  se_tx (run! insert_vm_row ratio vm ;
         run! se_for gpus (insert_gpu (vm_host_id vm)) ;
         se_for disks (insert_disk vm)).

(** ** Reads *)

Definition get_vm (id : string) : DbM VmRow :=
  fun db => (db, ok_or (NotFound ("vm '" +:+ id +:+ "'"))
                       (select1 (fun v => vm_id v =$ id) (vms db))).
Definition get_vm_by_name (cluster_id name : string) : DbM (option VmRow) :=
  se_gets (fun db => select1 (fun v => (vm_cluster_id v =$ cluster_id) && (vm_name v =$ name)) (vms db)).
Definition list_vms (cluster_id : option string) : DbM (list VmRow) :=
  se_gets (fun db => match cluster_id with
                     | Some c => select (fun v => vm_cluster_id v =$ c) (vms db)
                     | None => vms db
                     end).
Definition list_vms_on_host (host : string) : DbM (list VmRow) :=
  se_gets (fun db => select (on_host host) (vms db)).
Definition list_vm_ids_on_host (host : string) : DbM (list string) :=
  se_gets (fun db => map vm_id (select (on_host host) (vms db))).
Definition gpus_for_vm (vm : string) : DbM (list GpuAssignment) :=
  se_gets (fun db => select (fun g => ga_vm_id g =$ vm) (vm_gpus db)).

(** [Db::gpus_for_vms]: every requested VM has an entry. *)
Definition gpus_for_vms (ids : list string) : DbM (gmap string (list GpuAssignment)) :=
  se_gets (fun db =>
    let out := list_to_map (map (fun id => (id, [])) ids) in
    foldl (fun (out : gmap string (list GpuAssignment)) g =>
             <[ga_vm_id g := unwrap_or [] (out !! ga_vm_id g) ++ [g]]> out)
          out (select (fun g => existsb (fun id => ga_vm_id g =$ id) ids) (vm_gpus db))).

(** ** The usage snapshot *)

Record HostUsage := {
  used_cpu : Z;
  used_memory_mib : Z;
  used_rootfs_gib : Z;
  used_data_gib : Z;
  assigned_pci : gset string;
  vms_by_cluster : gmap string Z;
}.

(** [HostUsage::default]. *)
Definition usage_default : HostUsage := {|
  used_cpu := 0; used_memory_mib := 0; used_rootfs_gib := 0; used_data_gib := 0;
  assigned_pci := ∅; vms_by_cluster := ∅ |}.

Definition add_pci (pci : string) (u : HostUsage) : HostUsage := {|
  used_cpu := used_cpu u; used_memory_mib := used_memory_mib u;
  used_rootfs_gib := used_rootfs_gib u; used_data_gib := used_data_gib u;
  assigned_pci := {[pci]} ∪ assigned_pci u; vms_by_cluster := vms_by_cluster u |}.

Definition add_cluster_count (cluster_id : string) (n : Z) (u : HostUsage) : HostUsage := {|
  used_cpu := used_cpu u; used_memory_mib := used_memory_mib u;
  used_rootfs_gib := used_rootfs_gib u; used_data_gib := used_data_gib u;
  assigned_pci := assigned_pci u; vms_by_cluster := <[cluster_id := n]> (vms_by_cluster u) |}.

(** [out.entry(host).or_default()] updated with [f]. *)
Definition upsert_usage (host : string) (f : HostUsage -> HostUsage)
    (out : gmap string HostUsage) : gmap string HostUsage :=
  <[host := f (unwrap_or usage_default (out !! host))]> out.

(** The row of one host in the first query. *)
Definition usage_sums (t : list VmRow) (host : string) : option HostUsage :=
  let on := select (on_host host) t in
  cpu ← sql_sum vm_cpu on;
  mem ← sql_sum vm_memory_mib on;
  rootfs ← sql_sum vm_disk_gib on;
  data ← sql_sum id (host_min_sizes host t);
  Some {| used_cpu := cpu; used_memory_mib := mem; used_rootfs_gib := rootfs;
          used_data_gib := data; assigned_pci := ∅; vms_by_cluster := ∅ |}.

(** The hosts with a VM, once each ([GROUP BY host_id]). *)
Definition vm_hosts (t : list VmRow) : list string := remove_dups (map vm_host_id t).

Fixpoint collect_sums (t : list VmRow) (hs : list string) : option (gmap string HostUsage) :=
  match hs with
  | [] => Some ∅
  | h :: hs' => u ← usage_sums t h; m ← collect_sums t hs'; Some (<[h := u]> m)
  end.

(** [SELECT host_id, cluster_id, COUNT... GROUP BY host_id, cluster_id]. *)
Definition vm_pairs (t : list VmRow) : list (string * string) :=
  remove_dups (map (fun v => (vm_host_id v, vm_cluster_id v)) t).
Definition pair_count (t : list VmRow) (p : string * string) : Z :=
  count_where (fun v => (vm_host_id v =$ fst p) && (vm_cluster_id v =$ snd p)) t.

(** [Db::host_usage_snapshot]. *)
Definition host_usage_snapshot : DbM (gmap string HostUsage) :=
  fun db =>
    match collect_sums (vms db) (vm_hosts (vms db)) with
    | None => (db, Err (Sqlx IntegerOverflow))
    | Some out =>
        let out := foldl (fun out g => upsert_usage (ga_host_id g) (add_pci (ga_pci_address g)) out)
                         out (vm_gpus db) in
        let out := foldl (fun out p => upsert_usage (fst p)
                            (add_cluster_count (snd p) (as_u32 (pair_count (vms db) p))) out)
                         out (vm_pairs (vms db)) in
        (db, Ok out)
    end.

(** ** What a committed VM satisfies *)

(** The load of a host is within its capacity: CPU after overcommit, memory,
    root disks and data disks strictly. *)
Record host_within (ratio : f64) (t : list VmRow) (h : HostRow) : Prop := {
  hw_cpu : sum_of vm_cpu (select (on_host (h_id h)) t) <= effective_cpu ratio (h_total_cpu h);
  hw_memory : sum_of vm_memory_mib (select (on_host (h_id h)) t) <= h_total_memory_mib h;
  hw_rootfs : sum_of vm_disk_gib (select (on_host (h_id h)) t) * GIB <= h_rootfs_total_bytes h;
  hw_data : sum_of id (host_min_sizes (h_id h) t) * GIB <= h_data_total_bytes h;
}.

Lemma and_then_true a b : and_then a b = Some true -> a = Some true /\ b = Some true.
Proof. destruct a as [[]|]; simpl; auto; done. Qed.

Lemma sql_sum_Some {A} (f : A -> Z) t n : sql_sum f t = Some n -> n = sum_of f t.
Proof. unfold sql_sum. case_bool_decide; by intros [= <-]. Qed.

Lemma gate_row_true ratio t h cpu mem rootfs data :
  gate_row ratio t h cpu mem rootfs data = Some true ->
  h_healthy h = true /\
  sum_of vm_cpu (select (on_host (h_id h)) t) + cpu <= effective_cpu ratio (h_total_cpu h) /\
  sum_of vm_memory_mib (select (on_host (h_id h)) t) + mem <= h_total_memory_mib h /\
  sum_of vm_disk_gib (select (on_host (h_id h)) t) * GIB + rootfs <= h_rootfs_total_bytes h /\
  sum_of id (host_min_sizes (h_id h) t) * GIB + data <= h_data_total_bytes h.
Proof.
  unfold gate_row. intros H.
  apply and_then_true in H as [Hh H]. apply and_then_true in H as [Hc H].
  apply and_then_true in H as [Hm H]. apply and_then_true in H as [Hr Hd].
  destruct (sql_sum vm_cpu _) eqn:E1 in Hc; [|done].
  destruct (sql_sum vm_memory_mib _) eqn:E2 in Hm; [|done].
  destruct (sql_sum vm_disk_gib _) eqn:E3 in Hr; [|done].
  destruct (sql_sum id _) eqn:E4 in Hd; [|done].
  simpl in *. apply sql_sum_Some in E1, E2, E3, E4. subst.
  destruct (sql_effective_cpu _ _) eqn:Ee; [|done]. apply sql_effective_cpu_eq in Ee. subst.
  injection Hh as ->. injection Hc as Hc. injection Hm as Hm. injection Hr as Hr.
  injection Hd as Hd. apply Z.leb_le in Hc, Hm, Hr, Hd. split_and!; [done|lia|lia|lia|lia].
Qed.

Lemma on_host_app_same f vm (t : list VmRow) :
  sum_of f (select (on_host (vm_host_id vm)) (t ++ [vm])) =
  sum_of f (select (on_host (vm_host_id vm)) t) + f vm.
Proof.
  unfold select. rewrite List.filter_app. simpl. unfold on_host at 2.
  rewrite String.eqb_refl, sum_of_app. simpl. lia.
Qed.

Lemma on_host_app_other host vm (t : list VmRow) :
  vm_host_id vm <> host -> select (on_host host) (t ++ [vm]) = select (on_host host) t.
Proof.
  intros Hn%String.eqb_neq. unfold select. rewrite List.filter_app. simpl.
  unfold on_host at 2. by rewrite Hn, app_nil_r.
Qed.

Lemma host_min_sizes_app_same vm t :
  host_min_sizes (vm_host_id vm) (t ++ [vm]) =
  host_min_sizes (vm_host_id vm) t ++ sql_min_sizes (vm_storage_disks vm).
Proof.
  unfold host_min_sizes, select. rewrite List.filter_app. simpl. unfold on_host at 2.
  rewrite String.eqb_refl, bind_app. simpl. by rewrite app_nil_r.
Qed.

Lemma host_within_other ratio vm t h :
  h_id h <> vm_host_id vm -> host_within ratio (t ++ [vm]) h <-> host_within ratio t h.
Proof.
  intros Hn. assert (host_min_sizes (h_id h) (t ++ [vm]) = host_min_sizes (h_id h) t) as Hm.
  { unfold host_min_sizes. by rewrite on_host_app_other. }
  split; intros [H1 H2 H3 H4]; split; rewrite ?on_host_app_other, ?Hm in *; done.
Qed.

(** The successful branches of the inserts. *)
Lemma insert_vm_row_ok ratio vm db db' :
  insert_vm_row ratio vm db = (db', Ok tt) ->
  db' = set_vms (fun t => t ++ [vm]) db /\
  (exists gib h, storage_disks_sum_gib vm = Some gib /\ h ∈ hosts db /\ h_id h = vm_host_id vm /\
     gate_row ratio (vms db) h (vm_cpu vm) (vm_memory_mib vm)
       (sat_i64 (vm_disk_gib vm * GIB)) (sat_i64 (gib * GIB)) = Some true) /\
  (forall v, v ∈ vms db -> vm_id v <> vm_id vm /\
     (vm_cluster_id v, vm_name v) <> (vm_cluster_id vm, vm_name vm)) /\
  (exists c, c ∈ clusters db /\ c_id c = vm_cluster_id vm).
Proof.
  unfold insert_vm_row, capacity_gate. intros H.
  destruct (storage_disks_sum_gib vm) as [gib|]; [|done].
  destruct (select1 _ _) as [h|] eqn:Eh; [|by destruct (existsb _ _)].
  destruct (gate_row _ _ _ _ _ _ _) as [[]|] eqn:Eg; [|by destruct (existsb _ _)|done].
  destruct (existsb _ (vms db)) eqn:Eu; [done|].
  destruct (existsb _ (clusters db)) eqn:Ec; [|done]. injection H as <-.
  apply select1_Some in Eh as [Hin Hid]. apply String.eqb_eq in Hid.
  apply existsb_true in Ec as (c & Hc & E%String.eqb_eq).
  split_and!; [done|by exists gib, h| |by exists c].
  intros v Hv. apply (proj1 (existsb_false _ _) Eu) in Hv.
  apply orb_false_iff in Hv as [H1 H2]. apply String.eqb_neq in H1. split; [done|].
  intros [= E1 E2]. by rewrite E1, E2, !String.eqb_refl in H2.
Qed.

(** The keys of [vm_gpus]: a device of a host belongs to one VM. *)
Record gpus_ok (t : list GpuAssignment) : Prop := {
  go_vm : NoDup (map (fun g => (ga_vm_id g, ga_pci_address g)) t);
  go_host : NoDup (map (fun g => (ga_host_id g, ga_pci_address g)) t);
}.

Lemma gpus_app t g :
  gpus_ok t ->
  (forall r, r ∈ t -> (ga_vm_id r, ga_pci_address r) <> (ga_vm_id g, ga_pci_address g) /\
                      (ga_host_id r, ga_pci_address r) <> (ga_host_id g, ga_pci_address g)) ->
  gpus_ok (t ++ [g]).
Proof. intros [H1 H2] Hf. split; apply NoDup_map_app; try done; intros r Hr; by apply Hf. Qed.

Lemma insert_gpu_ok host g db db' :
  insert_gpu host g db = (db', Ok tt) ->
  db' = set_vm_gpus (fun t => t ++ [g]) db /\
  (exists v, v ∈ vms db /\ vm_id v = ga_vm_id g) /\
  (gpus_ok (vm_gpus db) -> gpus_ok (vm_gpus db')).
Proof.
  unfold insert_gpu. destruct (existsb _ (vm_gpus db)) eqn:E; [done|].
  destruct (existsb _ (vms db)) eqn:Ev; [|done]. intros [= <-].
  apply existsb_true in Ev as (v & Hv & Ev%String.eqb_eq).
  split_and!; [done|by exists v|]. intros Hk. destruct db; simpl in *. apply gpus_app; [done|].
  intros r Hr. apply (proj1 (existsb_false _ _) E) in Hr. apply orb_false_iff in Hr as [H1 H2].
  split; intros [= E1 E2]; [rewrite E1, E2, !String.eqb_refl in H1|
                            rewrite E1, E2, !String.eqb_refl in H2]; done.
Qed.

Lemma insert_gpus_ok host gpus db db' :
  se_for gpus (insert_gpu host) db = (db', Ok tt) ->
  db' = set_vm_gpus (fun t => t ++ gpus) db /\
  (forall g, g ∈ gpus -> exists v, v ∈ vms db /\ vm_id v = ga_vm_id g) /\
  (gpus_ok (vm_gpus db) -> gpus_ok (vm_gpus db')).
Proof.
  revert db. induction gpus as [|g gpus IH]; intros db H; simpl in H.
  { injection H as <-. split_and!; [destruct db; simpl; by rewrite app_nil_r|set_solver|done]. }
  unfold se_bind in H. destruct (insert_gpu host g db) as [db1 [[]|e]] eqn:Eg; [|done].
  apply insert_gpu_ok in Eg as (-> & Hv & Hk). apply IH in H as (-> & Hvs & Hk').
  destruct db; simpl in *. split_and!; [by rewrite <- app_assoc| |auto].
  intros g' [->|Hg]%elem_of_cons; [done|by apply Hvs].
Qed.

(** The keys of [pool_disk_assignment]. *)
Record assignments_ok (t : list PoolDiskAssignmentRow) : Prop := {
  ao_id : NoDup (map pda_assignment_id t);
  ao_disk : NoDup (map (fun r => (pda_vm_id r, pda_disk_index r)) t);
}.

Lemma insert_disks_ok vm disks db db' :
  se_for disks (insert_disk vm) db = (db', Ok tt) ->
  db' = set_pool_disk_assignment (fun t => t ++ map (pda_row vm) disks) db /\
  (assignments_ok (pool_disk_assignment db) -> assignments_ok (pool_disk_assignment db')).
Proof.
  revert db. induction disks as [|d disks IH]; intros db H; simpl in H.
  { injection H as <-. split; [destruct db; simpl; by rewrite app_nil_r|done]. }
  unfold se_bind in H. unfold insert_disk in H at 1. destruct (existsb _ _) eqn:E; [done|].
  apply IH in H as [-> Hk]. destruct db; simpl in *. split; [by rewrite <- app_assoc|].
  intros [H1 H2]. apply Hk. split; apply NoDup_map_app; try done;
    intros r Hr; apply (proj1 (existsb_false _ _) E) in Hr; apply orb_false_iff in Hr as [E1 E2].
  - by apply String.eqb_neq in E1.
  - simpl. intros [= E3 E4]. by rewrite E3, E4, String.eqb_refl, Z.eqb_refl in E2.
Qed.

(** A successful commit, whole. *)
Lemma insert_vm_ok ratio vm gpus disks db db' :
  insert_vm ratio vm gpus disks db = (db', Ok tt) ->
  db' = set_pool_disk_assignment (fun t => t ++ map (pda_row vm) disks)
         (set_vm_gpus (fun t => t ++ gpus) (set_vms (fun t => t ++ [vm]) db)) /\
  insert_vm_row ratio vm db = (set_vms (fun t => t ++ [vm]) db, Ok tt) /\
  (forall g, g ∈ gpus -> exists v, v ∈ vms db ++ [vm] /\ vm_id v = ga_vm_id g) /\
  (gpus_ok (vm_gpus db) -> gpus_ok (vm_gpus db')) /\
  (assignments_ok (pool_disk_assignment db) -> assignments_ok (pool_disk_assignment db')).
Proof.
  unfold insert_vm. intros H%se_tx_ok. unfold se_bind in H.
  destruct (insert_vm_row ratio vm db) as [db1 [[]|e]] eqn:E1; [|done].
  destruct (se_for gpus _ db1) as [db2 [[]|e]] eqn:E2; [|done].
  pose proof (insert_vm_row_ok _ _ _ _ E1) as [-> _].
  apply insert_gpus_ok in E2 as (-> & Hg & Hk). apply insert_disks_ok in H as (-> & Hd).
  destruct db; simpl in *. split_and!; auto.
Qed.

Lemma disks_request ds vm gib :
  disks_of_json (vm_storage_disks vm) = Some ds -> Forall disk_typed ds ->
  sum_of sd_min_size_gib ds < 2 ^ 63 -> storage_disks_sum_gib vm = Some gib ->
  gib = sum_of sd_min_size_gib ds /\ Forall (fun d => is_i64 (sd_min_size_gib d)) ds.
Proof.
  unfold storage_disks_sum_gib. intros -> Ht Hs. simpl. intros [= <-].
  assert (forall d, d ∈ ds -> 0 <= sd_min_size_gib d) as Hpos.
  { intros d Hd. rewrite Forall_forall in Ht. apply Ht in Hd as (_ & ? & _). lia. }
  assert (forall d, d ∈ ds -> sd_min_size_gib d <= sum_of sd_min_size_gib ds) as Hle.
  { clear Ht Hs. induction ds as [|d0 ds IH]; [set_solver|]. intros d Hd. simpl.
    pose proof (sum_of_nonneg sd_min_size_gib ds ltac:(set_solver)).
    pose proof (Hpos d0 ltac:(set_solver)).
    apply elem_of_cons in Hd as [->|Hd]; [lia|]. specialize (IH ltac:(set_solver) d Hd). lia. }
  assert (forall d, d ∈ ds -> is_i64 (sd_min_size_gib d)) as Hi.
  { intros d Hd. specialize (Hpos d Hd). specialize (Hle d Hd). unfold is_i64. lia. }
  split; [|by apply Forall_forall].
  rewrite (sum_of_ext _ sd_min_size_gib) by (intros d Hd; apply as_i64_small; auto).
  apply as_i64_small. pose proof (sum_of_nonneg sd_min_size_gib ds Hpos). unfold is_i64. lia.
Qed.
End vms.

(** C1: a committed VM fits. When [insert_vm] succeeds, the chosen host is
    healthy and, with the new VM counted, its CPU load is within the
    overcommitted CPUs and its memory, root-disk and data-disk loads are
    within the totals; no other host's load changes. The host's byte totals
    are [i64]s below the maximum and the request is of the Rust types. *)
Theorem insert_vm_capacity `{J : DbJson} `{!DbJsonLaws J} ratio vm ds gpus disks db db' h :
  disks_of_json (vm_storage_disks vm) = Some ds -> Forall disk_typed ds ->
  sum_of sd_min_size_gib ds < 2 ^ 63 ->
  NoDup (map h_id (hosts db)) -> h ∈ hosts db -> h_id h = vm_host_id vm ->
  h_rootfs_total_bytes h < i64_max -> h_data_total_bytes h < i64_max ->
  (forall v, v ∈ vms db -> 0 <= vm_disk_gib v) ->
  (forall n, n ∈ host_min_sizes (h_id h) (vms db) -> 0 <= n) ->
  insert_vm ratio vm gpus disks db = (db', Ok tt) ->
  h_healthy h = true /\ host_within ratio (vms db') h /\
  forall h', h_id h' <> h_id h -> host_within ratio (vms db') h' <-> host_within ratio (vms db) h'.
Proof.
  intros Hj Hty Hsum Hnd Hin Hid Hroot Hdata Hpos Hmin H.
  destruct (insert_vm_ok _ _ _ _ _ _ H) as (-> & Hrow & _).
  destruct (insert_vm_row_ok _ _ _ _ Hrow) as (_ & (gib & h1 & Hg & Hh1 & Hid1 & Hgate) & _).
  assert (h1 = h) as -> by (eapply (NoDup_map_inj _ _ _ _ Hnd Hh1 Hin); congruence).
  destruct (disks_request _ _ _ Hj Hty Hsum Hg) as [-> Hi].
  apply gate_row_true in Hgate as (Hh & G1 & G2 & G3 & G4).
  replace (vms _) with (vms db ++ [vm]) by (by destruct db).
  pose proof (sum_of_nonneg vm_disk_gib (select (on_host (h_id h)) (vms db))) as P1.
  pose proof (sum_of_nonneg id (host_min_sizes (h_id h) (vms db)) Hmin) as P2.
  assert (0 <= sum_of vm_disk_gib (select (on_host (h_id h)) (vms db))) as P3.
  { apply P1. intros v [Hv _]%elem_of_select. by apply Hpos. }
  split_and!; [done| |].
  - unfold sat_i64, GIB, i64_max in *.
    split; rewrite Hid in *; rewrite ?on_host_app_same; [lia|lia|unfold GIB; lia|].
    rewrite host_min_sizes_app_same, sum_of_app, (sql_min_sizes_spec _ _ Hj Hi).
    assert (sum_of id (map sd_min_size_gib ds) = sum_of sd_min_size_gib ds) as ->.
    { clear. induction ds as [|d ds IH]; simpl; [done|]. by rewrite IH. }
    unfold GIB. lia.
  - intros h' Hne. apply host_within_other. congruence.
Qed.

(** C2: a GPU has one owner. Whatever the racing requests, a successful
    commit keeps every (host, PCI address) and every (VM, PCI address)
    reserved at most once, writes exactly the requested reservations and disk
    assignments, and keeps VM ids and the names within a cluster unique. *)
Theorem insert_vm_exclusive `{J : DbJson} ratio vm gpus disks db db' :
  gpus_ok (vm_gpus db) -> assignments_ok (pool_disk_assignment db) ->
  NoDup (map vm_id (vms db)) -> NoDup (map (fun v => (vm_cluster_id v, vm_name v)) (vms db)) ->
  insert_vm ratio vm gpus disks db = (db', Ok tt) ->
  gpus_ok (vm_gpus db') /\ assignments_ok (pool_disk_assignment db') /\
  NoDup (map vm_id (vms db')) /\ NoDup (map (fun v => (vm_cluster_id v, vm_name v)) (vms db')) /\
  db' = set_pool_disk_assignment (fun t => t ++ map (pda_row vm) disks)
         (set_vm_gpus (fun t => t ++ gpus) (set_vms (fun t => t ++ [vm]) db)).
Proof.
  intros Hg Ha Hn1 Hn2 H. destruct (insert_vm_ok _ _ _ _ _ _ H) as (E & Hrow & _ & Hg' & Ha').
  destruct (insert_vm_row_ok _ _ _ _ Hrow) as (_ & _ & Hf & _).
  split_and!; [auto|auto| | |done]; rewrite E; destruct db; simpl in *;
    apply NoDup_map_app; try done; intros r Hr; by apply Hf.
Qed.

(** ** Why a commit is refused *)

(** A requested GPU is reserved already, or requested twice. *)
Definition gpu_clash (t : list GpuAssignment) (gpus : list GpuAssignment) : Prop :=
  exists pre g post, gpus = pre ++ g :: post /\
  exists r, r ∈ t ++ pre /\ ga_pci_address r = ga_pci_address g /\
            (ga_vm_id r = ga_vm_id g \/ ga_host_id r = ga_host_id g).

Definition disk_clash (t : list PoolDiskAssignmentRow) (vm : VmRow) (disks : list DiskPlacement) : Prop :=
  exists pre d post, disks = pre ++ d :: post /\
  exists r, r ∈ t ++ map (pda_row vm) pre /\
    (pda_assignment_id r = assignment_id_of (vm_id vm) (dp_disk_index d) \/
     (pda_vm_id r = vm_id vm /\ pda_disk_index r = dp_disk_index d)).

Lemma insert_gpus_err host gpus db db' e :
  se_for gpus (insert_gpu host) db = (db', Err e) ->
  (e = CapacityRaced host /\ gpu_clash (vm_gpus db) gpus) \/
  (e = Sqlx ForeignKeyViolation /\
   exists g, g ∈ gpus /\ forall v, v ∈ vms db -> vm_id v <> ga_vm_id g).
Proof.
  revert db. induction gpus as [|g gpus IH]; intros db H; simpl in H; [done|].
  unfold se_bind in H. destruct (insert_gpu host g db) as [db1 [[]|e1]] eqn:Eg.
  - apply insert_gpu_ok in Eg as (-> & _). apply IH in H as [[-> H]|[-> (g' & Hg & H)]].
    + left. split; [done|]. destruct H as (pre & g' & post & -> & r & Hr & Hc).
      exists (g :: pre), g', post. split; [done|]. exists r. split; [|done].
      destruct db; simpl in *. set_solver.
    + right. split; [done|]. exists g'. split; [set_solver|]. by destruct db.
  - simplify_eq. unfold insert_gpu in Eg. destruct (existsb _ (vm_gpus db)) eqn:E.
    + injection Eg as <- <-. left. split; [done|]. apply existsb_true in E as (r & Hr & E).
      exists [], g, gpus. split; [done|]. exists r. split; [set_solver|].
      apply orb_true_iff in E as [E|E]; apply andb_true_iff in E as [E1 E2];
        apply String.eqb_eq in E1, E2; auto.
    + destruct (existsb _ (vms db)) eqn:Ev; [done|]. injection Eg as <- <-. right.
      split; [done|]. exists g. split; [set_solver|]. intros v Hv.
      by apply (proj1 (existsb_false _ _) Ev), String.eqb_neq in Hv.
Qed.

Lemma insert_disks_err vm disks db db' e :
  se_for disks (insert_disk vm) db = (db', Err e) ->
  e = CapacityRaced (vm_host_id vm) /\ disk_clash (pool_disk_assignment db) vm disks.
Proof.
  revert db. induction disks as [|d disks IH]; intros db H; simpl in H; [done|].
  unfold se_bind in H. unfold insert_disk in H at 1. destruct (existsb _ _) eqn:E.
  - injection H as <- <-. split; [done|]. apply existsb_true in E as (r & Hr & E).
    exists [], d, disks. split; [done|]. exists r. split; [set_solver|].
    apply orb_true_iff in E as [E%String.eqb_eq|E]; [by left|]. right.
    apply andb_true_iff in E as [E1%String.eqb_eq E2%Z.eqb_eq]. done.
  - apply IH in H as [-> H]. split; [done|].
    destruct H as (pre & d' & post & -> & r & Hr & Hc).
    exists (d :: pre), d', post. split; [done|]. exists r. split; [|done].
    destruct db; simpl in *. rewrite <- app_assoc in Hr. done.
Qed.

(** What each error of [insert_vm] means for the database it was run on. *)
Definition refusal_meaning `{J : DbJson} (ratio : f64) (vm : VmRow) (gpus : list GpuAssignment)
    (disks : list DiskPlacement) (db : Db) (e : DbError) : Prop :=
  let healthy := exists h, h ∈ hosts db /\ h_id h = vm_host_id vm /\ h_healthy h = true in
  let gate := match storage_disks_sum_gib vm with
              | Some gib => capacity_gate ratio db vm (sat_i64 (vm_disk_gib vm * GIB))
                                                      (sat_i64 (gib * GIB))
              | None => None
              end in
  match e with
  | HostUnavailable host => host = vm_host_id vm /\ ~ healthy
  | CapacityRaced host => host = vm_host_id vm /\ healthy /\
      (gate = Some false \/
       (gate = Some true /\ (gpu_clash (vm_gpus db) gpus \/
                             disk_clash (pool_disk_assignment db) vm disks)))
  | Conflict _ => exists v, v ∈ vms db /\
      (vm_id v = vm_id vm \/ (vm_cluster_id v = vm_cluster_id vm /\ vm_name v = vm_name vm))
  | Malformed _ => disks_of_json (vm_storage_disks vm) = None
  | Sqlx IntegerOverflow => gate = None
  | Sqlx ForeignKeyViolation =>
      (forall c, c ∈ clusters db -> c_id c <> vm_cluster_id vm) \/
      (exists g, g ∈ gpus /\ ga_vm_id g <> vm_id vm)
  | _ => False
  end.

Lemma gate_true_healthy `{J : DbJson} ratio db vm rootfs data :
  capacity_gate ratio db vm rootfs data = Some true ->
  exists h, h ∈ hosts db /\ h_id h = vm_host_id vm /\ h_healthy h = true.
Proof.
  unfold capacity_gate. destruct (select1 _ _) as [h|] eqn:Eh; [|done]. intros Hg.
  apply select1_Some in Eh as [? ?%String.eqb_eq]. apply gate_row_true in Hg as [? _]. by exists h.
Qed.

Lemma insert_vm_row_err `{J : DbJson} ratio vm gpus disks db db' e :
  insert_vm_row ratio vm db = (db', Err e) -> refusal_meaning ratio vm gpus disks db e.
Proof.
  unfold insert_vm_row, refusal_meaning. destruct (storage_disks_sum_gib vm) as [gib|] eqn:Es.
  2:{ intros [= <- <-]. unfold storage_disks_sum_gib in Es. by destruct (disks_of_json _). }
  destruct (capacity_gate _ _ _ _ _) as [[]|] eqn:Eg.
  - destruct (existsb _ (vms db)) eqn:Eu.
    { intros [= <- <-]. apply existsb_true in Eu as (v & Hv & E). exists v. split; [done|].
      apply orb_true_iff in E as [E%String.eqb_eq|E]; [by left|]. right.
      apply andb_true_iff in E as [E1%String.eqb_eq E2%String.eqb_eq]. done. }
    destruct (existsb _ (clusters db)) eqn:Ec; [done|]. intros [= <- <-]. left.
    intros c Hc. by apply (proj1 (existsb_false _ _) Ec), String.eqb_neq in Hc.
  - destruct (existsb _ (hosts db)) eqn:Eh; intros [= <- <-].
    + apply existsb_true in Eh as (h & Hh & [E1%String.eqb_eq E2]%andb_true_iff).
      split_and!; [done|by exists h|by left].
    + split; [done|]. intros (h & Hh & E1 & E2).
      apply (proj1 (existsb_false _ _) Eh) in Hh. by rewrite E1, E2, String.eqb_refl in Hh.
  - by intros [= <- <-].
Qed.

(** A refused commit changes nothing and says why. [HostUnavailable]
    means no healthy host of that id; [CapacityRaced] means the host is
    healthy but the gate found it too full, or a GPU or disk of the request
    is taken; [Conflict] means the id or the name is in use; the remaining
    errors are unparseable disks, an overflowing sum, and a missing cluster
    or a GPU row naming another VM. *)
Theorem insert_vm_refused `{J : DbJson} ratio vm gpus disks db db' e :
  insert_vm ratio vm gpus disks db = (db', Err e) ->
  db' = db /\ refusal_meaning ratio vm gpus disks db e.
Proof.
  intros H. pose proof (se_tx_err _ _ _ _ H) as ->. split; [done|].
  unfold insert_vm, se_tx, se_bind in H.
  destruct (insert_vm_row ratio vm db) as [db1 [[]|e1]] eqn:E1.
  2:{ injection H as <-. by eapply insert_vm_row_err. }
  pose proof E1 as Hrow. unfold insert_vm_row in Hrow. unfold refusal_meaning.
  destruct (storage_disks_sum_gib vm) as [gib|]; [|done].
  destruct (capacity_gate _ _ _ _ _) as [[]|] eqn:Eg; [|by destruct (existsb _ _)|done].
  pose proof (gate_true_healthy _ _ _ _ _ Eg) as Hh. clear Hrow.
  pose proof (insert_vm_row_ok _ _ _ _ E1) as [-> _].
  destruct (se_for gpus _ _) as [db2 [[]|e2]] eqn:E2.
  - apply insert_gpus_ok in E2 as (-> & _).
    destruct (se_for disks _ _) as [db3 [[]|e3]] eqn:E3; [done|]. injection H as <-.
    apply insert_disks_err in E3 as [-> H]. split_and!; [done|done|]. right.
    split; [done|]. right. by destruct db.
  - injection H as <-. apply insert_gpus_err in E2 as [[-> H]|[-> (g & Hg & H)]].
    + split_and!; [done|done|]. right. split; [done|]. left. by destruct db.
    + right. exists g. split; [done|]. intros E. apply (H vm); [|done].
      destruct db; simpl. set_solver.
Qed.

(** ** The snapshot is exact *)

Lemma upsert_fold {A} (key : A -> string) (f : A -> HostUsage -> HostUsage) l out host :
  unwrap_or usage_default
    (foldl (fun out a => upsert_usage (key a) (f a) out) out l !! host) =
  foldl (fun u a => if key a =$ host then f a u else u) (unwrap_or usage_default (out !! host)) l.
Proof.
  revert out. induction l as [|a l IH]; intros out; simpl; [done|]. rewrite IH. f_equal.
  unfold upsert_usage. destruct (key a =$ host) eqn:E.
  - apply String.eqb_eq in E as ->. by rewrite lookup_insert_eq.
  - apply String.eqb_neq in E. by rewrite lookup_insert_ne.
Qed.

Section usage.
Context `{J : DbJson}.

Lemma collect_sums_lookup t hs m host :
  collect_sums t hs = Some m ->
  m !! host = if bool_decide (host ∈ hs) then usage_sums t host else None.
Proof.
  revert m. induction hs as [|h hs IH]; intros m Hm; simpl in Hm; [by simplify_eq|].
  destruct (usage_sums t h) as [u|] eqn:Eu; [|done]. simpl in Hm.
  destruct (collect_sums t hs) as [m'|] eqn:Em; [|done]. simpl in Hm. injection Hm as <-.
  destruct (decide (host = h)) as [->|Hne].
  - rewrite lookup_insert_eq, bool_decide_eq_true_2 by set_solver. done.
  - rewrite lookup_insert_ne, (IH m') by done.
    rewrite (bool_decide_ext (host ∈ hs) (host ∈ h :: hs)); [done|]. set_solver.
Qed.

Lemma collect_sums_total t hs :
  (forall h, h ∈ hs -> is_Some (usage_sums t h)) -> is_Some (collect_sums t hs).
Proof.
  induction hs as [|h hs IH]; intros H; simpl; [done|].
  destruct (H h ltac:(set_solver)) as [u ->]. simpl.
  destruct IH as [m ->]; [set_solver|]. done.
Qed.

(** The four loads of a host. *)
Definition load (t : list VmRow) (host : string) : Z * Z * Z * Z :=
  let on := select (on_host host) t in
  (sum_of vm_cpu on, sum_of vm_memory_mib on, sum_of vm_disk_gib on,
   sum_of id (host_min_sizes host t)).

Definition usage_load (u : HostUsage) : Z * Z * Z * Z :=
  (used_cpu u, used_memory_mib u, used_rootfs_gib u, used_data_gib u).

Definition load_fits (l : Z * Z * Z * Z) : Prop :=
  let '(a, b, c, d) := l in is_i64 a /\ is_i64 b /\ is_i64 c /\ is_i64 d.

Lemma sql_sum_total {A} (f : A -> Z) t : is_i64 (sum_of f t) -> sql_sum f t = Some (sum_of f t).
Proof. intros H. unfold sql_sum. by rewrite bool_decide_eq_true_2. Qed.

Lemma usage_sums_total t h :
  load_fits (load t h) ->
  exists u, usage_sums t h = Some u /\ usage_load u = load t h /\
            assigned_pci u = ∅ /\ vms_by_cluster u = ∅.
Proof.
  intros (H1 & H2 & H3 & H4). unfold usage_sums. rewrite !sql_sum_total by done. simpl. eauto.
Qed.

Lemma load_empty t h : h ∉ vm_hosts t -> load t h = (0, 0, 0, 0).
Proof.
  intros Hn. assert (select (on_host h) t = []) as Hs.
  { destruct (select (on_host h) t) as [|v l] eqn:E; [done|].
    assert (v ∈ select (on_host h) t) as [Hv Hh]%elem_of_select by (rewrite E; set_solver).
    exfalso. apply Hn. unfold vm_hosts. rewrite elem_of_remove_dups. apply list_elem_of_fmap.
    exists v. by apply String.eqb_eq in Hh. }
  unfold load, host_min_sizes. by rewrite Hs.
Qed.
End usage.

Lemma fold_pci host l u :
  let u' := foldl (fun u g => if ga_host_id g =$ host then add_pci (ga_pci_address g) u else u) u l in
  usage_load u' = usage_load u /\ vms_by_cluster u' = vms_by_cluster u /\
  forall pci, pci ∈ assigned_pci u' <->
    pci ∈ assigned_pci u \/ exists g, g ∈ l /\ ga_host_id g = host /\ ga_pci_address g = pci.
Proof.
  revert u. induction l as [|g l IH]; intros u; simpl; [split_and!; [done|done|set_solver]|].
  destruct (ga_host_id g =$ host) eqn:E.
  - destruct (IH (add_pci (ga_pci_address g) u)) as (-> & -> & Hp). split_and!; [done|done|].
    intros pci. rewrite Hp. simpl. apply String.eqb_eq in E. set_solver.
  - destruct (IH u) as (-> & -> & Hp). split_and!; [done|done|]. intros pci. rewrite Hp.
    apply String.eqb_neq in E. set_solver.
Qed.

Lemma fold_counts host (n : string * string -> Z) l u c :
  NoDup l ->
  let u' := foldl (fun u p => if fst p =$ host then add_cluster_count (snd p) (n p) u else u) u l in
  usage_load u' = usage_load u /\ assigned_pci u' = assigned_pci u /\
  vms_by_cluster u' !! c =
    if bool_decide ((host, c) ∈ l) then Some (n (host, c)) else vms_by_cluster u !! c.
Proof.
  revert u. induction l as [|[h c'] l IH]; intros u Hnd; simpl; [done|].
  apply NoDup_cons in Hnd as [Hni Hnd]. destruct (h =$ host) eqn:E.
  - apply String.eqb_eq in E as ->.
    destruct (IH (add_cluster_count c' (n (host, c')) u) Hnd) as (-> & -> & ->).
    split_and!; [done|done|]. simpl. destruct (decide (c = c')) as [->|Hne].
    + rewrite bool_decide_eq_false_2, bool_decide_eq_true_2, lookup_insert_eq by set_solver. done.
    + rewrite lookup_insert_ne by done. rewrite (bool_decide_ext ((host, c) ∈ (host, c') :: l) ((host, c) ∈ l)); [done|].
      set_solver.
  - destruct (IH u Hnd) as (-> & -> & ->). split_and!; [done|done|].
    apply String.eqb_neq in E.
    rewrite (bool_decide_ext ((host, c) ∈ (h, c') :: l) ((host, c) ∈ l)); [done|]. set_solver.
Qed.

(** The scheduler's snapshot is exact. Unless a SUM overflows, reading it
    succeeds and changes nothing, and for every host, listed or not, the
    loads are the sums over its VMs, the assigned PCI addresses are those of
    its GPU reservations, and the per-cluster counts are the numbers of VMs
    (as [u32]). *)
Theorem host_usage_snapshot_exact `{J : DbJson} db :
  (forall host, load_fits (load (vms db) host)) ->
  exists m, host_usage_snapshot db = (db, Ok m) /\
  forall host, let u := unwrap_or usage_default (m !! host) in
    usage_load u = load (vms db) host /\
    (forall pci, pci ∈ assigned_pci u <->
       exists g, g ∈ vm_gpus db /\ ga_host_id g = host /\ ga_pci_address g = pci) /\
    (forall c, unwrap_or 0 (vms_by_cluster u !! c) = as_u32 (pair_count (vms db) (host, c))).
Proof.
  intros Hfit. unfold host_usage_snapshot.
  destruct (collect_sums_total (vms db) (vm_hosts (vms db))) as [m0 Hm0].
  { intros h _. destruct (usage_sums_total _ _ (Hfit h)) as (u & -> & _). done. }
  rewrite Hm0. eexists. split; [done|]. intros host.
  rewrite (upsert_fold fst (fun p => add_cluster_count (snd p) (as_u32 (pair_count (vms db) p)))),
    (upsert_fold ga_host_id (fun g => add_pci (ga_pci_address g))).
  rewrite (collect_sums_lookup _ _ _ _ Hm0).
  set (u0 := unwrap_or usage_default _).
  assert (usage_load u0 = load (vms db) host /\ assigned_pci u0 = ∅ /\ vms_by_cluster u0 = ∅)
    as (Hl & Hp & Hc).
  { subst u0. case_bool_decide as Hin.
    - destruct (usage_sums_total _ _ (Hfit host)) as (u & -> & ? & ? & ?). done.
    - by rewrite load_empty. }
  destruct (fold_pci host (vm_gpus db) u0) as (Hl1 & Hc1 & Hp1). cbv zeta in *.
  set (u1 := foldl _ u0 _) in *.
  assert (NoDup (vm_pairs (vms db))) as Hnd by apply NoDup_remove_dups.
  pose proof (fun c => fold_counts host (fun p => as_u32 (pair_count (vms db) p)) _ u1 c Hnd) as Hf.
  cbv zeta in Hf. set (u2 := foldl _ u1 _) in *. split_and!.
  - destruct (Hf EmptyString) as (-> & _). congruence.
  - intros pci. destruct (Hf EmptyString) as (_ & -> & _). rewrite Hp1, Hp. set_solver.
  - intros c. destruct (Hf c) as (_ & _ & ->). rewrite Hc1, Hc. case_bool_decide as Hin; simpl; [done|].
    unfold pair_count. rewrite (proj2 (count_where_zero _ _)); [done|].
    intros v Hv. destruct ((vm_host_id v =$ host) && (vm_cluster_id v =$ c)) eqn:E; [|done].
    exfalso. apply Hin. unfold vm_pairs. rewrite elem_of_remove_dups. apply list_elem_of_fmap.
    exists v. apply andb_true_iff in E as [->%String.eqb_eq ->%String.eqb_eq]. done.
Qed.

(** ** Examples *)

Definition example_disk : StoredDisk := {|
  sd_disk_index := 0; sd_min_size_gib := 10; sd_purpose := "r"; sd_pool := None;
  sd_device_id := None; sd_assignment_id := None; sd_actual_size_gib := None;
  sd_device_path := None |}.

Definition example_vm (id host : string) : VmRow := {|
  vm_id := id; vm_name := id; vm_cluster_id := "c1"; vm_host_id := host;
  vm_ip_address := "10.0.0.33"; vm_state := 2; vm_cpu := 8; vm_memory_mib := 1024;
  vm_disk_gib := 20; vm_storage_disks := disks_to_json [example_disk]; vm_image := "ubuntu";
  vm_error_message := ""; vm_created_at := "2026-01-01T00:00:00Z";
  vm_updated_at := "2026-01-01T00:00:00Z" |}.

Definition example_gpu (vm host pci : string) : GpuAssignment := {|
  ga_vm_id := vm; ga_host_id := host; ga_pci_address := pci; ga_model := "H100";
  ga_iommu_group := "17"; ga_nvlink_group := 1 |}.

(** One VM with one GPU on [h1]. *)
Definition loaded_db : Db :=
  fst (insert_vm ratio_4 (example_vm "vm1" "h1") [example_gpu "vm1" "h1" "0000:17:00.0"] [] fleet_db).

Lemma example_disks_typed : Forall disk_typed [example_disk].
Proof.
  apply Forall_singleton. unfold disk_typed, is_u32. simpl. split; [lia|]. split; [lia|]. done.
Qed.

Lemma insert_vm_capacity_witness :
  insert_vm ratio_4 (example_vm "vm1" "h1") [example_gpu "vm1" "h1" "0000:17:00.0"] [] fleet_db
    = (loaded_db, Ok tt) /\
  host_within ratio_4 (vms loaded_db) (example_host "h1" "10.1.0.1").
Proof.
  assert (insert_vm ratio_4 (example_vm "vm1" "h1") [example_gpu "vm1" "h1" "0000:17:00.0"] [] fleet_db
    = (loaded_db, Ok tt)) as H by (vm_compute; reflexivity).
  split; [exact H|].
  refine (proj1 (proj2 (insert_vm_capacity ratio_4 (example_vm "vm1" "h1") [example_disk] _ _ fleet_db
    loaded_db (example_host "h1" "10.1.0.1") _ example_disks_typed _ _ _ _ _ _ _ _ H))).
  - vm_compute. reflexivity.
  - vm_compute. reflexivity.
  - apply (bool_decide_eq_true_1 _). vm_compute. reflexivity.
  - constructor.
  - reflexivity.
  - vm_compute. reflexivity.
  - vm_compute. reflexivity.
  - intros v Hv. exfalso. change (vms fleet_db) with (@nil VmRow) in Hv. inversion Hv.
  - intros n Hn. exfalso. vm_compute in Hn. inversion Hn.
Defined.

Lemma insert_vm_exclusive_witness :
  gpus_ok (vm_gpus loaded_db) /\ NoDup (map vm_id (vms loaded_db)).
Proof.
  destruct (insert_vm_exclusive ratio_4 (example_vm "vm1" "h1")
    [example_gpu "vm1" "h1" "0000:17:00.0"] [] fleet_db loaded_db) as (H1 & _ & H2 & _);
    [split; constructor|split; constructor|constructor|constructor|vm_compute; reflexivity|].
  split; [exact H1|exact H2].
Defined.

(** A second VM asks for the same GPU. *)
Lemma insert_vm_refused_witness :
  insert_vm ratio_4 (example_vm "vm2" "h1") [example_gpu "vm2" "h1" "0000:17:00.0"] [] loaded_db
    = (loaded_db, Err (CapacityRaced "h1")) /\
  refusal_meaning ratio_4 (example_vm "vm2" "h1") [example_gpu "vm2" "h1" "0000:17:00.0"] []
    loaded_db (CapacityRaced "h1").
Proof.
  assert (insert_vm ratio_4 (example_vm "vm2" "h1") [example_gpu "vm2" "h1" "0000:17:00.0"] [] loaded_db
    = (loaded_db, Err (CapacityRaced "h1"))) as H by (vm_compute; reflexivity).
  split; [exact H|]. exact (proj2 (insert_vm_refused _ _ _ _ _ _ _ H)).
Defined.

Lemma host_usage_snapshot_exact_witness :
  exists m, host_usage_snapshot loaded_db = (loaded_db, Ok m) /\
    usage_load (unwrap_or usage_default (m !! "h1")) = (8, 1024, 20, 10).
Proof.
  destruct (host_usage_snapshot_exact loaded_db) as (m & H1 & H2).
  - intros host. assert (vms loaded_db = [example_vm "vm1" "h1"]) as -> by (vm_compute; reflexivity).
    unfold load, host_min_sizes, select. simpl. destruct (on_host host _).
    + vm_compute. repeat split; discriminate.
    + vm_compute. repeat split; discriminate.
  - exists m. split; [exact H1|]. rewrite (proj1 (H2 "h1")). vm_compute. reflexivity.
Defined.
