(* ===== verification/Teardown.v ===== *)
(** * VM state and teardown (crates/basis-controller/src/db.rs)

    The state column of [vms], the tombstones a deleted VM leaves until its
    host acknowledges it, and the acknowledgement itself, which is also what
    completes the deletion of a cluster. *)

From S2P Require Import Prelude Ipv4 Ipnet CidrNet Proto Config Overcommit DbTypes JsonText Ipam Clusters Hosts Vms.

(** ** State changes *)

Definition with_vm_state (s : Z) (err now : string) (v : VmRow) : VmRow := {|
  vm_id := vm_id v; vm_name := vm_name v; vm_cluster_id := vm_cluster_id v;
  vm_host_id := vm_host_id v; vm_ip_address := vm_ip_address v; vm_state := s;
  vm_cpu := vm_cpu v; vm_memory_mib := vm_memory_mib v; vm_disk_gib := vm_disk_gib v;
  vm_storage_disks := vm_storage_disks v; vm_image := vm_image v; vm_error_message := err;
  vm_created_at := vm_created_at v; vm_updated_at := now |}.

(** [Db::update_vm_state]. *)
Definition update_vm_state (vm : string) (state : Z) (err now : string) : DbM unit :=
  fun db =>
    if existsb (fun v => vm_id v =$ vm) (vms db)
    then (set_vms (update_where (fun v => vm_id v =$ vm) (with_vm_state state err now)) db, Ok tt)
    else (db, Err (NotFound ("vm '" +:+ vm +:+ "'"))).

(** [Db::mark_vm_pending_teardown]. *)
Definition mark_vm_pending_teardown (vm now : string) : DbM unit :=
  fun db =>
    if existsb (fun v => vm_id v =$ vm) (vms db)
    then (set_vms (update_where (fun v => vm_id v =$ vm)
            (fun v => with_vm_state VM_STATE_PENDING_TEARDOWN (vm_error_message v) now v)) db, Ok tt)
    else (db, Err (NotFound ("vm '" +:+ vm +:+ "'"))).

(** [Db::list_pending_vm_tombstones]. *)
Definition list_pending_vm_tombstones (host : string) : DbM (list string) :=
  se_gets (fun db => map vm_id
    (select (fun v => on_host host v && (vm_state v =? VM_STATE_PENDING_TEARDOWN)) (vms db))).

(** [DELETE FROM vms WHERE p], cascading to [vm_gpus]. *)
Definition delete_vms (p : VmRow -> bool) (db : Db) : Db :=
  set_vm_gpus (delete_where (fun g => existsb (fun v => p v && (vm_id v =$ ga_vm_id g)) (vms db)))
    (set_vms (delete_where p) db).

(** One VM of a [TombstoneAck]. *)
Definition ack_vm (host : string) (vm : string) : DbM unit :=
  run! release_vm_ips vm ;
  se_modify (delete_vms (fun v => (vm_id v =$ vm) && on_host host v &&
                                  (vm_state v =? VM_STATE_PENDING_TEARDOWN))).

(** The rows that keep a cluster alive. *)
Definition remaining (db : Db) (cluster_id : string) : Z :=
  count_where (fun r => hc_cluster_id r =$ cluster_id) (host_clusters db) +
  count_where (fun v => vm_cluster_id v =$ cluster_id) (vms db).

(** One VNI of a [TombstoneAck]. *)
Definition ack_cluster (host : string) (vni : Z) : DbM unit :=
  fun db =>
    match select1 (fun c => c_vni c =? vni) (clusters db) with
    | None => (db, Ok tt)
    | Some c =>
        let db := set_host_clusters (delete_where (fun r =>
                    (hc_host_id r =$ host) && (hc_state r =? 1) && (hc_cluster_id r =$ c_id c))) db in
        if remaining db (c_id c) =? 0
        then (run! release_cluster_ips (c_id c) ; delete_cluster_row (c_id c)) db
        else (db, Ok tt)
    end.

(** [Db::ack_tombstones]. *)
Definition ack_tombstones (host : string) (cluster_vnis : list Z) (vm_ids : list string) : DbM unit :=
  if (length cluster_vnis =? 0)%nat && (length vm_ids =? 0)%nat then se_ret tt
  else se_tx (run! se_for vm_ids (ack_vm host) ; se_for cluster_vnis (ack_cluster host)).

(** [Db::mark_vms_failed_on_host]: the number of rows changed. *)
Definition mark_vms_failed_on_host (host reason now : string) : DbM Z :=
  fun db =>
    let p v := on_host host v && negb ((vm_state v =? machine_state_num Stopped) ||
                                       (vm_state v =? machine_state_num Failed)) in
    (set_vms (update_where p (with_vm_state (machine_state_num Failed) reason now)) db,
     Ok (count_where p (vms db))).

(** ** What an acknowledgement removes *)

(** The membership rows a VNI acknowledgement matches. *)
Definition acked_member (host cluster_id : string) (r : HostClusterRow) : bool :=
  (hc_host_id r =$ host) && (hc_state r =? 1) && (hc_cluster_id r =$ cluster_id).

Definition drop_members (host cluster_id : string) (db : Db) : Db :=
  set_host_clusters (delete_where (acked_member host cluster_id)) db.

(** A drained cluster with its addresses and its LAN owner removed. *)
Definition drop_cluster (cluster_id : string) (db : Db) : Db :=
  set_lan_vip_owner (delete_where (fun r => lvo_cluster_id r =$ cluster_id))
   (set_clusters (delete_where (fun c => c_id c =$ cluster_id))
     (set_ip_allocations
       (delete_where (fun r => bool_decide (ipa_cluster_id r = Some cluster_id))) db)).

Lemma remaining_zero db c :
  remaining db c = 0 <->
  (forall r, r ∈ host_clusters db -> hc_cluster_id r <> c) /\
  (forall v, v ∈ vms db -> vm_cluster_id v <> c).
Proof.
  unfold remaining. split.
  - intros H. assert (count_where (fun r => hc_cluster_id r =$ c) (host_clusters db) = 0 /\
      count_where (fun v => vm_cluster_id v =$ c) (vms db) = 0) as [H1 H2]
      by (unfold count_where in *; lia).
    split; intros r Hr; apply String.eqb_neq;
      [by apply (proj1 (count_where_zero _ _) H1)|by apply (proj1 (count_where_zero _ _) H2)].
  - intros [H1 H2]. rewrite !(proj2 (count_where_zero _ _)); [done| |];
      intros r Hr; apply String.eqb_neq; auto.
Qed.

(** The deletion never trips over a foreign key. *)
Lemma ack_cluster_outcome host vni db :
  ack_cluster host vni db =
    (match select1 (fun c => c_vni c =? vni) (clusters db) with
     | None => db
     | Some c => let db1 := drop_members host (c_id c) db in
                 if remaining db1 (c_id c) =? 0 then drop_cluster (c_id c) db1 else db1
     end, Ok tt).
Proof.
  unfold ack_cluster. destruct (select1 _ _) as [c|]; [|done].
  fold (acked_member host (c_id c)). fold (drop_members host (c_id c) db).
  cbv zeta. destruct (remaining _ _ =? 0) eqn:E; [|done].
  apply Z.eqb_eq, remaining_zero in E as [E1 E2].
  unfold se_bind, release_cluster_ips, se_modify, delete_cluster_row.
  assert (cluster_referenced (set_ip_allocations
    (delete_where (fun r => bool_decide (ipa_cluster_id r = Some (c_id c))))
    (drop_members host (c_id c) db)) (c_id c) = false) as ->.
  { unfold cluster_referenced. destruct db; simpl in *. apply orb_false_iff.
    split; apply existsb_false; intros r Hr; apply String.eqb_neq; auto. }
  by rewrite andb_false_r.
Qed.

(** What a loop of VM acknowledgements leaves of [vms]. *)
Definition acked_vm (host : string) (ids : list string) (v : VmRow) : bool :=
  existsb (String.eqb (vm_id v)) ids && on_host host v && (vm_state v =? VM_STATE_PENDING_TEARDOWN).

Lemma delete_where_compose {A} (p q r : A -> bool) (t : list A) :
  (forall x, r x = p x || q x) -> delete_where q (delete_where p t) = delete_where r t.
Proof.
  intros H. induction t as [|x t IH]; simpl; [done|]. rewrite H.
  destruct (p x); simpl; [done|]. destruct (q x); simpl; [done|]. by rewrite IH.
Qed.

Lemma delete_where_false {A} (p : A -> bool) (t : list A) :
  (forall x, x ∈ t -> p x = false) -> delete_where p t = t.
Proof.
  induction t as [|x t IH]; intros H; simpl; [done|].
  rewrite (H x) by set_solver. simpl. f_equal. apply IH. set_solver.
Qed.

Lemma ack_vms_outcome host ids db :
  exists db', se_for ids (ack_vm host) db = (db', Ok tt) /\
    vms db' = delete_where (acked_vm host ids) (vms db) /\
    host_clusters db' = host_clusters db /\ clusters db' = clusters db /\ hosts db' = hosts db /\
    ip_allocations db' = delete_where (fun r => existsb (fun i => bool_decide (ipa_vm_id r = Some i)) ids)
                           (ip_allocations db) /\
    (forall g, g ∈ vm_gpus db' -> g ∈ vm_gpus db).
Proof.
  revert db. induction ids as [|i ids IH]; intros db; simpl.
  { exists db. split; [done|]. rewrite !delete_where_false by done. done. }
  unfold se_bind at 1. simpl.
  destruct (IH (delete_vms (fun v => (vm_id v =$ i) && on_host host v &&
     (vm_state v =? VM_STATE_PENDING_TEARDOWN))
     (set_ip_allocations (delete_where (fun r => bool_decide (ipa_vm_id r = Some i))) db)))
    as (db' & Hf & Hv & Hh & Hc & Hho & Hi & Hg).
  exists db'. rewrite Hv, Hh, Hc, Hho, Hi. destruct db; simpl in *.
  split_and!; [done| |done|done|done| |].
  - apply delete_where_compose. intros v. unfold acked_vm. simpl.
    destruct (vm_id v =$ i), (existsb _ ids), (on_host host v), (_ =? _); done.
  - by apply delete_where_compose.
  - intros g Hg'. apply Hg in Hg'. by apply elem_of_delete_where in Hg' as [? _].
Qed.

(** What a loop of VNI acknowledgements removes. *)
Lemma ack_clusters_outcome host vnis db :
  exists db', se_for vnis (ack_cluster host) db = (db', Ok tt) /\
    vms db' = vms db /\ vm_gpus db' = vm_gpus db /\ hosts db' = hosts db /\
    (forall r, r ∈ host_clusters db' -> r ∈ host_clusters db) /\
    (forall r, r ∈ host_clusters db -> r ∉ host_clusters db' ->
       hc_host_id r = host /\ hc_state r = 1 /\
       exists c, c ∈ clusters db /\ c_id c = hc_cluster_id r /\ c_vni c ∈ vnis) /\
    (forall c, c ∈ clusters db' -> c ∈ clusters db) /\
    (forall c, c ∈ clusters db -> c ∉ clusters db' ->
       (forall r, r ∈ host_clusters db' -> hc_cluster_id r <> c_id c) /\
       (forall v, v ∈ vms db -> vm_cluster_id v <> c_id c)).
Proof.
  revert db. induction vnis as [|vni vnis IH]; intros db; simpl.
  { exists db. split; [done|]. split_and!; done. }
  unfold se_bind. rewrite ack_cluster_outcome.
  destruct (select1 _ _) as [c|] eqn:Es.
  2:{ destruct (IH db) as (db' & H1 & H2 & H3 & H4 & H5 & H6 & H7 & H8).
      exists db'. split_and!; try done. intros r Hr Hn.
      destruct (H6 r Hr Hn) as (? & ? & c & ? & ? & ?). split_and!; [done|done|].
      exists c. split_and!; [done|done|set_solver]. }
  apply select1_Some in Es as [Hc Hvni%Z.eqb_eq]. cbv zeta.
  set (db1 := drop_members host (c_id c) db).
  set (db2 := if remaining db1 (c_id c) =? 0 then drop_cluster (c_id c) db1 else db1).
  assert (vms db2 = vms db /\ vm_gpus db2 = vm_gpus db /\ hosts db2 = hosts db /\
          host_clusters db2 = delete_where (acked_member host (c_id c)) (host_clusters db))
    as (E1 & E2 & E3 & E4).
  { subst db2 db1. destruct db; destruct (_ =? 0); done. }
  assert (forall c', c' ∈ clusters db2 -> c' ∈ clusters db) as Hsub.
  { subst db2 db1. destruct db; destruct (_ =? 0); simpl; [|done].
    by intros c' [? _]%elem_of_delete_where. }
  assert (forall c', c' ∈ clusters db -> c' ∉ clusters db2 ->
            c_id c' = c_id c /\ remaining db1 (c_id c) = 0) as Hdel.
  { intros c' Hc' Hn. subst db2. destruct (remaining db1 (c_id c) =? 0) eqn:Er.
    - split; [|by apply Z.eqb_eq]. apply String.eqb_eq.
      destruct (c_id c' =$ c_id c) eqn:Ei; [done|]. exfalso. apply Hn.
      subst db1. destruct db; simpl in *. by apply elem_of_delete_where.
    - exfalso. apply Hn. subst db1. by destruct db. }
  destruct (IH db2) as (db' & H1 & H2 & H3 & H4 & H5 & H6 & H7 & H8). exists db'.
  split_and!; [done|congruence|congruence|congruence| | |auto|].
  - intros r Hr. apply H5 in Hr. rewrite E4 in Hr. by apply elem_of_delete_where in Hr as [? _].
  - intros r Hr Hn. destruct (acked_member host (c_id c) r) eqn:Ea.
    + unfold acked_member in Ea. apply andb_true_iff in Ea as [Ea F3%String.eqb_eq].
      apply andb_true_iff in Ea as [F1%String.eqb_eq F2%Z.eqb_eq]. split_and!; [done|done|].
      exists c. split_and!; [done|done|set_solver].
    + destruct (H6 r) as (? & ? & c' & ? & ? & ?); [rewrite E4; by apply elem_of_delete_where|done|].
      split_and!; [done|done|]. exists c'. split_and!; [auto|done|set_solver].
  - intros c' Hc' Hn. destruct (decide (c' ∈ clusters db2)) as [Hin|Hout].
    + destruct (H8 c' Hin Hn) as [G1 G2]. split; [done|]. by rewrite <- E1.
    + destruct (Hdel c' Hc' Hout) as [Ei [G1 G2]%remaining_zero]. rewrite Ei. split.
      * intros r Hr. apply G1. apply H5 in Hr. rewrite E4 in Hr. subst db1. by destruct db.
      * intros v Hv. apply G2. subst db1. by destruct db.
Qed.

Lemma ack_tombstones_steps host vnis ids db :
  exists db1 db2, se_for ids (ack_vm host) db = (db1, Ok tt) /\
    se_for vnis (ack_cluster host) db1 = (db2, Ok tt) /\
    ack_tombstones host vnis ids db = (db2, Ok tt).
Proof.
  destruct (ack_vms_outcome host ids db) as (db1 & H1 & _).
  destruct (ack_clusters_outcome host vnis db1) as (db2 & H2 & _).
  exists db1, db2. split_and!; [done|done|]. unfold ack_tombstones.
  destruct ((length vnis =? 0)%nat && (length ids =? 0)%nat) eqn:E.
  - apply andb_true_iff in E as [E1%Nat.eqb_eq E2%Nat.eqb_eq].
    destruct vnis; [|done]. destruct ids; [|done]. simpl in *. unfold se_ret in *. congruence.
  - unfold se_tx, se_bind. by rewrite H1, H2.
Qed.


(** C40: an acknowledgement of a VM that is not being torn down, or is on
    another host, keeps the row but frees its addresses: the row survives and
    no allocation of the VM is left, so its address can be handed out again. *)
Theorem stale_ack_frees_addresses host vnis ids db db' v :
  ack_tombstones host vnis ids db = (db', Ok tt) ->
  v ∈ vms db -> vm_id v ∈ ids ->
  vm_host_id v <> host \/ vm_state v <> VM_STATE_PENDING_TEARDOWN ->
  v ∈ vms db' /\ forall r, r ∈ ip_allocations db' -> ipa_vm_id r <> Some (vm_id v).
Proof.
  intros H Hv Hid Hlive.
  destruct (ack_tombstones_steps host vnis ids db) as (db1 & db2 & H1 & H2 & H').
  rewrite H in H'. injection H' as <-.
  destruct (ack_vms_outcome host ids db) as (db1' & G1 & Gv & _ & _ & _ & Gi & _).
  rewrite H1 in G1. injection G1 as <-.
  destruct (ack_clusters_outcome host vnis db1) as (db2' & K1 & Kv & _).
  rewrite H2 in K1. injection K1 as <-. split.
  - rewrite Kv, Gv. apply elem_of_delete_where. split; [done|]. unfold acked_vm, on_host.
    rewrite <- not_true_iff_false, !andb_true_iff, String.eqb_eq, Z.eqb_eq. tauto.
  - assert (forall r, r ∈ ip_allocations db' -> r ∈ ip_allocations db1) as Hsub.
    { clear -H2. revert db1 H2. induction vnis as [|vni vnis IH]; intros db1 H2; simpl in H2;
        [by injection H2 as <-|]. unfold se_bind in H2. rewrite ack_cluster_outcome in H2.
      intros r Hr. eapply IH in Hr; [|exact H2]. destruct (select1 _ _) as [c|]; [|done].
      cbv zeta in Hr. destruct (_ =? 0); destruct db1; simpl in *; [|done].
      by apply elem_of_delete_where in Hr as [? _]. }
    intros r Hr Hr'. apply Hsub in Hr. rewrite Gi in Hr.
    apply elem_of_delete_where in Hr as [_ Hr]. rewrite existsb_false in Hr.
    specialize (Hr _ Hid). by rewrite bool_decide_eq_false in Hr.
Qed.

(** A host that lapses forgets its tombstones. [mark_vms_failed_on_host]
    moves every VM of the host that is neither stopped nor failed to FAILED,
    the ones being torn down included, touches no other host, and leaves the
    host with no pending VM tombstone. *)
Theorem host_failure_drops_tombstones host reason now db :
  exists db' n, mark_vms_failed_on_host host reason now db = (db', Ok n) /\
    list_pending_vm_tombstones host db' = (db', Ok []) /\
    map vm_id (vms db') = map vm_id (vms db) /\
    (forall v, v ∈ vms db -> vm_host_id v <> host -> v ∈ vms db') /\
    (forall v, v ∈ vms db' -> vm_host_id v = host ->
       vm_state v = machine_state_num Stopped \/ vm_state v = machine_state_num Failed).
Proof.
  unfold mark_vms_failed_on_host. cbv zeta. eexists _, _. split; [done|].
  set (p v := on_host host v && _). set (f := with_vm_state _ _ _).
  assert (forall v, v ∈ update_where p f (vms db) -> vm_host_id v = host ->
    vm_state v = machine_state_num Stopped \/ vm_state v = machine_state_num Failed) as Hs.
  { intros v (v0 & Hv0 & ->)%elem_of_update_where. destruct (p v0) eqn:E; [by right|].
    intros Hh. unfold p, on_host in E. rewrite Hh, String.eqb_refl in E. simpl in E.
    apply negb_false_iff, orb_true_iff in E as [E|E]; apply Z.eqb_eq in E; auto. }
  assert (vms (set_vms (update_where p f) db) = update_where p f (vms db)) as E by (by destruct db).
  rewrite E. split_and!.
  - unfold list_pending_vm_tombstones, se_gets. rewrite E. f_equal.
    destruct (select _ _) as [|v l] eqn:El; [done|].
    assert (v ∈ select (fun v => on_host host v && (vm_state v =? VM_STATE_PENDING_TEARDOWN))
              (update_where p f (vms db))) as [Hv Hp]%elem_of_select by (rewrite El; set_solver).
    apply andb_true_iff in Hp as [Hh%String.eqb_eq Hp%Z.eqb_eq].
    destruct (Hs v Hv Hh) as [Hst|Hst]; rewrite Hst in Hp; discriminate.
  - by apply map_update_where.
  - intros v Hv Hh. apply elem_of_update_where. exists v. split; [done|].
    unfold p, on_host. by rewrite (proj2 (String.eqb_neq _ _) Hh).
  - done.
Qed.

(** ** A deletion completes *)

Lemma select1_unique {A} (k : A -> Z) (t : list A) r :
  NoDup (map k t) -> r ∈ t -> select1 (fun x => k x =? k r) t = Some r.
Proof.
  intros Hnd Hr. destruct (select1 _ t) as [r'|] eqn:E.
  - apply select1_Some in E as [Hr' E%Z.eqb_eq]. f_equal. by eapply (NoDup_map_inj k t).
  - apply (proj1 (select1_None _ _) E) in Hr. by rewrite Z.eqb_refl in Hr.
Qed.

(** Nothing is left of a cluster. *)
Definition cluster_gone (c : ClusterRow) (db : Db) : Prop :=
  (forall c', c' ∈ clusters db -> c_id c' <> c_id c /\ c_vni c' <> c_vni c) /\
  (forall r, r ∈ ip_allocations db -> ipa_cluster_id r <> Some (c_id c)) /\
  (forall r, r ∈ host_clusters db -> hc_cluster_id r <> c_id c) /\
  (forall r, r ∈ cluster_lan_vip_owner db -> lvo_cluster_id r <> c_id c).

Lemma ack_vni_eq host vni db : ack_tombstones host [vni] [] db = ack_cluster host vni db.
Proof.
  unfold ack_tombstones. simpl. unfold se_tx, se_bind, se_ret.
  rewrite ack_cluster_outcome. done.
Qed.

Lemma ack_gone host c db : cluster_gone c db -> ack_tombstones host [c_vni c] [] db = (db, Ok tt).
Proof.
  intros [Hc _]. rewrite ack_vni_eq, ack_cluster_outcome.
  assert (select1 (fun c' => c_vni c' =? c_vni c) (clusters db) = None) as ->; [|done].
  apply select1_None. intros c' Hc'. apply Z.eqb_neq. by apply Hc.
Qed.

Lemma drop_cluster_gone host c db :
  NoDup (map c_vni (clusters db)) -> c ∈ clusters db ->
  remaining (drop_members host (c_id c) db) (c_id c) = 0 ->
  cluster_gone c (drop_cluster (c_id c) (drop_members host (c_id c) db)).
Proof.
  intros Hnd Hc [Hm _]%remaining_zero. destruct db; simpl in *. split_and!; simpl.
  - intros c' [Hc' Hn%String.eqb_neq]%elem_of_delete_where. split; [done|]. intros E.
    by rewrite (NoDup_map_inj _ _ _ _ Hnd Hc' Hc E) in Hn.
  - intros r [_ Hr]%elem_of_delete_where. by apply bool_decide_eq_false in Hr.
  - done.
  - intros r [_ Hr]%elem_of_delete_where. by apply String.eqb_neq in Hr.
Qed.


(** ** Examples *)

(** [c1] deleted while [h1] carries it. *)
Definition draining_db : Db :=
  fst (mark_cluster_pending_teardown_all_hosts "c1" full_db).


(** A running VM on [h1] with an address; [h2] names it in an acknowledgement. *)
Definition addressed_db : Db :=
  set_ip_allocations (fun _ => [{| ipa_ip_address := "10.0.0.33"; ipa_scope := cluster_scope "c1";
                                  ipa_vm_id := Some "vm1"; ipa_cluster_id := None |}]) loaded_db.

Lemma stale_ack_frees_addresses_witness :
  exists db', ack_tombstones "h2" [] ["vm1"] addressed_db = (db', Ok tt) /\
    example_vm "vm1" "h1" ∈ vms db' /\
    forall r, r ∈ ip_allocations db' -> ipa_vm_id r <> Some "vm1".
Proof.
  eexists. split; [vm_compute; reflexivity|].
  apply (stale_ack_frees_addresses "h2" [] ["vm1"] addressed_db _ (example_vm "vm1" "h1")).
  - vm_compute. reflexivity.
  - change (vms addressed_db) with (vms loaded_db).
    assert (vms loaded_db = [example_vm "vm1" "h1"]) as -> by (vm_compute; reflexivity). constructor.
  - constructor.
  - left. discriminate.
Defined.
