(* ===== verification/Outbox.v ===== *)
(** * Disk assignments and the outbox (crates/basis-controller/src/db.rs)

    The commit of an agent-reported disk assignment, and the durable queue of
    controller-to-agent commands. *)

From S2P Require Import Prelude Ipv4 Ipnet CidrNet Proto Config Overcommit DbTypes JsonText Ipam Clusters Hosts Vms.

Section outbox.
Context `{J : DbJson}.

(** ** Disk assignments and the outbox *)

(** [Db::list_host_replicated_assignments]: [(pool, device_id, cluster_id)]. *)
Definition list_host_replicated_assignments (host : string) : DbM (list (string * string * string)) :=
  se_gets (fun db => map (fun r => (pda_pool r, pda_device_id r, pda_cluster_id r))
    (select (fun r => (pda_host_id r =$ host) && (pda_purpose r =$ "replicated"))
            (pool_disk_assignment db))).

Definition commit_pda (actual : Z) (r : PoolDiskAssignmentRow) : PoolDiskAssignmentRow := {|
  pda_assignment_id := pda_assignment_id r; pda_host_id := pda_host_id r; pda_pool := pda_pool r;
  pda_device_id := pda_device_id r; pda_vm_id := pda_vm_id r; pda_disk_index := pda_disk_index r;
  pda_cluster_id := pda_cluster_id r; pda_purpose := pda_purpose r;
  pda_min_size_gib := pda_min_size_gib r;
  pda_actual_size_gib := Some actual; pda_state := "committed" |}.

Definition with_storage_disks (f : string -> string) (v : VmRow) : VmRow := {|
  vm_id := vm_id v; vm_name := vm_name v; vm_cluster_id := vm_cluster_id v;
  vm_host_id := vm_host_id v; vm_ip_address := vm_ip_address v; vm_state := vm_state v;
  vm_cpu := vm_cpu v; vm_memory_mib := vm_memory_mib v; vm_disk_gib := vm_disk_gib v;
  vm_storage_disks := f (vm_storage_disks v); vm_image := vm_image v;
  vm_error_message := vm_error_message v; vm_created_at := vm_created_at v;
  vm_updated_at := vm_updated_at v |}.

(** [Db::commit_disk_assignment]. *)
Definition commit_disk_assignment (host : string) (a : DiskAssignment) : DbM unit :=
  let patch := {| patch_actual_size_gib := as_i64 (da_actual_size_gib a);
                  patch_device_path := da_device_path a;
                  patch_assignment_id := da_assignment_id a;
                  patch_pool := da_pool a; patch_device_id := da_device_id a |} in
  se_modify (fun db =>
    set_vms (update_where (fun v => vm_id v =$ da_vm_id a)
               (with_storage_disks (fun s => sql_json_set_disk s (da_disk_index a) patch)))
    (set_pool_disk_assignment
      (update_where (fun r => (pda_assignment_id r =$ da_assignment_id a) && (pda_host_id r =$ host))
                    (commit_pda (as_i64 (da_actual_size_gib a)))) db)).

(** [Db::cluster_counts_on_device]: reservations by cluster, in order. *)
Definition cluster_counts (host pool device : string) (db : Db) : list (string * Z) :=
  let on := select (fun r => (pda_host_id r =$ host) && (pda_pool r =$ pool) &&
                             (pda_device_id r =$ device)) (pool_disk_assignment db) in
  map (fun c => (c, count_where (fun r => pda_cluster_id r =$ c) on))
      (merge_sort String.le (remove_dups (map pda_cluster_id on))).
Definition cluster_counts_on_device (host pool device : string) : DbM (list (string * Z)) :=
  se_gets (cluster_counts host pool device).

(** [Db::enqueue_pending_command]: the id of the new row. *)
Definition enqueue_pending_command (host vm : string) (payload : list Byte.byte) : DbM Z :=
  fun db =>
    let id := pending_command_seq db + 1 in
    (set_pending_command_seq (fun _ => id)
       (set_pending_command (fun t => t ++ [{| pc_id := id; pc_host_id := host; pc_vm_id := vm;
          pc_payload := payload; pc_state := "pending" |}]) db), Ok id).

Definition command_le (a b : Z * list Byte.byte) : Prop := fst a <= fst b.
#[global] Instance command_le_dec a b : Decision (command_le a b).
Proof. unfold command_le. apply _. Defined.

(** [Db::list_pending_commands]: [ORDER BY id ASC]. *)
Definition list_pending_commands (host : string) : DbM (list (Z * list Byte.byte)) :=
  se_gets (fun db => merge_sort command_le
    (map (fun r => (pc_id r, pc_payload r))
         (select (fun r => (pc_host_id r =$ host) && (pc_state r =$ "pending")) (pending_command db)))).

Definition with_pc_state (s : string) (r : PendingCommandRow) : PendingCommandRow := {|
  pc_id := pc_id r; pc_host_id := pc_host_id r; pc_vm_id := pc_vm_id r;
  pc_payload := pc_payload r; pc_state := s |}.

(** [Db::mark_command_sent] and [Db::ack_pending_commands_for_vm]. *)
Definition mark_command_sent (id : Z) : DbM unit :=
  se_modify (set_pending_command (update_where (fun r => pc_id r =? id) (with_pc_state "sent"))).
Definition ack_pending_commands_for_vm (vm : string) : DbM unit :=
  se_modify (set_pending_command (delete_where (fun r => pc_vm_id r =$ vm))).
End outbox.

(** ** First in, first out *)

(** Outbox ids are unique and were handed out by the counter. *)
Record outbox_ok (t : list PendingCommandRow) (seq : Z) : Prop := {
  bo_id : NoDup (map pc_id t);
  bo_seq r : r ∈ t -> pc_id r <= seq;
}.

(** The queue of one host. *)
Definition queue (db : Db) (host : string) : list (Z * list Byte.byte) :=
  match snd (list_pending_commands host db) with Ok l => l | Err _ => [] end.

Definition waiting (host : string) (r : PendingCommandRow) : bool :=
  (pc_host_id r =$ host) && (pc_state r =$ "pending").

Definition entry (r : PendingCommandRow) : Z * list Byte.byte := (pc_id r, pc_payload r).

Lemma command_le_trans : Transitive command_le.
Proof. intros [a ?] [b ?] [c ?]. unfold command_le. simpl. lia. Qed.
Lemma command_le_total : Total command_le.
Proof. intros [a ?] [b ?]. unfold command_le. simpl. lia. Qed.

Lemma queue_eq db host :
  queue db host = merge_sort command_le (map entry (select (waiting host) (pending_command db))).
Proof. done. Qed.

(** Two sorted lists of commands with distinct ids and the same entries are
    the same list. *)
Lemma queue_unique (l1 l2 : list (Z * list Byte.byte)) :
  StronglySorted command_le l1 -> StronglySorted command_le l2 -> l1 ≡ₚ l2 ->
  NoDup (map fst l1) -> l1 = l2.
Proof.
  intros S1 S2 P Hnd. apply (StronglySorted_unique_strong command_le); [|done|done|done].
  intros x1 x2 H1 H2 L1 L2. unfold command_le in *. rewrite <- P in H2.
  apply (NoDup_map_inj fst l1); [done|done|done|lia].
Qed.

Lemma sorted_snoc (l : list (Z * list Byte.byte)) x :
  StronglySorted command_le l -> (forall y, y ∈ l -> command_le y x) ->
  StronglySorted command_le (l ++ [x]).
Proof.
  induction 1 as [|a l Hs IH Ha]; intros Hx; simpl; [repeat constructor|].
  constructor; [apply IH; set_solver|]. apply Forall_app. split; [done|].
  apply Forall_singleton. apply Hx. set_solver.
Qed.

Lemma filter_perm {A} (p : A -> bool) (l1 l2 : list A) :
  l1 ≡ₚ l2 -> List.filter p l1 ≡ₚ List.filter p l2.
Proof.
  induction 1 as [|x l1 l2 _ IH|x y l1|l1 l2 l3 _ IH1 _ IH2]; simpl; [done| | |by etrans].
  - destruct (p x); [by constructor|done].
  - destruct (p x), (p y); try done. apply perm_swap.
Qed.

Lemma queue_ids t host : NoDup (map pc_id t) -> NoDup (map fst (map entry (select (waiting host) t))).
Proof.
  intros H. rewrite List.map_map. change (select (waiting host) t) with
    (List.filter (waiting host) t).
  replace (List.filter (waiting host) t) with (delete_where (fun r => negb (waiting host r)) t).
  - by apply NoDup_delete_where.
  - unfold delete_where. apply List.filter_ext. intros r. by rewrite negb_involutive.
Qed.

(** the outbox is a queue per host. A new command gets a fresh id and
    goes to the end of its host's queue; other queues are unchanged; and the
    uniqueness of the ids is kept. *)
Lemma outbox_enqueue_last host vm payload db :
  outbox_ok (pending_command db) (pending_command_seq db) ->
  exists db' id, enqueue_pending_command host vm payload db = (db', Ok id) /\
    outbox_ok (pending_command db') (pending_command_seq db') /\
    (forall r, r ∈ pending_command db -> pc_id r < id) /\
    queue db' host = queue db host ++ [(id, payload)] /\
    (forall other, other <> host -> queue db' other = queue db other).
Proof.
  intros [Hnd Hseq]. eexists _, _. split; [done|].
  destruct db as [? ? ? ? ? ? ? ? t seq]. simpl in *.
  assert (forall r, r ∈ t -> pc_id r < seq + 1) as Hlt by (intros r Hr; specialize (Hseq r Hr); lia).
  set (row := {| pc_id := seq + 1 |}).
  assert (NoDup (map pc_id (t ++ [row]))) as Hnd'.
  { apply NoDup_map_app; [done|]. intros r Hr. simpl. specialize (Hlt r Hr). lia. }
  split_and!; [split; [done|]|done| |].
  - intros r [Hr| -> %list_elem_of_singleton]%elem_of_app; simpl; [specialize (Hseq r Hr)|]; lia.
  - rewrite !queue_eq. simpl. apply queue_unique.
    + apply StronglySorted_merge_sort; [apply command_le_trans|apply command_le_total].
    + apply sorted_snoc; [apply StronglySorted_merge_sort; [apply command_le_trans|apply command_le_total]|].
      intros y. rewrite merge_sort_Permutation. intros (r & -> & [Hr _]%elem_of_select)%list_elem_of_fmap.
      unfold command_le. simpl. specialize (Hlt r Hr). lia.
    + rewrite !merge_sort_Permutation. unfold select. rewrite List.filter_app, List.map_app. simpl.
      unfold waiting at 2. simpl. by rewrite String.eqb_refl.
    + rewrite merge_sort_Permutation. by apply queue_ids.
  - intros other Hne. rewrite !queue_eq. simpl. f_equal. unfold select. rewrite List.filter_app. simpl.
    unfold waiting at 2. simpl. rewrite (proj2 (String.eqb_neq host other)) by done.
    by rewrite app_nil_r.
Qed.

(** sending takes a command off the queue, once. Marking a queued command
    as sent removes exactly that entry, keeps the order of the others, and
    leaves every other host's queue alone. *)
Lemma outbox_mark_sent_removes id host db :
  NoDup (map pc_id (pending_command db)) ->
  exists db', mark_command_sent id db = (db', Ok tt) /\
    queue db' host = List.filter (fun e => negb (fst e =? id)) (queue db host) /\
    map pc_id (pending_command db') = map pc_id (pending_command db).
Proof.
  intros Hnd. eexists. split; [done|]. destruct db as [? ? ? ? ? ? ? ? t seq]. simpl in *.
  split; [|by apply map_update_where]. rewrite !queue_eq. simpl.
  assert (map entry (select (waiting host) (update_where (fun r => pc_id r =? id) (with_pc_state "sent") t))
    = List.filter (fun e => negb (fst e =? id)) (map entry (select (waiting host) t))) as ->.
  { clear. induction t as [|r t IH]; simpl; [done|]. destruct (pc_id r =? id) eqn:E.
    - assert (waiting host (with_pc_state "sent" r) = false) as ->
        by (unfold waiting; simpl; by rewrite andb_false_r).
      destruct (waiting host r); simpl; [by rewrite E|done].
    - destruct (waiting host r); simpl; [by rewrite E, IH|done]. }
  set (l := map entry _). assert (NoDup (map fst l)) as Hl by (by apply queue_ids).
  apply queue_unique.
  - apply StronglySorted_merge_sort; [apply command_le_trans|apply command_le_total].
  - assert (StronglySorted command_le (merge_sort command_le l)) as Hs
      by (apply StronglySorted_merge_sort; [apply command_le_trans|apply command_le_total]).
    clear -Hs. induction Hs as [|a l' Hs IH Ha]; simpl; [constructor|].
    destruct (negb _); [|done]. constructor; [done|]. rewrite Forall_forall in *.
    intros x Hx%list_elem_of_In%filter_In. apply Ha, list_elem_of_In. tauto.
  - rewrite merge_sort_Permutation. symmetry. apply filter_perm, merge_sort_Permutation.
  - rewrite merge_sort_Permutation.
    replace (List.filter _ l) with (delete_where (fun e => fst e =? id) l) by done.
    by apply NoDup_delete_where.
Qed.

(** ** Disk assignments *)

Definition patch_of (a : DiskAssignment) : DiskPatch := {|
  patch_actual_size_gib := as_i64 (da_actual_size_gib a); patch_device_path := da_device_path a;
  patch_assignment_id := da_assignment_id a; patch_pool := da_pool a;
  patch_device_id := da_device_id a |}.

Lemma patched_assignment a v d :
  vm_id v = da_vm_id a -> sd_disk_index d = da_disk_index a -> 0 <= da_actual_size_gib a < 2 ^ 63 ->
  disk_assignment_of v (patch_disk (patch_of a) d) = Some a.
Proof.
  intros Hv Hd Ha. unfold disk_assignment_of. simpl.
  rewrite Hv, Hd, as_i64_small by (unfold is_i64; lia). by destruct a.
Qed.

(** What the agent reports is what is shown. Committing a disk
    assignment makes it one of the assignments rendered for its VM, leaves
    the other disks of the VM as they were, marks the matching reservation
    committed with the reported size, and committing it again changes none of
    this. *)
Theorem commit_disk_assignment_reported `{J : DbJson} `{!DbJsonLaws J} host a db v ds d :
  v ∈ vms db -> vm_id v = da_vm_id a ->
  disks_of_json (vm_storage_disks v) = Some ds ->
  0 <= da_disk_index a -> ds !! Z.to_nat (da_disk_index a) = Some d ->
  sd_disk_index d = da_disk_index a -> 0 <= da_actual_size_gib a < 2 ^ 63 ->
  exists db' v' ds' l, commit_disk_assignment host a db = (db', Ok tt) /\
    v' ∈ vms db' /\ vm_id v' = vm_id v /\
    disks_of_json (vm_storage_disks v') = Some ds' /\
    parsed_disk_assignments v' = Some l /\ a ∈ l /\
    (forall j, j <> Z.to_nat (da_disk_index a) -> ds' !! j = ds !! j) /\
    (forall r, r ∈ pool_disk_assignment db' -> pda_assignment_id r = da_assignment_id a ->
       pda_host_id r = host ->
       pda_state r = "committed" /\ pda_actual_size_gib r = Some (da_actual_size_gib a)) /\
    exists db2 v2, commit_disk_assignment host a db' = (db2, Ok tt) /\ v2 ∈ vms db2 /\
      vm_id v2 = vm_id v /\ disks_of_json (vm_storage_disks v2) = Some ds'.
Proof.
  intros Hv Hid Hj Hi Hd Hdi Ha. pose proof (lookup_lt_Some _ _ _ Hd) as Hlt.
  set (i := Z.to_nat (da_disk_index a)) in *.
  set (f := with_storage_disks (fun s => sql_json_set_disk s (da_disk_index a) (patch_of a))).
  set (ds' := alter (patch_disk (patch_of a)) i ds).
  assert (length ds' = length ds) as Hlen by apply length_alter.
  assert (0 <= patch_actual_size_gib (patch_of a)) as Hpa
    by (simpl; rewrite as_i64_small by (unfold is_i64; lia); lia).
  assert (disks_of_json (vm_storage_disks (f v)) = Some ds') as Hj'
    by (apply (sql_json_set_spec _ _ _ _ Hj); [lia|done]).
  assert (disks_of_json (vm_storage_disks (f (f v))) = Some ds') as Hj2.
  { assert (alter (patch_disk (patch_of a)) i ds' = ds') as <-
      by (subst ds'; by rewrite list_alter_alter_eq).
    apply (sql_json_set_spec _ _ _ _ Hj'); [lia|done]. }
  assert (forall db0, vms (fst (commit_disk_assignment host a db0)) =
            update_where (fun v => vm_id v =$ da_vm_id a) f (vms db0)) as Hvms by (by intros []).
  eexists _, (f v), ds', (omap (disk_assignment_of (f v)) ds'). split; [done|].
  assert (forall v0 t, v0 ∈ t -> vm_id v0 = da_vm_id a ->
            f v0 ∈ update_where (fun v => vm_id v =$ da_vm_id a) f t) as Hup.
  { intros v0 t Hv0 E. apply elem_of_update_where. exists v0. split; [done|].
    by rewrite E, String.eqb_refl. }
  split_and!; [|done|done| | | | |].
  - destruct db; simpl in *. by apply Hup.
  - unfold parsed_disk_assignments. by rewrite Hj'.
  - apply list_elem_of_omap. exists (patch_disk (patch_of a) d). split.
    + apply (list_elem_of_lookup_2 _ i). subst ds'. by rewrite list_lookup_alter_eq, Hd.
    + by apply patched_assignment.
  - intros j Hne. by apply list_lookup_alter_ne.
  - intros r Hr E1 E2. destruct db; simpl in Hr. apply elem_of_update_where in Hr as (r0 & _ & ->).
    destruct (_ && _) eqn:E.
    + simpl. rewrite as_i64_small by (unfold is_i64; lia). done.
    + by rewrite E1, E2, !String.eqb_refl in E.
  - eexists _, (f (f v)). split; [done|]. split_and!; [|done|done].
    destruct db; simpl in *. apply Hup; [by apply Hup|done].
Qed.

(** ** Examples *)

Definition example_assignment : DiskAssignment := {|
  da_assignment_id := "vm1-0"; da_vm_id := "vm1"; da_disk_index := 0; da_pool := "fast";
  da_device_id := "nvme0"; da_actual_size_gib := 12; da_device_path := "/dev/x" |}.

Lemma commit_disk_assignment_reported_witness :
  exists db' v' l, commit_disk_assignment "h1" example_assignment loaded_db = (db', Ok tt) /\
    v' ∈ vms db' /\ parsed_disk_assignments v' = Some l /\ example_assignment ∈ l.
Proof.
  destruct (commit_disk_assignment_reported "h1" example_assignment loaded_db
    (example_vm "vm1" "h1") [example_disk] example_disk)
    as (db' & v' & ds' & l & H1 & H2 & _ & _ & H3 & H4 & _).
  - assert (vms loaded_db = [example_vm "vm1" "h1"]) as -> by (vm_compute; reflexivity). constructor.
  - reflexivity.
  - vm_compute. reflexivity.
  - vm_compute. discriminate.
  - reflexivity.
  - reflexivity.
  - vm_compute. split; [discriminate|reflexivity].
  - exists db', v', l. split; [exact H1|]. split; [exact H2|]. split; [exact H3|exact H4].
Defined.
