(* ===== verification/Schema.v ===== *)
(** * Integrity of the database (crates/basis-controller/src/db.rs)

    The keys and the foreign keys of the schema as an invariant, and the
    proof that every operation of [Db] that writes keeps it: by construction
    of the statements, by the cascades, and, for the deletion of a cluster,
    by the count of what still refers to it. The operations are collected as
    a step relation, over which the invariant is proved by rule induction. *)

From S2P Require Import Prelude Ipv4 Ipnet CidrNet Proto Config Overcommit DbTypes JsonText Ipam Clusters Hosts Vms Teardown Outbox.

(** ** The invariant *)

Record hosts_ok (t : list HostRow) : Prop := {
  ho_id : NoDup (map h_id t);
  ho_hostname : NoDup (map h_hostname t);
}.

Record clusters_ok (t : list ClusterRow) : Prop := {
  co_id : NoDup (map c_id t);
  co_name : NoDup (map c_name t);
  co_vni : NoDup (map c_vni t);
}.

Record vms_ok (t : list VmRow) : Prop := {
  vo_id : NoDup (map vm_id t);
  vo_name : NoDup (map (fun v => (vm_cluster_id v, vm_name v)) t);
}.

(** Addresses are unique across scopes and have exactly one kind of owner. *)
Record ips_ok (t : list IpAllocationRow) : Prop := {
  io_ip : NoDup (map ipa_ip_address t);
  io_owner r : r ∈ t -> owner_ok (ipa_vm_id r) (ipa_cluster_id r) = true;
}.

Definition pool_key (r : HostPoolRow) := (hp_host_id r, hp_pool r).
Definition device_pool_key (r : HostPoolDeviceRow) := (hpd_host_id r, hpd_pool r).
Definition device_key (r : HostPoolDeviceRow) := (hpd_host_id r, hpd_pool r, hpd_device_id r).
Definition marker_key (r : DeviceSchedulingStateRow) := (dss_host_id r, dss_pool r, dss_device_id r).

Record db_wf (db : Db) : Prop := {
  db_hosts : hosts_ok (hosts db);
  db_clusters : clusters_ok (clusters db);
  db_members : members_ok (host_clusters db);
  db_vms : vms_ok (vms db);
  db_gpus : gpus_ok (vm_gpus db);
  db_assignments : assignments_ok (pool_disk_assignment db);
  db_ips : ips_ok (ip_allocations db);
  db_owners : owners_ok (cluster_lan_vip_owner db);
  db_pools : NoDup (map pool_key (host_pools db));
  db_devices : NoDup (map device_key (host_pool_devices db));
  db_markers : NoDup (map marker_key (device_scheduling_state db));
  db_outbox : outbox_ok (pending_command db) (pending_command_seq db);
  fk_member_cluster : map hc_cluster_id (host_clusters db) ⊆ map c_id (clusters db);
  fk_member_host : map hc_host_id (host_clusters db) ⊆ map h_id (hosts db);
  fk_vm_cluster : map vm_cluster_id (vms db) ⊆ map c_id (clusters db);
  fk_vm_host : map vm_host_id (vms db) ⊆ map h_id (hosts db);
  fk_gpu_vm : map ga_vm_id (vm_gpus db) ⊆ map vm_id (vms db);
  fk_owner_cluster : map lvo_cluster_id (cluster_lan_vip_owner db) ⊆ map c_id (clusters db);
  fk_pool_host : map hp_host_id (host_pools db) ⊆ map h_id (hosts db);
  fk_device_pool : map device_pool_key (host_pool_devices db) ⊆ map pool_key (host_pools db);
}.

(** [preserves m]: the call keeps the invariant, whatever it returns. *)
Abbreviation preserves m := (keeps (E:=DbError) db_wf m).

(** [rebuild] splits the goal into the clauses of the invariant and closes
    those about tables the operation did not touch. *)
Ltac rebuild :=
  match goal with
  | H : db_wf ?db |- db_wf _ =>
      destruct db as [hs cs hcs vs hps hpds pdas dss pcs seq lvo gs ips]; destruct H; simpl in *; constructor; simpl; try assumption
  end.

Lemma map_sub_delete {A K} (k : A -> K) p (t : list A) : map k (delete_where p t) ⊆ map k t.
Proof.
  intros x (r & -> & [Hr _]%elem_of_delete_where)%list_elem_of_fmap.
  apply list_elem_of_fmap. by exists r.
Qed.

Lemma elem_of_map {A K} (k : A -> K) (t : list A) x : x ∈ map k t <-> exists r, r ∈ t /\ k r = x.
Proof. rewrite list_elem_of_fmap. split; intros (r & ? & ?); exists r; done. Qed.

Lemma map_sub_app {A K} (k : A -> K) (t : list A) r (u : list K) :
  map k t ⊆ u -> k r ∈ u -> map k (t ++ [r]) ⊆ u.
Proof. intros H1 H2 x. rewrite List.map_app, elem_of_app. simpl. set_solver. Qed.

Lemma sub_map_app {A K} (k : A -> K) (t : list A) r (u : list K) :
  u ⊆ map k t -> u ⊆ map k (t ++ [r]).
Proof. intros H x Hx. rewrite List.map_app, elem_of_app. left. by apply H. Qed.

Lemma existsb_key {A} (k : A -> string) (t : list A) x :
  existsb (fun r => k r =$ x) t = true <-> x ∈ map k t.
Proof.
  rewrite existsb_true, elem_of_map. split; intros (r & ? & E); exists r; split; try done.
  - by apply String.eqb_eq.
  - by apply String.eqb_eq.
Qed.

#[export] Hint Resolve map_sub_delete map_sub_app sub_map_app NoDup_delete_where : basis.

(** ** Addresses *)

Lemma pres_insert_ip row : preserves (insert_ip row).
Proof.
  intros db H. unfold insert_ip. destruct (Bool.eqb _ _) eqn:Eo; [done|].
  destruct (existsb _ _) eqn:E; [done|]. rebuild. destruct db_ips0 as [Hi Ho]. split.
  - apply NoDup_map_app; [done|]. intros r Hr.
    by apply (proj1 (existsb_false _ _) E), String.eqb_neq in Hr.
  - intros r [Hr| -> %list_elem_of_singleton]%elem_of_app; [by apply Ho|].
    unfold owner_ok. by rewrite Eo.
Qed.
#[export] Hint Resolve pres_insert_ip : basis.

Lemma pres_allocate_from_range scope range vm cl : preserves (allocate_from_range scope range vm cl).
Proof.
  intros db H. unfold allocate_from_range. destruct (find_cte _ _ _); [|done].
  apply keeps_bind; auto with basis.
Qed.
#[export] Hint Resolve pres_allocate_from_range : basis.

Lemma pres_allocate_pool_vip `{Ipnet} pool cl : preserves (allocate_pool_vip pool cl).
Proof. unfold allocate_pool_vip. auto with basis. Qed.
Lemma pres_allocate_cluster_vm_ip cluster vm : preserves (allocate_cluster_vm_ip cluster vm).
Proof. unfold allocate_cluster_vm_ip. auto with basis. Qed.

Lemma pres_reserve_specific_ip scope ip vm cl : preserves (reserve_specific_ip scope ip vm cl).
Proof.
  intros db H. unfold reserve_specific_ip.
  pose proof (pres_insert_ip {| ipa_ip_address := ip; ipa_scope := scope;
                                ipa_vm_id := vm; ipa_cluster_id := cl |} db H) as Hi.
  destruct (insert_ip _ db) as [db' [[]|[[]| | | | | | |]]]; done.
Qed.

Lemma pres_allocate_service_block scope range cl count :
  preserves (allocate_service_block scope range cl count).
Proof.
  unfold allocate_service_block. destruct (_ || _); [apply keeps_fail|]. apply keeps_tx.
  intros db H. destruct (find_block _ _ _ _ _); [|done].
  apply keeps_bind; [apply keeps_for; intros; apply pres_insert_ip|intros; apply keeps_ret|done].
Qed.

Lemma pres_release p :
  preserves (se_modify (set_ip_allocations (delete_where p))).
Proof.
  intros db H. simpl. rebuild. destruct db_ips0 as [Hi Ho]. split; [by apply NoDup_delete_where|].
  intros r [Hr _]%elem_of_delete_where. by apply Ho.
Qed.
Lemma pres_release_vm_ips vm : preserves (release_vm_ips vm).
Proof. apply pres_release. Qed.
Lemma pres_release_cluster_ips cl : preserves (release_cluster_ips cl).
Proof. apply pres_release. Qed.
#[export] Hint Resolve pres_allocate_pool_vip pres_allocate_cluster_vm_ip pres_reserve_specific_ip
  pres_allocate_service_block pres_release_vm_ips pres_release_cluster_ips : basis.

(** ** Clusters *)

Lemma pres_insert_cluster `{Sqlite} c : preserves (insert_cluster c).
Proof.
  intros db Hw. destruct (insert_cluster c db) as [db' [[]|e]] eqn:E.
  - simpl. unfold insert_cluster in E. destruct (cluster_violations _ _) eqn:Ev;
      [|by destruct (_ || _)]. pose proof E as [= <-].
    assert (insert_cluster c db = (set_clusters (λ t, t ++ [c]) db, Ok tt)) as [_ Hf]%insert_cluster_ok.
    { unfold insert_cluster. by rewrite Ev. }
    rebuild; [|by apply sub_map_app..]. destruct db_clusters0 as [H1 H2 H3].
    split; apply NoDup_map_app; try done; intros r Hr; by apply Hf.
  - unfold insert_cluster in E. destruct (cluster_violations _ _); [done|].
    destruct (_ || _); by simplify_eq/=.
Qed.

Lemma pres_update_cluster_trust_domain id td : preserves (update_cluster_trust_domain id td).
Proof.
  intros db H. simpl. rebuild; rewrite ?map_update_where by done; try done.
  destruct db_clusters0. split; by rewrite map_update_where.
Qed.

Lemma pres_delete_cluster_row id : preserves (delete_cluster_row id).
Proof.
  intros db H. unfold delete_cluster_row. destruct (_ && _) eqn:E; [done|].
  assert (forall k, k ∈ map hc_cluster_id (host_clusters db) \/ k ∈ map vm_cluster_id (vms db) ->
            k ∈ map c_id (clusters db) -> k ∈ map c_id (delete_where (fun c => c_id c =$ id) (clusters db)))
    as Hkeep.
  { intros k Hk Hc. apply elem_of_map in Hc as (c & Hc & <-). apply elem_of_map. exists c.
    split; [|done]. apply elem_of_delete_where. split; [done|].
    destruct (c_id c =$ id) eqn:Ec; [|done]. exfalso. apply String.eqb_eq in Ec.
    apply andb_false_iff in E as [E|E].
    - apply (proj1 (existsb_false _ _) E), String.eqb_neq in Hc. done.
    - unfold cluster_referenced in E. apply orb_false_iff in E as [E1 E2]. rewrite Ec in Hk.
      destruct Hk as [Hk|Hk]; apply existsb_key in Hk; congruence. }
  rebuild.
  - destruct db_clusters0. split; by apply NoDup_delete_where.
  - by apply NoDup_delete_where.
  - intros k Hk. apply Hkeep; [by left|by apply fk_member_cluster0].
  - intros k Hk. apply Hkeep; [by right|by apply fk_vm_cluster0].
  - intros k (r & Hr & <-)%elem_of_map. apply elem_of_delete_where in Hr as [Hr Hn].
    assert (lvo_cluster_id r ∈ map c_id cs) as (c & Hc & Ec)%elem_of_map.
    { apply fk_owner_cluster0, elem_of_map. by exists r. }
    apply elem_of_map. exists c. split; [|done]. apply elem_of_delete_where. by rewrite Ec.
Qed.
Lemma pres_delete_cluster id : preserves (delete_cluster id).
Proof. apply pres_delete_cluster_row. Qed.
#[export] Hint Resolve pres_insert_cluster pres_update_cluster_trust_domain pres_delete_cluster_row
  pres_delete_cluster : basis.

(** ** Memberships and LAN owners *)

Lemma pres_hc_state p s db :
  db_wf db -> db_wf (set_host_clusters (update_where p (with_hc_state s)) db).
Proof.
  intros H. rebuild; rewrite ?map_update_where by done; try done. by apply members_update.
Qed.

Lemma pres_ensure_host_cluster_active c h : preserves (ensure_host_cluster_active c h).
Proof.
  unfold ensure_host_cluster_active. apply keeps_bind; [apply keeps_of|]. intros range.
  apply keeps_tx. intros db H. destruct (select1 _ _) as [r|] eqn:Es; [by apply pres_hc_state|].
  destruct (find_cte _ _ _) as [n|] eqn:Ef; [|done].
  destruct (pair_references_ok _ _ _) eqn:Ep; [|done].
  apply andb_true_iff in Ep as [E1 E2]. apply existsb_key in E1, E2.
  assert (sql_printf_ip n ∉ bridge_ips db (c_id c)) as Hf.
  { apply find_upto_Some in Ef as (_ & Ef & _). by apply existsb_string_not_In, negb_true_iff. }
  rewrite elem_of_bridge_ips in Hf. pose proof (proj1 (select1_None _ _) Es) as Hn.
  clear Ef Es. generalize dependent (sql_printf_ip n). intros ip Hf.
  rebuild; [|by apply map_sub_app..]. apply members_app; simpl; [done|done|].
  intros r Hr E3 E4. apply Hf. by exists r.
Qed.

Lemma pres_mark_host_cluster_pending_teardown c h : preserves (mark_host_cluster_pending_teardown c h).
Proof. intros db H. by apply pres_hc_state. Qed.
Lemma pres_mark_cluster_pending_teardown_all_hosts c :
  preserves (mark_cluster_pending_teardown_all_hosts c).
Proof. intros db H. by apply pres_hc_state. Qed.

Lemma pres_replace_lan_vip_owner c h : preserves (replace_lan_vip_owner c h).
Proof.
  intros db H. unfold replace_lan_vip_owner. destruct (existsb _ _) eqn:E; [|done].
  apply existsb_key in E. rebuild.
  - apply NoDup_map_app; [by apply NoDup_delete_where|].
    intros r [_ Hr]%elem_of_delete_where. by apply String.eqb_neq in Hr.
  - apply map_sub_app; [|done]. etrans; [apply map_sub_delete|done].
Qed.

Lemma pres_elect_lan_vip_owner c carriers : preserves (elect_lan_vip_owner c carriers).
Proof.
  intros db H. unfold elect_lan_vip_owner.
  assert (forall h, db_wf (fst ((run! replace_lan_vip_owner c h ; se_ret h) db))) as Hr.
  { intros h. apply keeps_bind; [apply pres_replace_lan_vip_owner|intros; apply keeps_ret|done]. }
  destruct (lvo_host_id <$> _); [destruct (existsb _ _); [done|]|]; destruct carriers; done.
Qed.
#[export] Hint Resolve pres_ensure_host_cluster_active pres_mark_host_cluster_pending_teardown
  pres_mark_cluster_pending_teardown_all_hosts pres_elect_lan_vip_owner : basis.

(** ** Hosts *)

Lemma NoDup_replace {A} (i k : A -> string) x (t : list A) :
  NoDup (map i t) -> NoDup (map k t) ->
  (forall r, r ∈ t -> i r <> i x -> k r <> k x) ->
  NoDup (map k (update_where (fun r => i r =$ i x) (fun _ => x) t)).
Proof.
  induction t as [|r t IH]; simpl; [done|]. intros [Hi1 Hi]%NoDup_cons [Hk1 Hk]%NoDup_cons Hf.
  assert (forall r', r' ∈ update_where (fun r => i r =$ i x) (fun _ => x) t ->
            r' ∈ t \/ (r' = x /\ i x ∈ map i t)) as Hup.
  { intros r' (r0 & Hr0 & ->)%elem_of_update_where. destruct (i r0 =$ i x) eqn:E; [|by left].
    right. split; [done|]. apply String.eqb_eq in E. rewrite <- E. apply elem_of_map. by exists r0. }
  apply NoDup_cons. split; [|apply IH; [done|done|set_solver]].
  intros (r' & Hr' & E')%elem_of_map. apply Hup in Hr' as [Hr'|[-> Hx]].
  - destruct (i r =$ i x) eqn:E.
    + apply String.eqb_eq in E. apply (Hf r'); [set_solver| |done]. intros E2.
      apply Hi1. rewrite E, <- E2. apply elem_of_map. by exists r'.
    + apply Hk1. rewrite <- E'. apply elem_of_map. by exists r'.
  - destruct (i r =$ i x) eqn:E.
    + apply String.eqb_eq in E. by rewrite <- E in Hx.
    + apply String.eqb_neq in E. apply (Hf r); [set_solver|done|done].
Qed.

Lemma pres_upsert_host host : preserves (upsert_host host).
Proof.
  intros db H. unfold upsert_host. destruct (existsb _ (hosts db)) eqn:E1; [done|].
  pose proof (proj1 (existsb_false _ _) E1) as Hf.
  assert (map h_id (update_where (fun h => h_id h =$ h_id host) (fun _ => host) (hosts db))
            = map h_id (hosts db)) as Hm.
  { apply map_update_where_p. intros r _ E. by apply String.eqb_eq in E. }
  destruct (existsb (fun h => h_id h =$ h_id host) (hosts db)) eqn:E2.
  - rebuild; rewrite ?Hm; try done. destruct db_hosts0 as [H1 H2]. split; [by rewrite Hm|].
    apply NoDup_replace; [done|done|]. intros r Hr Hne E.
    apply Hf in Hr. by rewrite E, String.eqb_refl, (proj2 (String.eqb_neq _ _) Hne) in Hr.
  - rebuild; [|by apply sub_map_app..]. destruct db_hosts0 as [H1 H2].
    split; apply NoDup_map_app; try done; intros r Hr E.
    + apply (proj1 (existsb_false _ _) E2), String.eqb_neq in Hr. done.
    + pose proof (proj1 (existsb_false _ _) E2 _ Hr) as Hne. apply Hf in Hr.
      by rewrite E, String.eqb_refl, Hne in Hr.
Qed.

Lemma pres_host_update p f db :
  (forall h, h_id (f h) = h_id h) -> (forall h, h_hostname (f h) = h_hostname h) ->
  db_wf db -> db_wf (set_hosts (update_where p f) db).
Proof.
  intros Hi Hn H. rebuild; rewrite ?map_update_where by done; try done.
  destruct db_hosts0. split; by rewrite map_update_where.
Qed.

Lemma pres_mark_host_unhealthy h : preserves (mark_host_unhealthy h).
Proof. intros db H. by apply pres_host_update. Qed.
Lemma pres_mark_stale_hosts_unhealthy cutoff : preserves (mark_stale_hosts_unhealthy cutoff).
Proof.
  intros db H. unfold mark_stale_hosts_unhealthy. destruct (map _ _); [done|].
  by apply pres_host_update.
Qed.

Lemma pres_insert_host_pool `{DbJson} host p :
  forall db, db_wf db -> host ∈ map h_id (hosts db) -> db_wf (fst (insert_host_pool host p db)).
Proof.
  intros db Hw Hh. unfold insert_host_pool. destruct (existsb _ _) eqn:E; [done|].
  rebuild; [|by apply map_sub_app|by apply sub_map_app].
  apply NoDup_map_app; [done|]. intros r Hr [= E1 E2].
  apply (proj1 (existsb_false _ _) E) in Hr. by rewrite E1, E2, !String.eqb_refl in Hr.
Qed.

Lemma pres_insert_pool_device host pool d :
  forall db, db_wf db -> (host, pool) ∈ map pool_key (host_pools db) ->
  db_wf (fst (insert_pool_device host pool d db)).
Proof.
  intros db Hw Hh. unfold insert_pool_device. destruct (existsb _ _) eqn:E; [done|].
  rebuild; [|by apply map_sub_app].
  apply NoDup_map_app; [done|]. intros r Hr [= E1 E2 E3].
  apply (proj1 (existsb_false _ _) E) in Hr. by rewrite E1, E2, E3, !String.eqb_refl in Hr.
Qed.

Lemma pres_report_pool `{DbJson} host p db :
  db_wf db /\ host ∈ map h_id (hosts db) ->
  let db' := fst (report_pool host p db) in db_wf db' /\ host ∈ map h_id (hosts db').
Proof.
  intros [Hw Hh]. unfold report_pool, se_bind. pose proof (pres_insert_host_pool host p db Hw Hh) as H1.
  destruct (insert_host_pool host p db) as [db1 [[]|e]] eqn:E.
  2:{ unfold insert_host_pool in E. destruct (existsb _ _); by simplify_eq/=. }
  assert (hosts db1 = hosts db /\ (host, pcap_pool p) ∈ map pool_key (host_pools db1)) as [E1 E2].
  { unfold insert_host_pool in E. destruct (existsb _ _); [done|]. injection E as <-.
    destruct db; simpl. split; [done|]. rewrite List.map_app. set_solver. }
  destruct (se_for_inv (fun d => db_wf d /\ host ∈ map h_id (hosts d) /\
    (host, pcap_pool p) ∈ map pool_key (host_pools d)) (insert_pool_device host (pcap_pool p))
    (pcap_devices p) db1) as (? & ? & ?); [|by rewrite E1|done].
  intros d db2 _ (Hw2 & Hh2 & Hp2). pose proof (pres_insert_pool_device host _ d _ Hw2 Hp2).
  split; [done|]. unfold insert_pool_device. destruct (existsb _ _); [done|]. by destruct db2.
Qed.

Lemma pres_record_heartbeat `{DbJson} host now cap reported :
  preserves (record_heartbeat host now cap reported).
Proof.
  apply keeps_tx. intros db Hw. destruct (existsb _ _) eqn:Eh; [|done]. apply existsb_key in Eh. simpl.
  fold (report_pool host).
  apply (se_for_inv (fun d => db_wf d /\ host ∈ map h_id (hosts d)) (report_pool host)).
  { intros p d _. apply pres_report_pool. }
  assert (db_wf (set_hosts (update_where (fun h => h_id h =$ host) (heartbeat_row now cap)) db)) as Hw1
    by (by apply pres_host_update).
  assert (host ∈ map h_id (hosts (set_hosts (update_where (fun h => h_id h =$ host)
            (heartbeat_row now cap)) db))) as Hh1.
  { destruct db; simpl in *. by rewrite map_update_where. }
  revert Hw1 Hh1. generalize (set_hosts (update_where (fun h => h_id h =$ host)
    (heartbeat_row now cap)) db). clear. intros db Hw Hh.
  split; [|by destruct db]. rebuild; [by apply NoDup_delete_where|by apply NoDup_delete_where| |].
  - etrans; [apply map_sub_delete|done].
  - intros k (d & Hd & <-)%elem_of_map. apply elem_of_delete_where in Hd as [Hd Hn].
    assert (device_pool_key d ∈ map pool_key hps) as (p & Hp & Ep)%elem_of_map.
    { apply fk_device_pool0, elem_of_map. by exists d. }
    apply elem_of_map. exists p. split; [|done]. apply elem_of_delete_where. split; [done|].
    injection Ep as E1 _. by rewrite E1.
Qed.

Lemma pres_set_device_scheduling_state host pool dev st reason :
  preserves (set_device_scheduling_state host pool dev st reason).
Proof.
  intros db H. unfold set_device_scheduling_state. destruct (st =$ "enabled").
  { simpl. rebuild. by apply NoDup_delete_where. }
  destruct (st =$ "disabled"); [|done]. simpl. rebuild. destruct (existsb _ _) eqn:E.
  - rewrite map_update_where_p; [done|]. intros r _ Hr. unfold at_device in Hr.
    apply andb_true_iff in Hr as [Hr E3%String.eqb_eq].
    apply andb_true_iff in Hr as [E1%String.eqb_eq E2%String.eqb_eq]. subst. done.
  - apply NoDup_map_app; [done|]. intros r Hr [= E1 E2 E3].
    apply (proj1 (existsb_false _ _) E) in Hr. unfold at_device in Hr.
    by rewrite E1, E2, E3, !String.eqb_refl in Hr.
Qed.
#[export] Hint Resolve pres_upsert_host pres_mark_host_unhealthy pres_mark_stale_hosts_unhealthy
  pres_record_heartbeat pres_set_device_scheduling_state : basis.

(** ** VMs *)

Section vm_steps.
Context `{J : DbJson}.

Lemma pres_insert_vm_row ratio vm : preserves (insert_vm_row ratio vm).
Proof.
  intros db H. destruct (insert_vm_row ratio vm db) as [db' [[]|e]] eqn:E.
  - apply insert_vm_row_ok in E as (-> & (gib & h & _ & Hh & Eh & _) & Hf & (c & Hc & Ec)).
    simpl. rebuild; [| | |].
    + destruct db_vms0. split; apply NoDup_map_app; try done; intros v Hv; by apply Hf.
    + apply map_sub_app; [done|]. apply elem_of_map. by exists c.
    + apply map_sub_app; [done|]. apply elem_of_map. by exists h.
    + by apply sub_map_app.
  - unfold insert_vm_row in E. dmatch E; done.
Qed.

Lemma pres_insert_gpu host g : preserves (insert_gpu host g).
Proof.
  intros db H. destruct (insert_gpu host g db) as [db' [[]|e]] eqn:E.
  - apply insert_gpu_ok in E as (-> & (v & Hv & Ev) & Hk). simpl. rebuild; [by apply Hk|].
    apply map_sub_app; [done|]. apply elem_of_map. by exists v.
  - unfold insert_gpu in E. dmatch E; done.
Qed.

Lemma pres_insert_disk vm d : preserves (insert_disk vm d).
Proof.
  intros db H. destruct (insert_disk vm d db) as [db' [[]|e]] eqn:E.
  - assert (se_for [d] (insert_disk vm) db = (db', Ok tt)) as [-> Hk]%insert_disks_ok.
    { simpl. unfold se_bind. by rewrite E. }
    simpl. rebuild. by apply Hk.
  - unfold insert_disk in E. dmatch E; done.
Qed.

Lemma pres_insert_vm ratio vm gpus disks : preserves (insert_vm ratio vm gpus disks).
Proof.
  apply keeps_tx, keeps_bind; [apply pres_insert_vm_row|intros _].
  apply keeps_bind; [apply keeps_for, pres_insert_gpu|intros _]. apply keeps_for, pres_insert_disk.
Qed.

Lemma pres_vm_update p f db :
  (forall v, vm_id (f v) = vm_id v /\ vm_name (f v) = vm_name v /\
             vm_cluster_id (f v) = vm_cluster_id v /\ vm_host_id (f v) = vm_host_id v) ->
  db_wf db -> db_wf (set_vms (update_where p f) db).
Proof.
  intros Hf H. rebuild; rewrite ?map_update_where by (intros v; destruct (Hf v) as (? & ? & ? & ?); congruence);
    try done. destruct db_vms0.
  split; rewrite map_update_where by (intros v; destruct (Hf v) as (? & ? & ? & ?); congruence); done.
Qed.
End vm_steps.

Lemma pres_update_vm_state vm s err now : preserves (update_vm_state vm s err now).
Proof.
  intros db H. unfold update_vm_state. destruct (existsb _ _); [|done]. by apply pres_vm_update.
Qed.
Lemma pres_mark_vm_pending_teardown vm now : preserves (mark_vm_pending_teardown vm now).
Proof.
  intros db H. unfold mark_vm_pending_teardown. destruct (existsb _ _); [|done].
  by apply pres_vm_update.
Qed.
Lemma pres_mark_vms_failed_on_host host reason now : preserves (mark_vms_failed_on_host host reason now).
Proof. intros db H. by apply pres_vm_update. Qed.

(** Deleting VMs with the cascade to their GPUs. *)
Lemma pres_delete_vms p db : db_wf db -> db_wf (delete_vms p db).
Proof.
  intros H. unfold delete_vms. rebuild.
  - destruct db_vms0. split; by apply NoDup_delete_where.
  - destruct db_gpus0. split; by apply NoDup_delete_where.
  - etrans; [apply map_sub_delete|done].
  - etrans; [apply map_sub_delete|done].
  - intros k (g & Hg & <-)%elem_of_map. apply elem_of_delete_where in Hg as [Hg Hn].
    assert (ga_vm_id g ∈ map vm_id vs) as (v & Hv & Ev)%elem_of_map.
    { apply fk_gpu_vm0, elem_of_map. by exists g. }
    apply elem_of_map. exists v. split; [|done]. apply elem_of_delete_where. split; [done|].
    apply (proj1 (existsb_false _ _) Hn) in Hv. apply andb_false_iff in Hv as [Hv|Hv]; [done|].
    by apply String.eqb_neq in Hv.
Qed.

Lemma pres_ack_vm host vm : preserves (ack_vm host vm).
Proof.
  apply keeps_bind; [apply pres_release_vm_ips|]. intros _ db H. by apply pres_delete_vms.
Qed.

Lemma pres_drop_members host c db : db_wf db -> db_wf (drop_members host c db).
Proof.
  intros H. unfold drop_members. rebuild.
  - destruct db_members0. split; by apply NoDup_delete_where.
  - etrans; [apply map_sub_delete|done].
  - etrans; [apply map_sub_delete|done].
Qed.

Lemma pres_ack_cluster host vni : preserves (ack_cluster host vni).
Proof.
  intros db H. unfold ack_cluster. destruct (select1 _ _) as [c|]; [|done]. cbv zeta.
  pose proof (pres_drop_members host (c_id c) db H) as H1. unfold drop_members, acked_member in H1.
  destruct (remaining _ _ =? 0); [|done].
  apply keeps_bind; [apply pres_release_cluster_ips|intros _; apply pres_delete_cluster_row|done].
Qed.

Lemma pres_ack_tombstones host vnis ids : preserves (ack_tombstones host vnis ids).
Proof.
  unfold ack_tombstones. destruct (_ && _); [apply keeps_ret|].
  apply keeps_tx, keeps_bind; [apply keeps_for, pres_ack_vm|intros _; apply keeps_for, pres_ack_cluster].
Qed.

Lemma pres_commit_disk_assignment `{J : DbJson} host a : preserves (commit_disk_assignment host a).
Proof.
  intros db H. cbn [commit_disk_assignment se_modify fst]. apply pres_vm_update; [done|].
  rebuild. destruct db_assignments0. split; by rewrite map_update_where.
Qed.

Lemma pres_enqueue_pending_command host vm payload : preserves (enqueue_pending_command host vm payload).
Proof.
  intros db H. simpl. rebuild. destruct db_outbox0 as [Hn Hs]. split.
  - apply NoDup_map_app; [done|]. intros r Hr. simpl. specialize (Hs r Hr). lia.
  - intros r [Hr| -> %list_elem_of_singleton]%elem_of_app; simpl; [specialize (Hs r Hr)|]; lia.
Qed.

Lemma pres_mark_command_sent id : preserves (mark_command_sent id).
Proof.
  intros db H. simpl. rebuild. destruct db_outbox0 as [Hn Hs]. split; [by rewrite map_update_where|].
  intros r (r0 & Hr & ->)%elem_of_update_where. destruct (pc_id r0 =? id); exact (Hs r0 Hr).
Qed.

Lemma pres_ack_pending_commands_for_vm vm : preserves (ack_pending_commands_for_vm vm).
Proof.
  intros db H. simpl. rebuild. destruct db_outbox0 as [Hn Hs]. split; [by apply NoDup_delete_where|].
  intros r [Hr _]%elem_of_delete_where. by apply Hs.
Qed.

#[export] Hint Resolve pres_insert_vm pres_update_vm_state pres_mark_vm_pending_teardown
  pres_mark_vms_failed_on_host pres_ack_tombstones pres_commit_disk_assignment
  pres_enqueue_pending_command pres_mark_command_sent pres_ack_pending_commands_for_vm : basis.

Lemma empty_wf : db_wf db_empty.
Proof. split; simpl; try done; try (split; simpl; try done; try constructor; set_solver); constructor. Qed.
