(* ===== verification/Scheduler.v ===== *)
(** * The scheduler (crates/basis-controller/src/scheduler.rs)

    A pure function from a snapshot of the fleet to a decision: hosts are
    filtered by health, labels and capacity, GPUs and disks are picked on each
    surviving host, and the best score wins. Theorems: what is decided is
    feasible, the best of the feasible choices, and failure is reported only
    when there is none. *)

From S2P Require Import Prelude Ipv4 Ipnet CidrNet Proto Config Overcommit DbTypes JsonText Ipam Clusters Hosts Vms.

(** The order in which a [HashMap] with [u32] keys is iterated is arbitrary. *)
Class HashOrder := { hash_order : list Z -> list Z }.
Class HashOrderLaws `(H : HashOrder) := { hash_order_perm l : hash_order l ≡ₚ l }.

(** ** Placement constraints *)

Record PlacementRequirement := { req_key : string; req_values : list string }.
Record PlacementPreference := { pref_key : string; pref_value : string; pref_weight : Z }.

Record Placement := {
  requires : list PlacementRequirement;
  prefers : list PlacementPreference;
}.

(** The wire form; [Placement::from] copies it field by field. *)
Record LabelSelector := {
  ls_requires : list PlacementRequirement;
  ls_prefers : list PlacementPreference;
}.

Definition placement_from (spec : LabelSelector) : Placement := {|
  requires := map (fun r => {| req_key := req_key r; req_values := req_values r |}) (ls_requires spec);
  prefers := map (fun p => {| pref_key := pref_key p; pref_value := pref_value p;
                              pref_weight := pref_weight p |}) (ls_prefers spec) |}.

Definition placement_default : Placement := {| requires := []; prefers := [] |}.

(** [Placement::satisfies]. *)
Definition satisfies (p : Placement) (labels : gmap string string) : bool :=
  forallb (fun req => match labels !! req_key req with
                      | Some v => existsb (fun allowed => allowed =$ v) (req_values req)
                      | None => false
                      end) (requires p).

(** [Placement::score]: a [u32] sum. *)
Definition score (p : Placement) (labels : gmap string string) : Z :=
  as_u32 (sum_of pref_weight
    (select (fun x => match labels !! pref_key x with
                      | Some v => v =$ pref_value x
                      | None => false
                      end) (prefers p))).

(** ** Requests *)

Record StorageDisk := {
  disk_min_size_gib : Z;
  disk_selector : option LabelSelector;
  disk_purpose : Z;
}.

Record CreateMachineRequest := {
  cm_cluster_id : string;
  cm_name : string;
  cm_cpu : Z;
  cm_memory_mib : Z;
  cm_disk_gib : Z;
  cm_image : string;
  cm_bootstrap_data : list Byte.byte;
  cm_gpus : Z;
  (** [gpu_constraints.min_group_size] *)
  cm_gpu_constraints : option Z;
  cm_storage_disks : list StorageDisk;
  cm_placement : option LabelSelector;
}.

Record ScheduleRequest := {
  sr_cluster_id : string;
  sr_cpu : Z;
  sr_memory_mib : Z;
  sr_rootfs_gib : Z;
  sr_data_gib : Z;
  sr_gpus : Z;
  sr_min_group_size : Z;
  sr_placement : Placement;
  sr_storage_disks : list StorageDisk;
}.

(** [ScheduleRequest::from]: sizes are cut to [u32] and summed in [u32]. *)
Definition schedule_request_from (req : CreateMachineRequest) : ScheduleRequest := {|
  sr_cluster_id := cm_cluster_id req;
  sr_cpu := cm_cpu req;
  sr_memory_mib := cm_memory_mib req;
  sr_rootfs_gib := cm_disk_gib req;
  sr_data_gib := as_u32 (sum_of (fun d => as_u32 (disk_min_size_gib d)) (cm_storage_disks req));
  sr_gpus := cm_gpus req;
  sr_min_group_size := unwrap_or 0 (cm_gpu_constraints req);
  sr_placement := from_option placement_from placement_default (cm_placement req);
  sr_storage_disks := cm_storage_disks req;
|}.

(** ** The storage of a host *)

Record DeviceView := {
  dv_device_id : string;
  dv_total_bytes : Z;
  dv_free_bytes : Z;
  dv_schedulable : bool;
  dv_replicated_clusters : gset string;
}.

Record PoolView := {
  pv_name : string;
  pv_backend : string;
  pv_labels : gmap string string;
  pv_schedulable_total_bytes : Z;
  pv_schedulable_free_bytes : Z;
  pv_devices : list DeviceView;
}.

Record HostStorageView := { hsv_pools : list PoolView }.

Definition view_default : HostStorageView := {| hsv_pools := [] |}.

(** [HostStorageView::from_rows]. *)
Definition from_rows `{DbJson} (pools : list HostPoolRow)
    (devices_by_pool : gmap string (list HostPoolDeviceRow))
    (drained_devices : gset (string * string))
    (replicated : gmap (string * string) (gset string)) : HostStorageView := {|
  hsv_pools := map (fun p => {|
    pv_name := hp_pool p;
    pv_backend := hp_backend p;
    pv_labels := unwrap_or ∅ (labels_of_json (hp_labels p));
    pv_schedulable_total_bytes := hp_schedulable_total_bytes p;
    pv_schedulable_free_bytes := hp_schedulable_free_bytes p;
    pv_devices := map (fun d => {|
      dv_device_id := hpd_device_id d;
      dv_total_bytes := hpd_total_bytes d;
      dv_free_bytes := hpd_free_bytes d;
      dv_schedulable := is_ready d && negb (bool_decide ((hp_pool p, hpd_device_id d) ∈ drained_devices));
      dv_replicated_clusters := unwrap_or ∅ (replicated !! (hp_pool p, hpd_device_id d));
    |}) (unwrap_or [] (devices_by_pool !! hp_pool p));
  |}) pools |}.

(** ** Disks *)

Record DiskScore := {
  pool_prefers_score : Z;
  negative_same_cluster_on_device : Z;
  negative_same_vm_penalty : Z;
  tie_breaker : Z;
}.

(** The derived [Ord] of a struct: lexicographic in the order of the fields. *)
Fixpoint lex_ltb (a b : list Z) : bool :=
  match a, b with
  | x :: a', y :: b' => (x <? y) || ((x =? y) && lex_ltb a' b')
  | [], _ :: _ => true
  | _, [] => false
  end.

Definition disk_score_fields (s : DiskScore) : list Z :=
  [pool_prefers_score s; negative_same_cluster_on_device s; negative_same_vm_penalty s; tie_breaker s].
Definition disk_score_ltb (a b : DiskScore) : bool :=
  lex_ltb (disk_score_fields a) (disk_score_fields b).

Record DiskCandidate := { cand_pool : string; cand_device : string; cand_score : DiskScore }.

(** [backend_tie_breaker]. *)
Definition backend_tie_breaker (backend : string) (free_bytes need_bytes : Z) : Z :=
  if backend =$ "lvm-linear" then as_i64 (- as_i64 (free_bytes - need_bytes)) else 0.

(** The initial [device_free]. *)
Definition initial_free (view : HostStorageView) : gmap (string * string) Z :=
  foldl (fun m pool =>
    foldl (fun m d => <[(pv_name pool, dv_device_id d) := dv_free_bytes d]> m) m (pv_devices pool))
    ∅ (hsv_pools view).

Definition need_bytes (disk : StorageDisk) : Z := sat_i64 (as_i64 (disk_min_size_gib disk) * GIB).
Definition selector_of (disk : StorageDisk) : Placement :=
  from_option placement_from placement_default (disk_selector disk).

(** One device of one pool as a candidate: the [continue]s of the loops. *)
Definition disk_candidate (cluster_id : string) (used : gset (string * string))
    (free : gmap (string * string) Z) (disk : StorageDisk) (pool : PoolView) (dev : DeviceView)
    : option DiskCandidate :=
  let key := (pv_name pool, dv_device_id dev) in
  if satisfies (selector_of disk) (pv_labels pool) && dv_schedulable dev &&
     negb (unwrap_or 0 (free !! key) <? need_bytes disk)
  then Some {|
    cand_pool := pv_name pool; cand_device := dv_device_id dev;
    cand_score := {|
      pool_prefers_score := score (selector_of disk) (pv_labels pool);
      negative_same_cluster_on_device :=
        - (if cluster_id =$ "" then 0
           else if bool_decide (cluster_id ∈ dv_replicated_clusters dev) then 1 else 0);
      negative_same_vm_penalty := - (if bool_decide (key ∈ used) then 1 else 0);
      tie_breaker := backend_tie_breaker (pv_backend pool) (dv_free_bytes dev) (need_bytes disk) |} |}
  else None.

(** Keep the first best: a later candidate replaces it only when it scores
    strictly higher. *)
Definition better (best : option DiskCandidate) (cand : DiskCandidate) : option DiskCandidate :=
  match best with
  | Some b => if disk_score_ltb (cand_score b) (cand_score cand) then Some cand else best
  | None => Some cand
  end.

Definition disk_candidates (cluster_id : string) (used : gset (string * string))
    (free : gmap (string * string) Z) (disk : StorageDisk) (view : HostStorageView)
    : list DiskCandidate :=
  pool ← hsv_pools view; omap (disk_candidate cluster_id used free disk pool) (pv_devices pool).

Definition best_disk cluster_id used free disk view : option DiskCandidate :=
  foldl better None (disk_candidates cluster_id used free disk view).

(** The body of the loop over the disks, from index [idx] on. *)
Fixpoint place_disks (cluster_id : string) (view : HostStorageView) (idx : Z)
    (used : gset (string * string)) (free : gmap (string * string) Z) (disks : list StorageDisk)
    : option (list DiskPlacement) :=
  match disks with
  | [] => Some []
  | disk :: disks' =>
      purpose ← disk_purpose_try_from (disk_purpose disk);
      pick ← best_disk cluster_id used free disk view;
      let key := (cand_pool pick, cand_device pick) in
      rest ← place_disks cluster_id view (idx + 1) ({[key]} ∪ used)
               (alter (fun b => sat_i64 (b - need_bytes disk)) key free) disks';
      Some ({| dp_disk_index := as_u32 idx; dp_pool := cand_pool pick;
               dp_device_id := cand_device pick; dp_min_size_gib := disk_min_size_gib disk;
               dp_purpose := purpose |} :: rest)
  end.

(** [pick_disk_placements]. *)
Definition pick_disk_placements (cluster_id : string) (view : HostStorageView)
    (disks : list StorageDisk) : option (list DiskPlacement) :=
  place_disks cluster_id view 0 ∅ (initial_free view) disks.

(** ** Hosts *)

Record Available := {
  avail_cpu : Z;
  avail_memory_mib : Z;
  avail_rootfs_gib : Z;
  avail_data_gib : Z;
}.

(** [x.saturating_sub(y).max(0) as u32]. *)
Definition room (total used : Z) : Z := as_u32 (Z.max 0 (sat_i64 (total - used))).

(** [Available::from]. *)
Definition available_from (host : HostRow) (usage : HostUsage) (ratio : f64) : Available := {|
  avail_cpu := room (effective_cpu ratio (h_total_cpu host)) (used_cpu usage);
  avail_memory_mib := room (h_total_memory_mib host) (used_memory_mib usage);
  avail_rootfs_gib := room (Z.quot (h_rootfs_total_bytes host) GIB) (used_rootfs_gib usage);
  avail_data_gib := room (Z.quot (h_data_total_bytes host) GIB) (used_data_gib usage);
|}.

(** [Available::fits] and [Available::remaining_after]. *)
Definition fits (a : Available) (req : ScheduleRequest) : bool :=
  (sr_cpu req <=? avail_cpu a) && (sr_memory_mib req <=? avail_memory_mib a) &&
  (sr_rootfs_gib req <=? avail_rootfs_gib a) && (sr_data_gib req <=? avail_data_gib a).
Definition remaining_after (a : Available) (req : ScheduleRequest) : Z :=
  sat_u32 (avail_cpu a - sr_cpu req) + sat_u32 (avail_memory_mib a - sr_memory_mib req).

(** ** GPUs *)

(** The bucket of one NVLink domain, and the domains present. *)
Definition nvlink_bucket (available : list GpuInfo) (g : Z) : list GpuInfo :=
  select (fun x => nvlink_group x =? g) available.
Definition nvlink_domains (available : list GpuInfo) : list Z :=
  remove_dups (map nvlink_group available).

(** [gpu_topology_score]. *)
Definition gpu_topology_score `{HashOrder} (available : list GpuInfo) (count min_group_size : Z)
    : Z * list GpuInfo :=
  let n := Z.to_nat count in
  let len g := length (nvlink_bucket available g) in
  let domains := hash_order (nvlink_domains available) in
  if 0 <? min_group_size then
    match List.find (fun g => negb (g =? 0) && (n <=? len g)%nat &&
                              (Z.to_nat min_group_size <=? len g)%nat) domains with
    | Some g => (3, take n (nvlink_bucket available g))
    | None => (0, [])
    end
  else
    match List.find (fun g => negb (g =? 0) && (n <=? len g)%nat) domains with
    | Some g => (3, take n (nvlink_bucket available g))
    | None => if (n <=? length available)%nat then (1, take n available) else (0, [])
    end.

(** ** The decision *)

Record CandidateScore := {
  negative_cluster_replicated_mates : Z;
  gpu_score : Z;
  prefers_score : Z;
  negative_cluster_mates : Z;
  negative_rank : Z;
  negative_remaining_after : Z;
}.

Definition candidate_score_fields (s : CandidateScore) : list Z :=
  [negative_cluster_replicated_mates s; gpu_score s; prefers_score s; negative_cluster_mates s;
   negative_rank s; negative_remaining_after s].
Definition candidate_score_ltb (a b : CandidateScore) : bool :=
  lex_ltb (candidate_score_fields a) (candidate_score_fields b).

Record Candidate := {
  cand_host : HostRow;
  cand_host_score : CandidateScore;
  cand_gpus : list GpuInfo;
  cand_disks : list DiskPlacement;
}.

Record ScheduleDecision := {
  sd_host_id : string;
  sd_gpus : list GpuInfo;
  sd_disks : list DiskPlacement;
}.

(** The messages are not modelled beyond the values they are made of. *)
Inductive SchedulerError :=
  | NoCapacity
  | UnsatisfiedRequirements (unmet : list PlacementRequirement).

Section schedule.
Context `{HashOrder}.
Variables (usage_by_host : gmap string HostUsage) (storage_by_host : gmap string HostStorageView)
  (replicated_count_by_host : gmap string Z) (req : ScheduleRequest) (ratio : f64).

Definition free_gpus (host : HostRow) (usage : HostUsage) : list GpuInfo :=
  select (fun g => negb (bool_decide (pci_address g ∈ assigned_pci usage))) (h_gpu_inventory host).

(** The GPUs of a candidate; [None] is the [continue]. *)
Definition pick_gpus (host : HostRow) (usage : HostUsage) : option (Z * list GpuInfo) :=
  if 0 <? sr_gpus req then
    let '(s, selected) := gpu_topology_score (free_gpus host usage) (sr_gpus req) (sr_min_group_size req) in
    match selected with [] => None | _ => Some (s, selected) end
  else Some (0, []).

Definition pick_disks (host : HostRow) : option (list DiskPlacement) :=
  match sr_storage_disks req with
  | [] => Some []
  | disks => pick_disk_placements (sr_cluster_id req)
               (unwrap_or view_default (storage_by_host !! h_id host)) disks
  end.

(** One healthy host that satisfies [requires], through the rest of the loop
    body. *)
Definition host_candidate (host : HostRow) : option Candidate :=
  let usage := unwrap_or usage_default (usage_by_host !! h_id host) in
  let avail := available_from host usage ratio in
  if negb (fits avail req) then None else
  '(gscore, selected) ← pick_gpus host usage;
  let cluster_mates := if sr_cluster_id req =$ "" then 0
                       else unwrap_or 0 (vms_by_cluster usage !! sr_cluster_id req) in
  disks ← pick_disks host;
  let has_replicated := existsb (fun d => disk_purpose d =? disk_purpose_num Replicated)
                                (sr_storage_disks req) in
  let replicated_mates := if has_replicated && (sr_cluster_id req <>$ "")
                          then unwrap_or 0 (replicated_count_by_host !! h_id host) else 0 in
  Some {| cand_host := host;
          cand_host_score := {|
            negative_cluster_replicated_mates := - replicated_mates;
            gpu_score := gscore;
            prefers_score := score (sr_placement req) (h_labels host);
            negative_cluster_mates := - cluster_mates;
            negative_rank := - h_rank host;
            negative_remaining_after := - remaining_after avail req |};
          cand_gpus := selected;
          cand_disks := disks |}.

(** The hosts that pass the health check and [requires]. *)
Definition eligible (hosts : list HostRow) : list HostRow :=
  select (fun h => h_healthy h && satisfies (sr_placement req) (h_labels h)) hosts.

(** [Iterator::max_by]: the last of the greatest. *)
Definition max_by (best : option Candidate) (c : Candidate) : option Candidate :=
  match best with
  | Some b => if candidate_score_ltb (cand_host_score c) (cand_host_score b) then best else Some c
  | None => Some c
  end.

(** [schedule]. *)
Definition schedule (hosts : list HostRow) : result SchedulerError ScheduleDecision :=
  let candidates := omap host_candidate (eligible hosts) in
  let any_passed_requires := negb (length (eligible hosts) =? 0)%nat in
  match foldl max_by None candidates with
  | None =>
      if negb any_passed_requires && negb (length (requires (sr_placement req)) =? 0)%nat
      then Err (UnsatisfiedRequirements (requires (sr_placement req)))
      else Err NoCapacity
  | Some winner =>
      Ok {| sd_host_id := h_id (cand_host winner); sd_gpus := cand_gpus winner;
            sd_disks := cand_disks winner |}
  end.
End schedule.

(** ** Scores are totally ordered *)

Lemma lex_asym a b : lex_ltb a b = true -> lex_ltb b a = false.
Proof.
  revert b. induction a as [|x a IH]; intros [|y b]; simpl; try done.
  rewrite orb_true_iff, orb_false_iff, andb_true_iff, andb_false_iff.
  rewrite Z.ltb_lt, Z.ltb_ge, Z.eqb_eq, Z.eqb_neq.
  intros [H|[-> H]]; [split; [lia|left; lia]|]. split; [lia|]. right. by apply IH.
Qed.

(** [b <= c] and [c < x] give [b < x]. *)
Lemma lex_le_lt_trans b c x : lex_ltb c b = false -> lex_ltb c x = true -> lex_ltb b x = true.
Proof.
  revert b x. induction c as [|z c IH]; intros [|y b] [|w x]; simpl; try done.
  rewrite !orb_true_iff, orb_false_iff, !andb_true_iff, andb_false_iff.
  rewrite !Z.ltb_lt, Z.ltb_ge, !Z.eqb_eq, Z.eqb_neq.
  intros [H1 H2] [H3|[-> H4]]; [left; lia|].
  destruct (decide (y = w)) as [->|Hne]; [|left; lia].
  right. split; [done|]. apply IH; [|done]. by destruct H2 as [?|?].
Qed.

(** A fold that keeps the best, whichever of two equals it keeps, returns an
    element no other element beats. *)
Lemma fold_best {A} (fields : A -> list Z) (step : option A -> A -> option A) l :
  (forall a, step None a = Some a) ->
  (forall b a, step (Some b) a = Some b /\ lex_ltb (fields b) (fields a) = false \/
               step (Some b) a = Some a /\ lex_ltb (fields a) (fields b) = false) ->
  match foldl step None l with
  | None => l = []
  | Some w => w ∈ l /\ forall a, a ∈ l -> lex_ltb (fields w) (fields a) = false
  end.
Proof.
  intros H0 H1.
  assert (forall l b, exists w, foldl step (Some b) l = Some w /\ (w = b \/ w ∈ l) /\
    lex_ltb (fields w) (fields b) = false /\
    forall a, a ∈ l -> lex_ltb (fields w) (fields a) = false) as Hfold.
  { clear l. induction l as [|a l IH]; intros b; simpl.
    - exists b. split_and!; [done|by left| |set_solver].
      destruct (lex_ltb (fields b) (fields b)) eqn:E; [|done]. by rewrite (lex_asym _ _ E) in E.
    - destruct (H1 b a) as [[-> Hb]|[-> Hb]].
      + destruct (IH b) as (w & Hw & Hin & Hwb & Hl). exists w. split_and!; [done|set_solver|done|].
        intros x [->|Hx]%elem_of_cons; [|by apply Hl].
        destruct (lex_ltb (fields w) (fields a)) eqn:E; [|done].
        by rewrite (lex_le_lt_trans _ _ _ Hwb E) in Hb.
      + destruct (IH a) as (w & Hw & Hin & Hwa & Hl). exists w. split_and!; [done|set_solver| |].
        * destruct (lex_ltb (fields w) (fields b)) eqn:E; [|done].
          by rewrite (lex_le_lt_trans _ _ _ Hwa E) in Hb.
        * intros x [->|Hx]%elem_of_cons; [done|by apply Hl]. }
  destruct l as [|a l]; simpl; [done|]. rewrite H0.
  destruct (Hfold l a) as (w & -> & Hin & Hwa & Hl). split; [set_solver|].
  intros x [->|Hx]%elem_of_cons; [done|by apply Hl].
Qed.

(** ** Disks *)

Lemma best_disk_spec cid used free disk view :
  match best_disk cid used free disk view with
  | None => disk_candidates cid used free disk view = []
  | Some c => c ∈ disk_candidates cid used free disk view /\
      forall c', c' ∈ disk_candidates cid used free disk view ->
        disk_score_ltb (cand_score c) (cand_score c') = false
  end.
Proof.
  apply (fold_best (fun c => disk_score_fields (cand_score c)) better); [done|].
  intros b a. unfold better. destruct (disk_score_ltb _ _) eqn:E; [right|left]; split; try done.
  by apply lex_asym.
Qed.

(** Where a candidate comes from. *)
Lemma elem_of_disk_candidates cid used free disk view c :
  c ∈ disk_candidates cid used free disk view <->
  exists pool dev, pool ∈ hsv_pools view /\ dev ∈ pv_devices pool /\
    disk_candidate cid used free disk pool dev = Some c.
Proof.
  unfold disk_candidates. rewrite list_elem_of_bind. setoid_rewrite list_elem_of_omap.
  naive_solver.
Qed.

Lemma disk_candidate_Some cid used free disk pool dev c :
  disk_candidate cid used free disk pool dev = Some c ->
  cand_pool c = pv_name pool /\ cand_device c = dv_device_id dev /\
  satisfies (selector_of disk) (pv_labels pool) = true /\ dv_schedulable dev = true /\
  need_bytes disk <= unwrap_or 0 (free !! (pv_name pool, dv_device_id dev)).
Proof.
  unfold disk_candidate. destruct (_ && _) eqn:E; [|done]. intros [= <-].
  apply andb_true_iff in E as [E1 E2%negb_true_iff%Z.ltb_ge].
  apply andb_true_iff in E1 as [? ?]. done.
Qed.

(** One placement serves one disk. *)
Definition placed (view : HostStorageView) (disk : StorageDisk) (p : DiskPlacement) : Prop :=
  dp_min_size_gib p = disk_min_size_gib disk /\
  disk_purpose_try_from (disk_purpose disk) = Some (dp_purpose p) /\
  exists pool dev, pool ∈ hsv_pools view /\ dev ∈ pv_devices pool /\
    dp_pool p = pv_name pool /\ dp_device_id p = dv_device_id dev /\
    satisfies (selector_of disk) (pv_labels pool) = true /\ dv_schedulable dev = true.

(** The bytes a decision takes from one device. *)
Definition taken (key : string * string) (disks : list StorageDisk) (ps : list DiskPlacement) : Z :=
  sum_of (fun x => need_bytes (fst x))
    (select (fun x => bool_decide ((dp_pool (snd x), dp_device_id (snd x)) = key)) (zip disks ps)).

Lemma place_disks_placed cid view idx used free disks ps :
  place_disks cid view idx used free disks = Some ps ->
  Forall2 (placed view) disks ps /\
  forall i p, ps !! i = Some p -> dp_disk_index p = as_u32 (idx + Z.of_nat i).
Proof.
  revert idx used free ps. induction disks as [|disk disks IH]; intros idx used free ps H; simpl in H.
  { injection H as <-. split; [constructor|]. done. }
  destruct (disk_purpose_try_from _) as [purpose|] eqn:Ep; [|done]. simpl in H.
  pose proof (best_disk_spec cid used free disk view) as Hb.
  destruct (best_disk _ _ _ _ _) as [c|]; [|done]. simpl in H.
  destruct (place_disks _ _ _ _ _ disks) as [rest|] eqn:Er; [|done]. simpl in H. injection H as <-.
  apply IH in Er as [IH1 IH2]. destruct Hb as [Hc _].
  apply elem_of_disk_candidates in Hc as (pool & dev & Hp & Hd & Hc).
  apply disk_candidate_Some in Hc as (E1 & E2 & E3 & E4 & _). split.
  - constructor; [|done]. split_and!; [done|done|]. exists pool, dev. by split_and!.
  - intros [|i] p; simpl.
    + intros [= <-]. simpl. f_equal. lia.
    + intros Hi. rewrite (IH2 _ _ Hi). f_equal. lia.
Qed.

Lemma taken_cons key disk disks p ps :
  taken key (disk :: disks) (p :: ps) =
  (if bool_decide ((dp_pool p, dp_device_id p) = key) then need_bytes disk else 0) + taken key disks ps.
Proof. unfold taken. simpl. case_bool_decide; simpl; lia. Qed.

Lemma place_disks_capacity cid view idx used free disks ps key b :
  (forall disk, disk ∈ disks -> 0 <= need_bytes disk) ->
  place_disks cid view idx used free disks = Some ps ->
  free !! key = Some b -> is_i64 b -> taken key disks ps <= Z.max 0 b.
Proof.
  revert idx used free ps b. induction disks as [|disk disks IH];
    intros idx used free ps b Hn H Hk Hb; simpl in H.
  { injection H as <-. unfold taken. simpl. lia. }
  destruct (disk_purpose_try_from _) as [purpose|]; [|done]. simpl in H.
  pose proof (best_disk_spec cid used free disk view) as Hbest.
  destruct (best_disk _ _ _ _ _) as [c|]; [|done]. simpl in H.
  destruct (place_disks _ _ _ _ _ disks) as [rest|] eqn:Er; [|done]. simpl in H. injection H as <-.
  destruct Hbest as [Hc _].
  apply elem_of_disk_candidates in Hc as (pool & dev & Hp & Hd & Hc).
  apply disk_candidate_Some in Hc as (E1 & E2 & _ & _ & Hneed).
  pose proof (Hn disk ltac:(set_solver)) as Hpos. rewrite taken_cons. simpl.
  case_bool_decide as Hkey.
  - rewrite E1, E2 in Hkey. rewrite Hkey, Hk in Hneed. simpl in Hneed.
    unfold is_i64 in Hb. pose proof (IH _ _ _ _ (b - need_bytes disk) ltac:(set_solver) Er) as Hr.
    rewrite E1, E2, Hkey, lookup_alter_eq, Hk in Hr. simpl in Hr.
    rewrite sat_i64_small in Hr by (unfold is_i64; lia). specialize (Hr eq_refl).
    unfold is_i64 in Hr. lia.
  - assert (alter (fun b => sat_i64 (b - need_bytes disk)) (cand_pool c, cand_device c) free !! key
              = Some b) as Hk' by (by rewrite lookup_alter_ne).
    pose proof (IH _ _ _ _ b ltac:(set_solver) Er Hk' Hb). lia.
Qed.

(** The devices of a host by name; a heartbeat keeps the names distinct. *)
Definition view_keys (view : HostStorageView) : list (string * string) :=
  pool ← hsv_pools view; map (fun d => (pv_name pool, dv_device_id d)) (pv_devices pool).

Definition view_entries (view : HostStorageView) : list ((string * string) * Z) :=
  pool ← hsv_pools view; map (fun d => ((pv_name pool, dv_device_id d), dv_free_bytes d)) (pv_devices pool).

Lemma initial_free_eq view :
  initial_free view = foldl (fun m e => <[fst e := snd e]> m) ∅ (view_entries view).
Proof.
  unfold initial_free, view_entries. generalize (∅ : gmap (string * string) Z).
  induction (hsv_pools view) as [|pool pools IH]; intros m; simpl; [done|].
  rewrite foldl_app, IH. f_equal. clear. revert m.
  induction (pv_devices pool) as [|d ds IH]; intros m; simpl; [done|]. by rewrite IH.
Qed.

Lemma fold_insert_lookup (l : list ((string * string) * Z)) (m : gmap (string * string) Z) k b :
  NoDup (map fst l) -> (k, b) ∈ l -> foldl (fun m e => <[fst e := snd e]> m) m l !! k = Some b.
Proof.
  assert (forall l m, k ∉ map fst l -> foldl (fun (m : gmap (string * string) Z) e =>
            <[fst e := snd e]> m) m l !! k = m !! k) as Hother.
  { clear. induction l as [|e l IH]; intros m Hk; simpl in *; [done|].
    rewrite IH by set_solver. rewrite lookup_insert_ne by set_solver. done. }
  revert m. induction l as [|e l IH]; intros m Hnd Hin; [set_solver|].
  simpl in Hnd. apply NoDup_cons in Hnd as [He Hnd]. simpl.
  apply elem_of_cons in Hin as [<-|Hin]; [|by apply IH].
  rewrite Hother by done. simpl. by rewrite lookup_insert_eq.
Qed.

Lemma view_entries_keys view : map fst (view_entries view) = view_keys view.
Proof.
  unfold view_entries, view_keys. induction (hsv_pools view) as [|pool pools IH]; [done|].
  rewrite !bind_cons, List.map_app, IH, List.map_map. done.
Qed.

Lemma initial_free_lookup view pool dev :
  NoDup (view_keys view) -> pool ∈ hsv_pools view -> dev ∈ pv_devices pool ->
  initial_free view !! (pv_name pool, dv_device_id dev) = Some (dv_free_bytes dev).
Proof.
  intros Hnd Hp Hd. rewrite initial_free_eq. apply fold_insert_lookup; [by rewrite view_entries_keys|].
  unfold view_entries. apply list_elem_of_bind. exists pool. split; [|done].
  apply list_elem_of_fmap. by exists dev.
Qed.

(** Disk placements are feasible together. When every disk is placed,
    the placements are in the order of the request with their indices, sizes
    and purposes; each is on a schedulable device of a pool whose labels
    satisfy the disk's selector; and the disks placed on one device together
    need no more than its free bytes, so two disks of one request never claim
    the same headroom. *)
Theorem pick_disk_placements_feasible cid view disks ps :
  NoDup (view_keys view) -> (forall disk, disk ∈ disks -> 0 <= need_bytes disk) ->
  pick_disk_placements cid view disks = Some ps ->
  Forall2 (placed view) disks ps /\
  (forall i p, ps !! i = Some p -> dp_disk_index p = as_u32 (Z.of_nat i)) /\
  (forall pool dev, pool ∈ hsv_pools view -> dev ∈ pv_devices pool -> is_i64 (dv_free_bytes dev) ->
     taken (pv_name pool, dv_device_id dev) disks ps <= Z.max 0 (dv_free_bytes dev)).
Proof.
  intros Hnd Hn H. unfold pick_disk_placements in H.
  destruct (place_disks_placed _ _ _ _ _ _ _ H) as [H1 H2]. split_and!; [done|done|].
  intros pool dev Hp Hd Hi.
  by eapply (place_disks_capacity _ _ _ _ _ _ _ _ _ Hn H (initial_free_lookup _ _ _ Hnd Hp Hd)).
Qed.

(** A disk that fits somewhere is placed at the best such place. A single
    disk is refused only if its purpose is unknown or no schedulable device
    of a matching pool has room; otherwise no device with room scores higher
    than the chosen one. *)
Theorem pick_disk_placements_single cid view disk :
  NoDup (view_keys view) ->
  let ok pool dev := pool ∈ hsv_pools view /\ dev ∈ pv_devices pool /\
    satisfies (selector_of disk) (pv_labels pool) = true /\ dv_schedulable dev = true /\
    need_bytes disk <= dv_free_bytes dev in
  match pick_disk_placements cid view [disk] with
  | None => disk_purpose_try_from (disk_purpose disk) = None \/ (forall pool dev, ~ ok pool dev)
  | Some ps => exists c, c ∈ disk_candidates cid ∅ (initial_free view) disk view /\
      map (fun p => (dp_pool p, dp_device_id p)) ps = [(cand_pool c, cand_device c)] /\
      forall c', c' ∈ disk_candidates cid ∅ (initial_free view) disk view ->
        disk_score_ltb (cand_score c) (cand_score c') = false
  end.
Proof.
  intros Hnd ok. unfold pick_disk_placements, place_disks.
  destruct (disk_purpose_try_from _) as [purpose|]; simpl; [|by left].
  pose proof (best_disk_spec cid ∅ (initial_free view) disk view) as Hb.
  destruct (best_disk _ _ _ _ _) as [c|]; simpl.
  - destruct Hb as [Hc Hmax]. by exists c.
  - right. intros pool dev (Hp & Hd & Hs & Hsch & Hneed).
    assert (exists c, c ∈ disk_candidates cid ∅ (initial_free view) disk view) as [c Hc];
      [|rewrite Hb in Hc; set_solver].
    destruct (disk_candidate cid ∅ (initial_free view) disk pool dev) as [c|] eqn:E.
    + exists c. apply elem_of_disk_candidates. by exists pool, dev.
    + exfalso. unfold disk_candidate in E.
      rewrite (initial_free_lookup _ _ _ Hnd Hp Hd), Hs, Hsch in E. simpl in E.
      assert ((dv_free_bytes dev <? need_bytes disk) = false) as Hlt by (by apply Z.ltb_ge).
      by rewrite Hlt in E.
Qed.

(** ** GPUs *)

Lemma elem_of_nvlink_domains available g :
  g ∈ nvlink_domains available <-> exists x, x ∈ available /\ nvlink_group x = g.
Proof.
  unfold nvlink_domains. rewrite elem_of_remove_dups, list_elem_of_fmap.
  split; intros (x & ? & ?); exists x; done.
Qed.

Lemma find_domain `{L : HashOrderLaws} available p :
  match List.find p (hash_order (nvlink_domains available)) with
  | Some g => p g = true
  | None => forall g, nvlink_bucket available g <> [] -> p g = false
  end.
Proof.
  destruct (List.find p _) as [g|] eqn:E; [by apply List.find_some in E as [_ ?]|].
  intros g Hne. eapply List.find_none; [exact E|]. apply list_elem_of_In.
  rewrite hash_order_perm, elem_of_nvlink_domains.
  destruct (nvlink_bucket available g) as [|x l] eqn:Eb; [done|].
  assert (x ∈ nvlink_bucket available g) as [Hx Hg%Z.eqb_eq]%elem_of_select by (rewrite Eb; set_solver).
  by exists x.
Qed.

Lemma bucket_group available g x : x ∈ nvlink_bucket available g -> x ∈ available /\ nvlink_group x = g.
Proof. intros [? ?%Z.eqb_eq]%elem_of_select. done. Qed.

Lemma take_bucket_sub (l : list GpuInfo) n x : x ∈ take n l -> x ∈ l.
Proof. intros [i Hi]%list_elem_of_lookup. apply lookup_take_Some in Hi as [Hi _].
  by eapply list_elem_of_lookup_2. Qed.

Lemma select_sublist {A} (p : A -> bool) (l : list A) : select p l `sublist_of` l.
Proof.
  induction l as [|x l IH]; simpl; [constructor|]. destruct (p x); by constructor.
Qed.

(** The first [count] GPUs of a large enough domain. *)
Lemma take_bucket available g count :
  0 < count -> (Z.to_nat count <= length (nvlink_bucket available g))%nat ->
  exists y ys, take (Z.to_nat count) (nvlink_bucket available g) = y :: ys /\
    Z.of_nat (length (y :: ys)) = count /\ y :: ys `sublist_of` available /\
    forall x, x ∈ y :: ys -> nvlink_group x = g.
Proof.
  intros Hc Hl.
  assert (Z.of_nat (length (take (Z.to_nat count) (nvlink_bucket available g))) = count) as H1
    by (rewrite length_take; lia).
  assert (take (Z.to_nat count) (nvlink_bucket available g) `sublist_of` available) as H2.
  { etrans; [apply sublist_take|]. apply select_sublist. }
  assert (forall x, x ∈ take (Z.to_nat count) (nvlink_bucket available g) -> nvlink_group x = g) as H3.
  { intros x Hx%take_bucket_sub. by apply bucket_group in Hx as [_ ?]. }
  destruct (take _ _) as [|y ys]; [simpl in H1; lia|]. by exists y, ys.
Qed.

Lemma bucket_nonempty available g count :
  0 < count -> count <= Z.of_nat (length (nvlink_bucket available g)) -> nvlink_bucket available g <> [].
Proof. intros Hc Hg E. rewrite E in Hg. simpl in Hg. lia. Qed.

(** The outcome of the GPU choice. *)
Lemma gpu_choice `{L : HashOrderLaws} available count min_group :
  0 < count ->
  let '(s, chosen) := gpu_topology_score available count min_group in
  let big g := g <> 0 /\ count <= Z.of_nat (length (nvlink_bucket available g)) /\
               min_group <= Z.of_nat (length (nvlink_bucket available g)) in
  match chosen with
  | [] => (forall g, ~ big g) /\ (min_group <= 0 -> Z.of_nat (length available) < count)
  | _ => Z.of_nat (length chosen) = count /\ chosen `sublist_of` available /\
         (s = 3 -> exists g, big g /\ forall x, x ∈ chosen -> nvlink_group x = g) /\
         (0 < min_group -> s = 3) /\ (s <> 3 -> forall g, ~ big g)
  end.
Proof.
  intros Hc. unfold gpu_topology_score. cbv zeta. destruct (0 <? min_group) eqn:Em.
  - apply Z.ltb_lt in Em. pose proof (find_domain available (fun g => negb (g =? 0) &&
      (Z.to_nat count <=? length (nvlink_bucket available g))%nat &&
      (Z.to_nat min_group <=? length (nvlink_bucket available g))%nat)) as Hf.
    destruct (List.find _ _) as [g|].
    + apply andb_true_iff in Hf as [Hf Hf3%Nat.leb_le].
      apply andb_true_iff in Hf as [Hf1%negb_true_iff%Z.eqb_neq Hf2%Nat.leb_le].
      destruct (take_bucket _ _ _ Hc Hf2) as (y & ys & -> & P1 & P2 & P3).
      split_and!; [done|done| |done|done]. intros _. exists g. split; [|done]. split_and!; [done|lia|lia].
    + split; [|lia]. intros g (G1 & G2 & G3). specialize (Hf g (bucket_nonempty _ _ _ Hc G2)).
      apply andb_false_iff in Hf as [Hf|Hf%Nat.leb_gt]; [|lia].
      apply andb_false_iff in Hf as [Hf%negb_false_iff%Z.eqb_eq|Hf%Nat.leb_gt]; [done|lia].
  - apply Z.ltb_ge in Em. pose proof (find_domain available (fun g => negb (g =? 0) &&
      (Z.to_nat count <=? length (nvlink_bucket available g))%nat)) as Hf.
    destruct (List.find _ _) as [g|].
    + apply andb_true_iff in Hf as [Hf1%negb_true_iff%Z.eqb_neq Hf2%Nat.leb_le].
      destruct (take_bucket _ _ _ Hc Hf2) as (y & ys & -> & P1 & P2 & P3).
      split_and!; [done|done| |lia|done]. intros _. exists g. split; [|done]. split_and!; [done|lia|lia].
    + assert (forall g, ~ (g <> 0 /\ count <= Z.of_nat (length (nvlink_bucket available g)) /\
        min_group <= Z.of_nat (length (nvlink_bucket available g)))) as Hno.
      { intros g (G1 & G2 & G3). specialize (Hf g (bucket_nonempty _ _ _ Hc G2)).
        apply andb_false_iff in Hf as [Hf%negb_false_iff%Z.eqb_eq|Hf%Nat.leb_gt]; [done|lia]. }
      destruct (Z.to_nat count <=? length available)%nat eqn:El.
      * apply Nat.leb_le in El. assert (Z.of_nat (length (take (Z.to_nat count) available)) = count) as P1
          by (rewrite length_take; lia).
        pose proof (sublist_take available (Z.to_nat count)) as P2.
        destruct (take _ _) as [|y ys]; [simpl in P1; lia|]. split_and!; [done|done|done|lia|done].
      * apply Nat.leb_gt in El. split; [done|lia].
Qed.

(** The GPU choice honours the request, whatever order the groups are
    visited in. A non-empty choice has exactly the requested number of
    distinct available GPUs; with a minimum group size they share one
    non-zero NVLink domain with at least that many free GPUs; without one, a
    score of 3 means one non-zero domain and a lower score that no domain was
    large enough. An empty choice means the request cannot be met. *)
Theorem gpu_topology_score_sound `{L : HashOrderLaws} available count min_group :
  0 < count ->
  let '(s, chosen) := gpu_topology_score available count min_group in
  let big g := g <> 0 /\ count <= Z.of_nat (length (nvlink_bucket available g)) /\
               min_group <= Z.of_nat (length (nvlink_bucket available g)) in
  match chosen with
  | [] => (forall g, ~ big g) /\ (min_group <= 0 -> Z.of_nat (length available) < count)
  | _ => Z.of_nat (length chosen) = count /\ chosen `sublist_of` available /\
         (s = 3 -> exists g, big g /\ forall x, x ∈ chosen -> nvlink_group x = g) /\
         (0 < min_group -> s = 3) /\ (s <> 3 -> forall g, ~ big g)
  end.
Proof. apply gpu_choice. Qed.

(** ** The decision *)

Section decision.
Context `{L : HashOrderLaws}.
Variables (usage : gmap string HostUsage) (storage : gmap string HostStorageView)
  (replicated : gmap string Z) (req : ScheduleRequest) (ratio : f64).

Lemma winner_spec cs :
  match foldl max_by None cs with
  | None => cs = []
  | Some w => w ∈ cs /\ forall c, c ∈ cs ->
      candidate_score_ltb (cand_host_score w) (cand_host_score c) = false
  end.
Proof.
  apply (fold_best (fun c => candidate_score_fields (cand_host_score c)) max_by); [done|].
  intros b a. unfold max_by. destruct (candidate_score_ltb _ _) eqn:E; [left|right]; split; try done.
  by apply lex_asym.
Qed.

Lemma elem_of_eligible hosts h :
  h ∈ eligible req hosts <->
  h ∈ hosts /\ h_healthy h = true /\ satisfies (sr_placement req) (h_labels h) = true.
Proof. unfold eligible. rewrite elem_of_select, andb_true_iff. done. Qed.

(** What a candidate has. *)
Lemma host_candidate_Some h c :
  host_candidate usage storage replicated req ratio h = Some c ->
  cand_host c = h /\
  fits (available_from h (unwrap_or usage_default (usage !! h_id h)) ratio) req = true /\
  (exists s, pick_gpus req h (unwrap_or usage_default (usage !! h_id h)) = Some (s, cand_gpus c)) /\
  pick_disks storage req h = Some (cand_disks c).
Proof.
  unfold host_candidate. destruct (fits _ _) eqn:Ef; [|done]. simpl.
  destruct (pick_gpus _ _ _) as [[s gs]|]; [|done]. simpl.
  destruct (pick_disks _ _ _) as [ds|]; [|done]. simpl. intros [= <-]. split_and!; try done.
  by exists s.
Qed.

Lemma pick_gpus_Some h u s gs :
  pick_gpus req h u = Some (s, gs) ->
  Z.of_nat (length gs) = Z.max 0 (sr_gpus req) /\
  (forall g, g ∈ gs -> g ∈ h_gpu_inventory h /\ pci_address g ∉ assigned_pci u) /\
  (0 < sr_gpus req -> 0 < sr_min_group_size req ->
   exists d, d <> 0 /\ forall g, g ∈ gs -> nvlink_group g = d).
Proof.
  unfold pick_gpus. destruct (0 <? sr_gpus req) eqn:E.
  2:{ apply Z.ltb_ge in E. intros [= <- <-]. split_and!; [simpl; lia|set_solver|lia]. }
  apply Z.ltb_lt in E. destruct (gpu_topology_score _ _ _) as [s' chosen] eqn:Eg.
  pose proof (gpu_choice (free_gpus h u) (sr_gpus req) (sr_min_group_size req) E) as Hs.
  rewrite Eg in Hs. destruct chosen as [|g gs']; [done|]. intros [= <- <-].
  destruct Hs as (H1 & H2 & H3 & H4 & _). split_and!; [lia| |].
  - intros x Hx. apply sublist_submseteq in H2.
    destruct (proj1 (elem_of_select _ _ _) (elem_of_submseteq _ _ _ Hx H2)) as [? H2'].
    split; [done|]. by apply negb_true_iff, bool_decide_eq_false in H2'.
  - intros _ Hm. destruct (H3 (H4 Hm)) as (d & (Hd & _) & Hall). by exists d.
Qed.
End decision.

(** C21: a decision is feasible and no feasible host beats it. The chosen host
    is healthy, satisfies the hard label requirements and has room for the
    request; the GPUs are the requested number of its own, none assigned, in
    one NVLink domain when a group was demanded; every disk is on a
    schedulable device of a matching pool of that host; and no other host
    that could take the VM has a higher score. *)
Theorem schedule_sound `{L : HashOrderLaws} usage storage replicated req ratio hosts d :
  schedule usage storage replicated req ratio hosts = Ok d ->
  exists h c, h ∈ hosts /\ h_id h = sd_host_id d /\ h_healthy h = true /\
    satisfies (sr_placement req) (h_labels h) = true /\
    fits (available_from h (unwrap_or usage_default (usage !! h_id h)) ratio) req = true /\
    Z.of_nat (length (sd_gpus d)) = Z.max 0 (sr_gpus req) /\
    (forall g, g ∈ sd_gpus d -> g ∈ h_gpu_inventory h /\
       pci_address g ∉ assigned_pci (unwrap_or usage_default (usage !! h_id h))) /\
    (0 < sr_gpus req -> 0 < sr_min_group_size req ->
     exists n, n <> 0 /\ forall g, g ∈ sd_gpus d -> nvlink_group g = n) /\
    Forall2 (placed (unwrap_or view_default (storage !! h_id h))) (sr_storage_disks req) (sd_disks d) /\
    host_candidate usage storage replicated req ratio h = Some c /\
    forall h' c', h' ∈ hosts -> h_healthy h' = true ->
      satisfies (sr_placement req) (h_labels h') = true ->
      host_candidate usage storage replicated req ratio h' = Some c' ->
      candidate_score_ltb (cand_host_score c) (cand_host_score c') = false.
Proof.
  unfold schedule. intros Hok.
  pose proof (winner_spec (omap (host_candidate usage storage replicated req ratio)
    (eligible req hosts))) as Hw.
  destruct (foldl max_by None _) as [w|]; [|by destruct (_ && _)]. injection Hok as <-.
  destruct Hw as [Hin Hmax]. apply list_elem_of_omap in Hin as (h & Hh & Hc).
  apply elem_of_eligible in Hh as (H1 & H2 & H3).
  destruct (host_candidate_Some _ _ _ _ _ _ _ Hc) as (<- & Hfit & (s & Hg) & Hd).
  destruct (pick_gpus_Some _ _ _ _ _ Hg) as (G1 & G2 & G3).
  exists (cand_host w), w. split_and!; try done.
  - unfold pick_disks in Hd. destruct (sr_storage_disks req) as [|disk disks] eqn:Ed.
    + injection Hd as Hd. simpl. rewrite <- Hd. constructor.
    + by apply place_disks_placed in Hd as [Hd _].
  - intros h' c' Hh' Hhe Hs Hc'. apply Hmax. apply list_elem_of_omap. exists h'.
    split; [|done]. by apply elem_of_eligible.
Qed.

(** Failure is reported only when no host can take the VM, and is
    classified right. The scheduler fails exactly when no healthy host that
    satisfies the requirements is a candidate, and blames the requirements
    exactly when there are some and no healthy host satisfies them. *)
Theorem schedule_failure `{L : HashOrderLaws} usage storage replicated req ratio hosts :
  let able h := h ∈ hosts /\ h_healthy h = true /\
    satisfies (sr_placement req) (h_labels h) = true in
  match schedule usage storage replicated req ratio hosts with
  | Ok _ => exists h, able h /\ is_Some (host_candidate usage storage replicated req ratio h)
  | Err e => (forall h, able h -> host_candidate usage storage replicated req ratio h = None) /\
      match e with
      | UnsatisfiedRequirements _ => requires (sr_placement req) <> [] /\ (forall h, ~ able h)
      | NoCapacity => requires (sr_placement req) = [] \/ exists h, able h
      end
  end.
Proof.
  intros able. assert (forall h, able h <-> h ∈ eligible req hosts) as Hab.
  { intros h. by rewrite elem_of_eligible. }
  unfold schedule.
  pose proof (winner_spec (omap (host_candidate usage storage replicated req ratio)
    (eligible req hosts))) as Hw.
  destruct (foldl max_by None _) as [w|].
  - destruct Hw as [Hin _]. apply list_elem_of_omap in Hin as (h & Hh & Hc).
    exists h. split; [by apply Hab|by rewrite Hc].
  - assert (forall h, able h -> host_candidate usage storage replicated req ratio h = None) as Hnone.
    { intros h Hh%Hab. destruct (host_candidate _ _ _ _ _ h) as [c|] eqn:Ec; [|done].
      assert (c ∈ omap (host_candidate usage storage replicated req ratio) (eligible req hosts)) as Hin
        by (apply list_elem_of_omap; by exists h). rewrite Hw in Hin. set_solver. }
    destruct (negb (negb (length (eligible req hosts) =? 0)%nat) && _) eqn:E.
    + apply andb_true_iff in E as [E1 E2%negb_true_iff%Nat.eqb_neq]. split; [done|].
      rewrite negb_involutive in E1. apply Nat.eqb_eq, length_zero_iff_nil in E1.
      split; [by destruct (requires _)|]. intros h Hh%Hab. rewrite E1 in Hh. set_solver.
    + split; [done|]. apply andb_false_iff in E as [E|E].
      * right. rewrite negb_involutive in E. apply Nat.eqb_neq in E.
        destruct (eligible req hosts) as [|h l] eqn:El; [done|]. exists h. apply Hab. set_solver.
      * left. apply negb_false_iff, Nat.eqb_eq in E. by apply length_zero_iff_nil.
Qed.

(** ** Agreement with the commit gate *)

Lemma room_exact total used : 0 <= total - used < 2 ^ 32 -> room total used = total - used.
Proof.
  intros H. unfold room. rewrite sat_i64_small by (unfold is_i64; lia).
  rewrite Z.max_r by lia. apply as_u32_small. unfold is_u32. lia.
Qed.

Lemma gib_room total used r :
  0 <= total -> (r <=? Z.quot total GIB - used) = (r * GIB <=? total - used * GIB).
Proof.
  intros Ht. unfold GIB. rewrite Z.quot_div_nonneg by lia.
  pose proof (Z.div_mod total (2 ^ 30) ltac:(lia)). pose proof (Z.mod_pos_bound total (2 ^ 30) ltac:(lia)).
  apply eq_bool_prop_intro. rewrite !Is_true_true, !Z.leb_le. lia.
Qed.

(** A host as the agreement needs it: the load the snapshot saw is within the
    capacity, the room left is below [2^32] in each unit, and the ratio is a
    number. *)
Record gate_ready (ratio : f64) (t : list VmRow) `{DbJson} (h : HostRow) : Prop := {
  gr_within : host_within ratio t h;
  gr_fits : load_fits (load t (h_id h));
  gr_ratio : is_Some (sql_effective_cpu ratio (h_total_cpu h));
  gr_total : 0 <= h_rootfs_total_bytes h /\ 0 <= h_data_total_bytes h;
  gr_room : let '(cpu, mem, rootfs, data) := load t (h_id h) in
    effective_cpu ratio (h_total_cpu h) - cpu < 2 ^ 32 /\ h_total_memory_mib h - mem < 2 ^ 32 /\
    Z.quot (h_rootfs_total_bytes h) GIB - rootfs < 2 ^ 32 /\
    Z.quot (h_data_total_bytes h) GIB - data < 2 ^ 32;
}.

(** C22: the scheduler and the commit gate agree. On a healthy host whose
    current load is within its capacity, and with the usage the snapshot
    gives, the scheduler's in-memory check accepts a request exactly when the
    SQL gate of [insert_vm] does: without a race, a chosen placement is not
    refused for capacity, and no placement the gate would take is passed
    over. *)
Theorem scheduler_agrees_with_gate `{J : DbJson} ratio t h usage req :
  h_healthy h = true -> gate_ready ratio t h -> usage_load usage = load t (h_id h) ->
  gate_row ratio t h (sr_cpu req) (sr_memory_mib req) (sr_rootfs_gib req * GIB) (sr_data_gib req * GIB)
    = Some (fits (available_from h usage ratio) req).
Proof.
  intros Hh [[W1 W2 W3 W4] Hf [eff He] [T1 T2] Hr] Hu. unfold load, usage_load in *.
  injection Hu as U1 U2 U3 U4. destruct Hf as (F1 & F2 & F3 & F4). destruct Hr as (R1 & R2 & R3 & R4).
  unfold gate_row. rewrite Hh, !sql_sum_total, He by done. simpl.
  apply sql_effective_cpu_eq in He. unfold fits, available_from. simpl. rewrite U1, U2, U3, U4.
  assert (0 <= Z.quot (h_rootfs_total_bytes h) GIB - sum_of vm_disk_gib (select (on_host (h_id h)) t)) as R3'.
  { apply Z.leb_le. rewrite gib_room by done. apply Z.leb_le. lia. }
  assert (0 <= Z.quot (h_data_total_bytes h) GIB - sum_of id (host_min_sizes (h_id h) t)) as R4'.
  { apply Z.leb_le. rewrite gib_room by done. apply Z.leb_le. lia. }
  rewrite !room_exact, !gib_room, He by lia.
  destruct (sr_cpu req <=? _); simpl; [|done]. destruct (sr_memory_mib req <=? _); simpl; [|done].
  destruct (sr_rootfs_gib req * GIB <=? _); simpl; done.
Qed.

(** A host whose data pools shrank below what is promised on them is
    still chosen for VMs without data disks, and never commits them. When the
    promised data exceeds the reported total, the scheduler's check of a
    request without data disks depends on CPU, memory and root disk only,
    while the commit gate refuses every request on that host. *)
Theorem shrunk_data_pool_mismatch `{J : DbJson} ratio t h usage req rootfs data :
  usage_load usage = load t (h_id h) -> is_i64 (sum_of id (host_min_sizes (h_id h) t)) ->
  0 <= h_data_total_bytes h < sum_of id (host_min_sizes (h_id h) t) * GIB ->
  sr_data_gib req = 0 -> 0 <= data ->
  let avail := available_from h usage ratio in
  fits avail req = (sr_cpu req <=? avail_cpu avail) && (sr_memory_mib req <=? avail_memory_mib avail) &&
                   (sr_rootfs_gib req <=? avail_rootfs_gib avail) /\
  gate_row ratio t h (sr_cpu req) (sr_memory_mib req) rootfs data <> Some true.
Proof.
  intros Hu Hi Hs Hd0 Hd avail. split.
  - unfold fits. rewrite Hd0. assert (0 <= avail_data_gib avail) as Hn by apply as_u32_range.
    apply Z.leb_le in Hn. by rewrite Hn, andb_true_r.
  - intros (_ & _ & _ & _ & Hg)%gate_row_true. lia.
Qed.

(** ** Examples *)

#[global] Instance hash_in_order : HashOrder := {| hash_order l := l |}.
#[global] Instance hash_in_order_laws : HashOrderLaws hash_in_order.
Proof. by split. Qed.

Definition example_device (id : string) (free_gib : Z) : DeviceView := {|
  dv_device_id := id; dv_total_bytes := 100 * GIB; dv_free_bytes := free_gib * GIB;
  dv_schedulable := true; dv_replicated_clusters := ∅ |}.

Definition example_view : HostStorageView := {| hsv_pools := [{|
  pv_name := "fast"; pv_backend := "lvm-linear"; pv_labels := {["tier" := "fast"]};
  pv_schedulable_total_bytes := 200 * GIB; pv_schedulable_free_bytes := 50 * GIB;
  pv_devices := [example_device "nvme0" 30; example_device "nvme1" 20] |}] |}.

Definition fast_disk (gib : Z) : StorageDisk := {|
  disk_min_size_gib := gib; disk_purpose := 1;
  disk_selector := Some {| ls_requires := [{| req_key := "tier"; req_values := ["fast"] |}];
                           ls_prefers := [] |} |}.

Definition example_request : ScheduleRequest := {|
  sr_cluster_id := "c1"; sr_cpu := 4; sr_memory_mib := 1024; sr_rootfs_gib := 20; sr_data_gib := 20;
  sr_gpus := 2; sr_min_group_size := 2; sr_placement := placement_default;
  sr_storage_disks := [fast_disk 10; fast_disk 10] |}.

Definition example_gpus : list GpuInfo :=
  [{| pci_address := "0000:17:00.0"; model := "H100"; iommu_group := "17"; nvlink_group := 0 |};
   {| pci_address := "0000:18:00.0"; model := "H100"; iommu_group := "18"; nvlink_group := 1 |};
   {| pci_address := "0000:19:00.0"; model := "H100"; iommu_group := "19"; nvlink_group := 1 |}].

Definition gpu_host : HostRow := {|
  h_id := "h1"; h_hostname := "h1"; h_total_cpu := 8; h_total_memory_mib := 4096;
  h_rootfs_total_bytes := 100 * GIB; h_rootfs_free_bytes := 100 * GIB;
  h_rootfs_metadata_total_bytes := GIB; h_rootfs_metadata_free_bytes := GIB;
  h_data_total_bytes := 200 * GIB; h_data_free_bytes := 50 * GIB;
  h_gpu_inventory := example_gpus; h_vtep_address := "10.1.0.1";
  h_last_heartbeat := "2026-01-01T00:00:00Z"; h_healthy := true; h_rank := 0; h_labels := ∅ |}.

Lemma pick_disk_placements_feasible_witness :
  exists ps, pick_disk_placements "c1" example_view [fast_disk 10; fast_disk 10] = Some ps /\
    Forall2 (placed example_view) [fast_disk 10; fast_disk 10] ps.
Proof.
  eexists. split; [vm_compute; reflexivity|].
  apply (pick_disk_placements_feasible "c1" example_view).
  - apply (bool_decide_eq_true_1 _). vm_compute. reflexivity.
  - intros disk Hd. apply elem_of_cons in Hd as [->|Hd]; [vm_compute; discriminate|].
    apply list_elem_of_singleton in Hd as ->. vm_compute. discriminate.
  - vm_compute. reflexivity.
Defined.

Lemma pick_disk_placements_single_witness :
  pick_disk_placements "c1" example_view [fast_disk 40] = None /\
  (disk_purpose_try_from 1 = None \/
   forall pool dev, ~ (pool ∈ hsv_pools example_view /\ dev ∈ pv_devices pool /\
     satisfies (selector_of (fast_disk 40)) (pv_labels pool) = true /\ dv_schedulable dev = true /\
     need_bytes (fast_disk 40) <= dv_free_bytes dev)).
Proof.
  assert (pick_disk_placements "c1" example_view [fast_disk 40] = None) as E by (vm_compute; reflexivity).
  split; [exact E|].
  pose proof (pick_disk_placements_single "c1" example_view (fast_disk 40)) as H.
  rewrite E in H. apply H. apply (bool_decide_eq_true_1 _). vm_compute. reflexivity.
Defined.

Lemma gpu_topology_score_sound_witness :
  exists chosen, gpu_topology_score example_gpus 2 2 = (3, chosen) /\ Z.of_nat (length chosen) = 2.
Proof.
  pose proof (gpu_topology_score_sound example_gpus 2 2 ltac:(lia)) as H.
  destruct (gpu_topology_score example_gpus 2 2) as [s chosen] eqn:E.
  vm_compute in E. injection E as <- <-. eexists. split; [reflexivity|]. apply H.
Defined.

Lemma schedule_sound_witness :
  exists d h, schedule ∅ {["h1" := example_view]} ∅ example_request ratio_1 [gpu_host] = Ok d /\
    h ∈ [gpu_host] /\ h_id h = sd_host_id d /\ Z.of_nat (length (sd_gpus d)) = 2.
Proof.
  assert (is_ok (schedule ∅ {["h1" := example_view]} ∅ example_request ratio_1 [gpu_host]) = true)
    as Hok by (vm_compute; reflexivity).
  destruct (schedule _ _ _ _ _ _) as [d|] eqn:E; [|discriminate].
  destruct (schedule_sound _ _ _ _ _ _ _ E) as (h & c & H1 & H2 & _ & _ & _ & H3 & _).
  exists d, h. split; [reflexivity|]. split; [exact H1|]. split; [exact H2|exact H3].
Defined.

(** The same host, unhealthy. *)
Lemma schedule_failure_witness :
  exists e, schedule ∅ {["h1" := example_view]} ∅ example_request ratio_1 [with_healthy false gpu_host]
    = Err e /\
  forall h, h ∈ [with_healthy false gpu_host] /\ h_healthy h = true /\
    satisfies (sr_placement example_request) (h_labels h) = true ->
    host_candidate ∅ {["h1" := example_view]} ∅ example_request ratio_1 h = None.
Proof.
  pose proof (schedule_failure ∅ {["h1" := example_view]} ∅ example_request ratio_1
    [with_healthy false gpu_host]) as H.
  assert (is_ok (schedule ∅ {["h1" := example_view]} ∅ example_request ratio_1
    [with_healthy false gpu_host]) = false) as Hok by (vm_compute; reflexivity).
  destruct (schedule _ _ _ _ _ _) as [d|e]; [discriminate|].
  exists e. split; [reflexivity|]. destruct H as [H _]. exact H.
Defined.

Lemma scheduler_agrees_with_gate_witness :
  gate_row ratio_1 [] gpu_host 4 1024 (20 * GIB) (20 * GIB)
    = Some (fits (available_from gpu_host usage_default ratio_1) example_request).
Proof.
  apply (scheduler_agrees_with_gate ratio_1 [] gpu_host usage_default example_request).
  - reflexivity.
  - split.
    + split; vm_compute; discriminate.
    + vm_compute. repeat split; discriminate.
    + vm_compute. eexists. reflexivity.
    + vm_compute. split; discriminate.
    + vm_compute. repeat split.
  - reflexivity.
Defined.

(** The example VM has 10 GiB of data disks on [h1]; the data pools are gone. *)
Lemma shrunk_data_pool_mismatch_witness :
  let h := heartbeat_row "2026-01-02T00:00:00Z"
             {| rootfs_total_bytes := 100 * GIB; rootfs_free_bytes := 80 * GIB;
                rootfs_metadata_total_bytes := GIB; rootfs_metadata_free_bytes := GIB;
                data_total_bytes := 0; data_free_bytes := 0 |} (example_host "h1" "10.1.0.1") in
  let usage := {| used_cpu := 8; used_memory_mib := 1024; used_rootfs_gib := 20; used_data_gib := 10;
                  assigned_pci := ∅; vms_by_cluster := ∅ |} in
  let req := {| sr_cluster_id := "c1"; sr_cpu := 1; sr_memory_mib := 512; sr_rootfs_gib := 10;
                sr_data_gib := 0; sr_gpus := 0; sr_min_group_size := 0;
                sr_placement := placement_default; sr_storage_disks := [] |} in
  fits (available_from h usage ratio_4) req = true /\
  gate_row ratio_4 [example_vm "vm1" "h1"] h 1 512 (10 * GIB) 0 <> Some true.
Proof.
  intros h usage req.
  destruct (shrunk_data_pool_mismatch ratio_4 [example_vm "vm1" "h1"] h usage req (10 * GIB) 0)
    as [H1 H2].
  - vm_compute. reflexivity.
  - vm_compute. split; [discriminate|reflexivity].
  - vm_compute. split; [discriminate|reflexivity].
  - reflexivity.
  - lia.
  - split; [|exact H2]. rewrite H1. vm_compute. reflexivity.
Defined.
