(* ===== verification/Ctl.v ===== *)
(** * The controller's shared state (crates/basis-controller/src/server.rs)

    What the two gRPC services share: the database, the connected agents with
    their command channels, and the [CreateMachine] calls waiting for an
    agent. The authoritative command a host is reconciled against, its push to
    one host or to all hosts of a cluster, and the two directions of inventory
    reconciliation. *)

From S2P Require Import Prelude Ipv4 Ipnet CidrNet Proto Config Overcommit DbTypes JsonText Ipam Clusters Hosts Vms Teardown Outbox Scheduler.

(** ** Status codes *)

(** The gRPC code of a [tonic::Status]; messages are not modelled. *)
Inductive Code :=
  | CodeInvalidArgument | CodeNotFound | CodeAlreadyExists | CodePermissionDenied
  | CodeResourceExhausted | CodeFailedPrecondition | CodeInternal | CodeUnavailable
  | CodeDataLoss | CodeUnauthenticated | CodeDeadlineExceeded.

#[global] Instance code_eq_dec : EqDecision Code.
Proof. solve_decision. Defined.

(** [db_status]. *)
Definition db_status (e : DbError) : Code :=
  match e with
  | NotFound _ => CodeNotFound
  | Conflict _ => CodeAlreadyExists
  | Exhausted _ => CodeResourceExhausted
  | HostUnavailable _ | CapacityRaced _ | AllocationRaced _ => CodeUnavailable
  | Sqlx _ | Malformed _ => CodeInternal
  end.

(** The peer as the TLS layer reports it. *)
Inductive Peer :=
  | PeerNone
  | PeerBad
  | PeerNamed (id : string).

Definition CAPI_PROVIDER_IDENTITY : string := "basis-capi-provider".

(** [peer_identity] and [require_capi_caller]. *)
Definition peer_identity (p : Peer) : result Code string :=
  match p with
  | PeerNamed id => Ok id
  | PeerNone | PeerBad => Err CodeUnauthenticated
  end.
Definition require_capi_caller (p : Peer) : result Code unit :=
  match peer_identity p with
  | Ok id => if id =$ CAPI_PROVIDER_IDENTITY then Ok tt else Err CodePermissionDenied
  | Err e => Err e
  end.

(** [provider_id]. *)
Definition provider_id (vm : string) : string := "basis://" +:+ vm.

(** ** Commands *)

Record ClusterVip := { cv_cidr : string; cv_owner_host_id : string }.

Record ClusterState := {
  cs_cluster_id : string;
  cs_vni : Z;
  cs_cidr : string;
  cs_gateway_ip : string;
  cs_prefix_len : Z;
  cs_vtep_addresses : list string;
  cs_trust_domain : string;
  cs_cluster_vips : list ClusterVip;
  cs_internal_cluster_vips : list string;
}.

Record ClusterTombstone := { ct_vni : Z; ct_cluster_id : string; ct_cidr : string }.

Record ReconcileHostCommand := {
  rc_clusters : list ClusterState;
  rc_cluster_tombstones : list ClusterTombstone;
  rc_vm_tombstones : list string;
}.

Record CommandedDisk := {
  cd_assignment_id : string;
  cd_min_size_gib : Z;
  cd_pool : string;
  cd_device_id : string;
  cd_disk_index : Z;
  cd_cluster_id : string;
  cd_purpose : Z;
}.

Record CreateVmCommand := {
  cmd_vm_id : string;
  cmd_name : string;
  cmd_cpu : Z;
  cmd_memory_mib : Z;
  cmd_disk_gib : Z;
  cmd_image : string;
  cmd_bootstrap_data : list Byte.byte;
  cmd_ip_address : string;
  cmd_gateway : string;
  cmd_prefix_len : Z;
  cmd_gpus : Z;
  cmd_gpu_constraints : option Z;
  cmd_dns_servers : list string;
  cmd_gpu_pci_addresses : list string;
  cmd_storage_disks : list CommandedDisk;
  cmd_cluster_id : string;
  cmd_vni : Z;
}.

Record RegisterHostResponse := {
  rr_host_id : string;
  rr_initial_state : ReconcileHostCommand;
  rr_bgp_asn : Z;
  rr_bgp_reflector_address : string;
}.

Inductive ControllerCommand :=
  | CreateVm (request_id : string) (cmd : CreateVmCommand)
  | RegisterAck (r : RegisterHostResponse)
  | ReconcileHost (cmd : ReconcileHostCommand).

(** The protobuf codec of the outbox payload. *)
Class Prost := {
  encode_command : ControllerCommand -> list Byte.byte;
  decode_command : list Byte.byte -> option ControllerCommand;
}.
Class ProstLaws `(P : Prost) := {
  command_roundtrip c : decode_command (encode_command c) = Some c;
}.

(** ** State *)

Record VmFailure := { vf_message : string; vf_transient : bool }.

(** A connected agent: the generation of its stream, whether the receiving
    end of the command channel is alive, and what was sent on it. *)
Record ConnectedAgent := {
  ag_epoch : Z;
  ag_open : bool;
  ag_sent : list ControllerCommand;
}.

(** A [CreateMachine] waiting for its host. *)
Record PendingVmOp := { po_host_id : string }.

Record Ctl := {
  ctl_db : Db;
  ctl_agents : gmap string ConnectedAgent;
  ctl_pending : gmap string PendingVmOp;
  (** what was sent to each waiter *)
  ctl_resolved : gmap string (result VmFailure unit);
  (** the counter behind [next_agent_epoch] *)
  ctl_epoch : Z;
}.

(** The configuration the services hold. *)
Record CtlConfig := {
  cc_network : NetworkConfig;
  cc_bgp_asn : Z;
  cc_bgp_router_id : string;
  cc_auto_reconcile_orphan_inventory : bool;
  cc_dns_servers : list string;
  cc_cpu_overcommit_ratio : f64;
}.

Definition set_db (f : Db -> Db) (s : Ctl) : Ctl :=
  {| ctl_db := f (ctl_db s); ctl_agents := ctl_agents s; ctl_pending := ctl_pending s;
     ctl_resolved := ctl_resolved s; ctl_epoch := ctl_epoch s |}.
Definition set_agents f (s : Ctl) : Ctl :=
  {| ctl_db := ctl_db s; ctl_agents := f (ctl_agents s); ctl_pending := ctl_pending s;
     ctl_resolved := ctl_resolved s; ctl_epoch := ctl_epoch s |}.
Definition set_pending f (s : Ctl) : Ctl :=
  {| ctl_db := ctl_db s; ctl_agents := ctl_agents s; ctl_pending := f (ctl_pending s);
     ctl_resolved := ctl_resolved s; ctl_epoch := ctl_epoch s |}.
Definition set_resolved f (s : Ctl) : Ctl :=
  {| ctl_db := ctl_db s; ctl_agents := ctl_agents s; ctl_pending := ctl_pending s;
     ctl_resolved := f (ctl_resolved s); ctl_epoch := ctl_epoch s |}.
Definition set_epoch f (s : Ctl) : Ctl :=
  {| ctl_db := ctl_db s; ctl_agents := ctl_agents s; ctl_pending := ctl_pending s;
     ctl_resolved := ctl_resolved s; ctl_epoch := f (ctl_epoch s) |}.

Abbreviation CtlM A := (SE Ctl Code A).

(** A database call whose error is kept. *)
Definition db_call {A} (m : DbM A) : SE Ctl DbError A :=
  fun s => let '(db', r) := m (ctl_db s) in (set_db (fun _ => db') s, r).
(** A database call with [map_err(db_status)?], and with
    [map_err(|e| Status::internal(..))?]. *)
Definition lift_db {A} (m : DbM A) : CtlM A := se_map_err db_status (db_call m).
Definition lift_internal {A} (m : DbM A) : CtlM A := se_map_err (fun _ => CodeInternal) (db_call m).
(** A database call whose failure is only logged. *)
Definition log_db {E A} (m : DbM A) : SE Ctl E unit := run! se_try (db_call m) ; se_ret tt.

(** ** Agent streams *)

(** [next_agent_epoch]. *)
Definition next_agent_epoch {E} : SE Ctl E Z :=
  fun s => (set_epoch (fun e => e + 1) s, Ok (ctl_epoch s)).

(** [release_agent_stream]: compare-and-remove on the epoch, then cancel the
    host's waiters. *)
Definition release_agent_stream (host_id : string) (epoch : Z) (s : Ctl) : Ctl :=
  match ctl_agents s !! host_id with
  | Some a =>
      if ag_epoch a =? epoch then
        set_pending (filter (fun kv => po_host_id (snd kv) <> host_id))
          (set_agents (delete host_id) s)
      else s
  | None => s
  end.

(** [command_tx.send(cmd).await]: an error when the receiver is gone. *)
Definition send_to (a : ConnectedAgent) (cmd : ControllerCommand) : option ConnectedAgent :=
  if ag_open a then Some {| ag_epoch := ag_epoch a; ag_open := true; ag_sent := ag_sent a ++ [cmd] |}
  else None.

(** ** The reconcile command *)

(** [classify_cluster_vips]. *)
Definition classify_cluster_vips (cluster : ClusterRow) (visibility : ApiserverVisibility)
    (pool : Pool) (owner_host_id : string) : list ClusterVip * list string :=
  let endpoint := if decide (visibility = ApiserverPublic)
                  then match ip_parse (c_control_plane_endpoint cluster) with
                       | Some vip => [ip_to_string vip +:+ "/32"]
                       | None => []
                       end
                  else [] in
  let block := if c_service_block_cidr cluster =$ "" then [] else [c_service_block_cidr cluster] in
  let vips := endpoint ++ block in
  if is_tree pool then ([], vips)
  else (map (fun c => {| cv_cidr := c; cv_owner_host_id := owner_host_id |}) vips, []).

Section reconcile.
Variable cfg : CtlConfig.

Definition visibility_of (c : ClusterRow) : DbM ApiserverVisibility :=
  se_of (ok_or (Malformed ("cluster " +:+ c_id c +:+ " has unknown apiserver_visibility"))
               (visibility_try_from (as_i32 (c_apiserver_visibility c)))).
Definition pool_of (c : ClusterRow) : DbM Pool :=
  se_of (ok_or (Malformed ("cluster " +:+ c_id c +:+ " references an unknown pool"))
               (pool_by_name (cc_network cfg) (c_external_pool c))).

(** The state of a cluster this host carries. *)
Definition carried_state (m : ClusterRow * string) : DbM ClusterState :=
  let '(cluster, bridge_ip) := m in
  do! visibility <- visibility_of cluster ;
  do! pool <- pool_of cluster ;
  do! carriers <- list_active_carriers (c_id cluster) ;
  do! owner_host_id <- elect_lan_vip_owner (c_id cluster) carriers ;
  let vips := classify_cluster_vips cluster visibility pool owner_host_id in
  do! vteps <- list_cluster_vteps (c_id cluster) ;
  se_ret {| cs_cluster_id := c_id cluster; cs_vni := as_u32 (c_vni cluster);
            cs_cidr := c_cidr cluster; cs_gateway_ip := bridge_ip;
            cs_prefix_len := as_u32 (c_prefix_len cluster); cs_vtep_addresses := vteps;
            cs_trust_domain := c_trust_domain cluster; cs_cluster_vips := fst vips;
            cs_internal_cluster_vips := snd vips |}.

(** The ghost state of a tree cluster this host does not carry. *)
Definition ghost_state (cluster : ClusterRow) : DbM (option ClusterState) :=
  do! pool <- pool_of cluster ;
  if negb (is_tree pool) then se_ret None else
  do! visibility <- visibility_of cluster ;
  do! vteps <- list_cluster_vteps (c_id cluster) ;
  se_ret (Some {| cs_cluster_id := c_id cluster; cs_vni := as_u32 (c_vni cluster);
                  cs_cidr := c_cidr cluster; cs_gateway_ip := ""; cs_prefix_len := 0;
                  cs_vtep_addresses := vteps; cs_trust_domain := c_trust_domain cluster;
                  cs_cluster_vips := [];
                  cs_internal_cluster_vips := snd (classify_cluster_vips cluster visibility pool "") |}).

(** [SharedCtx::build_reconcile_command]. *)
Definition build_reconcile_command (host_id : string) : DbM ReconcileHostCommand :=
  do! memberships <- list_active_host_clusters host_id ;
  do! carried <- se_map memberships carried_state ;
  do! all <- list_clusters ;
  let carried_ids := map (fun m => c_id (fst m)) memberships in
  do! ghosts <- se_map (select (fun c => negb (existsb (String.eqb (c_id c)) carried_ids)) all)
                       ghost_state ;
  do! tombstones <- list_pending_cluster_tombstones host_id ;
  do! vm_tombstones <- list_pending_vm_tombstones host_id ;
  se_ret {| rc_clusters := carried ++ omap id ghosts;
            rc_cluster_tombstones :=
              map (fun t => {| ct_vni := as_u32 (pt_vni t); ct_cluster_id := pt_cluster_id t;
                               ct_cidr := pt_cidr t |}) tombstones;
            rc_vm_tombstones := vm_tombstones |}.

(** [SharedCtx::push_reconcile]: best effort. *)
Definition push_reconcile {E} (host_id : string) : SE Ctl E unit :=
  fun s =>
    let '(db', r) := build_reconcile_command host_id (ctl_db s) in
    let s := set_db (fun _ => db') s in
    match r with
    | Err _ => (s, Ok tt)
    | Ok cmd =>
        match ctl_agents s !! host_id with
        | Some a =>
            match send_to a (ReconcileHost cmd) with
            | Some a' => (set_agents (<[host_id := a']>) s, Ok tt)
            | None => (s, Ok tt)
            end
        | None => (s, Ok tt)
        end
    end.

(** [SharedCtx::broadcast_cluster]. *)
Definition broadcast_cluster {E} (cluster_id : string) : SE Ctl E unit :=
  do! r <- se_try (db_call (list_hosts_in_cluster cluster_id)) ;
  match r with
  | Ok hosts => se_for hosts push_reconcile
  | Err _ => se_ret tt
  end.

(** [SharedCtx::cleanup_failed_vm]. *)
Definition cleanup_failed_vm {E} (vm cluster_id host_id now : string) : SE Ctl E unit :=
  run! log_db (mark_vm_pending_teardown vm now) ;
  run! log_db (release_vm_ips vm) ;
  run! log_db (mark_host_cluster_pending_teardown cluster_id host_id) ;
  push_reconcile host_id.

(** ** Inventories *)

Record InventoryCluster := { inv_vni : Z; inv_cidr : string }.
Record HostInventory := { inv_vm_ids : list string; inv_clusters : list InventoryCluster }.

(** A reported VM is an orphan when neither the command nor a row of this
    host names it. *)
Definition orphan_vm (host_id : string) (already : list string) (vm : string)
    : DbM (option string) :=
  fun db =>
    if existsb (String.eqb vm) already then (db, Ok None)
    else match snd (get_vm vm db) with
         | Ok row => (db, Ok (if vm_host_id row =$ host_id then None else Some vm))
         | Err (NotFound _) => (db, Ok (Some vm))
         | Err e => (db, Err e)
         end.

(** [SharedCtx::extend_with_orphan_tombstones]: the command to send. *)
Definition extend_with_orphan_tombstones (host_id : string) (inventory : HostInventory)
    (cmd : ReconcileHostCommand) : DbM ReconcileHostCommand :=
  do! vm_orphans <- se_map (inv_vm_ids inventory) (orphan_vm host_id (rc_vm_tombstones cmd)) ;
  let orphan_vm_ids := omap id vm_orphans in
  do! active <- list_active_host_clusters host_id ;
  do! pending <- list_pending_cluster_tombstones host_id ;
  let tracked_vnis := map (fun m => as_u32 (c_vni (fst m))) active ++
                      map (fun t => as_u32 (pt_vni t)) pending in
  let already_t_vnis := map ct_vni (rc_cluster_tombstones cmd) in
  let orphan_clusters :=
    select (fun c => negb (existsb (Z.eqb (inv_vni c)) tracked_vnis ||
                           existsb (Z.eqb (inv_vni c)) already_t_vnis)) (inv_clusters inventory) in
  if negb (cc_auto_reconcile_orphan_inventory cfg) then se_ret cmd
  else
    se_ret {| rc_clusters := rc_clusters cmd;
              rc_cluster_tombstones := rc_cluster_tombstones cmd ++
                map (fun c => {| ct_vni := inv_vni c; ct_cluster_id := ""; ct_cidr := inv_cidr c |})
                    orphan_clusters;
              rc_vm_tombstones := rc_vm_tombstones cmd ++ orphan_vm_ids |}.

Definition is_live_state (s : Z) : bool :=
  (s =? machine_state_num Pending) || (s =? machine_state_num Creating) ||
  (s =? machine_state_num Running).

(** [SharedCtx::reap_db_orphans_from_inventory]. *)
Definition reap_db_orphans_from_inventory (host_id now : string) (inventory : HostInventory)
    : SE Ctl DbError unit :=
  do! rows <- db_call (list_vms_on_host host_id) ;
  let missing := select (fun v => negb (existsb (String.eqb (vm_id v)) (inv_vm_ids inventory))) rows in
  let live_orphans := select (fun v => is_live_state (vm_state v)) missing in
  let pending_vm_orphans :=
    map vm_id (select (fun v => vm_state v =? VM_STATE_PENDING_TEARDOWN) missing) in
  do! tombstones <- db_call (list_pending_cluster_tombstones host_id) ;
  let pending_cluster_orphans :=
    select (fun vni => negb (existsb (fun c => inv_vni c =? vni) (inv_clusters inventory)))
      (map (fun t => as_u32 (pt_vni t)) tombstones) in
  if negb (cc_auto_reconcile_orphan_inventory cfg) then se_ret tt
  else
    run! se_for live_orphans (fun v => cleanup_failed_vm (vm_id v) (vm_cluster_id v) host_id now) ;
    match pending_vm_orphans, pending_cluster_orphans with
    | [], [] => se_ret tt
    | _, _ => db_call (ack_tombstones host_id pending_cluster_orphans pending_vm_orphans)
    end.
End reconcile.
