(* ===== verification/Wire.v ===== *)
(** * A concrete codec for the outbox payload

    An implementation of the [Prost] interface of [Ctl] on which its law is
    proved and the examples evaluate: a command is written as a tree of
    strings and numbers, and the tree as the bits of its code number. *)

From Stdlib Require Import Strings.String.
From stdpp Require Import countable.
From S2P Require Import Prelude Proto Config Overcommit DbTypes JsonText Ctl.

Abbreviation tree := (gen_tree (string + Z)).

Definition w_str (s : string) : tree := GenLeaf (inl s).
Definition w_num (n : Z) : tree := GenLeaf (inr n).
Definition w_list {A} (w : A -> tree) (l : list A) : tree := GenNode 0 (map w l).
Definition w_opt {A} (w : A -> tree) (o : option A) : tree := GenNode 1 (match o with Some a => [w a] | None => [] end).

Definition r_str (t : tree) : option string := match t with GenLeaf (inl s) => Some s | _ => None end.
Definition r_num (t : tree) : option Z := match t with GenLeaf (inr n) => Some n | _ => None end.
Definition r_list {A} (r : tree -> option A) (t : tree) : option (list A) :=
  match t with GenNode 0 l => mapM r l | _ => None end.
Definition r_opt {A} (r : tree -> option A) (t : tree) : option (option A) :=
  match t with
  | GenNode 1 [] => Some None
  | GenNode 1 [x] => Some <$> r x
  | _ => None
  end.

(** A reader that inverts a writer. *)
Definition inverts {A} (r : tree -> option A) (w : A -> tree) : Prop := forall a, r (w a) = Some a.

Lemma inverts_list {A} (r : tree -> option A) w : inverts r w -> inverts (r_list r) (w_list w).
Proof. intros H l. simpl. induction l as [|a l IH]; [done|]. simpl. rewrite H. simpl. by rewrite IH. Qed.
Lemma inverts_opt {A} (r : tree -> option A) w : inverts r w -> inverts (r_opt r) (w_opt w).
Proof. intros H [a|]; simpl; [|done]. by rewrite H. Qed.

Definition w_vip (v : ClusterVip) : tree := GenNode 2 [w_str (cv_cidr v); w_str (cv_owner_host_id v)].
Definition r_vip (t : tree) : option ClusterVip :=
  match t with
  | GenNode 2 [c; o] => c ← r_str c; o ← r_str o; Some {| cv_cidr := c; cv_owner_host_id := o |}
  | _ => None
  end.
Lemma inverts_vip : inverts r_vip w_vip.
Proof. by intros []. Qed.

Definition w_tombstone (t : ClusterTombstone) : tree :=
  GenNode 3 [w_num (ct_vni t); w_str (ct_cluster_id t); w_str (ct_cidr t)].
Definition r_tombstone (t : tree) : option ClusterTombstone :=
  match t with
  | GenNode 3 [v; i; c] =>
      v ← r_num v; i ← r_str i; c ← r_str c;
      Some {| ct_vni := v; ct_cluster_id := i; ct_cidr := c |}
  | _ => None
  end.
Lemma inverts_tombstone : inverts r_tombstone w_tombstone.
Proof. by intros []. Qed.

Definition w_cluster (c : ClusterState) : tree :=
  GenNode 4 [w_str (cs_cluster_id c); w_num (cs_vni c); w_str (cs_cidr c); w_str (cs_gateway_ip c);
             w_num (cs_prefix_len c); w_list w_str (cs_vtep_addresses c); w_str (cs_trust_domain c);
             w_list w_vip (cs_cluster_vips c); w_list w_str (cs_internal_cluster_vips c)].
Definition r_cluster (t : tree) : option ClusterState :=
  match t with
  | GenNode 4 [i; v; c; g; p; vt; td; cv; ic] =>
      i ← r_str i; v ← r_num v; c ← r_str c; g ← r_str g; p ← r_num p; vt ← r_list r_str vt;
      td ← r_str td; cv ← r_list r_vip cv; ic ← r_list r_str ic;
      Some {| cs_cluster_id := i; cs_vni := v; cs_cidr := c; cs_gateway_ip := g; cs_prefix_len := p;
              cs_vtep_addresses := vt; cs_trust_domain := td; cs_cluster_vips := cv;
              cs_internal_cluster_vips := ic |}
  | _ => None
  end.
Lemma inverts_str : inverts r_str w_str.
Proof. done. Qed.
Lemma inverts_cluster : inverts r_cluster w_cluster.
Proof.
  intros []. cbn -[r_list w_list]. rewrite !(inverts_list _ _ inverts_str). cbn -[r_list w_list].
  by rewrite (inverts_list _ _ inverts_vip).
Qed.

Definition w_reconcile (c : ReconcileHostCommand) : tree :=
  GenNode 5 [w_list w_cluster (rc_clusters c); w_list w_tombstone (rc_cluster_tombstones c);
             w_list w_str (rc_vm_tombstones c)].
Definition r_reconcile (t : tree) : option ReconcileHostCommand :=
  match t with
  | GenNode 5 [c; ct; vt] =>
      c ← r_list r_cluster c; ct ← r_list r_tombstone ct; vt ← r_list r_str vt;
      Some {| rc_clusters := c; rc_cluster_tombstones := ct; rc_vm_tombstones := vt |}
  | _ => None
  end.
Lemma inverts_reconcile : inverts r_reconcile w_reconcile.
Proof.
  intros []. cbn -[r_list w_list]. rewrite (inverts_list _ _ inverts_cluster). cbn -[r_list w_list].
  rewrite (inverts_list _ _ inverts_tombstone). cbn -[r_list w_list].
  by rewrite (inverts_list _ _ inverts_str).
Qed.

Definition w_disk (d : CommandedDisk) : tree :=
  GenNode 6 [w_str (cd_assignment_id d); w_num (cd_min_size_gib d); w_str (cd_pool d);
             w_str (cd_device_id d); w_num (cd_disk_index d); w_str (cd_cluster_id d);
             w_num (cd_purpose d)].
Definition r_disk (t : tree) : option CommandedDisk :=
  match t with
  | GenNode 6 [a; m; p; d; i; c; u] =>
      a ← r_str a; m ← r_num m; p ← r_str p; d ← r_str d; i ← r_num i; c ← r_str c; u ← r_num u;
      Some {| cd_assignment_id := a; cd_min_size_gib := m; cd_pool := p; cd_device_id := d;
              cd_disk_index := i; cd_cluster_id := c; cd_purpose := u |}
  | _ => None
  end.
Lemma inverts_disk : inverts r_disk w_disk.
Proof. by intros []. Qed.

Definition w_bytes (l : list Byte.byte) : tree := w_str (string_of_list_byte l).
Definition r_bytes (t : tree) : option (list Byte.byte) := list_byte_of_string <$> r_str t.
Lemma inverts_bytes : inverts r_bytes w_bytes.
Proof. intros l. unfold r_bytes. simpl. by rewrite list_byte_of_string_of_list_byte. Qed.
Lemma inverts_num : inverts r_num w_num.
Proof. done. Qed.

Definition w_create (c : CreateVmCommand) : tree :=
  GenNode 7 [w_str (cmd_vm_id c); w_str (cmd_name c); w_num (cmd_cpu c); w_num (cmd_memory_mib c);
             w_num (cmd_disk_gib c); w_str (cmd_image c); w_bytes (cmd_bootstrap_data c);
             w_str (cmd_ip_address c); w_str (cmd_gateway c); w_num (cmd_prefix_len c);
             w_num (cmd_gpus c); w_opt w_num (cmd_gpu_constraints c);
             w_list w_str (cmd_dns_servers c); w_list w_str (cmd_gpu_pci_addresses c);
             w_list w_disk (cmd_storage_disks c); w_str (cmd_cluster_id c); w_num (cmd_vni c)].
Definition r_create (t : tree) : option CreateVmCommand :=
  match t with
  | GenNode 7 [v; n; cpu; mem; dk; im; bd; ip; gw; pl; gp; gc; dns; pci; sd; ci; vni] =>
      v ← r_str v; n ← r_str n; cpu ← r_num cpu; mem ← r_num mem; dk ← r_num dk; im ← r_str im;
      bd ← r_bytes bd; ip ← r_str ip; gw ← r_str gw; pl ← r_num pl; gp ← r_num gp;
      gc ← r_opt r_num gc; dns ← r_list r_str dns; pci ← r_list r_str pci; sd ← r_list r_disk sd;
      ci ← r_str ci; vni ← r_num vni;
      Some {| cmd_vm_id := v; cmd_name := n; cmd_cpu := cpu; cmd_memory_mib := mem; cmd_disk_gib := dk;
              cmd_image := im; cmd_bootstrap_data := bd; cmd_ip_address := ip; cmd_gateway := gw;
              cmd_prefix_len := pl; cmd_gpus := gp; cmd_gpu_constraints := gc; cmd_dns_servers := dns;
              cmd_gpu_pci_addresses := pci; cmd_storage_disks := sd; cmd_cluster_id := ci; cmd_vni := vni |}
  | _ => None
  end.
Lemma inverts_create : inverts r_create w_create.
Proof.
  intros []. cbn -[r_list w_list r_opt w_opt r_bytes w_bytes]. rewrite inverts_bytes.
  cbn -[r_list w_list r_opt w_opt]. rewrite (inverts_opt _ _ inverts_num). cbn -[r_list w_list].
  rewrite !(inverts_list _ _ inverts_str). cbn -[r_list w_list].
  by rewrite (inverts_list _ _ inverts_disk).
Qed.

Definition w_command (c : ControllerCommand) : tree :=
  match c with
  | CreateVm id cmd => GenNode 8 [w_str id; w_create cmd]
  | RegisterAck r => GenNode 9 [w_str (rr_host_id r); w_reconcile (rr_initial_state r);
                                w_num (rr_bgp_asn r); w_str (rr_bgp_reflector_address r)]
  | ReconcileHost cmd => GenNode 10 [w_reconcile cmd]
  end.
Definition r_command (t : tree) : option ControllerCommand :=
  match t with
  | GenNode 8 [i; c] => i ← r_str i; c ← r_create c; Some (CreateVm i c)
  | GenNode 9 [h; i; a; b] =>
      h ← r_str h; i ← r_reconcile i; a ← r_num a; b ← r_str b;
      Some (RegisterAck {| rr_host_id := h; rr_initial_state := i; rr_bgp_asn := a;
                           rr_bgp_reflector_address := b |})
  | GenNode 10 [c] => c ← r_reconcile c; Some (ReconcileHost c)
  | _ => None
  end.
Lemma inverts_command : inverts r_command w_command.
Proof.
  intros [id cmd|[]|cmd]; cbn -[r_create w_create r_reconcile w_reconcile];
    by rewrite ?inverts_create, ?inverts_reconcile.
Qed.

#[global] Instance tree_prost : Prost := {|
  encode_command c := list_byte_of_string (to_text (w_command c));
  decode_command l := t ← of_text (string_of_list_byte l); r_command t;
|}.
#[global] Instance tree_prost_laws : ProstLaws tree_prost.
Proof.
  split. intros c. simpl. rewrite string_of_list_byte_of_string, of_to_text. apply inverts_command.
Qed.
