(* ===== verification/Api.v ===== *)
(** * The CAPI-facing service (crates/basis-controller/src/server.rs)

    The handlers of the [Basis] service, whole: clusters and machines are
    created, listed and torn down here. The other tasks of the controller run
    while [create_cluster] and [create_machine] await, so they take [env]: what
    the others did to the shared state at the n-th point where the handler's
    view can go stale (between an allocation and the insert that uses it,
    between a placement and its commit, while the agent boots the VM). Fresh
    uuids and the clock are arguments. *)

From S2P Require Import Prelude Ipv4 Ipnet CidrNet Proto Config Overcommit DbTypes JsonText Ipam Clusters Hosts Vms Teardown Outbox Schema Scheduler Ctl.

Record CreateClusterRequest := {
  cr_name : string;
  cr_external_ip_pool : string;
  cr_external_service_ips : Z;
  cr_apiserver_visibility : Z;
  cr_trust_domain : string;
}.

Record CreateClusterResponse := {
  ccr_cluster_id : string;
  ccr_control_plane_endpoint : string;
  ccr_vni : Z;
  ccr_cidr : string;
  ccr_service_block_cidr : string;
  ccr_bgp_reflector_address : string;
  ccr_bgp_asn : Z;
}.

Record Cluster := {
  cl_cluster_id : string;
  cl_name : string;
  cl_control_plane_endpoint : string;
  cl_vni : Z;
  cl_cidr : string;
  cl_service_block_cidr : string;
  cl_apiserver_visibility : Z;
  cl_trust_domain : string;
}.

Record CreateMachineResponse := {
  cmr_id : string; cmr_provider_id : string; cmr_ip_address : string; cmr_host : string
}.

Record MachineGpu := { mg_pci_address : string; mg_model : string; mg_nvlink_group : Z }.

Record Machine := {
  ma_id : string;
  ma_name : string;
  ma_cluster_id : string;
  ma_host : string;
  ma_provider_id : string;
  ma_ip_address : string;
  ma_state : Z;
  ma_cpu : Z;
  ma_memory_mib : Z;
  ma_disk_gib : Z;
  ma_gpus : list MachineGpu;
  ma_error_message : string;
  ma_storage_disks : list DiskAssignment;
}.

(** ** Conversions *)

Definition cluster_to_proto (c : ClusterRow) : Cluster := {|
  cl_cluster_id := c_id c; cl_name := c_name c;
  cl_control_plane_endpoint := c_control_plane_endpoint c; cl_vni := as_u32 (c_vni c);
  cl_cidr := c_cidr c; cl_service_block_cidr := c_service_block_cidr c;
  cl_apiserver_visibility := as_i32 (c_apiserver_visibility c);
  cl_trust_domain := c_trust_domain c |}.

Definition create_cluster_response (cfg : CtlConfig) (c : ClusterRow) : CreateClusterResponse := {|
  ccr_cluster_id := c_id c; ccr_control_plane_endpoint := c_control_plane_endpoint c;
  ccr_vni := as_u32 (c_vni c); ccr_cidr := c_cidr c;
  ccr_service_block_cidr := c_service_block_cidr c;
  ccr_bgp_reflector_address := cc_bgp_router_id cfg; ccr_bgp_asn := cc_bgp_asn cfg |}.

(** [u32::try_from] of a column, [data_loss] when it does not fit. *)
Definition narrow (v : Z) : result Code Z :=
  if (0 <=? v) && (v <=? u32_max) then Ok v else Err CodeDataLoss.

Definition vm_to_machine `{J : DbJson} (vm : VmRow) (gpus : list GpuAssignment)
    : result Code Machine :=
  match parsed_disk_assignments vm, narrow (vm_cpu vm), narrow (vm_memory_mib vm),
        narrow (vm_disk_gib vm) with
  | Some disks, Ok cpu, Ok mem, Ok disk =>
      Ok {| ma_id := vm_id vm; ma_name := vm_name vm; ma_cluster_id := vm_cluster_id vm;
            ma_host := vm_host_id vm; ma_provider_id := provider_id (vm_id vm);
            ma_ip_address := vm_ip_address vm; ma_state := as_i32 (vm_state vm);
            ma_cpu := cpu; ma_memory_mib := mem; ma_disk_gib := disk;
            ma_gpus := map (fun g => {| mg_pci_address := ga_pci_address g; mg_model := ga_model g;
                                        mg_nvlink_group := as_u32 (ga_nvlink_group g) |}) gpus;
            ma_error_message := vm_error_message vm; ma_storage_disks := disks |}
  | _, _, _, _ => Err CodeDataLoss
  end.

Definition vm_to_create_response (vm : VmRow) : CreateMachineResponse := {|
  cmr_id := vm_id vm; cmr_provider_id := provider_id (vm_id vm);
  cmr_ip_address := vm_ip_address vm; cmr_host := vm_host_id vm |}.

(** ** Handlers *)

Section api.
Context `{I : Ipnet} `{J : DbJson} `{S : Sqlite} `{HO : HashOrder} `{P : Prost}.
Variable cfg : CtlConfig.
(** What the other tasks do while the handler awaits. *)
Variable env : nat -> Ctl -> Ctl.

Definition yield {E} (n : nat) : SE Ctl E unit := se_modify (env n).

(** [BasisApiService::resolve_pool]. *)
Definition resolve_pool (name : string) : result Code Pool :=
  if name =$ "" then Err CodeInvalidArgument
  else ok_or CodeInvalidArgument (pool_by_name (cc_network cfg) name).

(** [BasisApiService::allocate_apiserver_vip]. *)
Definition allocate_apiserver_vip (visibility : ApiserverVisibility) (pool : Pool)
    (cn : ClusterNetwork) (cluster_id : string) : CtlM string :=
  match visibility with
  | ApiserverPublic => lift_db (allocate_pool_vip pool cluster_id)
  | ApiserverPrivate =>
      let ip := ip_to_string (private_apiserver_ip cn) in
      let scope := "cluster:" +:+ cluster_id in
      run! lift_db (reserve_specific_ip scope ip None (Some cluster_id)) ;
      se_ret ip
  end.

(** [BasisApiService::allocate_service_block]. *)
Definition api_allocate_service_block (pool : Pool) (cluster_id : string) (count : Z) : CtlM string :=
  if count =? 0 then se_ret "" else
  do! range <- se_of (map_err db_status (parse_pool_range pool)) ;
  lift_db (allocate_service_block (pool_name pool) range cluster_id count).

(** [m] with a rollback of the pending cluster's addresses when it fails. *)
Definition or_rollback {A} (cluster_id : string) (m : CtlM A) : CtlM A :=
  fun s => match m s with
           | (s', Err e) => (run! log_db (release_cluster_ips cluster_id) ; se_fail e) s'
           | ok => ok
           end.

(** One round of the loop of [create_cluster]: [None] asks for another. *)
Definition create_cluster_attempt (req : CreateClusterRequest) (visibility : ApiserverVisibility)
    (pool : Pool) (service_count : Z) (cluster_id now : string) (n : nat)
    : CtlM (option ClusterRow) :=
  do! cn <- lift_db (allocate_cluster_network (cc_network cfg)) ;
  run! yield (3 * n) ;
  do! endpoint <- or_rollback cluster_id (allocate_apiserver_vip visibility pool cn cluster_id) ;
  run! yield (3 * n + 1) ;
  do! block <- or_rollback cluster_id (api_allocate_service_block pool cluster_id service_count) ;
  run! yield (3 * n + 2) ;
  let row := from_network {| ci_id := cluster_id; ci_name := cr_name req;
                             ci_control_plane_endpoint := endpoint;
                             ci_apiserver_visibility := visibility_num visibility;
                             ci_external_pool := cr_external_ip_pool req;
                             ci_service_block_cidr := block;
                             ci_trust_domain := cr_trust_domain req;
                             ci_created_at := now |} cn in
  do! r <- se_try (db_call (insert_cluster row)) ;
  match r with
  | Ok _ => se_ret (Some row)
  | Err (Conflict _) =>
      run! log_db (release_cluster_ips cluster_id) ;
      do! existing <- lift_db (get_cluster_by_name (cr_name req)) ;
      match existing with
      | Some c => se_ret (Some c)
      | None => se_fail CodeInternal
      end
  | Err (AllocationRaced _) =>
      run! log_db (release_cluster_ips cluster_id) ; se_ret None
  | Err other =>
      run! log_db (release_cluster_ips cluster_id) ; se_fail (db_status other)
  end.

Definition MAX_ALLOCATION_ATTEMPTS : nat := 8.

(** The bounded loop: [uuids] and [nows] per attempt. *)
Fixpoint create_cluster_loop (req : CreateClusterRequest) (visibility : ApiserverVisibility)
    (pool : Pool) (service_count : Z) (uuids nows : nat -> string) (fuel n : nat)
    : CtlM ClusterRow :=
  match fuel with
  | O => se_fail CodeResourceExhausted
  | Datatypes.S fuel' =>
      do! r <- create_cluster_attempt req visibility pool service_count (uuids n) (nows n) n ;
      match r with
      | Some row => se_ret row
      | None => create_cluster_loop req visibility pool service_count uuids nows fuel' (Datatypes.S n)
      end
  end.

(** The trust domain of a stored row is refreshed and broadcast. *)
Definition refresh_trust_domain (req : CreateClusterRequest) (existing : ClusterRow) : CtlM ClusterRow :=
  if (cr_trust_domain req <>$ "") && (cr_trust_domain req <>$ c_trust_domain existing) then
    run! lift_db (update_cluster_trust_domain (c_id existing) (cr_trust_domain req)) ;
    run! broadcast_cluster cfg (c_id existing) ;
    se_ret (with_trust_domain (cr_trust_domain req) existing)
  else se_ret existing.

(** [create_cluster]. *)
Definition create_cluster (peer : Peer) (req : CreateClusterRequest) (uuids nows : nat -> string)
    : CtlM CreateClusterResponse :=
  run! se_of (require_capi_caller peer) ;
  do! visibility <- se_of (ok_or CodeInvalidArgument (visibility_try_from (cr_apiserver_visibility req))) ;
  if cr_name req =$ "" then se_fail CodeInvalidArgument else
  let service_count := if cr_external_service_ips req =? 0
                       then default_external_service_ips (cc_network cfg)
                       else cr_external_service_ips req in
  if negb (is_power_of_two service_count) then se_fail CodeInvalidArgument else
  do! pool <- se_of (resolve_pool (cr_external_ip_pool req)) ;
  do! existing <- lift_db (get_cluster_by_name (cr_name req)) ;
  match existing with
  | Some e => do! row <- refresh_trust_domain req e ; se_ret (create_cluster_response cfg row)
  | None =>
      do! row <- create_cluster_loop req visibility pool service_count uuids nows
                   MAX_ALLOCATION_ATTEMPTS 0 ;
      se_ret (create_cluster_response cfg row)
  end.

(** [delete_cluster]. *)
Definition api_delete_cluster (peer : Peer) (cluster_id now : string) : CtlM unit :=
  run! se_of (require_capi_caller peer) ;
  do! r <- se_try (db_call (get_cluster cluster_id)) ;
  match r with
  | Err (NotFound _) => se_ret tt
  | Err e => se_fail (db_status e)
  | Ok _ =>
      do! rows <- lift_db (list_vms (Some cluster_id)) ;
      run! se_for rows (fun vm => log_db (mark_vm_pending_teardown (vm_id vm) now)) ;
      do! affected <- lift_db (mark_cluster_pending_teardown_all_hosts cluster_id) ;
      se_for affected (push_reconcile cfg)
  end.

(** [get_cluster] and [list_clusters]. *)
Definition api_get_cluster (peer : Peer) (cluster_id : string) : CtlM Cluster :=
  run! se_of (require_capi_caller peer) ;
  do! c <- lift_db (get_cluster cluster_id) ;
  se_ret (cluster_to_proto c).
Definition api_list_clusters (peer : Peer) : CtlM (list Cluster) :=
  run! se_of (require_capi_caller peer) ;
  do! cs <- lift_db list_clusters ;
  se_ret (map cluster_to_proto cs).

(** ** Placement *)

(** What [pick_host] reads of one host: its storage view and the request
    cluster's replicated disks on it. *)
Definition host_view (cluster_id : string) (host : HostRow) : DbM (HostStorageView * Z) :=
  do! pools <- list_host_pools (h_id host) ;
  do! devices <- se_map pools (fun p => do! d <- list_pool_devices (h_id host) (hp_pool p) ;
                                        se_ret (hp_pool p, d)) ;
  do! drains <- host_drain_markers (h_id host) ;
  let drained := dom (filter (fun kv => dss_state (snd kv) = "disabled") drains) in
  do! replicated <- list_host_replicated_assignments (h_id host) ;
  let per_device := foldr (fun '(p, d, c) m => <[(p, d) := {[c]} ∪ unwrap_or ∅ (m !! (p, d))]> m)
                          (∅ : gmap (string * string) (gset string)) replicated in
  let count := count_where (fun '(p, d, c) => c =$ cluster_id) replicated in
  se_ret (from_rows pools (foldl (fun m '(k, v) => <[k := v]> m) ∅ devices) drained per_device, count).

(** [BasisApiService::pick_host]. *)
Definition pick_host (req : CreateMachineRequest) : DbM (result Code ScheduleDecision) :=
  do! hs <- list_healthy_hosts ;
  do! usage <- host_usage_snapshot ;
  do! views <- se_map hs (fun h => do! v <- host_view (cm_cluster_id req) h ; se_ret (h_id h, v)) ;
  let storage := foldl (fun m '(k, v) => <[k := fst v]> m) (∅ : gmap string HostStorageView) views in
  let counts := foldl (fun m '(k, v) => <[k := snd v]> m) (∅ : gmap string Z) views in
  se_ret (match schedule usage storage counts (schedule_request_from req)
                  (cc_cpu_overcommit_ratio cfg) hs with
          | Ok d => Ok d
          | Err NoCapacity => Err CodeResourceExhausted
          | Err (UnsatisfiedRequirements _) => Err CodeFailedPrecondition
          end).

Record VmPlacement := {
  pl_vm : VmRow;
  pl_gpu_assignments : list GpuAssignment;
  pl_disk_placements : list DiskPlacement;
}.

Inductive PlaceError :=
  | Raced (host : string)
  | HostGone (host : string)
  | PlaceNoCapacity (status : Code)
  | NameConflict
  | PlaceInternal (status : Code).

Definition place_error (e : Code) : PlaceError :=
  if decide (e = CodeResourceExhausted) then PlaceNoCapacity e else PlaceInternal e.

(** The disk the row records, with the scheduler's choice filled in. *)
Definition stored_disk (vm : string) (p : DiskPlacement) : StoredDisk := {|
  sd_disk_index := dp_disk_index p;
  sd_min_size_gib := dp_min_size_gib p;
  sd_purpose := disk_purpose_as_db_str (dp_purpose p);
  sd_pool := Some (dp_pool p);
  sd_device_id := Some (dp_device_id p);
  sd_assignment_id := Some (assignment_id_of vm (dp_disk_index p));
  sd_actual_size_gib := None;
  sd_device_path := None |}.

Definition placed_vm (req : CreateMachineRequest) (vm now ip : string) (d : ScheduleDecision) : VmRow := {|
  vm_id := vm; vm_name := cm_name req; vm_cluster_id := cm_cluster_id req;
  vm_host_id := sd_host_id d; vm_ip_address := ip; vm_state := machine_state_num Creating;
  vm_cpu := cm_cpu req; vm_memory_mib := cm_memory_mib req; vm_disk_gib := cm_disk_gib req;
  vm_storage_disks := disks_to_json (map (stored_disk vm) (sd_disks d));
  vm_image := cm_image req; vm_error_message := ""; vm_created_at := now; vm_updated_at := now |}.

Definition commit_error (e : DbError) : PlaceError :=
  match e with
  | CapacityRaced host => Raced host
  | HostUnavailable host => HostGone host
  | Conflict _ => NameConflict
  | other => PlaceInternal (db_status other)
  end.

(** [BasisApiService::try_place_vm]. *)
Definition try_place_vm (req : CreateMachineRequest) (vm : string) (cluster : ClusterRow)
    (now : string) (n : nat) : SE Ctl PlaceError VmPlacement :=
  do! picked <- se_map_err (fun e => place_error (db_status e)) (db_call (pick_host req)) ;
  do! d <- se_of (map_err place_error picked) ;
  run! yield (2 * n) ;
  do! ip <- se_map_err (fun e => PlaceInternal (db_status e))
              (db_call (allocate_cluster_vm_ip cluster vm)) ;
  run! yield (2 * n + 1) ;
  let row := placed_vm req vm now ip d in
  let gpus := map (from_scheduler_pick vm (sd_host_id d)) (sd_gpus d) in
  do! r <- se_try (db_call (insert_vm (cc_cpu_overcommit_ratio cfg) row gpus (sd_disks d))) ;
  match r with
  | Ok _ => se_ret {| pl_vm := row; pl_gpu_assignments := gpus; pl_disk_placements := sd_disks d |}
  | Err e => run! log_db (release_vm_ips vm) ; se_fail (commit_error e)
  end.

Definition MAX_SCHEDULE_ATTEMPTS : nat := 5.

(** The retry loop of [create_machine]: a placement, or the row another call
    committed under the same name. With no attempt left it has returned. *)
Fixpoint place_loop (req : CreateMachineRequest) (vm : string) (cluster : ClusterRow) (now : string)
    (fuel n : nat) : CtlM (VmRow + VmPlacement) :=
  match fuel with
  | O => se_fail CodeUnavailable
  | Datatypes.S fuel' =>
      do! r <- se_try (try_place_vm req vm cluster now n) ;
      match r with
      | Ok p => se_ret (inr p)
      | Err (Raced _) | Err (HostGone _) => place_loop req vm cluster now fuel' (Datatypes.S n)
      | Err (PlaceNoCapacity st) => se_fail st
      | Err NameConflict =>
          do! existing <- lift_db (get_vm_by_name (cm_cluster_id req) (cm_name req)) ;
          match existing with
          | Some row => se_ret (inl row)
          | None => se_fail CodeInternal
          end
      | Err (PlaceInternal st) => se_fail st
      end
  end.

Definition commanded_disk (req : CreateMachineRequest) (vm : string) (p : DiskPlacement) : CommandedDisk := {|
  cd_assignment_id := assignment_id_of vm (dp_disk_index p);
  cd_min_size_gib := dp_min_size_gib p; cd_pool := dp_pool p; cd_device_id := dp_device_id p;
  cd_disk_index := dp_disk_index p; cd_cluster_id := cm_cluster_id req;
  cd_purpose := disk_purpose_num (dp_purpose p) |}.

(** The command the agent gets. *)
Definition create_vm_command (req : CreateMachineRequest) (vm gateway : string) (cluster : ClusterRow)
    (p : VmPlacement) : ControllerCommand :=
  CreateVm vm {|
    cmd_vm_id := vm; cmd_name := cm_name req; cmd_cpu := cm_cpu req;
    cmd_memory_mib := cm_memory_mib req; cmd_disk_gib := cm_disk_gib req;
    cmd_image := cm_image req; cmd_bootstrap_data := cm_bootstrap_data req;
    cmd_ip_address := vm_ip_address (pl_vm p); cmd_gateway := gateway;
    cmd_prefix_len := as_u32 (c_prefix_len cluster); cmd_gpus := cm_gpus req;
    cmd_gpu_constraints := cm_gpu_constraints req; cmd_dns_servers := cc_dns_servers cfg;
    cmd_gpu_pci_addresses := map ga_pci_address (pl_gpu_assignments p);
    cmd_storage_disks := map (commanded_disk req vm) (pl_disk_placements p);
    cmd_cluster_id := cm_cluster_id req; cmd_vni := as_u32 (c_vni cluster) |}.

(** [register_pending_op]: a new waiter, nothing delivered yet. *)
Definition register_pending_op (vm host : string) : CtlM unit :=
  se_modify (fun s => set_resolved (delete vm)
                        (set_pending (<[vm := {| po_host_id := host |}]>) s)).

(** Bring the pair up, tell the hosts, enqueue the command and send it. *)
Definition dispatch (req : CreateMachineRequest) (vm : string) (cluster : ClusterRow) (later : string)
    (p : VmPlacement) : CtlM unit :=
  let host_id := vm_host_id (pl_vm p) in
  let cleanup := cleanup_failed_vm cfg vm (c_id cluster) host_id later in
  do! r <- se_try (db_call (ensure_host_cluster_active cluster host_id)) ;
  match r with
  | Err e => run! cleanup ; se_fail (db_status e)
  | Ok gateway =>
      run! broadcast_cluster cfg (c_id cluster) ;
      run! yield 10 ;
      do! agent <- se_gets (fun s => ctl_agents s !! host_id) ;
      match agent with
      | None => run! cleanup ; se_fail CodeUnavailable
      | Some a =>
          run! register_pending_op vm host_id ;
          let cmd := create_vm_command req vm gateway cluster p in
          do! q <- se_try (db_call (enqueue_pending_command host_id vm (encode_command cmd))) ;
          match q with
          | Err e =>
              run! se_modify (set_pending (delete vm)) ; run! cleanup ; se_fail (db_status e)
          | Ok outbox_id =>
              match send_to a cmd with
              | None =>
                  run! se_modify (set_pending (delete vm)) ; run! cleanup ; se_fail CodeUnavailable
              | Some a' =>
                  run! se_modify (set_agents (<[host_id := a']>)) ;
                  log_db (mark_command_sent outbox_id)
              end
          end
      end
  end.

(** What the wait on the oneshot ends with: the delivered result, the sender
    dropped, or the timer. *)
Inductive WaitOutcome :=
  | Delivered (r : result VmFailure unit)
  | Disconnected
  | TimedOut.

Definition wait_outcome (vm : string) (s : Ctl) : WaitOutcome :=
  match ctl_resolved s !! vm with
  | Some r => Delivered r
  | None => match ctl_pending s !! vm with Some _ => TimedOut | None => Disconnected end
  end.

(** The four ends of [create_machine]. *)
Definition finish_create (vm : string) (cluster_id host_id later : string) (w : WaitOutcome)
    : CtlM CreateMachineResponse :=
  match w with
  | Delivered (Ok _) =>
      do! row <- lift_db (get_vm vm) ; se_ret (vm_to_create_response row)
  | Delivered (Err failure) =>
      run! cleanup_failed_vm cfg vm cluster_id host_id later ;
      se_fail (if vf_transient failure then CodeUnavailable else CodeInternal)
  | Disconnected =>
      run! cleanup_failed_vm cfg vm cluster_id host_id later ; se_fail CodeInternal
  | TimedOut =>
      run! se_modify (set_pending (delete vm)) ;
      run! log_db (update_vm_state vm (machine_state_num Failed) "VM creation timed out (600s)" later) ;
      se_fail CodeDeadlineExceeded
  end.

(** Every requested disk has a resolved purpose. *)
Definition purposes_ok (req : CreateMachineRequest) : bool :=
  forallb (fun d => match disk_purpose_try_from (disk_purpose d) with
                    | Some Replicated | Some GenericData => true
                    | _ => false
                    end) (cm_storage_disks req).

(** [create_machine]. *)
Definition create_machine (peer : Peer) (req : CreateMachineRequest) (vm now later : string)
    : CtlM CreateMachineResponse :=
  run! se_of (require_capi_caller peer) ;
  if negb (purposes_ok req) then se_fail CodeInvalidArgument else
  do! cluster <- lift_db (get_cluster (cm_cluster_id req)) ;
  do! existing <- lift_db (get_vm_by_name (cm_cluster_id req) (cm_name req)) ;
  match existing with
  | Some row => se_ret (vm_to_create_response row)
  | None =>
      do! placed <- place_loop req vm cluster now MAX_SCHEDULE_ATTEMPTS 0 ;
      match placed with
      | inl row => se_ret (vm_to_create_response row)
      | inr p =>
          run! dispatch req vm cluster later p ;
          run! yield 11 ;
          do! w <- se_gets (wait_outcome vm) ;
          finish_create vm (c_id cluster) (vm_host_id (pl_vm p)) later w
      end
  end.

(** [initiate_vm_teardown] and [delete_machine]. *)
Definition initiate_vm_teardown (vm : VmRow) (now : string) : CtlM unit :=
  run! lift_db (mark_vm_pending_teardown (vm_id vm) now) ;
  run! lift_db (mark_host_cluster_pending_teardown (vm_cluster_id vm) (vm_host_id vm)) ;
  push_reconcile cfg (vm_host_id vm).

Definition delete_machine (peer : Peer) (id now : string) : CtlM unit :=
  run! se_of (require_capi_caller peer) ;
  do! r <- se_try (db_call (get_vm id)) ;
  match r with
  | Err (NotFound _) => se_ret tt
  | Err e => se_fail (db_status e)
  | Ok vm =>
      if negb (vm_state vm =? VM_STATE_PENDING_TEARDOWN) then initiate_vm_teardown vm now
      else push_reconcile cfg (vm_host_id vm)
  end.

(** [get_machine], [list_machines]. *)
Definition get_machine (peer : Peer) (id : string) : CtlM Machine :=
  run! se_of (require_capi_caller peer) ;
  do! vm <- lift_db (get_vm id) ;
  do! gpus <- lift_db (gpus_for_vm (vm_id vm)) ;
  se_of (vm_to_machine vm gpus).
Definition list_machines (peer : Peer) (cluster_id : string) : CtlM (list Machine) :=
  run! se_of (require_capi_caller peer) ;
  do! rows <- lift_db (list_vms (if cluster_id =$ "" then None else Some cluster_id)) ;
  do! gpus <- lift_db (gpus_for_vms (map vm_id rows)) ;
  se_map rows (fun v => se_of (vm_to_machine v (unwrap_or [] (gpus !! vm_id v)))).

(** [set_device_scheduling_state]. *)
Definition api_set_device_scheduling_state (peer : Peer) (host_id pool device_id state reason : string)
    : CtlM unit :=
  run! se_of (require_capi_caller peer) ;
  if (host_id =$ "") || (pool =$ "") || (device_id =$ "") then se_fail CodeInvalidArgument else
  lift_db (set_device_scheduling_state host_id pool device_id state
             (if reason =$ "" then None else Some reason)).
End api.
