(* ===== verification/Pools.v ===== *)
(** * The storage report of the [Basis] service

    [list_pools] (crates/basis-controller/src/server.rs): what the database
    holds of each host's pools and devices, joined with the operator's
    scheduling flags and the reservations, as the operator reads it. *)

From S2P Require Import Prelude Ipv4 Ipnet CidrNet Proto Config Overcommit DbTypes JsonText Ipam Clusters Hosts Vms Teardown Outbox Schema Scheduler Ctl Api.

(** The messages. *)
Record ClusterReservationCount := { crc_cluster_id : string; crc_count : Z }.
Record DeviceStatus := {
  ds_device_id : string;
  ds_total_bytes : Z;
  ds_free_bytes : Z;
  ds_physical : Z;
  ds_physical_reason : string;
  ds_scheduling_state : string;
  ds_scheduling_reason : string;
  ds_reservations : list ClusterReservationCount;
}.
Record PoolStatus := {
  ps_host_id : string;
  ps_pool : string;
  ps_backend : string;
  ps_labels : gmap string string;
  ps_configured_total_bytes : Z;
  ps_ready_total_bytes : Z;
  ps_schedulable_total_bytes : Z;
  ps_schedulable_free_bytes : Z;
  ps_pool_health : Z;
  ps_devices : list DeviceStatus;
}.

(** [Db::list_all_host_pools]: [ORDER BY host_id, pool]. *)
Definition pool_le (a b : HostPoolRow) : Prop :=
  (hp_host_id a <> hp_host_id b /\ String.le (hp_host_id a) (hp_host_id b)) \/
  (hp_host_id a = hp_host_id b /\ String.le (hp_pool a) (hp_pool b)).
#[global] Instance pool_le_dec a b : Decision (pool_le a b).
Proof. unfold pool_le. apply _. Defined.
Definition list_all_host_pools : DbM (list HostPoolRow) :=
  se_gets (fun db => merge_sort pool_le (host_pools db)).

(** The health of a device as its row records it. *)
Definition row_health (d : HostPoolDeviceRow) : DevicePhysicalHealth :=
  device_health_from_db_str (hpd_physical d).

(** One device of the report: its row, its flag and what is reserved on it. *)
Definition device_status (drain : option DeviceSchedulingStateRow) (counts : list (string * Z))
    (d : HostPoolDeviceRow) : DeviceStatus := {|
  ds_device_id := hpd_device_id d;
  ds_total_bytes := as_u64 (hpd_total_bytes d);
  ds_free_bytes := as_u64 (hpd_free_bytes d);
  ds_physical := device_health_num (row_health d);
  ds_physical_reason := hpd_physical_reason d;
  ds_scheduling_state := match drain with Some r => dss_state r | None => "enabled" end;
  ds_scheduling_reason := unwrap_or "" (match drain with Some r => dss_reason r | None => None end);
  ds_reservations := map (fun '(c, n) => {| crc_cluster_id := c; crc_count := as_u32 n |}) counts |}.

(** The roll-up of a pool. *)
Definition pool_health (devices : list HostPoolDeviceRow) : PoolHealthState :=
  let ready := as_u32 (count_where (fun d => bool_decide (row_health d = DeviceHealthReady)) devices) in
  let unhealthy := as_u32 (count_where (fun d => negb (bool_decide (row_health d = DeviceHealthReady))) devices) in
  match devices with
  | [] => PoolHealthUnhealthy
  | _ =>
      if ready =? as_u32 (Z.of_nat (length devices)) then PoolHealthReady
      else if (ready =? 0) && (0 <? unhealthy) then PoolHealthUnhealthy
      else PoolHealthDegraded
  end.

Section pools.
Context `{J : DbJson}.

(** [list_pools]. *)
Definition pool_status (pool : HostPoolRow) : CtlM PoolStatus :=
  do! devices <- lift_db (list_pool_devices (hp_host_id pool) (hp_pool pool)) ;
  do! drains <- lift_db (host_drain_markers (hp_host_id pool)) ;
  do! statuses <- se_map devices (fun d =>
    do! counts <- lift_db (cluster_counts_on_device (hp_host_id pool) (hp_pool pool) (hpd_device_id d)) ;
    se_ret (device_status (drains !! (hp_pool pool, hpd_device_id d)) counts d)) ;
  se_ret {| ps_host_id := hp_host_id pool; ps_pool := hp_pool pool; ps_backend := hp_backend pool;
            ps_labels := unwrap_or ∅ (labels_of_json (hp_labels pool));
            ps_configured_total_bytes := as_u64 (hp_configured_total_bytes pool);
            ps_ready_total_bytes := as_u64 (hp_ready_total_bytes pool);
            ps_schedulable_total_bytes := as_u64 (hp_schedulable_total_bytes pool);
            ps_schedulable_free_bytes := as_u64 (hp_schedulable_free_bytes pool);
            ps_pool_health := pool_health_num (pool_health devices);
            ps_devices := statuses |}.
Definition list_pools (peer : Peer) (host_id : string) : CtlM (list PoolStatus) :=
  run! se_of (require_capi_caller peer) ;
  do! rows <- lift_db (if host_id =$ "" then list_all_host_pools else list_host_pools host_id) ;
  se_map rows pool_status.

(** ** What is reported *)

(** The device rows of a pool, in the order of the report. *)
Definition devices_of (pool : HostPoolRow) (db : Db) : list HostPoolDeviceRow :=
  merge_sort device_le (select (fun r => (hpd_host_id r =$ hp_host_id pool) && (hpd_pool r =$ hp_pool pool))
                               (host_pool_devices db)).

Lemma lift_db_gets {A} (f : Db -> A) s : lift_db (se_gets f) s = (s, Ok (f (ctl_db s))).
Proof. by destruct s. Qed.

Lemma se_map_pure {S E A B} (f : A -> SE S E B) (g : A -> B) l (s : S) :
  (forall x, f x s = (s, Ok (g x))) -> se_map l f s = (s, Ok (map g l)).
Proof.
  intros Hf. induction l as [|x l IH]; [done|]. simpl. unfold se_bind. by rewrite Hf, IH.
Qed.

(** A pool's report is a function of the database; making it changes nothing. *)
Definition device_report (db : Db) (pool : HostPoolRow) (d : HostPoolDeviceRow) : DeviceStatus :=
  device_status (select1 (at_device (hp_host_id pool) (hp_pool pool) (hpd_device_id d)) (device_scheduling_state db))
    (cluster_counts (hp_host_id pool) (hp_pool pool) (hpd_device_id d) db) d.
Definition pool_report (db : Db) (pool : HostPoolRow) : PoolStatus := {|
  ps_host_id := hp_host_id pool; ps_pool := hp_pool pool; ps_backend := hp_backend pool;
  ps_labels := unwrap_or ∅ (labels_of_json (hp_labels pool));
  ps_configured_total_bytes := as_u64 (hp_configured_total_bytes pool);
  ps_ready_total_bytes := as_u64 (hp_ready_total_bytes pool);
  ps_schedulable_total_bytes := as_u64 (hp_schedulable_total_bytes pool);
  ps_schedulable_free_bytes := as_u64 (hp_schedulable_free_bytes pool);
  ps_pool_health := pool_health_num (pool_health (devices_of pool db));
  ps_devices := map (device_report db pool) (devices_of pool db) |}.

Lemma pool_status_run pool s : pool_status pool s = (s, Ok (pool_report (ctl_db s) pool)).
Proof.
  unfold pool_status, se_bind at 1. unfold list_pool_devices. rewrite lift_db_gets.
  unfold se_bind at 1. unfold host_drain_markers at 1. rewrite lift_db_gets.
  fold (devices_of pool (ctl_db s)). unfold se_bind at 1.
  rewrite (se_map_pure _ (device_report (ctl_db s) pool)); [reflexivity|].
  intros d. unfold se_bind, cluster_counts_on_device. rewrite lift_db_gets.
  unfold device_report. by rewrite <- marker_lookup.
Qed.

Lemma list_pools_run host_id s :
  list_pools (PeerNamed CAPI_PROVIDER_IDENTITY) host_id s =
    (s, Ok (map (pool_report (ctl_db s))
              (if host_id =$ "" then merge_sort pool_le (host_pools (ctl_db s))
               else select (fun r => hp_host_id r =$ host_id) (host_pools (ctl_db s))))).
Proof.
  unfold list_pools, se_bind at 1. change (se_of _ s) with (s, Ok tt : result Code unit). unfold se_bind.
  destruct (host_id =$ ""); unfold list_all_host_pools, list_host_pools; rewrite lift_db_gets;
    apply se_map_pure; intros; apply pool_status_run.
Qed.
End pools.

(** ** The roll-up *)

Lemma count_where_split {A} (p : A -> bool) l :
  count_where p l + count_where (fun x => negb (p x)) l = Z.of_nat (length l).
Proof. unfold count_where, select. induction l as [|x l IH]; simpl; [done|]. destruct (p x); simpl; lia. Qed.

Lemma count_where_all {A} (p : A -> bool) l :
  count_where p l = Z.of_nat (length l) <-> forall x, x ∈ l -> p x = true.
Proof.
  split.
  - intros H x Hx. destruct (p x) eqn:E; [done|]. pose proof (count_where_split p l) as Hs.
    assert (count_where (fun y => negb (p y)) l = 0) as H0 by lia.
    rewrite count_where_zero in H0. specialize (H0 x Hx). by rewrite E in H0.
  - intros H. pose proof (count_where_split p l).
    assert (count_where (fun y => negb (p y)) l = 0); [|lia].
    apply count_where_zero. intros x Hx. by rewrite H.
Qed.

(** With fewer devices than a [u32] counts, a pool is ready when it has devices
    and all are, unhealthy when none is, degraded in between. *)
Lemma pool_health_spec devices :
  Z.of_nat (length devices) < 2 ^ 32 ->
  let ready d := row_health d = DeviceHealthReady in
  (pool_health devices = PoolHealthReady <-> devices <> [] /\ forall d, d ∈ devices -> ready d) /\
  (pool_health devices = PoolHealthUnhealthy <-> forall d, d ∈ devices -> ~ ready d) /\
  pool_health devices <> PoolHealthUnspecified.
Proof.
  intros Hl ready. unfold pool_health.
  set (p := fun d => bool_decide (row_health d = DeviceHealthReady)).
  change (fun d => negb (bool_decide (row_health d = DeviceHealthReady))) with (fun d => negb (p d)).
  pose proof (count_where_split p devices) as Hs. pose proof (count_where_all p devices) as Ha.
  pose proof (count_where_zero p devices) as Hz.
  assert (0 <= count_where p devices) by (unfold count_where; lia).
  assert (0 <= count_where (fun d => negb (p d)) devices) by (unfold count_where; lia).
  assert (forall d, p d = true <-> ready d) as Hp by (intros d; apply bool_decide_eq_true).
  assert (forall d, p d = false <-> ~ ready d) as Hp' by (intros d; apply bool_decide_eq_false).
  setoid_rewrite Hp in Ha. setoid_rewrite Hp' in Hz.
  rewrite !as_u32_small by (unfold is_u32; lia). destruct devices as [|d0 devices].
  { split_and!; [by split; [|intros [? _]]|split; [intros _ d Hd; by apply not_elem_of_nil in Hd|done]|done]. }
  destruct (_ =? _) eqn:E1; [apply Z.eqb_eq in E1 | apply Z.eqb_neq in E1].
  - split_and!; [naive_solver| |done]. split; [done|]. intros Hn.
    exfalso. apply (Hn d0); [left|]. by apply Ha; [|left].
  - destruct (_ && _) eqn:E2.
    + apply andb_true_iff in E2 as [E2%Z.eqb_eq E3%Z.ltb_lt]. split_and!; naive_solver.
    + apply andb_false_iff in E2. rewrite Z.eqb_neq, Z.ltb_ge in E2. simpl length in *. split_and!.
      * naive_solver.
      * split; [done|]. intros Hn. apply Hz in Hn. lia.
      * done.
Qed.

(** ** A heartbeat and the report of it *)

Lemma u64_via_i64 x : 0 <= x < 2 ^ 64 -> as_u64 (as_i64 x) = x.
Proof.
  intros Hx. unfold as_u64, as_i64. rewrite Zminus_mod, Zmod_mod, <- Zminus_mod.
  replace (x + 2 ^ 63 - 2 ^ 63) with x by lia. by apply Z.mod_small.
Qed.

Lemma select_app {A} (p : A -> bool) t1 t2 : select p (t1 ++ t2) = select p t1 ++ select p t2.
Proof. apply List.filter_app. Qed.
Lemma select_all {A} (p : A -> bool) t : (forall r, r ∈ t -> p r = true) -> select p t = t.
Proof.
  induction t as [|r t IH]; intros H; [done|]. simpl. rewrite H by left. f_equal. apply IH. set_solver.
Qed.
Lemma select_none {A} (p : A -> bool) t : (forall r, r ∈ t -> p r = false) -> select p t = [].
Proof.
  induction t as [|r t IH]; intros H; [done|]. simpl. rewrite H by left. apply IH. set_solver.
Qed.

Section heartbeat.
Context `{L : DbJsonLaws}.

(** The devices a report names, as the database holds them. *)
Lemma select_report_rows host reported p :
  NoDup (map pcap_pool reported) -> p ∈ reported ->
  select (fun r => (hpd_host_id r =$ host) && (hpd_pool r =$ pcap_pool p)) (report_rows host reported) =
  map (pool_device_row host (pcap_pool p)) (pcap_devices p).
Proof.
  induction reported as [|q reported IH]; intros Hnd Hp; [by apply not_elem_of_nil in Hp|].
  cbn [map] in Hnd. apply NoDup_cons in Hnd as [Hq Hnd].
  change (report_rows host (q :: reported))
    with (map (pool_device_row host (pcap_pool q)) (pcap_devices q) ++ report_rows host reported).
  rewrite select_app. apply elem_of_cons in Hp as [->|Hp].
  - rewrite select_all, select_none; [by rewrite app_nil_r| |].
    + intros r Hr. apply list_elem_of_bind in Hr as (p' & Hr & Hp').
      apply list_elem_of_fmap in Hr as (d & -> & _). simpl. apply andb_false_iff. right.
      apply String.eqb_neq. intros E. apply Hq. rewrite <- E. apply list_elem_of_fmap. by exists p'.
    + intros r (d & -> & _)%list_elem_of_fmap. simpl. by rewrite !String.eqb_refl.
  - rewrite IH by done. rewrite select_none; [done|].
    intros r (d & -> & _)%list_elem_of_fmap. simpl. apply andb_false_iff. right.
    apply String.eqb_neq. intros E. apply Hq. rewrite E. apply list_elem_of_fmap. by exists p.
Qed.

(** The wire's numbers fit their widths. *)
Definition report_typed (p : PoolCapacity) : Prop :=
  let u64 x := 0 <= x < 2 ^ 64 in
  u64 (pcap_configured_total_bytes p) /\ u64 (pcap_ready_total_bytes p) /\
  u64 (pcap_schedulable_total_bytes p) /\ u64 (pcap_schedulable_free_bytes p) /\
  Z.of_nat (length (pcap_devices p)) < 2 ^ 32 /\
  Forall (fun d => u64 (dc_total_bytes d) /\ u64 (dc_free_bytes d)) (pcap_devices p).

Definition reported_health (d : DeviceCapacity) : DevicePhysicalHealth :=
  unwrap_or DeviceHealthUnspecified (device_health_try_from (dc_physical d)).

(** A pool as it was reported and as it is listed. *)
Definition shows (host : string) (p : PoolCapacity) (st : PoolStatus) : Prop :=
  ps_host_id st = host /\ ps_pool st = pcap_pool p /\ ps_backend st = pcap_backend p /\
  ps_labels st = pcap_labels p /\
  ps_configured_total_bytes st = pcap_configured_total_bytes p /\
  ps_ready_total_bytes st = pcap_ready_total_bytes p /\
  ps_schedulable_total_bytes st = pcap_schedulable_total_bytes p /\
  ps_schedulable_free_bytes st = pcap_schedulable_free_bytes p /\
  map (fun d => (ds_device_id d, ds_total_bytes d, ds_free_bytes d, ds_physical d, ds_physical_reason d))
      (ps_devices st) ≡ₚ
  map (fun d => (dc_device_id d, dc_total_bytes d, dc_free_bytes d, device_health_num (reported_health d),
                 dc_physical_reason d)) (pcap_devices p) /\
  (ps_pool_health st = pool_health_num PoolHealthReady <->
     pcap_devices p <> [] /\ forall d, d ∈ pcap_devices p -> reported_health d = DeviceHealthReady) /\
  (ps_pool_health st = pool_health_num PoolHealthUnhealthy <->
     forall d, d ∈ pcap_devices p -> reported_health d <> DeviceHealthReady).

Lemma row_health_reported host pool d : row_health (pool_device_row host pool d) = reported_health d.
Proof. apply device_health_db_roundtrip. Qed.

Lemma pool_health_num_inj a b : pool_health_num a = pool_health_num b <-> a = b.
Proof. by destruct a, b. Qed.

Lemma pool_report_shows host now cap reported db p :
  NoDup (map pcap_pool reported) -> p ∈ reported -> report_typed p ->
  shows host p (pool_report (heartbeat_db host now cap reported db) (host_pool_row host p)).
Proof.
  intros Hnd Hp (U1 & U2 & U3 & U4 & Hlen & Hdev). set (db' := heartbeat_db _ _ _ _ _).
  set (rows := map (pool_device_row host (pcap_pool p)) (pcap_devices p)).
  assert (devices_of (host_pool_row host p) db' ≡ₚ rows) as Hrows.
  { unfold devices_of. rewrite (merge_sort_Permutation device_le). subst db'. unfold heartbeat_db.
    destruct db; simpl. rewrite select_app, select_report_rows by done. rewrite select_none; [done|].
    intros r [_ Hr]%elem_of_delete_where. by rewrite Hr. }
  assert (forall d, d ∈ devices_of (host_pool_row host p) db' <->
                    exists c, d = pool_device_row host (pcap_pool p) c /\ c ∈ pcap_devices p) as Hin.
  { intros d. rewrite Hrows. subst rows. rewrite list_elem_of_fmap. done. }
  destruct (pool_health_spec (devices_of (host_pool_row host p) db')) as (Hr & Hu & _).
  { rewrite Hrows. subst rows. by rewrite length_map. }
  unfold shows, pool_report. cbn [ps_host_id ps_pool ps_backend ps_labels ps_configured_total_bytes
    ps_ready_total_bytes ps_schedulable_total_bytes ps_schedulable_free_bytes ps_devices ps_pool_health].
  split_and!; try done; try by apply u64_via_i64.
  - simpl. by rewrite labels_roundtrip.
  - rewrite map_map. unfold device_report. rewrite Hrows. subst rows. rewrite map_map. simpl.
    erewrite map_ext_in; [reflexivity|]. intros d Hd%list_elem_of_In.
    rewrite Forall_forall in Hdev. destruct (Hdev d Hd). by rewrite row_health_reported, !u64_via_i64.
  - rewrite pool_health_num_inj, Hr. setoid_rewrite Hin. split.
    + intros [Hne Ha]. split; [|intros d Hd; rewrite <- (row_health_reported host (pcap_pool p)); eauto].
      intros E. apply Hne. destruct (devices_of _ _) as [|d l]; [done|].
      destruct (proj1 (Hin d)) as (c & _ & Hc); [left|]. rewrite E in Hc. by apply not_elem_of_nil in Hc.
    + intros [Hne Ha]. split; [|intros d (c & -> & Hc); rewrite row_health_reported; by apply Ha].
      intros E. apply Hne. rewrite E in Hrows. subst rows. apply Permutation_nil in Hrows.
      by destruct (pcap_devices p).
  - rewrite pool_health_num_inj, Hu. setoid_rewrite Hin. split.
    + intros Ha d Hd. rewrite <- (row_health_reported host (pcap_pool p)). eauto.
    + intros Ha d (c & -> & Hc). rewrite row_health_reported. by apply Ha.
Qed.

End heartbeat.
