(* ===== verification/Agent.v ===== *)
(** * The agent-facing service (crates/basis-controller/src/server.rs, host.rs)

    The life of an agent's stream: registration with the two-way inventory
    diff and the replay of the outbox, the messages an agent sends, the
    periodic push, the end of the stream. And the health checker that fails
    hosts whose heartbeat went stale. *)

From S2P Require Import Prelude Ipv4 Ipnet CidrNet Proto Config Overcommit DbTypes JsonText Ipam Clusters Hosts Vms Teardown Outbox Schema Scheduler Ctl Api.

Record RegisterHostRequest := {
  rg_hostname : string;
  rg_total_cpu : Z;
  rg_total_memory_mib : Z;
  rg_storage_capacity : option StorageCapacity;
  rg_gpus : list GpuInfo;
  rg_vtep_address : string;
  rg_rank : Z;
  rg_labels : gmap string string;
  rg_current_inventory : option HostInventory;
}.

Record VmStateReport := {
  vr_vm_id : string;
  vr_state : Z;
  vr_error_message : string;
  vr_transient : bool;
}.

(** The payloads of [AgentMessage]. *)
Inductive AgentMessage :=
  | MsgRegister (r : RegisterHostRequest)
  | MsgHeartbeat (cap : option StorageCapacity)
  | MsgVmState (r : VmStateReport)
  | MsgTombstoneAck (vnis : list Z) (ids : list string)
  | MsgDiskAssignment (a : option DiskAssignment)
  | MsgNone.

Section agent.
Context `{J : DbJson} `{P : Prost}.
Variable cfg : CtlConfig.

(** ** Registration *)

(** The row a registration writes. *)
Definition registered_host (r : RegisterHostRequest) (host_id now : string) : HostRow :=
  let cap := from_option from_proto capacity_default (rg_storage_capacity r) in {|
  h_id := host_id; h_hostname := rg_hostname r;
  h_total_cpu := rg_total_cpu r; h_total_memory_mib := as_i64 (rg_total_memory_mib r);
  h_rootfs_total_bytes := rootfs_total_bytes cap; h_rootfs_free_bytes := rootfs_free_bytes cap;
  h_rootfs_metadata_total_bytes := rootfs_metadata_total_bytes cap;
  h_rootfs_metadata_free_bytes := rootfs_metadata_free_bytes cap;
  h_data_total_bytes := data_total_bytes cap; h_data_free_bytes := data_free_bytes cap;
  h_gpu_inventory := rg_gpus r; h_vtep_address := rg_vtep_address r;
  h_last_heartbeat := now; h_healthy := true; h_rank := rg_rank r; h_labels := rg_labels r |}.

(** [register_or_lookup_host]: [uuid] is used for a hostname never seen. *)
Definition register_or_lookup_host (r : RegisterHostRequest) (uuid now : string) : CtlM string :=
  do! known <- lift_internal (get_host_by_hostname (rg_hostname r)) ;
  let host_id := match known with Some h => h_id h | None => uuid end in
  run! lift_internal (upsert_host (registered_host r host_id now)) ;
  se_ret host_id.

(** The state the acknowledgement carries: the inventory is diffed in both
    directions and the command rebuilt after the reaping. *)
Definition initial_reconcile (host_id now : string) (inventory : option HostInventory)
    : CtlM ReconcileHostCommand :=
  do! first <- lift_internal (build_reconcile_command cfg host_id) ;
  match inventory with
  | None => se_ret first
  | Some inv =>
      run! lift_internal (extend_with_orphan_tombstones cfg host_id inv first) ;
      run! se_map_err (fun _ => CodeInternal) (reap_db_orphans_from_inventory cfg host_id now inv) ;
      do! again <- lift_internal (build_reconcile_command cfg host_id) ;
      lift_internal (extend_with_orphan_tombstones cfg host_id inv again)
  end.

Definition CHANNEL_CAPACITY : nat := 32.

(** How the call ends: the response stream is handed out, or the call waits
    for room in a channel nobody reads yet. *)
Inductive StreamOpen :=
  | Serving (host_id : string) (epoch : Z)
  | Blocked (host_id : string).

Definition more (cmds : list ControllerCommand) (a : ConnectedAgent) : ConnectedAgent :=
  {| ag_epoch := ag_epoch a; ag_open := ag_open a; ag_sent := ag_sent a ++ cmds |}.
Definition push_sent (host_id : string) (cmd : ControllerCommand) : Ctl -> Ctl :=
  set_agents (alter (more [cmd]) host_id).

(** The outbox replay into a channel with [room] free slots; [false] when it
    waits for room. *)
Fixpoint replay (host_id : string) (rows : list (Z * list Byte.byte)) (room : nat) : CtlM bool :=
  match rows with
  | [] => se_ret true
  | (id, payload) :: rest =>
      match decode_command payload, room with
      | None, _ => replay host_id rest room
      | Some cmd, O => se_ret false
      | Some cmd, Datatypes.S room' =>
          run! se_modify (push_sent host_id cmd) ;
          run! log_db (mark_command_sent id) ;
          replay host_id rest room'
      end
  end.

(** [stream_messages] up to its response. [first] is the first item of the
    inbound stream, if any. *)
Definition stream_messages (peer : Peer) (first : option (option AgentMessage)) (uuid now : string)
    : CtlM StreamOpen :=
  do! peer_id <- se_of (peer_identity peer) ;
  if peer_id =$ CAPI_PROVIDER_IDENTITY then se_fail CodePermissionDenied else
  match first with
  | None => se_fail CodeInvalidArgument
  | Some None => se_fail CodeInternal
  | Some (Some (MsgRegister r)) =>
      if peer_id <>$ rg_hostname r then se_fail CodePermissionDenied else
      do! host_id <- register_or_lookup_host r uuid now ;
      do! initial <- initial_reconcile host_id now (rg_current_inventory r) ;
      do! epoch <- next_agent_epoch ;
      let ack := RegisterAck {| rr_host_id := host_id; rr_initial_state := initial;
                                rr_bgp_asn := cc_bgp_asn cfg;
                                rr_bgp_reflector_address := cc_bgp_router_id cfg |} in
      run! se_modify (set_agents (<[host_id := {| ag_epoch := epoch; ag_open := true;
                                                  ag_sent := [ack] |}]>)) ;
      do! pending <- lift_db (list_pending_commands host_id) ;
      do! done <- replay host_id pending (pred CHANNEL_CAPACITY) ;
      se_ret (if done then Serving host_id epoch else Blocked host_id)
  | Some (Some _) => se_fail CodeInvalidArgument
  end.

(** One tick of the periodic push, on the channel of the stream [epoch]. *)
Definition reconcile_tick (host_id : string) (epoch : Z) (s : Ctl) : Ctl :=
  let '(db', r) := build_reconcile_command cfg host_id (ctl_db s) in
  let s := set_db (fun _ => db') s in
  match r, ctl_agents s !! host_id with
  | Ok cmd, Some a =>
      if ag_epoch a =? epoch then
        match send_to a (ReconcileHost cmd) with
        | Some a' => set_agents (<[host_id := a']>) s
        | None => s
        end
      else s
  | _, _ => s
  end.

(** ** Messages *)

(** Resolve the [CreateMachine] waiting for this VM; [false] when the waiter
    belongs to another host. *)
Definition resolve_waiter (host_id : string) (r : VmStateReport) (state : MachineState) (s : Ctl)
    : Ctl * bool :=
  match ctl_pending s !! vr_vm_id r with
  | Some op =>
      if po_host_id op <>$ host_id then (s, false)
      else
        let result := if decide (state = Failed)
                      then Err {| vf_message := vr_error_message r; vf_transient := vr_transient r |}
                      else Ok tt in
        (set_resolved (<[vr_vm_id r := result]>) (set_pending (delete (vr_vm_id r)) s), true)
  | None => (s, true)
  end.

Definition handle_vm_state (host_id : string) (r : VmStateReport) (now : string)
    : SE Ctl DbError unit :=
  let state := machine_state_of (vr_state r) in
  do! prev <- se_try (db_call (get_vm (vr_vm_id r))) ;
  match prev with
  | Err (NotFound _) => se_ret tt
  | Err e => se_fail e
  | Ok prev =>
      if vm_host_id prev <>$ host_id then se_ret tt else
      run! (if negb (vm_state prev =? VM_STATE_PENDING_TEARDOWN)
            then db_call (update_vm_state (vr_vm_id r) (machine_state_num state)
                            (vr_error_message r) now)
            else se_ret tt) ;
      if decide (state = Running \/ state = Failed) then
        do! mine <- (fun s => let '(s', b) := resolve_waiter host_id r state s in (s', Ok b)) ;
        if mine : bool then log_db (ack_pending_commands_for_vm (vr_vm_id r)) else se_ret tt
      else se_ret tt
  end.

(** [handle_agent_message]. *)
Definition handle_agent_message (host_id : string) (msg : AgentMessage) (now : string)
    : SE Ctl DbError unit :=
  match msg with
  | MsgHeartbeat cap =>
      db_call (record_heartbeat host_id now (from_option from_proto capacity_default cap)
                 (from_option sc_pools [] cap))
  | MsgVmState r => handle_vm_state host_id r now
  | MsgTombstoneAck vnis ids => log_db (ack_tombstones host_id vnis ids)
  | MsgRegister _ => se_ret tt
  | MsgDiskAssignment (Some a) => log_db (commit_disk_assignment host_id a)
  | MsgDiskAssignment None => se_ret tt
  | MsgNone => se_ret tt
  end.
End agent.

(** ** Host health *)

Definition HOST_STALE_VM_REASON : string :=
  "host heartbeat stale — VM presumed lost, replace via CAPI reconcile".

(** One tick of [host_health_checker]: [cutoff] is now minus four minutes. *)
Definition health_tick (cutoff now : string) (s : Ctl) : Ctl :=
  let '(db', r) := mark_stale_hosts_unhealthy cutoff (ctl_db s) in
  let s := set_db (fun _ => db') s in
  match r with
  | Err _ => s
  | Ok stale => fst (se_for (E:=DbError) stale (fun h =>
                       log_db (mark_vms_failed_on_host h HOST_STALE_VM_REASON now)) s)
  end.
