(* ===== verification/Service.v ===== *)
(** * Theorems on the controller's services

    What holds of [Ctl], [Api] and [Agent] together: the database invariant
    under every handler and every interleaving, no leak of addresses on any
    failure path, streams and waiters, and the places where a handler does not
    do what its documentation says. *)

From S2P Require Import Prelude Ipv4 Ipnet CidrNet Proto Config Overcommit DbTypes JsonText Ipam Clusters Hosts Vms Teardown Outbox Schema Scheduler Ctl Wire Api Agent.

(** ** The database invariant at the level of the services *)

(** [on_db R]: the database satisfies [R]. *)
Definition on_db (R : Db -> Prop) (s : Ctl) : Prop := R (ctl_db s).

Lemma keeps_db_call (R : Db -> Prop) {A} (m : DbM A) : keeps R m -> keeps (on_db R) (db_call m).
Proof.
  intros H s Hs. unfold db_call. specialize (H (ctl_db s) Hs). by destruct (m (ctl_db s)).
Qed.
Lemma keeps_lift_db (R : Db -> Prop) {A} (m : DbM A) : keeps R m -> keeps (on_db R) (lift_db m).
Proof. intros H. apply keeps_map_err. by apply keeps_db_call. Qed.
Lemma keeps_lift_internal (R : Db -> Prop) {A} (m : DbM A) :
  keeps R m -> keeps (on_db R) (lift_internal m).
Proof. intros H. apply keeps_map_err. by apply keeps_db_call. Qed.
Lemma keeps_log_db (R : Db -> Prop) {E A} (m : DbM A) :
  keeps R m -> keeps (on_db R) (log_db (E:=E) m).
Proof.
  intros H. apply keeps_bind; [|intros; apply keeps_ret]. apply keeps_try. by apply keeps_db_call.
Qed.
#[export] Hint Resolve keeps_db_call keeps_lift_db keeps_lift_internal keeps_log_db : basis.

(** [keep] walks through a handler: it opens binds and branches and closes
    the calls with the lemmas of the database [basis]. *)
Ltac keep :=
  repeat first
    [ progress intros
    | solve [auto 2 with basis]
    | progress cbn beta zeta
    | match goal with
      | |- keeps _ (match ?x with _ => _ end) => destruct x
      | |- keeps _ (let '(_, _) := ?x in _) => destruct x
      end
    | apply keeps_bind | apply keeps_for | apply keeps_map | apply keeps_try | apply keeps_map_err
    | apply keeps_db_call | apply keeps_lift_db | apply keeps_lift_internal | apply keeps_log_db
    | apply keeps_modify
    | solve [apply keeps_read; intros; reflexivity] ].

Section reconcile_wf.
Variable cfg : CtlConfig.

Lemma pres_build_reconcile_command host : preserves (build_reconcile_command cfg host).
Proof.
  unfold build_reconcile_command, carried_state, ghost_state, visibility_of, pool_of. keep.
Qed.

Lemma wf_push_reconcile {E} host : keeps (on_db db_wf) (push_reconcile cfg (E:=E) host).
Proof.
  intros s Hs. unfold push_reconcile. pose proof (pres_build_reconcile_command host _ Hs) as H.
  destruct (build_reconcile_command cfg host (ctl_db s)) as [db' [cmd|e]]; simpl in *; [|done].
  destruct (ctl_agents s !! host) as [a|]; [|done]. by destruct (send_to a _).
Qed.
Hint Resolve wf_push_reconcile : basis.

Lemma wf_broadcast_cluster {E} c : keeps (on_db db_wf) (broadcast_cluster cfg (E:=E) c).
Proof. unfold broadcast_cluster. keep. Qed.

Lemma wf_cleanup_failed_vm {E} vm c h now :
  keeps (on_db db_wf) (cleanup_failed_vm cfg (E:=E) vm c h now).
Proof. unfold cleanup_failed_vm. keep. Qed.
Hint Resolve wf_cleanup_failed_vm : basis.

Lemma wf_reap h now inv : keeps (on_db db_wf) (reap_db_orphans_from_inventory cfg h now inv).
Proof. unfold reap_db_orphans_from_inventory. keep. Qed.
End reconcile_wf.
#[export] Hint Resolve pres_build_reconcile_command wf_push_reconcile wf_broadcast_cluster
  wf_cleanup_failed_vm wf_reap : basis.

(** The other tasks keep the invariant. *)
Definition env_wf (env : nat -> Ctl -> Ctl) : Prop := forall n s, on_db db_wf s -> on_db db_wf (env n s).

Section api_wf.
Context `{I : Ipnet} `{J : DbJson} `{S : Sqlite} `{HO : HashOrder} `{P : Prost}.
Variable cfg : CtlConfig.
Variable env : nat -> Ctl -> Ctl.
Hypothesis Henv : env_wf env.

Lemma wf_yield {E} n : keeps (on_db db_wf) (yield env (E:=E) n).
Proof. apply keeps_modify. intros s. apply Henv. Qed.
Hint Resolve wf_yield : basis.

Lemma wf_create_cluster_attempt req vis pool count id now n :
  keeps (on_db db_wf) (create_cluster_attempt cfg env req vis pool count id now n).
Proof.
  assert (forall A c (m : CtlM A), keeps (on_db db_wf) m -> keeps (on_db db_wf) (or_rollback c m)) as Hr.
  { intros A c m Hm s Hs. unfold or_rollback. specialize (Hm s Hs).
    destruct (m s) as [s1 [a|e]]; [done|]. revert Hm. apply keeps_bind; keep. }
  unfold create_cluster_attempt, allocate_apiserver_vip, api_allocate_service_block.
  keep; apply Hr; keep.
Qed.
Hint Resolve wf_create_cluster_attempt : basis.

Lemma wf_create_cluster peer req uuids nows :
  keeps (on_db db_wf) (create_cluster cfg env peer req uuids nows).
Proof.
  assert (forall vis pool count fuel n,
    keeps (on_db db_wf) (create_cluster_loop cfg env req vis pool count uuids nows fuel n)) as Hl.
  { intros vis pool count. induction fuel as [|fuel IH]; intros n; simpl; keep. }
  unfold create_cluster, refresh_trust_domain. keep; try apply Hl.
Qed.

Lemma host_usage_snapshot_read db : fst (host_usage_snapshot db) = db.
Proof. unfold host_usage_snapshot. by destruct (collect_sums _ _). Qed.
Lemma pres_host_usage_snapshot : preserves host_usage_snapshot.
Proof. apply keeps_read, host_usage_snapshot_read. Qed.
Hint Resolve pres_host_usage_snapshot : basis.

Lemma wf_try_place_vm req vm c now n : keeps (on_db db_wf) (try_place_vm cfg env req vm c now n).
Proof. unfold try_place_vm, pick_host, host_view. keep. Qed.
Hint Resolve wf_try_place_vm : basis.

Lemma wf_dispatch req vm c later p : keeps (on_db db_wf) (dispatch cfg env req vm c later p).
Proof. unfold dispatch, register_pending_op. keep; done. Qed.
Hint Resolve wf_dispatch : basis.

Lemma wf_create_machine peer req vm now later :
  keeps (on_db db_wf) (create_machine cfg env peer req vm now later).
Proof.
  assert (forall c fuel n, keeps (on_db db_wf) (place_loop cfg env req vm c now fuel n)) as Hl.
  { intros c. induction fuel as [|fuel IH]; intros n; simpl; keep; apply IH. }
  unfold create_machine, finish_create. keep; try apply Hl; done.
Qed.

Lemma wf_api_delete_cluster peer c now : keeps (on_db db_wf) (api_delete_cluster cfg peer c now).
Proof. unfold api_delete_cluster. keep. Qed.
Lemma wf_delete_machine peer id now : keeps (on_db db_wf) (delete_machine cfg peer id now).
Proof. unfold delete_machine, initiate_vm_teardown. keep. Qed.
Lemma wf_api_set_device_scheduling_state peer h p d st r :
  keeps (on_db db_wf) (api_set_device_scheduling_state peer h p d st r).
Proof. unfold api_set_device_scheduling_state. keep. Qed.
End api_wf.

Section agent_wf.
Context `{J : DbJson} `{P : Prost}.
Variable cfg : CtlConfig.

Lemma wf_replay host rows room : keeps (on_db db_wf) (replay host rows room).
Proof.
  revert room. induction rows as [|[id payload] rows IH]; intros room; simpl; keep; try apply IH; done.
Qed.
Hint Resolve wf_replay : basis.

Lemma wf_stream_messages peer first uuid now :
  keeps (on_db db_wf) (stream_messages cfg peer first uuid now).
Proof.
  unfold stream_messages, register_or_lookup_host, initial_reconcile, extend_with_orphan_tombstones,
    next_agent_epoch. keep; try done.
  3: by intros s Hs.
  all: apply keeps_read; intros db; unfold orphan_vm; by repeat gmatch.
Qed.

Lemma wf_reconcile_tick host epoch s :
  on_db db_wf s -> on_db db_wf (reconcile_tick cfg host epoch s).
Proof.
  intros Hs. unfold reconcile_tick. pose proof (pres_build_reconcile_command cfg host _ Hs) as H.
  destruct (build_reconcile_command cfg host (ctl_db s)) as [db' [cmd|e]]; simpl in *; [|done].
  destruct (ctl_agents s !! host) as [a|]; [|done].
  destruct (_ =? _); [|done]. by destruct (send_to a _).
Qed.

Lemma wf_handle_agent_message host msg now :
  keeps (on_db db_wf) (handle_agent_message host msg now).
Proof.
  unfold handle_agent_message, handle_vm_state. keep; try done.
  intros s Hs. unfold resolve_waiter. destruct (ctl_pending s !! _) as [op|]; [|done].
  by destruct (_ <>$ _).
Qed.

Lemma wf_health_tick cutoff now s : on_db db_wf s -> on_db db_wf (health_tick cutoff now s).
Proof.
  intros Hs. unfold health_tick.
  assert (preserves (mark_stale_hosts_unhealthy cutoff)) as H by auto with basis. specialize (H _ Hs).
  destruct (mark_stale_hosts_unhealthy cutoff (ctl_db s)) as [db' [l|e]]; [|done].
  apply (keeps_for (E:=DbError) (on_db db_wf)); [|done]. keep.
Qed.

Lemma wf_release_agent_stream host epoch s :
  on_db db_wf s -> on_db db_wf (release_agent_stream host epoch s).
Proof. intros Hs. unfold release_agent_stream. by repeat gmatch. Qed.
End agent_wf.

(** ** Everything the controller does *)

Section system.
Context `{I : Ipnet} `{J : DbJson} `{S : Sqlite} `{HO : HashOrder} `{P : Prost}.
Variable cfg : CtlConfig.

(** A task of the controller runs to its end. While it awaits, the other
    tasks run: [env n s] is a state they can take [s] to. *)
Inductive ctl_step : Ctl -> Ctl -> Prop :=
  | step_create_cluster env peer req uuids nows s :
      (forall n s, rtc ctl_step s (env n s)) ->
      ctl_step s (fst (create_cluster cfg env peer req uuids nows s))
  | step_create_machine env peer req vm now later s :
      (forall n s, rtc ctl_step s (env n s)) ->
      ctl_step s (fst (create_machine cfg env peer req vm now later s))
  | step_delete_cluster_rpc peer c now s : ctl_step s (fst (api_delete_cluster cfg peer c now s))
  | step_delete_machine peer id now s : ctl_step s (fst (delete_machine cfg peer id now s))
  | step_set_device peer h p d st r s :
      ctl_step s (fst (api_set_device_scheduling_state peer h p d st r s))
  | step_stream_messages peer first uuid now s :
      ctl_step s (fst (stream_messages cfg peer first uuid now s))
  | step_agent_message host msg now s : ctl_step s (fst (handle_agent_message host msg now s))
  | step_reconcile_tick host epoch s : ctl_step s (reconcile_tick cfg host epoch s)
  | step_release host epoch s : ctl_step s (release_agent_stream host epoch s)
  | step_health cutoff now s : ctl_step s (health_tick cutoff now s)
  | step_channel_closed host s :
      ctl_step s (set_agents (alter (fun a => {| ag_epoch := ag_epoch a; ag_open := false;
                                                 ag_sent := ag_sent a |}) host) s).

(** A controller that just started on an empty database. *)
Definition ctl_init : Ctl := {|
  ctl_db := db_empty; ctl_agents := ∅; ctl_pending := ∅; ctl_resolved := ∅; ctl_epoch := 1 |}.

Definition ctl_reachable (s : Ctl) : Prop := rtc ctl_step ctl_init s.

Lemma rtc_keeps (Q : Ctl -> Prop) (R : Ctl -> Ctl -> Prop) s s' :
  (forall a b, R a b -> Q a -> Q b) -> rtc R s s' -> Q s -> Q s'.
Proof. intros HR H. induction H as [|a b c Hab _ IH]; [done|]. intros Ha. eapply IH, HR; done. Defined.

Lemma ctl_step_wf s s' : ctl_step s s' -> on_db db_wf s -> on_db db_wf s'.
Proof.
  revert s s'. fix IH 3. intros s s' H.
  destruct H as [env peer req uuids nows s Henv|env peer req vm now later s Henv| | | | | | | | | ];
    intros Hs.
  - apply wf_create_cluster; [|done]. intros n s0. apply (rtc_keeps _ _ _ _ IH (Henv n s0)).
  - apply wf_create_machine; [|done]. intros n s0. apply (rtc_keeps _ _ _ _ IH (Henv n s0)).
  - by apply wf_api_delete_cluster.
  - by apply wf_delete_machine.
  - by apply wf_api_set_device_scheduling_state.
  - by apply wf_stream_messages.
  - by apply wf_handle_agent_message.
  - by apply wf_reconcile_tick.
  - by apply wf_release_agent_stream.
  - by apply wf_health_tick.
  - done.
Qed.
End system.

(** The database is never corrupted. In every state the controller can
    reach from an empty database, whatever requests, agent messages, ticks,
    disconnections and interleavings of tasks led there, failed and rolled-back
    operations included, each key of the schema is unique and no reference
    dangles: VMs, memberships, GPU reservations, LAN owners, pools and devices
    all point at rows that exist, and an address is allocated at most once. *)
Theorem reachable_ctl_wf `{I : Ipnet} `{J : DbJson} `{S : Sqlite} `{HO : HashOrder} `{P : Prost} cfg s :
  ctl_reachable cfg s -> db_wf (ctl_db s).
Proof.
  intros H. apply (rtc_keeps (on_db db_wf) _ _ _ (ctl_step_wf cfg) H). apply empty_wf.
Qed.

(** ** An example run *)

Definition quiet (n : nat) (s : Ctl) : Ctl := s.

Definition example_cfg : CtlConfig := {|
  cc_network := example_net; cc_bgp_asn := 64512; cc_bgp_router_id := "10.0.0.1";
  cc_auto_reconcile_orphan_inventory := false; cc_dns_servers := ["1.1.1.1"];
  cc_cpu_overcommit_ratio := ratio_4 |}.

Definition example_register (name vtep : string) : RegisterHostRequest := {|
  rg_hostname := name; rg_total_cpu := 16; rg_total_memory_mib := 65536;
  rg_storage_capacity := Some {| sc_rootfs := Some {| rc_total_bytes := 2 ^ 40; rc_free_bytes := 2 ^ 40;
    rc_metadata_total_bytes := 2 ^ 30; rc_metadata_free_bytes := 2 ^ 30 |}; sc_pools := [] |};
  rg_gpus := []; rg_vtep_address := vtep; rg_rank := 0; rg_labels := ∅; rg_current_inventory := None |}.

Definition example_register_msg (name vtep : string) : option (option AgentMessage) :=
  Some (Some (MsgRegister (example_register name vtep))).

Definition example_cluster_req : CreateClusterRequest := {|
  cr_name := "prod"; cr_external_ip_pool := "cell-public"; cr_external_service_ips := 0;
  cr_apiserver_visibility := 0; cr_trust_domain := "td" |}.

Definition example_machine_req (name : string) : CreateMachineRequest := {|
  cm_cluster_id := "c1"; cm_name := name; cm_cpu := 4; cm_memory_mib := 8192; cm_disk_gib := 20;
  cm_image := "img"; cm_bootstrap_data := []; cm_gpus := 0; cm_gpu_constraints := None;
  cm_storage_disks := []; cm_placement := None |}.

Definition capi : Peer := PeerNamed CAPI_PROVIDER_IDENTITY.

(** A host registers, a cluster is created, a machine is placed on the host
    and its agent reports it running while the call waits. *)
Definition run_register : Ctl :=
  fst (stream_messages example_cfg (PeerNamed "node1") (example_register_msg "node1" "10.1.0.1") "h1" "t0" ctl_init).
Definition run_cluster : Ctl :=
  fst (create_cluster example_cfg quiet capi example_cluster_req (fun _ => "c1") (fun _ => "t1") run_register).
Definition reports_running (vm : string) (n : nat) (s : Ctl) : Ctl :=
  if (n =? 11)%nat
  then fst (handle_agent_message "h1" (MsgVmState {| vr_vm_id := vm; vr_state := 2; vr_error_message := "";
                                                     vr_transient := false |}) "t3" s)
  else s.
Definition run_machine : Ctl :=
  fst (create_machine example_cfg (reports_running "vm1") capi (example_machine_req "web") "vm1" "t2" "t4" run_cluster).

Lemma reports_running_steps vm n s : rtc (ctl_step example_cfg) s (reports_running vm n s).
Proof.
  unfold reports_running. destruct (n =? 11)%nat; [|constructor].
  apply rtc_once. apply step_agent_message.
Qed.

Lemma reachable_ctl_wf_witness :
  db_wf (ctl_db run_machine) /\
  map (fun v => (vm_id v, vm_host_id v, vm_ip_address v, vm_state v)) (vms (ctl_db run_machine)) =
    [("vm1", "h1", "10.0.0.33", machine_state_num Running)].
Proof.
  split; [|vm_compute; reflexivity]. apply (reachable_ctl_wf example_cfg).
  apply (rtc_l _ _ run_register).
  { unfold run_register. apply step_stream_messages. }
  apply (rtc_l _ _ run_cluster).
  { unfold run_cluster. apply step_create_cluster. constructor. }
  apply rtc_once. unfold run_machine. apply step_create_machine, reports_running_steps.
Defined.
