(* ===== verification/Streams.v ===== *)
(** * Theorems on agent streams

    Registration replays the outbox in order and hands out a stream with a
    fresh generation; the end of an older stream cannot disturb a newer one;
    what a VM state report may change. *)

From S2P Require Import Prelude Ipv4 Ipnet CidrNet Proto Config Overcommit DbTypes JsonText Ipam Clusters Hosts Vms Teardown Outbox Schema Scheduler Ctl Wire Api Agent Service.

(** ** What registration leaves alone *)

Definition outbox_is (t : list PendingCommandRow) (db : Db) : Prop := pending_command db = t.

Section outbox_frame.
Variable t : list PendingCommandRow.

Lemma keeps_outbox_update {A} (m : DbM A) :
  (forall db, pending_command (fst (m db)) = pending_command db) -> keeps (outbox_is t) m.
Proof. intros H db E. unfold outbox_is. by rewrite H. Qed.

Lemma outbox_upsert_host h : keeps (outbox_is t) (upsert_host h).
Proof. apply keeps_outbox_update. intros []. unfold upsert_host. simpl. by repeat case_match. Qed.
Lemma outbox_elect c hs : keeps (outbox_is t) (elect_lan_vip_owner c hs).
Proof.
  apply keeps_outbox_update. intros []. unfold elect_lan_vip_owner, se_bind, replace_lan_vip_owner.
  simpl. destruct (select1 _ _) as [r|]; simpl; [destruct (existsb _ hs); [done|]|];
    (destruct hs; [done|]); by destruct (existsb _ _).
Qed.
Lemma outbox_mark_vm vm now : keeps (outbox_is t) (mark_vm_pending_teardown vm now).
Proof. apply keeps_outbox_update. intros []. unfold mark_vm_pending_teardown. simpl. by case_match. Qed.
Lemma outbox_release_vm_ips vm : keeps (outbox_is t) (release_vm_ips vm).
Proof. apply keeps_outbox_update. by intros []. Qed.
Lemma outbox_mark_pair c h : keeps (outbox_is t) (mark_host_cluster_pending_teardown c h).
Proof. apply keeps_outbox_update. by intros []. Qed.
Lemma outbox_ack_tombstones h vnis ids : keeps (outbox_is t) (ack_tombstones h vnis ids).
Proof.
  unfold ack_tombstones. case_match; [apply keeps_ret|].
  apply keeps_tx, keeps_bind; [|intros _]; apply keeps_for; intros x; apply keeps_outbox_update; intros [].
  - done.
  - unfold ack_cluster. simpl. destruct (select1 _ _) as [c|]; [|done].
    destruct (_ =? 0); [|done]. unfold se_bind, release_cluster_ips, delete_cluster_row. simpl.
    match goal with |- context [if ?b then _ else _] => by destruct b end.
Qed.
End outbox_frame.
#[export] Hint Resolve outbox_upsert_host outbox_elect outbox_mark_vm outbox_release_vm_ips
  outbox_mark_pair outbox_ack_tombstones : basis.

(** ** Frames on the whole state *)

Lemma frame_db_call (Q : Ctl -> Prop) {A} (m : DbM A) :
  (forall s db, Q s -> Q (set_db (fun _ => db) s)) -> keeps Q (db_call m).
Proof. intros H s Hs. unfold db_call. destruct (m (ctl_db s)). by apply H. Qed.

Section frames.
Variable cfg : CtlConfig.
Context `{J : DbJson} `{P : Prost}.

Lemma outbox_build t host : keeps (outbox_is t) (build_reconcile_command cfg host).
Proof. unfold build_reconcile_command, carried_state, ghost_state, visibility_of, pool_of. keep. Qed.
Hint Resolve outbox_build : basis.

Lemma outbox_push {E} t host : keeps (on_db (outbox_is t)) (push_reconcile cfg (E:=E) host).
Proof.
  intros s Hs. unfold push_reconcile. pose proof (outbox_build t host _ Hs) as H.
  destruct (build_reconcile_command cfg host (ctl_db s)) as [db' [cmd|e]]; simpl in *; [|done].
  destruct (ctl_agents s !! host) as [a|]; [|done]. by destruct (send_to a _).
Qed.
Hint Resolve outbox_push : basis.

Lemma outbox_register r uuid now t :
  keeps (on_db (outbox_is t)) (register_or_lookup_host r uuid now).
Proof. unfold register_or_lookup_host. keep. Qed.

Lemma outbox_initial host now inv t :
  keeps (on_db (outbox_is t)) (initial_reconcile cfg host now inv).
Proof.
  unfold initial_reconcile, extend_with_orphan_tombstones, reap_db_orphans_from_inventory,
    cleanup_failed_vm. keep.
  all: apply keeps_read; intros db; unfold orphan_vm; by repeat gmatch.
Qed.

(** The generation counter. *)
Definition epoch_is (k : Z) (s : Ctl) : Prop := ctl_epoch s = k.

Lemma epoch_db_call k {A} (m : DbM A) : keeps (epoch_is k) (db_call m).
Proof. by apply frame_db_call. Qed.
Hint Resolve epoch_db_call : basis.

Lemma epoch_push {E} k host : keeps (epoch_is k) (push_reconcile cfg (E:=E) host).
Proof.
  intros s Hs. unfold push_reconcile.
  destruct (build_reconcile_command cfg host (ctl_db s)) as [db' [cmd|e]]; simpl in *; [|done].
  destruct (ctl_agents s !! host) as [a|]; [|done]. by destruct (send_to a _).
Qed.
Hint Resolve epoch_push : basis.

Lemma epoch_register r uuid now k : keeps (epoch_is k) (register_or_lookup_host r uuid now).
Proof. unfold register_or_lookup_host, lift_internal. keep. Qed.

Lemma epoch_initial host now inv k : keeps (epoch_is k) (initial_reconcile cfg host now inv).
Proof.
  unfold initial_reconcile, reap_db_orphans_from_inventory, cleanup_failed_vm, lift_internal, log_db.
  keep.
Qed.

(** ** Replay *)

Definition decoded (rows : list (Z * list Byte.byte)) : list ControllerCommand :=
  omap (fun e => decode_command (snd e)) rows.
Definition decodes (e : Z * list Byte.byte) : bool := bool_decide (is_Some (decode_command (snd e))).
(** The rows that were sent, marked. *)
Definition marked (rows : list (Z * list Byte.byte)) (db : Db) : Db :=
  foldl (fun db e => if decodes e then fst (mark_command_sent (fst e) db) else db) db rows.

Lemma alter_more host cmd cmds (m : gmap string ConnectedAgent) :
  alter (more cmds) host (alter (more [cmd]) host m) = alter (more (cmd :: cmds)) host m.
Proof.
  apply map_eq. intros i. destruct (decide (host = i)) as [->|]; [|by rewrite !lookup_alter_ne].
  rewrite !lookup_alter_eq. destruct (m !! i) as [a|]; [|done]. simpl. unfold more. simpl.
  by rewrite <- app_assoc.
Qed.
Lemma alter_more_nil host (m : gmap string ConnectedAgent) : alter (more []) host m = m.
Proof.
  apply map_eq. intros i. destruct (decide (host = i)) as [->|]; [|by rewrite lookup_alter_ne].
  rewrite lookup_alter_eq. destruct (m !! i) as [[e o l]|]; [|done]. simpl. unfold more. simpl.
  by rewrite app_nil_r.
Qed.

Lemma decoded_cons e rows :
  decoded (e :: rows) = match decode_command (snd e) with Some c => c :: decoded rows | None => decoded rows end.
Proof. done. Qed.
Lemma marked_cons e rows db :
  marked (e :: rows) db = marked rows (if decodes e then fst (mark_command_sent (fst e) db) else db).
Proof. done. Qed.
Lemma decodes_eq e : decodes e = match decode_command (snd e) with Some _ => true | None => false end.
Proof. unfold decodes. by destruct (decode_command (snd e)). Qed.

(** With room for all of them, every decodable command is sent, in order. *)
Lemma replay_room host rows room s :
  (length (decoded rows) <= room)%nat ->
  replay host rows room s =
    ({| ctl_db := marked rows (ctl_db s);
        ctl_agents := alter (more (decoded rows)) host (ctl_agents s);
        ctl_pending := ctl_pending s; ctl_resolved := ctl_resolved s; ctl_epoch := ctl_epoch s |}, Ok true).
Proof.
  revert room s. induction rows as [|[id payload] rows IH]; intros room s.
  - intros _. simpl. unfold decoded. simpl. rewrite alter_more_nil. by destruct s.
  - rewrite decoded_cons, marked_cons, decodes_eq. cbn [snd fst].
    cbn [replay]. destruct (decode_command payload) as [cmd|]; intros Hl; [|by rewrite IH].
    destruct room as [|room]; [simpl in Hl; lia|]. simpl in Hl. unfold se_bind. simpl.
    rewrite IH by lia. simpl. by rewrite alter_more.
Qed.

(** With one command too many the call waits. *)
Lemma replay_full host rows room s :
  (room < length (decoded rows))%nat -> snd (replay host rows room s) = Ok false.
Proof.
  revert room s. induction rows as [|[id payload] rows IH]; intros room s; [simpl; lia|].
  rewrite decoded_cons. cbn [snd replay]. destruct (decode_command payload) as [cmd|]; intros Hl.
  - destruct room as [|room]; [done|]. simpl in Hl. unfold se_bind. simpl. apply IH. lia.
  - by apply IH.
Qed.

Lemma filter_and {A} (p q : A -> bool) (l : list A) :
  List.filter p (List.filter q l) = List.filter (fun x => q x && p x) l.
Proof.
  induction l as [|x l IH]; [done|]. simpl. destruct (q x); simpl; [|done].
  destruct (p x); simpl; by rewrite IH.
Qed.

(** Among rows with distinct ids, a row is marked when it decodes. *)
Lemma self_mark (l : list (Z * list Byte.byte)) e :
  NoDup (map fst l) -> e ∈ l -> existsb (fun x => decodes x && (fst e =? fst x)) l = decodes e.
Proof.
  intros Hnd He. apply Bool.eq_iff_eq_true. rewrite existsb_true. split.
  - intros (x & Hx & [Hd Hi%Z.eqb_eq]%andb_true_iff).
    assert (e = x) as -> by (by eapply NoDup_map_inj). done.
  - intros Hd. exists e. split; [done|]. by rewrite Hd, Z.eqb_refl.
Qed.

Lemma marked_queue host rows db :
  NoDup (map pc_id (pending_command db)) ->
  queue (marked rows db) host =
    List.filter (fun e => negb (existsb (fun x => decodes x && (fst e =? fst x)) rows)) (queue db host).
Proof.
  revert db. induction rows as [|x rows IH]; intros db Hnd.
  - simpl. symmetry. apply forallb_filter_id. by apply forallb_forall.
  - unfold marked in *. simpl. destruct (decodes x) eqn:Ed; simpl; [|by apply IH].
    destruct (outbox_mark_sent_removes (fst x) host db Hnd) as (db' & E & Hq & Hids).
    unfold mark_command_sent, se_modify in E. injection E as E. rewrite E.
    rewrite IH by (by rewrite Hids). rewrite Hq, filter_and.
    apply List.filter_ext. intros e. by rewrite negb_orb.
Qed.

(** ** A registration that succeeded *)

Definition fresh_agent (host : string) (initial : ReconcileHostCommand) (epoch : Z) : ConnectedAgent :=
  {| ag_epoch := epoch; ag_open := true;
     ag_sent := [RegisterAck {| rr_host_id := host; rr_initial_state := initial;
                                rr_bgp_asn := cc_bgp_asn cfg;
                                rr_bgp_reflector_address := cc_bgp_router_id cfg |}] |}.

Record registered (r : RegisterHostRequest) (uuid now : string) (s s' : Ctl) (out : StreamOpen)
    (s1 s2 : Ctl) (host : string) (initial : ReconcileHostCommand) : Prop := {
  rd_register : register_or_lookup_host r uuid now s = (s1, Ok host);
  rd_initial : initial_reconcile cfg host now (rg_current_inventory r) s1 = (s2, Ok initial);
  rd_replay : exists b,
    replay host (queue (ctl_db s2) host) (pred CHANNEL_CAPACITY)
      (set_agents (<[host := fresh_agent host initial (ctl_epoch s2)]>) (set_epoch (fun e => e + 1) s2))
      = (s', Ok b) /\
    out = if b then Serving host (ctl_epoch s2) else Blocked host;
}.

Lemma stream_messages_ok peer first uuid now s s' out :
  stream_messages cfg peer first uuid now s = (s', Ok out) ->
  exists r s1 s2 host initial, first = Some (Some (MsgRegister r)) /\ peer = PeerNamed (rg_hostname r) /\
    registered r uuid now s s' out s1 s2 host initial.
Proof.
  unfold stream_messages. intros (s0 & id & Hp & H)%se_bind_ok.
  destruct peer as [| |pid]; try discriminate Hp. injection Hp as <- <-.
  destruct (pid =$ _); [done|]. destruct first as [[[r| | | | | ]|]|]; try done.
  destruct (pid <>$ rg_hostname r) eqn:En; [done|].
  apply negb_false_iff, String.eqb_eq in En as ->.
  apply se_bind_ok in H as (s1 & host & Hr & H). apply se_bind_ok in H as (s2 & initial & Hi & H).
  exists r, s1, s2, host, initial. split_and!; [done..|]. split; [done..|].
  apply se_bind_ok in H as (s3 & e & He & H). injection He as <- <-.
  apply se_bind_ok in H as (s4 & [] & Hm & H). injection Hm as <-.
  apply se_bind_ok in H as (s5 & q & Hq & H).
  assert (s5 = set_agents (<[host := fresh_agent host initial (ctl_epoch s2)]>)
                 (set_epoch (fun e => e + 1) s2) /\ q = queue (ctl_db s2) host) as [-> ->]
    by (destruct s2; by injection Hq as <- <-).
  apply se_bind_ok in H as (s6 & b & Hb & H). injection H as -> <-. by exists b.
Qed.

Lemma registered_outbox r uuid now s s' out s1 s2 host initial :
  registered r uuid now s s' out s1 s2 host initial ->
  pending_command (ctl_db s2) = pending_command (ctl_db s) /\ ctl_epoch s2 = ctl_epoch s.
Proof.
  intros [Hr Hi _]. split.
  - refine (keeps_run _ _ _ _ _ (outbox_initial _ _ _ _) Hi _).
    by refine (keeps_run _ _ _ _ _ (outbox_register _ _ _ (pending_command (ctl_db s))) Hr _).
  - refine (keeps_run _ _ _ _ _ (epoch_initial _ _ _ _) Hi _).
    by refine (keeps_run _ _ _ _ _ (epoch_register _ _ _ (ctl_epoch s)) Hr _).
Qed.

Lemma queue_table db db' host : pending_command db = pending_command db' -> queue db host = queue db' host.
Proof. intros E. rewrite !queue_eq. by rewrite E. Qed.

(** The two ends of a registration. *)
Lemma registered_outcome r uuid now s s' out s1 s2 host initial :
  registered r uuid now s s' out s1 s2 host initial ->
  let q := queue (ctl_db s) host in
  (out = Serving host (ctl_epoch s) /\ (length (decoded q) <= 31)%nat /\
   s' = {| ctl_db := marked q (ctl_db s2);
           ctl_agents := <[host := more (decoded q) (fresh_agent host initial (ctl_epoch s))]> (ctl_agents s2);
           ctl_pending := ctl_pending s2; ctl_resolved := ctl_resolved s2; ctl_epoch := ctl_epoch s + 1 |}) \/
  (out = Blocked host /\ (31 < length (decoded q))%nat).
Proof.
  intros Hreg. destruct (registered_outbox _ _ _ _ _ _ _ _ _ _ Hreg) as [Ht He].
  destruct Hreg as [_ _ (b & Hb & ->)]. cbv zeta. rewrite (queue_table _ _ host Ht) in Hb.
  change (Init.Nat.pred CHANNEL_CAPACITY) with 31%nat in Hb. rewrite He in *.
  destruct (decide (length (decoded (queue (ctl_db s) host)) <= 31)%nat) as [Hl|Hl].
  - left. rewrite replay_room in Hb by done. injection Hb as <- <-. simpl. rewrite He. split_and!; [done..|].
    f_equal. apply map_eq. intros i. destruct (decide (host = i)) as [->|].
    + by rewrite lookup_alter_eq, !lookup_insert_eq.
    + by rewrite lookup_alter_ne, !lookup_insert_ne.
  - right. apply (f_equal snd) in Hb. rewrite replay_full in Hb by lia. injection Hb as <-. split; [done|lia].
Qed.

(** C36: a registration replays the outbox, if it fits. The agent's channel
    first carries the acknowledgement, then every queued command of the host
    that decodes, oldest first, and those leave the queue; the call hands out
    its stream exactly when they fit the channel (31 beside the
    acknowledgement). With one more the call waits for room in a channel that
    nobody reads before it returns, so the host cannot connect. *)
Theorem register_replays_outbox peer r uuid now s s' out :
  NoDup (map pc_id (pending_command (ctl_db s))) ->
  stream_messages cfg peer (Some (Some (MsgRegister r))) uuid now s = (s', Ok out) ->
  exists host initial, let q := queue (ctl_db s) host in
    (out = Serving host (ctl_epoch s) /\ (length (decoded q) <= 31)%nat /\
     ctl_agents s' !! host = Some (more (decoded q) (fresh_agent host initial (ctl_epoch s))) /\
     queue (ctl_db s') host = List.filter (fun e => negb (decodes e)) q) \/
    (out = Blocked host /\ (31 < length (decoded q))%nat).
Proof.
  intros Hnd (r' & s1 & s2 & host & initial & [= <-] & _ & Hreg)%stream_messages_ok.
  destruct (registered_outbox _ _ _ _ _ _ _ _ _ _ Hreg) as [Ht _].
  exists host, initial. cbv zeta.
  destruct (registered_outcome _ _ _ _ _ _ _ _ _ _ Hreg) as [(-> & Hl & ->)|]; [left|by right].
  simpl. split_and!; [done|done|by rewrite lookup_insert_eq|].
  rewrite marked_queue, (queue_table _ _ host Ht) by (by rewrite Ht).
  apply filter_ext_in. intros e He. f_equal. apply self_mark; [|by apply list_elem_of_In].
  rewrite queue_eq, (merge_sort_Permutation command_le). by apply queue_ids.
Qed.

(** C19: a stream's cleanup touches its own connection only. A reconnect gets a
    generation larger than every one handed out before, so the cleanup of any
    older stream, however late it runs, changes nothing: neither the new
    command channel nor the waiters. The cleanup of the current stream removes
    the connection and exactly the waiters of its host. *)
Theorem reconnect_survives_old_cleanup peer first uuid now s s' host e :
  stream_messages cfg peer first uuid now s = (s', Ok (Serving host e)) ->
  e = ctl_epoch s /\ ctl_epoch s' = e + 1 /\
  (forall old, old < e -> release_agent_stream host old s' = s') /\
  ctl_agents (release_agent_stream host e s') = delete host (ctl_agents s') /\
  (forall vm op, ctl_pending (release_agent_stream host e s') !! vm = Some op <->
                 ctl_pending s' !! vm = Some op /\ po_host_id op <> host) /\
  ctl_db (release_agent_stream host e s') = ctl_db s'.
Proof.
  intros (r' & s1 & s2 & host' & initial & _ & _ & Hreg)%stream_messages_ok.
  destruct (registered_outcome _ _ _ _ _ _ _ _ _ _ Hreg) as [([= -> ->] & _ & ->)|[[=] _]].
  unfold release_agent_stream. simpl. rewrite lookup_insert_eq. simpl. rewrite Z.eqb_refl. simpl.
  split_and!; [done|done| |done| |done].
  - intros old Ho. by rewrite (proj2 (Z.eqb_neq _ _)) by lia.
  - intros vm op. by rewrite map_lookup_filter_Some.
Qed.
End frames.

(** ** State reports *)

(** The report is about this row, and the row is not on its way out. *)
Definition reported_row (host : string) (r : VmStateReport) (v : VmRow) : Prop :=
  vm_id v = vr_vm_id r /\ vm_host_id v = host /\ vm_state v <> VM_STATE_PENDING_TEARDOWN.

Definition report_result (r : VmStateReport) : result VmFailure unit :=
  if decide (machine_state_of (vr_state r) = Failed)
  then Err {| vf_message := vr_error_message r; vf_transient := vr_transient r |}
  else Ok tt.

(** What a state report from [host] may do. *)
Record report_effect (host : string) (r : VmStateReport) (now : string) (s s' : Ctl) : Prop := {
  re_kept v : v ∈ vms (ctl_db s) -> ~ reported_row host r v -> v ∈ vms (ctl_db s');
  re_only v : v ∈ vms (ctl_db s') -> v ∈ vms (ctl_db s) \/
    exists v0, v0 ∈ vms (ctl_db s) /\ reported_row host r v0 /\
      v = with_vm_state (machine_state_num (machine_state_of (vr_state r))) (vr_error_message r) now v0;
  re_waiters vm op : ctl_pending s !! vm = Some op ->
    ctl_pending s' !! vm = Some op \/
    vm = vr_vm_id r /\ po_host_id op = host /\ ctl_resolved s' !! vm = Some (report_result r) /\
    (exists v, v ∈ vms (ctl_db s) /\ vm_id v = vm /\ vm_host_id v = host);
  re_frame : ip_allocations (ctl_db s') = ip_allocations (ctl_db s) /\
    clusters (ctl_db s') = clusters (ctl_db s) /\ host_clusters (ctl_db s') = host_clusters (ctl_db s) /\
    ctl_agents s' = ctl_agents s;
}.

Lemma report_ignored host r now s : report_effect host r now s s.
Proof. split; auto. Qed.

(** The waiter and the outbox, after the row was written. *)
Definition after_row (host : string) (r : VmStateReport) : SE Ctl DbError unit :=
  if decide (machine_state_of (vr_state r) = Running \/ machine_state_of (vr_state r) = Failed) then
    do! mine <- (fun s => let '(s', b) := resolve_waiter host r (machine_state_of (vr_state r)) s in (s', Ok b)) ;
    if mine : bool then log_db (ack_pending_commands_for_vm (vr_vm_id r)) else se_ret tt
  else se_ret tt.

Lemma after_row_effect host r s :
  let s' := fst (after_row host r s) in
  vms (ctl_db s') = vms (ctl_db s) /\ ip_allocations (ctl_db s') = ip_allocations (ctl_db s) /\
  clusters (ctl_db s') = clusters (ctl_db s) /\ host_clusters (ctl_db s') = host_clusters (ctl_db s) /\
  ctl_agents s' = ctl_agents s /\
  forall vm op, ctl_pending s !! vm = Some op -> ctl_pending s' !! vm = Some op \/
    vm = vr_vm_id r /\ po_host_id op = host /\ ctl_resolved s' !! vm = Some (report_result r).
Proof.
  cbv zeta. unfold after_row. destruct (decide _) as [Hs|]; [|by auto 10].
  unfold se_bind, resolve_waiter. destruct s as [[] ag pe re ep]. simpl.
  destruct (pe !! vr_vm_id r) as [op0|] eqn:Ep; simpl.
  2: { split_and!; auto. }
  destruct (po_host_id op0 <>$ host) eqn:Eh; simpl; [by auto 10|].
  apply negb_false_iff, String.eqb_eq in Eh. split_and!; [done..|].
  intros vm op Hop. destruct (decide (vm = vr_vm_id r)) as [->|Hne].
  - right. rewrite Ep in Hop. injection Hop as ->. rewrite lookup_insert_eq. done.
  - left. by rewrite lookup_delete_ne.
Qed.

Lemma handle_vm_state_eq host r now s :
  fst (handle_vm_state host r now s) =
  match select1 (fun v => vm_id v =$ vr_vm_id r) (vms (ctl_db s)) with
  | None => s
  | Some v =>
      if vm_host_id v <>$ host then s
      else if vm_state v =? VM_STATE_PENDING_TEARDOWN then fst (after_row host r s)
      else fst (after_row host r (set_db (set_vms (update_where (fun v => vm_id v =$ vr_vm_id r)
             (with_vm_state (machine_state_num (machine_state_of (vr_state r))) (vr_error_message r) now))) s))
  end.
Proof.
  unfold handle_vm_state, se_bind, se_try, db_call, get_vm. simpl.
  destruct (select1 _ _) as [v|] eqn:Ev; simpl; [|by destruct s].
  destruct (vm_host_id v <>$ host); [by destruct s|].
  destruct (vm_state v =? _); simpl; [by destruct s|].
  unfold update_vm_state. apply select1_Some in Ev as [Hv Hi].
  rewrite (proj2 (existsb_true _ _)) by eauto. done.
Qed.

(** A VM state report is believed about the reporter's own live VMs only.
    From host [host] it can change no row but that of the named VM, and that
    only while the VM is on [host] and not being torn down: a late report
    never resurrects a deleted VM. It resolves no [CreateMachine] but the one
    waiting for that VM on that host, with the reported outcome, and touches
    no address, cluster or connection. *)
Theorem vm_state_report_scoped `{J : DbJson} host r now s :
  NoDup (map vm_id (vms (ctl_db s))) ->
  report_effect host r now s (fst (handle_agent_message host (MsgVmState r) now s)).
Proof.
  intros Hnd. cbn [handle_agent_message]. rewrite handle_vm_state_eq.
  destruct (select1 _ _) as [v|] eqn:Ev; [|apply report_ignored].
  apply select1_Some in Ev as [Hv Hi%String.eqb_eq].
  destruct (vm_host_id v <>$ host) eqn:Eh; [apply report_ignored|].
  apply negb_false_iff, String.eqb_eq in Eh.
  assert (forall v', v' ∈ vms (ctl_db s) -> vm_id v' = vr_vm_id r -> v' = v) as Hu.
  { intros v' Hv' E. eapply (NoDup_map_inj vm_id); [done..|]. by rewrite E. }
  destruct (vm_state v =? _) eqn:Es.
  - destruct (after_row_effect host r s) as (E1 & E2 & E3 & E4 & E5 & Hw).
    split; rewrite ?E1; auto. intros vm op Hop. destruct (Hw vm op Hop) as [|(-> & ? & ?)]; eauto 10.
  - apply Z.eqb_neq in Es. set (s1 := set_db _ s).
    destruct (after_row_effect host r s1) as (E1 & E2 & E3 & E4 & E5 & Hw).
    assert (vms (ctl_db s1) = update_where (fun v => vm_id v =$ vr_vm_id r)
      (with_vm_state (machine_state_num (machine_state_of (vr_state r))) (vr_error_message r) now)
      (vms (ctl_db s))) as Ev by (subst s1; by destruct s as [[]]).
    split; rewrite ?E1, ?Ev.
    + intros v' Hv' Hn. apply elem_of_update_where. exists v'. split; [done|].
      destruct (vm_id v' =$ vr_vm_id r) eqn:E; [|done]. apply String.eqb_eq in E.
      destruct Hn. pose proof (Hu v' Hv' E) as ->. done.
    + intros v' (v0 & Hv0 & ->)%elem_of_update_where. destruct (vm_id v0 =$ vr_vm_id r) eqn:E; [|by left].
      apply String.eqb_eq in E. right. exists v0. pose proof (Hu v0 Hv0 E) as ->. done.
    + intros vm op Hop. destruct (Hw vm op Hop) as [|(-> & ? & ?)]; eauto 10.
    + rewrite E2, E3, E4, E5. subst s1. by destruct s as [[]].
Qed.

(** ** Witnesses *)

(** A command left in the outbox of the registered host, not yet sent. *)
Definition queued_ctl : Ctl :=
  set_db (fun db => fst (enqueue_pending_command "h1" "vm1"
            (encode_command (ReconcileHost {| rc_clusters := []; rc_cluster_tombstones := [];
                                              rc_vm_tombstones := ["vm1"] |})) db)) run_register.

Definition reconnect : Ctl * result Code StreamOpen :=
  stream_messages example_cfg (PeerNamed "node1") (example_register_msg "node1" "10.1.0.1") "h9" "t5" queued_ctl.

Lemma reconnect_ok : snd reconnect = Ok (Serving "h1" 2).
Proof. vm_compute. reflexivity. Qed.

Lemma register_replays_outbox_witness :
  exists host initial,
    ctl_agents (fst reconnect) !! host =
      Some (more (decoded (queue (ctl_db queued_ctl) host)) (fresh_agent example_cfg host initial 2)) /\
    host = "h1" /\ length (decoded (queue (ctl_db queued_ctl) host)) = 1%nat /\
    queue (ctl_db (fst reconnect)) host = [].
Proof.
  destruct (register_replays_outbox example_cfg (PeerNamed "node1") (example_register "node1" "10.1.0.1")
    "h9" "t5" queued_ctl (fst reconnect) (Serving "h1" 2)) as (host & initial & H).
  - apply (bool_decide_eq_true_1 _). vm_compute. reflexivity.
  - rewrite <- reconnect_ok. apply surjective_pairing.
  - exists host, initial. destruct H as [([= <-] & _ & Ha & Hq)|[H _]]; [|discriminate].
    split; [exact Ha|]. split; [done|]. split; [vm_compute; reflexivity|].
    rewrite Hq. vm_compute. reflexivity.
Defined.

Lemma reconnect_survives_old_cleanup_witness :
  release_agent_stream "h1" 1 (fst reconnect) = fst reconnect /\
  ctl_agents (release_agent_stream "h1" 2 (fst reconnect)) = delete "h1" (ctl_agents (fst reconnect)).
Proof.
  destruct (reconnect_survives_old_cleanup example_cfg (PeerNamed "node1")
    (example_register_msg "node1" "10.1.0.1") "h9" "t5" queued_ctl (fst reconnect) "h1" 2)
    as (_ & _ & H1 & H2 & _).
  - rewrite <- reconnect_ok. apply surjective_pairing.
  - split; [apply H1; lia|exact H2].
Defined.

Definition failed_report : VmStateReport :=
  {| vr_vm_id := "vm1"; vr_state := 5; vr_error_message := "boot"; vr_transient := false |}.

Lemma vm_state_report_scoped_witness :
  report_effect "h1" failed_report "t6" run_machine
    (fst (handle_agent_message "h1" (MsgVmState failed_report) "t6" run_machine)) /\
  map vm_state (vms (ctl_db run_machine)) = [2] /\
  map vm_state (vms (ctl_db (fst (handle_agent_message "h1" (MsgVmState failed_report) "t6" run_machine)))) = [5].
Proof.
  split; [|split; vm_compute; reflexivity]. apply vm_state_report_scoped.
  apply (bool_decide_eq_true_1 _). vm_compute. reflexivity.
Defined.
