(* ===== verification/Identity.v ===== *)
(** * Who is calling (crates/basis-common/src/tls.rs)

    The identity of a peer, from the certificate of its connection: the first
    DNS name of the subject alternative name, or the first common name. Every
    call of the [Basis] service and every agent stream is gated on it. *)

From S2P Require Import Prelude Ipv4 Ipnet CidrNet Proto Config Overcommit DbTypes JsonText Ipam Clusters Hosts Vms Teardown Outbox Schema Scheduler Ctl Wire Api Pools Agent Service Streams.

(** What x509-parser makes of a certificate: the subject alternative name (an
    error when the extension is malformed or repeated) and the values of the
    common names ([None]: not text). *)
Inductive GeneralName := DNSName (s : string) | OtherName.
Record Certificate := {
  ct_subject_alternative_name : result unit (option (list GeneralName));
  ct_common_names : list (option string);
}.
Class X509 := { parse_x509_certificate : list Byte.byte -> option Certificate }.

Inductive TlsError := ParseCert | NoPeerCert.

(** The extension [TlsConnectInfo] of a request: absent without TLS; then the
    certificates the peer presented, if any. *)
Record TlsConnectInfo := { peer_certs : option (list (list Byte.byte)) }.

Section identity.
Context `{X : X509}.

Definition first_dns_name (names : list GeneralName) : option string :=
  foldr (fun n rest => match n with DNSName s => Some s | OtherName => rest end) None names.
Definition first_common_name (names : list (option string)) : option string :=
  foldr (fun n rest => match n with Some s => Some s | None => rest end) None names.

(** [extract_peer_identity]. *)
Definition extract_peer_identity (cert_der : list Byte.byte) : result TlsError (option string) :=
  match parse_x509_certificate cert_der with
  | None => Err ParseCert
  | Some cert =>
      let san := match ct_subject_alternative_name cert with
                 | Ok (Some names) => first_dns_name names
                 | _ => None
                 end in
      Ok (match san with Some s => Some s | None => first_common_name (ct_common_names cert) end)
  end.

(** [request_peer_identity]. *)
Definition request_peer_identity (info : option TlsConnectInfo) : result TlsError (option string) :=
  match info with
  | None => Ok None
  | Some tls_info =>
      match peer_certs tls_info with
      | None => Err NoPeerCert
      | Some [] => Err NoPeerCert
      | Some (first :: _) => extract_peer_identity first
      end
  end.

(** The peer of a request, as [peer_identity] of server.rs tells them apart. *)
Definition peer_of_request (info : option TlsConnectInfo) : Peer :=
  match request_peer_identity info with
  | Ok (Some id) => PeerNamed id
  | Ok None => PeerNone
  | Err _ => PeerBad
  end.

(** ** What an identity is *)

(** The leaf certificate names [id]: its first DNS name is [id]; or it has no
    DNS name and its first readable common name is [id]. *)
Definition names_peer (cert : Certificate) (id : string) : Prop :=
  (exists pre post, ct_subject_alternative_name cert = Ok (Some (pre ++ DNSName id :: post)) /\
                    Forall (fun n => n = OtherName) pre) \/
  ((forall names s, ct_subject_alternative_name cert = Ok (Some names) -> DNSName s ∉ names) /\
   exists pre post, ct_common_names cert = pre ++ Some id :: post /\ Forall (fun n => n = None) pre).
Definition certified (info : option TlsConnectInfo) (id : string) : Prop :=
  exists leaf chain cert, info = Some {| peer_certs := Some (leaf :: chain) |} /\
    parse_x509_certificate leaf = Some cert /\ names_peer cert id.

Lemma first_dns_name_Some names id :
  first_dns_name names = Some id <->
  exists pre post, names = pre ++ DNSName id :: post /\ Forall (fun n => n = OtherName) pre.
Proof.
  split.
  - induction names as [|[s|] names IH]; simpl; [done| |].
    + intros [= ->]. by exists [], names.
    + intros (pre & post & -> & ?)%IH. exists (OtherName :: pre), post. by split; [|constructor].
  - intros (pre & post & -> & Hp). induction Hp as [|? ? ->]; done.
Qed.
Lemma first_dns_name_None names : first_dns_name names = None <-> forall s, DNSName s ∉ names.
Proof.
  induction names as [|[s|] names IH]; simpl.
  - split; [|done]. intros _ s. apply not_elem_of_nil.
  - split; [done|]. intros Hn. destruct (Hn s). by left.
  - rewrite IH. split; intros Hn s; [|intros Hs; apply (Hn s); by right].
    intros [?|?]%elem_of_cons; [done|by apply (Hn s)].
Qed.
Lemma first_common_name_Some names id :
  first_common_name names = Some id <->
  exists pre post, names = pre ++ Some id :: post /\ Forall (fun n => n = None) pre.
Proof.
  split.
  - induction names as [|[s|] names IH]; simpl; [done| |].
    + intros [= ->]. by exists [], names.
    + intros (pre & post & -> & ?)%IH. exists (None :: pre), post. by split; [|constructor].
  - intros (pre & post & -> & Hp). induction Hp as [|? ? ->]; done.
Qed.

Lemma extract_peer_identity_Some der id :
  extract_peer_identity der = Ok (Some id) <->
  exists cert, parse_x509_certificate der = Some cert /\ names_peer cert id.
Proof.
  unfold extract_peer_identity, names_peer. destruct (parse_x509_certificate der) as [cert|]; [|naive_solver].
  split.
  - intros [= H]. exists cert. split; [done|].
    destruct (ct_subject_alternative_name cert) as [[names|]|]; cbn [mbind] in H.
    + destruct (first_dns_name names) as [s|] eqn:E.
      * injection H as ->. apply first_dns_name_Some in E as (pre & post & -> & ?). left. by exists pre, post.
      * right. split; [intros names' s [= <-]; by apply first_dns_name_None|by apply first_common_name_Some].
    + right. split; [done|by apply first_common_name_Some].
    + right. split; [done|by apply first_common_name_Some].
  - intros (cert' & [= <-] & [(pre & post & E & Hp)|[Hn Hc]]).
    + rewrite E. by rewrite (proj2 (first_dns_name_Some _ id)) by (by exists pre, post).
    + apply first_common_name_Some in Hc. f_equal.
      destruct (ct_subject_alternative_name cert) as [[names|]|]; [|done|done].
      by rewrite (proj2 (first_dns_name_None names)) by (intros s; by apply Hn).
Qed.

Lemma peer_named_certified info id : peer_of_request info = PeerNamed id <-> certified info id.
Proof.
  unfold peer_of_request, request_peer_identity, certified. split.
  - destruct info as [[[[|leaf chain]|]]|]; cbn; try done.
    destruct (extract_peer_identity leaf) as [[i|]|] eqn:E; [|done..]. intros [= ->].
    apply extract_peer_identity_Some in E as (cert & ? & ?). by exists leaf, chain, cert.
  - intros (leaf & chain & cert & -> & Hp & Hn). cbn.
    by rewrite (proj2 (extract_peer_identity_Some leaf id)) by (by exists cert).
Qed.
End identity.

(** ** Authorization *)

#[global] Instance peer_eq_dec : EqDecision Peer.
Proof. solve_decision. Defined.

(** The call changes nothing and is refused for who is calling. *)
Definition refused {A} (m : CtlM A) : Prop :=
  forall s, m s = (s, Err CodeUnauthenticated) \/ m s = (s, Err CodePermissionDenied).

Lemma gate_refuses {A} peer (k : unit -> CtlM A) :
  peer <> PeerNamed CAPI_PROVIDER_IDENTITY -> refused (se_bind (se_of (require_capi_caller peer)) k).
Proof.
  intros Hp s. unfold se_bind, se_of, require_capi_caller, peer_identity.
  destruct peer as [| |id]; [by left|by left|]. destruct (id =$ CAPI_PROVIDER_IDENTITY) eqn:E; [|by right].
  apply String.eqb_eq in E. congruence.
Qed.

(** C12: only the certified act. Whatever the certificates of a connection, a
    call of the [Basis] service whose leaf certificate does not name the
    provider changes nothing and is refused as unauthenticated or not
    permitted, for every call of the service; and an agent stream is served
    only when the leaf certificate names the hostname of the registration,
    which is not the provider's identity. The certificate names an identity
    when that is its first DNS name, or, without any DNS name, its first
    readable common name. *)
Theorem only_certified_callers `{X : X509} `{I : Ipnet} `{J : DbJson} `{S : Sqlite} `{HO : HashOrder} `{P : Prost}
    cfg env (info : option TlsConnectInfo) :
  let peer := peer_of_request info in
  (certified info CAPI_PROVIDER_IDENTITY \/
   (forall req uuids nows, refused (create_cluster cfg env peer req uuids nows)) /\
   (forall id now, refused (api_delete_cluster cfg peer id now)) /\
   (forall id, refused (api_get_cluster peer id)) /\ refused (api_list_clusters peer) /\
   (forall req vm now later, refused (create_machine cfg env peer req vm now later)) /\
   (forall id now, refused (delete_machine cfg peer id now)) /\
   (forall id, refused (get_machine peer id)) /\ (forall id, refused (list_machines peer id)) /\
   (forall h p d st r, refused (api_set_device_scheduling_state peer h p d st r)) /\
   (forall h, refused (list_pools peer h))) /\
  (forall first uuid now s s' out, stream_messages cfg peer first uuid now s = (s', Ok out) ->
   exists r, first = Some (Some (MsgRegister r)) /\ certified info (rg_hostname r) /\
             rg_hostname r <> CAPI_PROVIDER_IDENTITY).
Proof.
  intros peer. split.
  - destruct (decide (peer = PeerNamed CAPI_PROVIDER_IDENTITY)) as [Hp|Hp]; [left; by apply peer_named_certified|right].
    split_and!; intros; by apply gate_refuses.
  - intros first uuid now s s' out Hs. pose proof Hs as Hok.
    apply stream_messages_ok in Hs as (r & _ & _ & _ & _ & -> & Hp & _).
    exists r. split_and!; [done|by apply peer_named_certified|]. intros He. unfold stream_messages, se_bind, se_of in Hok.
    rewrite Hp in Hok. simpl in Hok. by rewrite He, String.eqb_refl in Hok.
Qed.

(** ** Examples *)

(** Three certificates: of a host, of the provider by its common name, and one
    without names. *)
#[local] Instance three_certificates : X509 := {|
  parse_x509_certificate der :=
    match der with
    | [Byte.x01] => Some {| ct_subject_alternative_name := Ok (Some [OtherName; DNSName "node1"]);
                            ct_common_names := [Some CAPI_PROVIDER_IDENTITY] |}
    | [Byte.x02] => Some {| ct_subject_alternative_name := Ok (Some [OtherName]);
                            ct_common_names := [Some CAPI_PROVIDER_IDENTITY] |}
    | [Byte.x03] => Some {| ct_subject_alternative_name := Ok None; ct_common_names := [] |}
    | _ => None
    end |}.
Definition presenting (leaf : Byte.byte) : option TlsConnectInfo := Some {| peer_certs := Some [[leaf]] |}.

Lemma only_certified_callers_witness :
  snd (stream_messages example_cfg (peer_of_request (presenting Byte.x01)) (example_register_msg "node1" "10.1.0.1")
         "h9" "t5" queued_ctl) = Ok (Serving "h1" 2) /\
  certified (presenting Byte.x01) "node1".
Proof.
  split; [exact reconnect_ok|].
  destruct (proj2 (only_certified_callers example_cfg (fun _ s => s) (presenting Byte.x01))
    (example_register_msg "node1" "10.1.0.1") "h9" "t5" queued_ctl (fst reconnect) (Serving "h1" 2)) as (r & [= <-] & Hc & _).
  - rewrite <- reconnect_ok. apply surjective_pairing.
  - exact Hc.
Defined.

(** The host's certificate also has the provider's common name, which does not
    count; a certificate whose alternative names have no DNS name falls back
    to the common name; one without any name reads like no TLS at all. *)
Lemma identity_examples :
  peer_of_request (presenting Byte.x01) = PeerNamed "node1" /\
  peer_of_request (presenting Byte.x02) = PeerNamed CAPI_PROVIDER_IDENTITY /\
  request_peer_identity (presenting Byte.x03) = request_peer_identity None.
Proof. repeat split. Qed.
