(* ===== verification/Machines.v ===== *)
(** * Theorems on clusters and machines

    What the reconcile command carries, what a placement commits, that failed
    calls leak no address, and what a failed [CreateMachine] leaves behind. *)

From S2P Require Import Prelude Ipv4 Ipnet CidrNet Proto Config Overcommit DbTypes JsonText Ipam Clusters Hosts Vms Teardown Outbox Schema Scheduler Ctl Wire Api Agent Service Streams.

(** ** Building a command writes at most the elected owners *)

(** The database without the LAN owners. *)
Definition less_owners (db : Db) : Db := set_lan_vip_owner (fun _ => []) db.
Definition same_rows (db0 db : Db) : Prop := less_owners db = less_owners db0.

Lemma same_rows_refl db : same_rows db db.
Proof. done. Qed.

(** Equal apart from the owners: the tables agree. *)
Lemma same_rows_tables db0 db : same_rows db0 db ->
  hosts db = hosts db0 /\ clusters db = clusters db0 /\ host_clusters db = host_clusters db0 /\
  vms db = vms db0 /\ pending_command db = pending_command db0 /\
  ip_allocations db = ip_allocations db0.
Proof. destruct db0, db. unfold same_rows. simpl. by intros [= -> -> -> -> -> -> -> -> -> -> -> ->]. Qed.

Lemma less_owners_elect c hs db : less_owners (fst (elect_lan_vip_owner c hs db)) = less_owners db.
Proof.
  destruct db. unfold elect_lan_vip_owner, se_bind, replace_lan_vip_owner, less_owners.
  simpl. destruct (select1 _ _) as [r|]; simpl; [destruct (existsb _ hs); [done|]|];
    (destruct hs; [done|]); by destruct (existsb _ _).
Qed.
Lemma owners_elect db0 c hs : keeps (same_rows db0) (elect_lan_vip_owner c hs).
Proof. intros db H. unfold same_rows. by rewrite less_owners_elect. Qed.
#[export] Hint Resolve owners_elect : basis.

Section owners.
Variable cfg : CtlConfig.

Lemma owners_carried db0 m : keeps (same_rows db0) (carried_state cfg m).
Proof. unfold carried_state, visibility_of, pool_of. keep. Qed.
Lemma owners_ghost db0 c : keeps (same_rows db0) (ghost_state cfg c).
Proof. unfold ghost_state, visibility_of, pool_of. keep. Qed.
Hint Resolve owners_carried owners_ghost : basis.

Lemma owners_build db0 host : keeps (same_rows db0) (build_reconcile_command cfg host).
Proof. unfold build_reconcile_command. keep. Qed.

Lemma owners_push {E} db0 host : keeps (on_db (same_rows db0)) (push_reconcile cfg (E:=E) host).
Proof.
  intros s Hs. unfold push_reconcile. pose proof (owners_build db0 host _ Hs) as H.
  destruct (build_reconcile_command cfg host (ctl_db s)) as [db' [cmd|e]]; simpl in *; [|done].
  destruct (ctl_agents s !! host) as [a|]; [|done]. by destruct (send_to a _).
Qed.

(** ** What the command carries *)

Lemma se_map_ok {S E A B} (l : list A) (f : A -> SE S E B) s s' ys :
  se_map l f s = (s', Ok ys) ->
  Forall2 (fun x y => exists s1 s2, f x s1 = (s2, Ok y)) l ys.
Proof.
  revert s s' ys. induction l as [|x l IH]; intros s s' ys; simpl.
  - intros [= _ <-]. constructor.
  - intros (s1 & y & Hy & H)%se_bind_ok. apply se_bind_ok in H as (s2 & ys' & Hys & H).
    injection H as _ <-. constructor; eauto.
Qed.

Lemma build_reconcile_steps host db db' cmd :
  build_reconcile_command cfg host db = (db', Ok cmd) ->
  exists carried ghosts db1 db2, let ms := map (fun '(c, r) => (c, hc_ip_address r)) (join_host_clusters db host 0) in
    se_map ms (carried_state cfg) db = (db1, Ok carried) /\
    se_map (select (fun c => negb (existsb (String.eqb (c_id c)) (map (fun m => c_id (fst m)) ms))) (clusters db))
           (ghost_state cfg) db1 = (db2, Ok ghosts) /\
    rc_clusters cmd = carried ++ omap (M:=list) id ghosts /\
    map ct_cluster_id (rc_cluster_tombstones cmd) = map (fun '(c, _) => c_id c) (join_host_clusters db host 1) /\
    rc_vm_tombstones cmd =
      map vm_id (select (fun v => on_host host v && (vm_state v =? VM_STATE_PENDING_TEARDOWN)) (vms db)).
Proof.
  unfold build_reconcile_command. intros H. apply se_bind_ok in H as (d0 & ms & Hms & H).
  injection Hms as <- <-. apply se_bind_ok in H as (db1 & carried & Hc & H).
  pose proof (keeps_run (same_rows db) _ _ _ _ (keeps_map _ _ _ (owners_carried db)) Hc (same_rows_refl db)) as K1.
  pose proof (same_rows_tables _ _ K1) as (_ & E1 & _).
  apply se_bind_ok in H as (d1 & all & Hall & H). injection Hall as <- <-. rewrite E1 in H.
  apply se_bind_ok in H as (db2 & ghosts & Hg & H).
  pose proof (keeps_run (same_rows db) _ _ _ _ (keeps_map _ _ _ (owners_ghost db)) Hg K1) as K2.
  pose proof (same_rows_tables _ _ K2) as (_ & E2 & E3 & E4 & _).
  injection H as _ <-. simpl. exists carried, ghosts, db1, db2. split_and!; [done..| |].
  - unfold join_host_clusters. rewrite E2, E3, !List.map_map. apply List.map_ext. by intros [].
  - by rewrite E4.
Qed.

(** A state built for a carried cluster, and for one this host does not carry. *)
Definition carried_entry (c : ClusterRow) (bridge_ip : string) (st : ClusterState) : Prop :=
  cs_cluster_id st = c_id c /\ cs_cidr st = c_cidr c /\ cs_vni st = as_u32 (c_vni c) /\
  cs_gateway_ip st = bridge_ip.
Definition ghost_entry (c : ClusterRow) (st : ClusterState) : Prop :=
  cs_cluster_id st = c_id c /\ cs_cidr st = c_cidr c /\ cs_vni st = as_u32 (c_vni c) /\
  cs_gateway_ip st = "" /\ cs_cluster_vips st = [] /\
  exists pool, pool_by_name (cc_network cfg) (c_external_pool c) = Some pool /\ is_tree pool = true.

Lemma carried_state_ok m s s' st :
  carried_state cfg m s = (s', Ok st) -> carried_entry (fst m) (snd m) st.
Proof.
  destruct m as [c ip]. unfold carried_state. intros H.
  repeat (apply se_bind_ok in H as (? & ? & _ & H)). by injection H as _ <-.
Qed.

Lemma ghost_state_ok c s s' o :
  ghost_state cfg c s = (s', Ok o) ->
  match o with
  | Some st => ghost_entry c st
  | None => exists pool, pool_by_name (cc_network cfg) (c_external_pool c) = Some pool /\ is_tree pool = false
  end.
Proof.
  unfold ghost_state, pool_of. intros H. apply se_bind_ok in H as (s1 & pool & Hp & H).
  unfold se_of, ok_or in Hp.
  destruct (pool_by_name _ _) as [pool'|] eqn:Ep; [|discriminate]. injection Hp as <- <-.
  destruct (is_tree pool') eqn:Et; simpl in H; [|injection H as _ <-; eauto].
  repeat (apply se_bind_ok in H as (? & ? & _ & H)). injection H as _ <-.
  unfold ghost_entry. simpl. eauto 10.
Qed.

Lemma Forall2_from_l {A B} (R : A -> B -> Prop) l k x : Forall2 R l k -> x ∈ l -> exists y, y ∈ k /\ R x y.
Proof.
  intros H. induction H as [|a b l k HR _ IH]; intros Hx; [inversion Hx|].
  apply elem_of_cons in Hx as [->|Hx]; [exists b; set_solver|]. destruct (IH Hx) as (y & ? & ?). exists y. set_solver.
Qed.
Lemma Forall2_from_r {A B} (R : A -> B -> Prop) l k y : Forall2 R l k -> y ∈ k -> exists x, x ∈ l /\ R x y.
Proof. intros H%Forall2_flip Hy. exact (Forall2_from_l _ _ _ _ H Hy). Qed.

Lemma elem_of_join db host st c r :
  (c, r) ∈ join_host_clusters db host st <->
  c ∈ clusters db /\ r ∈ host_clusters db /\ hc_cluster_id r = c_id c /\ hc_host_id r = host /\ hc_state r = st.
Proof.
  unfold join_host_clusters. rewrite list_elem_of_bind. split.
  - intros (c' & Hr & Hc). apply list_elem_of_fmap in Hr as (r' & [= -> ->] & Hr).
    apply elem_of_select in Hr as [Hr Hp]. bsimp. destruct Hp as [[H1 H2] H3]. done.
  - intros (Hc & Hr & H1 & H2 & H3). exists c. split; [|done]. apply list_elem_of_fmap. exists r.
    split; [done|]. apply elem_of_select. split; [done|]. bsimp.
Qed.
End owners.


(** ** What a cleanup leaves *)

Lemma log_db_eq {E A} (m : DbM A) s :
  log_db (E:=E) m s = (set_db (fun _ => fst (m (ctl_db s))) s, Ok tt).
Proof. unfold log_db, se_bind, se_try, db_call. by destruct (m (ctl_db s)). Qed.

Definition cleaned_vm (vm later : string) (v : VmRow) : VmRow :=
  if vm_id v =$ vm then with_vm_state VM_STATE_PENDING_TEARDOWN (vm_error_message v) later v else v.

(** A cleanup always returns; it turns the VM's row to PENDING_TEARDOWN, drops
    its addresses, and touches neither clusters nor the outbox. *)
Lemma cleanup_effect {E} cfg vm c host later s :
  exists s', cleanup_failed_vm cfg (E:=E) vm c host later s = (s', Ok tt) /\
    vms (ctl_db s') = map (cleaned_vm vm later) (vms (ctl_db s)) /\
    clusters (ctl_db s') = clusters (ctl_db s) /\
    hosts (ctl_db s') = hosts (ctl_db s) /\
    pending_command (ctl_db s') = pending_command (ctl_db s) /\
    (forall r, r ∈ ip_allocations (ctl_db s') <-> r ∈ ip_allocations (ctl_db s) /\ ipa_vm_id r <> Some vm).
Proof.
  unfold cleanup_failed_vm, se_bind. rewrite !log_db_eq. cbn [ctl_db set_db].
  set (db1 := fst (mark_vm_pending_teardown vm later (ctl_db s))).
  set (db2 := fst (release_vm_ips vm db1)).
  set (db3 := fst (mark_host_cluster_pending_teardown c host db2)).
  set (s3 := set_db _ _).
  assert (exists s', push_reconcile cfg (E:=E) host s3 = (s', Ok tt)) as [s' Hp].
  { unfold push_reconcile. destruct (build_reconcile_command _ _ _) as [db' [cmd|e]]; [|by eexists].
    destruct (ctl_agents _ !! host) as [a|]; [|by eexists]. destruct (send_to a _); by eexists. }
  exists s'. split; [done|].
  pose proof (keeps_run _ _ _ _ _ (owners_push cfg db3 host) Hp (same_rows_refl db3)) as Hs.
  apply same_rows_tables in Hs as (Eh & Ec & _ & Ev & Eo & Ei). rewrite Eh, Ec, Ev, Eo, Ei.
  assert (vms db1 = map (cleaned_vm vm later) (vms (ctl_db s)) /\
          clusters db1 = clusters (ctl_db s) /\ hosts db1 = hosts (ctl_db s) /\
          pending_command db1 = pending_command (ctl_db s) /\
          ip_allocations db1 = ip_allocations (ctl_db s)) as (E1 & E2 & E3 & E4 & E5).
  { subst db1. unfold mark_vm_pending_teardown. destruct (existsb _ _) eqn:Ex.
    - destruct (ctl_db s). done.
    - split_and!; [|done..]. simpl. symmetry. rewrite <- (List.map_id (vms (ctl_db s))) at 2.
      apply List.map_ext_in. intros v Hv%list_elem_of_In.
      unfold cleaned_vm. by rewrite (proj1 (existsb_false _ _) Ex v Hv). }
  rewrite <- E1, <- E2, <- E3, <- E4, <- E5. subst db3 db2. destruct db1. simpl. split_and!; [done..|].
  intros r. rewrite elem_of_delete_where, bool_decide_eq_false. done.
Qed.

(** A request whose name is taken is answered with the row that has it. *)
Lemma create_machine_existing `{I : Ipnet} `{J : DbJson} `{S : Sqlite} `{HO : HashOrder} `{P : Prost}
    cfg env req vm now later s c row :
  purposes_ok req = true -> c ∈ clusters (ctl_db s) -> c_id c = cm_cluster_id req ->
  select1 (fun v => (vm_cluster_id v =$ cm_cluster_id req) && (vm_name v =$ cm_name req)) (vms (ctl_db s)) = Some row ->
  create_machine cfg env (PeerNamed CAPI_PROVIDER_IDENTITY) req vm now later s =
    (s, Ok (vm_to_create_response row)).
Proof.
  intros Hpur Hc Hci Hrow. unfold create_machine, require_capi_caller. simpl. rewrite Hpur. simpl.
  unfold se_bind, se_of, lift_db, se_map_err, db_call, get_cluster, get_vm_by_name, se_gets. simpl.
  destruct (select1 (fun c => c_id c =$ cm_cluster_id req) (clusters (ctl_db s))) as [c'|] eqn:Ec.
  - simpl. rewrite Hrow. by destruct s.
  - apply (proj1 (select1_None _ _) Ec), String.eqb_neq in Hc. done.
Qed.

(** A retried [CreateMachine] hands out a VM that is being deleted. After
    the agent reports that the VM failed, the first call returns an error and
    puts the row on its way out, addresses released; the caller's retry of the
    same request is answered with success, naming that doomed VM and the
    address it no longer owns, and starts nothing. *)
Theorem retry_returns_doomed_vm `{I : Ipnet} `{J : DbJson} `{S : Sqlite} `{HO : HashOrder} `{P : Prost}
    cfg env req v c later failure s vm2 now2 later2 :
  NoDup (map (fun v => (vm_cluster_id v, vm_name v)) (vms (ctl_db s))) ->
  v ∈ vms (ctl_db s) -> vm_cluster_id v = cm_cluster_id req -> vm_name v = cm_name req ->
  c ∈ clusters (ctl_db s) -> c_id c = cm_cluster_id req -> purposes_ok req = true ->
  exists s' e, finish_create cfg (vm_id v) (c_id c) (vm_host_id v) later (Delivered (Err failure)) s = (s', Err e) /\
    create_machine cfg env (PeerNamed CAPI_PROVIDER_IDENTITY) req vm2 now2 later2 s' =
      (s', Ok (vm_to_create_response v)) /\
    (exists v', v' ∈ vms (ctl_db s') /\ vm_id v' = vm_id v /\ vm_state v' = VM_STATE_PENDING_TEARDOWN) /\
    (forall r, r ∈ ip_allocations (ctl_db s') -> ipa_vm_id r <> Some (vm_id v)).
Proof.
  intros Hname Hv Hvc Hvn Hc Hci Hpur.
  destruct (cleanup_effect (E:=Code) cfg (vm_id v) (c_id c) (vm_host_id v) later s)
    as (s' & Hclean & Ev & Ec & _ & _ & Hip).
  exists s', (if vf_transient failure then CodeUnavailable else CodeInternal).
  split; [unfold finish_create, se_bind; by rewrite Hclean|].
  assert (with_vm_state VM_STATE_PENDING_TEARDOWN (vm_error_message v) later v ∈ vms (ctl_db s')) as Hv'.
  { rewrite Ev. apply elem_of_map. exists v. split; [done|]. unfold cleaned_vm. by rewrite String.eqb_refl. }
  split_and!; [|by eexists|by intros r [_ ?]%Hip].
  erewrite (create_machine_existing cfg env req vm2 now2 later2 s' c);
    [|done|by rewrite Ec|done|apply select1_only; [exact Hv'|simpl; rewrite Hvc, Hvn; by rewrite !String.eqb_refl|]].
  - done.
  - intros r Hr [E1%String.eqb_eq E2%String.eqb_eq]%andb_true_iff. rewrite Ev in Hr.
    apply elem_of_map in Hr as (v0 & Hv0 & <-).
    assert (v0 = v) as ->; [|unfold cleaned_vm; by rewrite String.eqb_refl].
    apply (NoDup_map_inj _ _ _ _ Hname Hv0 Hv). unfold cleaned_vm in E1, E2.
    destruct (vm_id v0 =$ vm_id v); simpl in E1, E2; by rewrite E1, E2, Hvc, Hvn.
Qed.

(** ** A command left behind *)

Section dispatch.
Context `{I : Ipnet} `{J : DbJson} `{S : Sqlite} `{HO : HashOrder} `{P : Prost}.
Variable cfg : CtlConfig.

Lemma push_total {E} host s : exists s', push_reconcile cfg (E:=E) host s = (s', Ok tt).
Proof.
  unfold push_reconcile. destruct (build_reconcile_command _ _ _) as [db' [cmd|e]]; [|by eexists].
  destruct (ctl_agents _ !! host) as [a|]; [|by eexists]. destruct (send_to a _); by eexists.
Qed.

Lemma broadcast_total {E} c s : exists s', broadcast_cluster cfg (E:=E) c s = (s', Ok tt).
Proof.
  unfold broadcast_cluster, se_bind, se_try, db_call. simpl.
  match goal with |- context [se_for ?l _ ?s0] => generalize l, s0 end.
  intros l. induction l as [|h l IH]; intros s0; simpl; [by eexists|].
  unfold se_bind. destruct (push_total (E:=E) h s0) as [s1 ->]. apply IH.
Qed.

(** A push cannot reach a closed channel. *)
Lemma closed_push {E} host a h :
  ag_open a = false -> keeps (fun s => ctl_agents s !! host = Some a) (push_reconcile cfg (E:=E) h).
Proof.
  intros Ho s Hs. unfold push_reconcile.
  destruct (build_reconcile_command _ _ _) as [db' [cmd|e]]; [|done]. simpl.
  destruct (decide (h = host)) as [->|Hne].
  - rewrite Hs. unfold send_to. by rewrite Ho.
  - destruct (ctl_agents s !! h) as [b|]; [|done].
    destruct (send_to b _); [|done]. simpl. by rewrite lookup_insert_ne.
Qed.

Lemma closed_broadcast {E} host a c :
  ag_open a = false -> keeps (fun s => ctl_agents s !! host = Some a) (broadcast_cluster cfg (E:=E) c).
Proof.
  intros Ho. unfold broadcast_cluster. apply keeps_bind.
  - apply keeps_try, frame_db_call. done.
  - intros [hs|e]; [|apply keeps_ret]. apply keeps_for. intros h. by apply closed_push.
Qed.

Lemma owners_broadcast {E} db0 c : keeps (on_db (same_rows db0)) (broadcast_cluster cfg (E:=E) c).
Proof.
  unfold broadcast_cluster. apply keeps_bind; [apply keeps_try, keeps_db_call; apply keeps_read; done|].
  intros [hs|e]; [|apply keeps_ret]. apply keeps_for. intros h. apply owners_push.
Qed.

(** Activating a pair touches memberships only. *)
Lemma ensure_tables c host db :
  let db' := fst (ensure_host_cluster_active c host db) in
  vms db' = vms db /\ pending_command db' = pending_command db /\ pending_command_seq db' = pending_command_seq db /\
  hosts db' = hosts db.
Proof.
  unfold ensure_host_cluster_active, se_bind, se_of. destruct (bridge_range c) as [rg|e]; [|done].
  unfold se_tx. destruct (select1 _ _) as [r|]; [by destruct db|].
  destruct (find_cte _ _ _) as [n|]; [|done]. destruct (pair_references_ok _ _ _); [|done].
  generalize (sql_printf_ip n). intros ip. by destruct db.
Qed.

(** The dispatch to a host whose agent has just gone. *)
Lemma dispatch_closed env req vm c later p s gateway a :
  (forall s, env 10%nat s = s) ->
  snd (ensure_host_cluster_active c (vm_host_id (pl_vm p)) (ctl_db s)) = Ok gateway ->
  ctl_agents s !! vm_host_id (pl_vm p) = Some a -> ag_open a = false ->
  exists s' id, dispatch cfg env req vm c later p s = (s', Err CodeUnavailable) /\
    vms (ctl_db s') = map (cleaned_vm vm later) (vms (ctl_db s)) /\
    pending_command (ctl_db s') = pending_command (ctl_db s) ++
      [{| pc_id := id; pc_host_id := vm_host_id (pl_vm p); pc_vm_id := vm;
          pc_payload := encode_command (create_vm_command cfg req vm gateway c p); pc_state := "pending" |}] /\
    hosts (ctl_db s') = hosts (ctl_db s) /\
    (forall r, r ∈ ip_allocations (ctl_db s') -> ipa_vm_id r <> Some vm).
Proof.
  intros Henv He Ha Ho. set (host := vm_host_id (pl_vm p)) in *.
  pose proof (ensure_tables c host (ctl_db s)) as (Tv & Tp & Ts & Th).
  unfold dispatch, se_bind, se_try, db_call. fold host.
  destruct (ensure_host_cluster_active c host (ctl_db s)) as [db1 [gw|e]]; simpl in *; [|done].
  injection He as ->. set (s1 := set_db _ s).
  destruct (broadcast_total (E:=Code) (c_id c) s1) as [s2 Hb]. rewrite Hb. simpl. rewrite Henv.
  pose proof (keeps_run _ _ _ _ _ (owners_broadcast db1 (c_id c)) Hb (same_rows_refl db1)) as Hs2.
  apply same_rows_tables in Hs2 as (Bh & _ & _ & Bv & Bp & _).
  pose proof (keeps_run _ _ _ _ _ (closed_broadcast host a (c_id c) Ho) Hb Ha) as Ha2. simpl in Ha2.
  rewrite Ha2. unfold send_to. rewrite Ho. simpl.
  match goal with |- context [cleanup_failed_vm _ _ _ _ _ ?s0] => set (s3 := s0) end.
  destruct (cleanup_effect (E:=Code) cfg vm (c_id c) host later s3) as (s4 & -> & Ev & _ & Eh & Ep & Ei).
  exists s4, (pending_command_seq (ctl_db s2) + 1). split; [done|].
  rewrite Ev, Eh, Ep. subst s3. cbn [ctl_db set_db set_pending set_resolved].
  split_and!; [..|by intros r [_ ?]%Ei].
  - rewrite <- Tv, <- Bv. by destruct (ctl_db s2).
  - rewrite <- Tp, <- Bp. by destruct (ctl_db s2).
  - rewrite <- Th, <- Bh. by destruct (ctl_db s2).
Qed.

Lemma register_vms r uuid now t :
  keeps (on_db (fun db => vms db = t)) (register_or_lookup_host r uuid now).
Proof.
  assert (forall h, keeps (fun db => vms db = t) (upsert_host h)) as Hu.
  { intros h [] E. unfold upsert_host. simpl in *. by repeat case_match. }
  unfold register_or_lookup_host. keep.
Qed.

Lemma initial_tombstones host now s s' initial v :
  initial_reconcile cfg host now None s = (s', Ok initial) ->
  v ∈ vms (ctl_db s) -> vm_host_id v = host -> vm_state v = VM_STATE_PENDING_TEARDOWN ->
  vm_id v ∈ rc_vm_tombstones initial.
Proof.
  intros H Hv Hh Hst. apply se_bind_ok in H as (s1 & first & H & [= _ ->]).
  unfold lift_internal, se_map_err, db_call in H.
  destruct (build_reconcile_command cfg host (ctl_db s)) as [db' [cmd|e]] eqn:E; [|discriminate].
  injection H as _ ->. apply build_reconcile_steps in E as (_ & _ & _ & _ & _ & _ & _ & _ & ->).
  apply elem_of_map. exists v. split; [|done]. apply elem_of_select. split; [done|].
  unfold on_host. by rewrite Hh, Hst, String.eqb_refl.
Qed.

Lemma elem_of_queue db host r :
  r ∈ pending_command db -> pc_host_id r = host -> pc_state r = "pending" ->
  (pc_id r, pc_payload r) ∈ queue db host.
Proof.
  intros Hr Hh Hs. rewrite queue_eq. rewrite (merge_sort_Permutation command_le).
  apply elem_of_map. exists r. split; [|done]. apply elem_of_select. split; [done|].
  unfold waiting. by rewrite Hh, Hs, !String.eqb_refl.
Qed.

Lemma elem_of_decoded `{!ProstLaws P} rows id cmd :
  (id, encode_command cmd) ∈ rows -> cmd ∈ decoded rows.
Proof. intros H. apply list_elem_of_omap. exists (id, encode_command cmd). split; [done|]. apply command_roundtrip. Qed.

End dispatch.

(** ** Drains *)

Definition all_draining (t : list DeviceSchedulingStateRow) : Prop :=
  forall m, m ∈ t -> dss_state m = "draining".

(** A loop of reads. *)
Lemma se_map_reads {S E A B} (l : list A) (f : A -> SE S E B) g s :
  (forall x, f x s = (s, Ok (g x))) -> se_map l f s = (s, Ok (map g l)).
Proof.
  intros H. induction l as [|x l IH]; [done|]. simpl. unfold se_bind. by rewrite H, IH.
Qed.

Lemma drained_none t host :
  all_draining t ->
  dom (filter (fun kv => dss_state (snd kv) = "disabled")
    (list_to_map (map (fun r => ((dss_pool r, dss_device_id r), r))
       (select (fun r => dss_host_id r =$ host) t)) : gmap (string * string) DeviceSchedulingStateRow)) =
  (∅ : gset (string * string)).
Proof.
  intros Ht. apply dom_empty_iff_L, map_empty_filter. intros k m Hm Hd. simpl in Hd.
  apply elem_of_list_to_map_2 in Hm. apply elem_of_map in Hm as (r & Hr & [= _ ->]).
  apply elem_of_select in Hr as [Hr _]. rewrite (Ht m Hr) in Hd. discriminate.
Qed.

Section drains.
Context `{J : DbJson} `{HO : HashOrder}.
Variable cfg : CtlConfig.

Lemma host_view_markers c h db t :
  all_draining (device_scheduling_state db) -> all_draining t ->
  let db' := set_device_scheduling (fun _ => t) db in
  exists v, host_view c h db = (db, Ok v) /\ host_view c h db' = (db', Ok v).
Proof.
  intros Hd Ht. destruct db as [hs cs hcs vs hps hpds pdas dss pcs seq lvo gs ips]. simpl in *.
  unfold host_view, se_bind, list_host_pools, host_drain_markers, list_host_replicated_assignments, se_gets.
  cbn [host_pools device_scheduling_state pool_disk_assignment].
  set (devs := fun p => (hp_pool p, merge_sort device_le
    (select (fun r => (hpd_host_id r =$ h_id h) && (hpd_pool r =$ hp_pool p)) hpds))).
  eexists. split; (rewrite (se_map_reads _ _ devs) by (intros; reflexivity));
    cbn [device_scheduling_state pool_disk_assignment]; (rewrite drained_none by done); reflexivity.
Qed.

Lemma se_map_same {S E A B} (l : list A) (f : A -> SE S E B) s s' :
  (forall x, exists v, f x s = (s, Ok v) /\ f x s' = (s', Ok v)) ->
  exists vs, se_map l f s = (s, Ok vs) /\ se_map l f s' = (s', Ok vs).
Proof.
  intros H. induction l as [|x l (vs & IH1 & IH2)]; [by exists []|]. simpl. unfold se_bind.
  destruct (H x) as (v & H1 & H2). exists (v :: vs). by rewrite H1, IH1, H2, IH2.
Qed.

Lemma pick_host_markers req db t :
  all_draining (device_scheduling_state db) -> all_draining t ->
  snd (pick_host cfg req (set_device_scheduling (fun _ => t) db)) = snd (pick_host cfg req db).
Proof.
  intros Hd Ht. unfold pick_host, se_bind, list_healthy_hosts, se_gets.
  destruct (se_map_same (select h_healthy (hosts db))
    (fun h => do! v <- host_view (cm_cluster_id req) h ; se_ret (h_id h, v))
    db (set_device_scheduling (fun _ => t) db)) as (vs & H1 & H2).
  { intros h. destruct (host_view_markers (cm_cluster_id req) h db t Hd Ht) as (v & E1 & E2).
    exists (h_id h, v). unfold se_bind. cbv zeta in E2. by rewrite E1, E2. }
  assert (hosts (set_device_scheduling (fun _ => t) db) = hosts db) as -> by (by destruct db).
  assert (snd (host_usage_snapshot (set_device_scheduling (fun _ => t) db)) = snd (host_usage_snapshot db)) as Hu
    by (destruct db; unfold host_usage_snapshot; simpl; by destruct (collect_sums _ _)).
  pose proof (host_usage_snapshot_read db) as R1.
  pose proof (host_usage_snapshot_read (set_device_scheduling (fun _ => t) db)) as R2.
  destruct (host_usage_snapshot db) as [d1 [u|e]], (host_usage_snapshot (set_device_scheduling (fun _ => t) db)) as [d2 [u'|e']];
    simpl in *; try congruence.
  injection Hu as ->. subst d1 d2. unfold se_bind in H1, H2. by rewrite H1, H2.
Qed.

(** C39: draining a device does not keep new disks off it. The request to
    disable a device is accepted and recorded, as [draining]; the scheduling
    pass looks for [disabled], so every decision it takes afterwards, on every
    request, is the one it would have taken before. *)
Theorem drained_device_still_offered peer host pool dev reason s s' req :
  all_draining (device_scheduling_state (ctl_db s)) ->
  api_set_device_scheduling_state peer host pool dev "disabled" reason s = (s', Ok tt) ->
  (exists m, m ∈ device_scheduling_state (ctl_db s') /\
     dss_host_id m = host /\ dss_pool m = pool /\ dss_device_id m = dev /\ dss_state m = "draining") /\
  all_draining (device_scheduling_state (ctl_db s')) /\
  snd (pick_host cfg req (ctl_db s')) = snd (pick_host cfg req (ctl_db s)).
Proof.
  intros Hd H. unfold api_set_device_scheduling_state in H. apply se_bind_ok in H as (s1 & [] & Hc & H).
  assert (s1 = s) as -> by (unfold se_of in Hc; congruence). clear Hc.
  destruct (_ || _); [discriminate|]. unfold lift_db, se_map_err, db_call in H.
  remember (if reason =$ "" then None else Some reason) as why.
  unfold set_device_scheduling_state in H. simpl in H. injection H as <-.
  set (row := {| dss_host_id := host; dss_pool := pool; dss_device_id := dev;
                 dss_state := "draining"; dss_reason := why |}). set (f := fun t : list DeviceSchedulingStateRow => _).
  set (t := f (device_scheduling_state (ctl_db s))).
  assert (set_device_scheduling f (ctl_db s) = set_device_scheduling (fun _ => t) (ctl_db s)) as E
    by (by destruct (ctl_db s)).
  assert (row ∈ t) as Hrow.
  { subst t f. simpl. destruct (existsb _ _) eqn:Ex; [|set_solver].
    apply existsb_true in Ex as (m & Hm & Hp). apply elem_of_update_where. exists m. by rewrite Hp. }
  assert (all_draining t) as Ht.
  { intros m Hm. subst t f. cbv beta in Hm. destruct (existsb _ _).
    - apply elem_of_update_where in Hm as (m0 & Hm0 & ->).
      destruct (at_device host pool dev m0); [done|by apply Hd].
    - apply elem_of_app in Hm as [Hm|Hm%list_elem_of_singleton]; [by apply Hd|by subst m]. }
  cbn [ctl_db set_db]. rewrite E. split_and!; [|by destruct (ctl_db s)|by apply pick_host_markers].
  exists row. split_and!; try done. by destruct (ctl_db s).
Qed.
End drains.
