(* ===== verification/Create.v ===== *)
(** * Theorems on creation

    A [CreateCluster] or [CreateMachine] that fails, at any point and under
    any interference, leaves no address allocated to the object it did not
    create; one that succeeds has committed what it answers. *)

From S2P Require Import Prelude Ipv4 Ipnet CidrNet Proto Config Overcommit DbTypes JsonText Ipam Clusters Hosts Vms Teardown Outbox Schema Scheduler Ctl Wire Api Agent Service Streams Machines.

(** ** Who owns addresses *)

(** Every allocated address satisfies [G]. *)
Definition ips_all (G : IpAllocationRow -> Prop) (db : Db) : Prop := forall r, r ∈ ip_allocations db -> G r.

Section ips.
Variable G : IpAllocationRow -> Prop.

Lemma ips_insert_ip row : G row -> keeps (ips_all G) (insert_ip row).
Proof.
  intros Hrow db H. unfold insert_ip. case_match; [done|]. case_match; [done|].
  destruct db. intros r [Hr|Hr%list_elem_of_singleton]%elem_of_app; [by apply H|by subst r].
Qed.

Lemma ips_allocate_from_range scope range vm cl :
  (forall ip sc, G {| ipa_ip_address := ip; ipa_scope := sc; ipa_vm_id := vm; ipa_cluster_id := cl |}) ->
  keeps (ips_all G) (allocate_from_range scope range vm cl).
Proof.
  intros Hg db H. unfold allocate_from_range. destruct (find_cte _ _ _) as [n|]; [|done].
  apply keeps_bind; [by apply ips_insert_ip|intros; apply keeps_ret|done].
Qed.

Lemma ips_pool_vip `{Ipnet} pool cl :
  (forall ip sc, G {| ipa_ip_address := ip; ipa_scope := sc; ipa_vm_id := None; ipa_cluster_id := Some cl |}) ->
  keeps (ips_all G) (allocate_pool_vip pool cl).
Proof. intros Hg. apply keeps_bind; [apply keeps_of|]. intros range. by apply ips_allocate_from_range. Qed.

Lemma ips_reserve scope ip vm cl :
  G {| ipa_ip_address := ip; ipa_scope := scope; ipa_vm_id := vm; ipa_cluster_id := cl |} ->
  keeps (ips_all G) (reserve_specific_ip scope ip vm cl).
Proof.
  intros Hg db H. unfold reserve_specific_ip. pose proof (ips_insert_ip _ Hg db H) as Hi.
  destruct (insert_ip _ db) as [db' [[]|[]]]; try done. by destruct e.
Qed.

Lemma ips_service_block scope range cl count :
  (forall ip sc, G {| ipa_ip_address := ip; ipa_scope := sc; ipa_vm_id := None; ipa_cluster_id := Some cl |}) ->
  keeps (ips_all G) (allocate_service_block scope range cl count).
Proof.
  intros Hg. unfold allocate_service_block. case_match; [apply keeps_fail|]. apply keeps_tx.
  intros db H0. destruct (find_block _ _ _ _ _) as [st|]; [|done].
  apply keeps_bind; [|intros; apply keeps_ret|done]. apply keeps_for. intros n. by apply ips_insert_ip.
Qed.

Lemma ips_same {A} (m : DbM A) :
  (forall db, ip_allocations (fst (m db)) = ip_allocations db) -> keeps (ips_all G) m.
Proof. intros Hm db H r. rewrite Hm. apply H. Qed.
End ips.

Lemma insert_cluster_ips `{Sqlite} c db : ip_allocations (fst (insert_cluster c db)) = ip_allocations db.
Proof. unfold insert_cluster. destruct (cluster_violations _ _); [by destruct db|]. by case_match. Qed.

Lemma allocate_cluster_network_read `{Ipnet} net db : fst (allocate_cluster_network net db) = db.
Proof. unfold allocate_cluster_network. by repeat case_match. Qed.

(** ** Clusters *)

Section clusters.
Context `{I : Ipnet} `{J : DbJson} `{S : Sqlite} `{HO : HashOrder} `{P : Prost}.
Variable cfg : CtlConfig.
Variable env : nat -> Ctl -> Ctl.
Variable uuids : nat -> string.

(** No address belongs to one of the fresh ids; none but to the n-th. *)
Definition unowned (r : IpAllocationRow) : Prop := forall k, ipa_cluster_id r <> Some (uuids k).
Definition owned_by (id : string) (r : IpAllocationRow) : Prop :=
  forall k, ipa_cluster_id r = Some (uuids k) -> uuids k = id.

(** The other tasks do not allocate for ids they have never seen. *)
Hypothesis Henv : forall n s r k, r ∈ ip_allocations (ctl_db (env n s)) ->
  ipa_cluster_id r = Some (uuids k) -> r ∈ ip_allocations (ctl_db s).

Lemma owned_of_unowned id db : ips_all unowned db -> ips_all (owned_by id) db.
Proof. intros H r Hr k E. by apply (H r Hr k) in E. Qed.

Lemma env_owned id n s : on_db (ips_all (owned_by id)) s -> on_db (ips_all (owned_by id)) (env n s).
Proof. intros H r Hr k E. by eapply H; [eapply Henv|]. Qed.
Lemma env_unowned n s : on_db (ips_all unowned) s -> on_db (ips_all unowned) (env n s).
Proof. intros H r Hr k E. by eapply (H r); [eapply Henv|]. Qed.

Lemma released_unowned {E} id s :
  on_db (ips_all (owned_by id)) s -> on_db (ips_all unowned) (fst (log_db (E:=E) (release_cluster_ips id) s)).
Proof.
  rewrite log_db_eq. unfold on_db. simpl. intros H. destruct (ctl_db s). intros r Hr k E0. simpl in Hr.
  apply elem_of_delete_where in Hr as [Hr Hn%bool_decide_eq_false]. apply Hn.
  by rewrite E0, (H r Hr k E0).
Qed.

Lemma rollback_ips {A} id (m : CtlM A) s s' r :
  keeps (on_db (ips_all (owned_by id))) m -> on_db (ips_all (owned_by id)) s ->
  or_rollback id m s = (s', r) ->
  match r with Ok _ => on_db (ips_all (owned_by id)) s' | Err _ => on_db (ips_all unowned) s' end.
Proof.
  intros Hm Hs. unfold or_rollback. specialize (Hm s Hs). destruct (m s) as [s1 [a|e]]; [by intros [= <- <-]|].
  unfold se_bind. pose proof (released_unowned (E:=Code) id s1 Hm) as Hr.
  rewrite log_db_eq in *. by intros [= <- <-].
Qed.

Lemma owned_new id vm ip sc : owned_by id {| ipa_ip_address := ip; ipa_scope := sc; ipa_vm_id := vm; ipa_cluster_id := Some id |}.
Proof. intros k [= E]. done. Qed.

Lemma owned_vip id vis pool cn :
  keeps (on_db (ips_all (owned_by id))) (allocate_apiserver_vip vis pool cn id).
Proof.
  unfold allocate_apiserver_vip. destruct vis.
  - apply keeps_lift_db, ips_pool_vip. intros. apply owned_new.
  - apply keeps_bind; [|intros; apply keeps_ret]. apply keeps_lift_db, ips_reserve, owned_new.
Qed.
Lemma owned_block id pool count :
  keeps (on_db (ips_all (owned_by id))) (api_allocate_service_block pool id count).
Proof.
  unfold api_allocate_service_block. case_match; [apply keeps_ret|].
  apply keeps_bind; [apply keeps_of|]. intros rg. apply keeps_lift_db, ips_service_block. intros. apply owned_new.
Qed.

(** The outcome of one round. *)
Definition round_ends (req : CreateClusterRequest) (id : string) (s : Ctl) (r : result Code (option ClusterRow)) : Prop :=
  match r with
  | Ok (Some row) => on_db (ips_all (owned_by (c_id row))) s /\ row ∈ clusters (ctl_db s) /\ c_name row = cr_name req
  | Ok None | Err _ => on_db (ips_all unowned) s
  end.

(** The insert of the row and its three kinds of failure. *)
Lemma insert_round req id row s s' r :
  c_id row = id -> c_name row = cr_name req -> on_db (ips_all (owned_by id)) s ->
  (do! r <- se_try (db_call (insert_cluster row)) ;
   match r with
   | Ok _ => se_ret (Some row)
   | Err (Conflict _) =>
       run! log_db (release_cluster_ips id) ;
       do! existing <- lift_db (get_cluster_by_name (cr_name req)) ;
       match existing with Some c => se_ret (Some c) | None => se_fail CodeInternal end
   | Err (AllocationRaced _) => run! log_db (release_cluster_ips id) ; se_ret None
   | Err other => run! log_db (release_cluster_ips id) ; se_fail (db_status other)
   end) s = (s', r) -> round_ends req id s' r.
Proof.
  intros Hid Hname Hs. unfold se_bind at 1, se_try, db_call.
  pose proof (insert_cluster_ips row (ctl_db s)) as Hips. unfold insert_cluster in *.
  destruct (cluster_violations row (clusters (ctl_db s))) as [|v vs].
  - intros [= <- <-]. split_and!; [| |done].
    + rewrite Hid. unfold on_db, ips_all. simpl in *. rewrite Hips. exact Hs.
    + simpl. destruct (ctl_db s). simpl. set_solver.
  - set (s1 := set_db (fun _ => ctl_db s) s).
    pose proof (released_unowned (E:=Code) id s1 Hs) as Hu. rewrite log_db_eq in Hu.
    destruct (_ || _); unfold se_bind; rewrite log_db_eq; [by intros [= <- <-]|].
    unfold lift_db, se_map_err, db_call, get_cluster_by_name, se_gets. simpl.
    destruct (select1 _ _) as [c|] eqn:Ec; intros [= <- <-]; [|exact Hu].
    apply select1_Some in Ec as [Hc Hn%String.eqb_eq]. split_and!; [|done|done].
    apply owned_of_unowned. exact Hu.
Qed.

Lemma attempt_round req vis pool count id now n s s' r :
  on_db (ips_all unowned) s ->
  create_cluster_attempt cfg env req vis pool count id now n s = (s', r) -> round_ends req id s' r.
Proof.
  intros Hs. unfold create_cluster_attempt. unfold se_bind at 1, lift_db, se_map_err, db_call.
  pose proof (allocate_cluster_network_read (cc_network cfg) (ctl_db s)) as Hn.
  destruct (allocate_cluster_network _ _) as [db0 [cn|e]]; simpl in Hn; subst db0; [|by intros [= <- <-]].
  set (s1 := set_db _ s). assert (on_db (ips_all unowned) s1) as H1 by done.
  simpl map_err. unfold se_bind at 1, yield, se_modify.
  apply (env_unowned (3 * n)) in H1. apply (owned_of_unowned id) in H1.
  unfold se_bind at 1. destruct (or_rollback id (allocate_apiserver_vip _ _ _ _) _) as [s2 [ep|e]] eqn:E2;
    apply (rollback_ips id _ _ _ _ (owned_vip id vis pool cn) H1) in E2; [|by intros [= <- <-]].
  unfold se_bind at 1. apply (env_owned id (3 * n + 1)) in E2.
  unfold se_bind at 1. destruct (or_rollback id (api_allocate_service_block _ _ _) _) as [s3 [bl|e]] eqn:E3;
    apply (rollback_ips id _ _ _ _ (owned_block id pool count) E2) in E3; [|by intros [= <- <-]].
  unfold se_bind at 1. apply (env_owned id (3 * n + 2)) in E3.
  apply insert_round; done.
Qed.

Lemma loop_round req vis pool count nows fuel n s s' r :
  on_db (ips_all unowned) s ->
  create_cluster_loop cfg env req vis pool count uuids nows fuel n s = (s', r) ->
  match r with
  | Ok row => on_db (ips_all (owned_by (c_id row))) s' /\ row ∈ clusters (ctl_db s') /\ c_name row = cr_name req
  | Err _ => on_db (ips_all unowned) s'
  end.
Proof.
  revert n s. induction fuel as [|fuel IH]; intros n s Hs; simpl; [by intros [= <- <-]|].
  unfold se_bind. destruct (create_cluster_attempt _ _ _ _ _ _ _ _ _ _) as [s1 [[row|]|e]] eqn:E;
    apply (attempt_round _ _ _ _ _ _ _ _ _ _ Hs) in E; [by intros [= <- <-]| |by intros [= <- <-]].
  by apply IH.
Qed.

(** The idempotent path: the row that has the name, its trust domain fresh. *)
Lemma refresh_round req existing s s' r :
  on_db (ips_all unowned) s -> existing ∈ clusters (ctl_db s) -> c_name existing = cr_name req ->
  refresh_trust_domain cfg req existing s = (s', r) ->
  on_db (ips_all unowned) s' /\
  match r with Ok row => row ∈ clusters (ctl_db s') /\ c_name row = cr_name req | Err _ => True end.
Proof.
  intros Hs Hin Hn. unfold refresh_trust_domain. case_match; [|by intros [= <- <-]].
  unfold se_bind, lift_db, se_map_err, db_call, update_cluster_trust_domain.
  simpl. set (s1 := set_db _ s). destruct (broadcast_total cfg (E:=Code) (c_id existing) s1) as [s2 Hb].
  rewrite Hb. intros [= <- <-].
  pose proof (keeps_run _ _ _ _ _ (owners_broadcast cfg (ctl_db s1) (c_id existing)) Hb (same_rows_refl _)) as Ho.
  apply same_rows_tables in Ho as (_ & Ec & _ & _ & _ & Ei). unfold on_db, ips_all in *.
  rewrite Ei, Ec. subst s1. simpl. destruct (ctl_db s) as [hs cs]. split; [exact Hs|]. split; [|done].
  apply elem_of_update_where. exists existing. split; [done|]. by rewrite String.eqb_refl.
Qed.
End clusters.

(** What a call may leave, by its answer. *)
Definition cluster_outcome (req : CreateClusterRequest) (uuids : nat -> string) (s : Ctl)
    (r : result Code CreateClusterResponse) : Prop :=
  match r with
  | Err _ => forall r k, r ∈ ip_allocations (ctl_db s) -> ipa_cluster_id r <> Some (uuids k)
  | Ok resp =>
      (exists row, row ∈ clusters (ctl_db s) /\ c_id row = ccr_cluster_id resp /\ c_name row = cr_name req) /\
      (forall r k, r ∈ ip_allocations (ctl_db s) -> ipa_cluster_id r = Some (uuids k) ->
                   uuids k = ccr_cluster_id resp)
  end.

Lemma failed_outcome req uuids s e s' r :
  on_db (ips_all (unowned uuids)) s -> (s, Err e) = (s', r) -> cluster_outcome req uuids s' r.
Proof. intros H [= <- <-] x k Hx. by apply H. Qed.

(** C10: [CreateCluster] leaks no address. Whatever the other tasks do
    meanwhile, short of allocating for the fresh ids of this call: when it
    fails, after any number of lost races, no address is left allocated to any
    id it tried; when it succeeds, the cluster it answers with is in the
    database under the requested name, and addresses are allocated to that id
    only. *)
Theorem create_cluster_no_leak `{I : Ipnet} `{J : DbJson} `{S : Sqlite} `{HO : HashOrder} `{P : Prost}
    cfg env peer req uuids nows s s' r :
  (forall n s r k, r ∈ ip_allocations (ctl_db (env n s)) -> ipa_cluster_id r = Some (uuids k) ->
                   r ∈ ip_allocations (ctl_db s)) ->
  (forall r k, r ∈ ip_allocations (ctl_db s) -> ipa_cluster_id r <> Some (uuids k)) ->
  create_cluster cfg env peer req uuids nows s = (s', r) ->
  cluster_outcome req uuids s' r.
Proof.
  intros Henv Hs. assert (on_db (ips_all (unowned uuids)) s) as Hs' by (intros x Hx k; by apply Hs).
  unfold create_cluster, se_bind at 1, se_of.
  destruct (require_capi_caller peer) as [[]|e]; [|by apply failed_outcome].
  unfold se_bind at 1. destruct (ok_or _ _) as [vis|e]; [|by apply failed_outcome].
  case_match; [by apply failed_outcome|]. case_match; [by apply failed_outcome|].
  unfold se_bind at 1. destruct (resolve_pool _ _) as [pool|e]; [|by apply failed_outcome].
  unfold se_bind at 1, lift_db, se_map_err, db_call, get_cluster_by_name, se_gets. simpl map_err. cbv iota beta.
  set (s1 := set_db _ s). assert (on_db (ips_all (unowned uuids)) s1) as H1 by done.
  destruct (select1 _ _) as [c|] eqn:Ec; unfold se_bind.
  - apply select1_Some in Ec as [Hc Hn%String.eqb_eq].
    destruct (refresh_trust_domain cfg req c s1) as [s2 [row|e]] eqn:E;
      apply (refresh_round _ _ _ _ _ _ _ H1 Hc Hn) in E as [Hu Hr]; [|by apply failed_outcome].
    intros [= <- <-]. destruct Hr as [Hr1 Hr2]. split; [by exists row|].
    intros x k Hx E. by apply (Hu x Hx k) in E.
  - destruct (create_cluster_loop _ _ _ _ _ _ _ _ _ _ _) as [s2 [row|e]] eqn:E;
      apply (loop_round _ _ _ Henv _ _ _ _ _ _ _ _ _ _ H1) in E; [|by apply failed_outcome].
    intros [= <- <-]. destruct E as (Ho & Hr1 & Hr2). split; [by exists row|].
    intros x k Hx Ek. by apply (Ho x Hx k).
Qed.

(** ** Machines *)

Section machines.
Context `{I : Ipnet} `{J : DbJson} `{S : Sqlite} `{HO : HashOrder} `{P : Prost}.
Variable cfg : CtlConfig.
Variable env : nat -> Ctl -> Ctl.
Variable vm : string.

(** No address belongs to the VM. *)
Definition no_vm_ip (s : Ctl) : Prop := forall r, r ∈ ip_allocations (ctl_db s) -> ipa_vm_id r <> Some vm.

(** The other tasks do not allocate for an id they have never seen. *)
Hypothesis Henv : forall n s, no_vm_ip s -> no_vm_ip (env n s).

Lemma released_no_vm_ip {E} s : no_vm_ip (fst (log_db (E:=E) (release_vm_ips vm) s)).
Proof.
  rewrite log_db_eq. intros r Hr. simpl in Hr. destruct (ctl_db s). simpl in Hr.
  by apply elem_of_delete_where in Hr as [_ Hn%bool_decide_eq_false].
Qed.

Lemma cleaned_no_vm_ip {E} c h later s : no_vm_ip (fst (cleanup_failed_vm cfg (E:=E) vm c h later s)).
Proof.
  destruct (cleanup_effect (E:=E) cfg vm c h later s) as (s' & -> & _ & _ & _ & _ & Hip).
  intros r Hr. by apply Hip.
Qed.

Lemma pick_host_read req db : fst (pick_host cfg req db) = db.
Proof.
  assert (keeps (fun d => d = db) (pick_host cfg req)) as H; [|by apply H].
  unfold pick_host, host_view. keep. apply keeps_read, host_usage_snapshot_read.
Qed.

Lemma allocate_vm_ip_err c db db' e : allocate_cluster_vm_ip c vm db = (db', Err e) -> db' = db.
Proof.
  unfold allocate_cluster_vm_ip, se_bind, se_of. destruct (vm_range c) as [rg|e']; [|by intros [= <- _]].
  unfold allocate_from_range. destruct (find_cte _ _ _) as [n|]; [|by intros [= <- _]].
  generalize (sql_printf_ip n). intros ip. unfold se_bind, insert_ip.
  destruct (Bool.eqb _ _); [by intros [= <- _]|]. destruct (existsb _ _); [by intros [= <- _]|done].
Qed.

(** A placement that fails keeps no address. *)
Lemma try_place_vm_outcome req c now n s s' r :
  no_vm_ip s -> try_place_vm cfg env req vm c now n s = (s', r) ->
  match r with
  | Err _ => no_vm_ip s'
  | Ok p => vm_id (pl_vm p) = vm /\ pl_vm p ∈ vms (ctl_db s')
  end.
Proof.
  intros Hs. unfold try_place_vm. unfold se_bind at 1, se_map_err at 1, db_call at 1.
  pose proof (pick_host_read req (ctl_db s)) as Hp.
  destruct (pick_host cfg req (ctl_db s)) as [db0 [picked|e]]; simpl in Hp; subst db0; [|by intros [= <- <-]].
  simpl map_err. cbv iota beta. set (s1 := set_db _ s). assert (no_vm_ip s1) as H1 by done.
  unfold se_bind at 1, se_of. destruct (map_err place_error picked) as [d|e]; [|by intros [= <- <-]].
  unfold se_bind at 1, yield, se_modify. apply (Henv (2 * n)) in H1.
  unfold se_bind at 1, se_map_err, db_call at 1. set (s2 := env (2 * n) s1) in *.
  destruct (allocate_cluster_vm_ip c vm (ctl_db s2)) as [db2 [ip|e]] eqn:Ea; cbn [map_err].
  2: { apply allocate_vm_ip_err in Ea as ->. by intros [= <- <-]. }
  unfold se_bind at 1. set (s3 := env _ (set_db _ _)).
  unfold se_bind at 1, se_try, db_call. set (row := placed_vm req vm now ip d).
  destruct (insert_vm _ row _ _ (ctl_db s3)) as [db4 [[]|e]] eqn:Ei.
  - intros [= <- <-]. split; [done|]. apply insert_vm_ok in Ei as (-> & _). simpl.
    destruct (ctl_db s3). simpl. set_solver.
  - unfold se_bind. set (s4 := set_db _ s3). pose proof (released_no_vm_ip (E:=PlaceError) s4) as Hr.
    rewrite log_db_eq in *. by intros [= <- <-].
Qed.

Lemma place_loop_outcome req c now fuel n s s' r :
  no_vm_ip s -> place_loop cfg env req vm c now fuel n s = (s', r) ->
  match r with
  | Err _ => no_vm_ip s'
  | Ok (inl row) => row ∈ vms (ctl_db s')
  | Ok (inr p) => vm_id (pl_vm p) = vm /\ pl_vm p ∈ vms (ctl_db s')
  end.
Proof.
  revert n s. induction fuel as [|fuel IH]; intros n s Hs; simpl; [by intros [= <- <-]|].
  unfold se_bind, se_try. destruct (try_place_vm _ _ _ _ _ _ _ _) as [s1 [p|e]] eqn:E;
    apply (try_place_vm_outcome _ _ _ _ _ _ _ Hs) in E; [by intros [= <- <-]|].
  destruct e; [by apply IH|by apply IH|by intros [= <- <-]| |by intros [= <- <-]].
  unfold lift_db, se_map_err, db_call, get_vm_by_name, se_gets. simpl.
  destruct (select1 _ _) as [row|] eqn:Er; intros [= <- <-]; [|done].
  by apply select1_Some in Er as [? _].
Qed.

Lemma dispatch_err req c later p s s' e :
  dispatch cfg env req vm c later p s = (s', Err e) -> no_vm_ip s'.
Proof.
  assert (forall c h s1 s2 (e1 : Code) r1, (run! cleanup_failed_vm cfg vm c h later ; se_fail (A:=unit) e1) s1 = (s2, r1) ->
          no_vm_ip s2) as Hc.
  { intros c0 h s1 s2 e1 r1. unfold se_bind. pose proof (cleaned_no_vm_ip (E:=Code) c0 h later s1) as H.
    destruct (cleanup_failed_vm _ _ _ _ _ s1) as [s3 [[]|]]; by intros [= <- _]. }
  unfold dispatch. unfold se_bind at 1, se_try, db_call.
  destruct (ensure_host_cluster_active _ _ _) as [db1 [gw|e1]]; [|by apply Hc].
  unfold se_bind at 1. destruct (broadcast_total cfg (E:=Code) (c_id c) (set_db (fun _ => db1) s)) as [s2 ->].
  unfold se_bind at 1, yield, se_modify. unfold se_bind at 1, se_gets.
  destruct (ctl_agents _ !! _) as [a|]; [|by apply Hc].
  unfold se_bind at 1, register_pending_op, se_modify. unfold se_bind at 1, enqueue_pending_command.
  unfold send_to. destruct (ag_open a).
  - unfold se_bind, se_modify. rewrite log_db_eq. discriminate.
  - unfold se_bind at 1, se_modify. by apply Hc.
Qed.
End machines.

(** What a call may leave, by its answer. *)
Definition machine_outcome (vm : string) (s : Ctl) (r : result Code CreateMachineResponse) : Prop :=
  match r with
  | Ok resp => exists row, row ∈ vms (ctl_db s) /\ resp = vm_to_create_response row
  | Err e => no_vm_ip vm s \/ e = CodeDeadlineExceeded \/ e = CodeNotFound
  end.

Lemma finish_outcome cfg vm c h later w s s' r :
  finish_create cfg vm c h later w s = (s', r) -> machine_outcome vm s' r.
Proof.
  assert (forall e s', (run! cleanup_failed_vm cfg vm c h later ; se_fail (A:=CreateMachineResponse) (E:=Code) e) s = (s', r) ->
          machine_outcome vm s' r) as Hc.
  { intros e s0. unfold se_bind. pose proof (cleaned_no_vm_ip cfg vm (E:=Code) c h later s) as H.
    destruct (cleanup_effect (E:=Code) cfg vm c h later s) as (s1 & E & _). rewrite E in *.
    intros [= <- <-]. by left. }
  destruct w as [[[]|f]| | ]; simpl; [|by apply Hc|by apply Hc|].
  - unfold se_bind, lift_db, se_map_err, db_call, get_vm. simpl.
    destruct (select1 _ _) as [row|] eqn:Er; intros [= <- <-]; [|by right; right].
    exists row. by apply select1_Some in Er as [? _].
  - unfold se_bind, se_modify. rewrite log_db_eq. intros [= <- <-]. right. by left.
Qed.


(** ** Witnesses *)

(** What a task that lost the agent does to the connection of "h1". *)
Definition close_h1 (s : Ctl) : Ctl :=
  set_agents (alter (fun a => {| ag_epoch := ag_epoch a; ag_open := false; ag_sent := ag_sent a |}) "h1") s.

Definition first_vm (s : Ctl) : VmRow := unwrap_or (example_vm "none" "none") (head (vms (ctl_db s))).
Definition first_cluster (s : Ctl) : ClusterRow := unwrap_or fleet_cluster (head (clusters (ctl_db s))).

Definition placed (s : Ctl) : VmPlacement :=
  {| pl_vm := first_vm s; pl_gpu_assignments := []; pl_disk_placements := [] |}.

Definition doomed_command : result DbError ReconcileHostCommand :=
  snd (build_reconcile_command example_cfg "h1" (ctl_db run_machine)).


Lemma retry_returns_doomed_vm_witness :
  exists s' e,
    finish_create example_cfg (vm_id (first_vm run_machine)) (c_id (first_cluster run_machine))
      (vm_host_id (first_vm run_machine)) "t5" (Delivered (Err {| vf_message := "boot"; vf_transient := true |}))
      run_machine = (s', Err e) /\
    create_machine example_cfg quiet (PeerNamed CAPI_PROVIDER_IDENTITY) (example_machine_req "web") "vm2" "t6" "t7" s' =
      (s', Ok (vm_to_create_response (first_vm run_machine))).
Proof.
  destruct (retry_returns_doomed_vm example_cfg quiet (example_machine_req "web") (first_vm run_machine)
    (first_cluster run_machine) "t5" {| vf_message := "boot"; vf_transient := true |} run_machine "vm2" "t6" "t7")
    as (s' & e & H1 & H2 & _).
  - apply (bool_decide_eq_true_1 _). vm_compute. reflexivity.
  - vm_compute. constructor.
  - vm_compute. reflexivity.
  - vm_compute. reflexivity.
  - vm_compute. constructor.
  - vm_compute. reflexivity.
  - vm_compute. reflexivity.
  - exists s', e. split; [exact H1|exact H2].
Defined.


Lemma drained_device_still_offered_witness :
  exists s', api_set_device_scheduling_state capi "h1" "fast" "nvme0" "disabled" "smart" run_machine = (s', Ok tt) /\
    snd (pick_host example_cfg (example_machine_req "db") (ctl_db s')) =
    snd (pick_host example_cfg (example_machine_req "db") (ctl_db run_machine)).
Proof.
  assert (is_ok (snd (api_set_device_scheduling_state capi "h1" "fast" "nvme0" "disabled" "smart" run_machine)) = true)
    as Hok by (vm_compute; reflexivity).
  destruct (api_set_device_scheduling_state capi "h1" "fast" "nvme0" "disabled" "smart" run_machine)
    as [s' [[]|e]] eqn:H; [|discriminate].
  exists s'. split; [reflexivity|].
  apply (drained_device_still_offered example_cfg capi "h1" "fast" "nvme0" "smart" run_machine s'
           (example_machine_req "db")); [|exact H].
  intros m Hm. vm_compute in Hm. inversion Hm.
Defined.

Lemma create_cluster_no_leak_witness :
  cluster_outcome example_cluster_req (fun _ => "c1") run_cluster
    (snd (create_cluster example_cfg quiet capi example_cluster_req (fun _ => "c1") (fun _ => "t1") run_register)).
Proof.
  apply (create_cluster_no_leak example_cfg quiet capi example_cluster_req (fun _ => "c1") (fun _ => "t1") run_register).
  - done.
  - intros r k Hr. vm_compute in Hr. inversion Hr.
  - apply surjective_pairing.
Defined.

(** No host is registered: nothing to place on. *)
Definition no_hosts : Ctl := set_db (set_hosts (fun _ => [])) run_cluster.

