(* ===== verification/Text.v ===== *)
(** * Text: the string functions of the standard library the agent uses

    Splitting, trimming and parsing of the output of the tools the agent
    runs, and of the names it gives to volumes and links. Strings are bytes;
    white space is the ASCII white space (the tools' output is ASCII). *)

From Stdlib Require Import Ascii.
From S2P Require Import Prelude Ipv4.

(** [char::is_whitespace] on ASCII: tab, LF, VT, FF, CR, space. *)
Definition is_space (c : ascii) : bool :=
  let k := N_of_ascii c in (k =? 32)%N || ((9 <=? k)%N && (k <=? 13)%N).

(** [str::strip_prefix] and [str::starts_with]. *)
Fixpoint strip_prefix (p s : string) : option string :=
  match p, s with
  | EmptyString, _ => Some s
  | String a p', String b s' => if Ascii.eqb a b then strip_prefix p' s' else None
  | _, EmptyString => None
  end.
Definition starts_with (p s : string) : bool :=
  match strip_prefix p s with Some _ => true | None => false end.

(** [str::contains]. *)
Fixpoint contains (p s : string) : bool :=
  starts_with p s ||
  match s with EmptyString => false | String _ s' => contains p s' end.

(** [str::split_once] and [str::rsplit_once] at a character. *)
Fixpoint split_once (c : ascii) (s : string) : option (string * string) :=
  match s with
  | EmptyString => None
  | String b s' =>
      if Ascii.eqb b c then Some (EmptyString, s')
      else '(l, r) ← split_once c s'; Some (String b l, r)
  end.
Fixpoint rsplit_once (c : ascii) (s : string) : option (string * string) :=
  match s with
  | EmptyString => None
  | String b s' =>
      match rsplit_once c s' with
      | Some (l, r) => Some (String b l, r)
      | None => if Ascii.eqb b c then Some (EmptyString, s') else None
      end
  end.

(** [str::strip_suffix]. *)
Fixpoint strip_suffix (p s : string) : option string :=
  if s =$ p then Some EmptyString
  else match s with
       | EmptyString => None
       | String c s' => r ← strip_suffix p s'; Some (String c r)
       end.

(** [Path::join]: an absolute path replaces the directory, and a separator is
    added where the directory does not end in one. *)
Definition path_join (dir name : string) : string :=
  if starts_with "/" name then name
  else match dir, strip_suffix "/" dir with
       | EmptyString, _ | _, Some _ => dir +:+ name
       | _, None => dir +:+ "/" +:+ name
       end.

(** [str::trim_start], [str::trim_end], [str::trim]. *)
Fixpoint trim_start (s : string) : string :=
  match s with
  | String c s' => if is_space c then trim_start s' else s
  | EmptyString => EmptyString
  end.
Fixpoint trim_end (s : string) : string :=
  match s with
  | EmptyString => EmptyString
  | String c s' =>
      match trim_end s' with
      | EmptyString => if is_space c then EmptyString else String c EmptyString
      | t => String c t
      end
  end.
Definition trim (s : string) : string := trim_end (trim_start s).

(** The pieces between the characters that satisfy [p]; [str::split]. *)
Fixpoint split_on (p : ascii -> bool) (s : string) : list string :=
  match s with
  | EmptyString => [EmptyString]
  | String c s' =>
      if p c then EmptyString :: split_on p s'
      else match split_on p s' with
           | [] => [String c EmptyString]
           | w :: ws => String c w :: ws
           end
  end.
Definition split_char (c : ascii) (s : string) : list string := split_on (Ascii.eqb c) s.

(** [str::split_whitespace]: the non-empty pieces. *)
Definition split_whitespace (s : string) : list string :=
  select (fun w => w <>$ "") (split_on is_space s).

(** [str::lines]: the pieces between line feeds, without a final empty one
    and without a trailing carriage return. *)
Definition LF : ascii := "010"%char.
Definition CR : ascii := "013"%char.
Definition chomp (l : string) : string := unwrap_or l (strip_suffix (String CR EmptyString) l).
Definition lines (s : string) : list string :=
  let ls := split_char LF s in
  map chomp (match reverse ls with
             | EmptyString :: ls' => reverse ls'
             | _ => ls
             end).

(** [[&str]::join]. *)
Fixpoint join (sep : string) (l : list string) : string :=
  match l with
  | [] => ""
  | [x] => x
  | x :: l' => x +:+ sep +:+ join sep l'
  end.

(** [str::parse::<uN>] with the given maximum: an optional plus sign, then at
    least one digit, every prefix within the width. *)
Fixpoint parse_digits (max : Z) (s : string) (acc : Z) : option Z :=
  match s with
  | EmptyString => Some acc
  | String c s' =>
      d ← digit c;
      let acc' := acc * 10 + d in
      if max <? acc' then None else parse_digits max s' acc'
  end.
Definition parse_uint (max : Z) (s : string) : option Z :=
  let s := match s with String "+"%char (String _ _ as s') => s' | _ => s end in
  match s with EmptyString => None | _ => parse_digits max s 0 end.
Definition parse_u32 : string -> option Z := parse_uint u32_max.
Definition parse_u64 : string -> option Z := parse_uint (2 ^ 64 - 1).

(** ** Facts *)

Lemma strip_prefix_app p s : strip_prefix p (p +:+ s) = Some s.
Proof.
  induction p as [|c p IH]; [done|]. change (String c p +:+ s) with (String c (p +:+ s)).
  simpl. by rewrite Ascii.eqb_refl.
Qed.

Lemma strip_prefix_inv p s r : strip_prefix p s = Some r -> s = p +:+ r.
Proof.
  revert s. induction p as [|a p IH]; intros s; simpl; [naive_solver|].
  destruct s as [|b s]; [done|]. destruct (Ascii.eqb_spec a b) as [->|]; [|done].
  intros ->%IH. done.
Qed.

(** No character [c] in the string. *)
Fixpoint free_of (c : ascii) (s : string) : bool :=
  match s with
  | EmptyString => true
  | String b s' => negb (Ascii.eqb b c) && free_of c s'
  end.

Lemma rsplit_free c s : free_of c s = true -> rsplit_once c s = None.
Proof.
  induction s as [|b s IH]; [done|]; simpl. intros [Hb Hs]%andb_true_iff.
  rewrite IH by done. apply negb_true_iff in Hb. by rewrite Hb.
Qed.

Lemma rsplit_once_app c l r :
  free_of c r = true -> rsplit_once c (l +:+ String c r) = Some (l, r).
Proof.
  intros Hr. induction l as [|b l IH].
  - change ("" +:+ String c r) with (String c r). simpl.
    by rewrite rsplit_free, Ascii.eqb_refl by done.
  - change (String b l +:+ String c r) with (String b (l +:+ String c r)). simpl. by rewrite IH.
Qed.

Lemma rsplit_once_inv c s l r : rsplit_once c s = Some (l, r) -> s = l +:+ String c r.
Proof.
  revert l r. induction s as [|b s IH]; intros l r; simpl; [done|].
  destruct (rsplit_once c s) as [[l' r']|] eqn:E.
  - intros [= <- <-]. by rewrite (IH _ _ eq_refl).
  - destruct (Ascii.eqb_spec b c) as [->|]; [|done]. by intros [= <- <-].
Qed.

(** Decimal numbers are read back, and have no dash. *)
Lemma digit_pretty_char x : (x < 10)%N -> digit (pretty_N_char x) = Some (Z.of_N x).
Proof.
  intros H.
  assert (x = 0 \/ x = 1 \/ x = 2 \/ x = 3 \/ x = 4 \/ x = 5 \/ x = 6 \/ x = 7 \/ x = 8 \/ x = 9)%N
    as Hx by lia.
  repeat destruct Hx as [->|Hx]; subst; done.
Qed.

Lemma parse_pretty_go max x s :
  Z.of_N x <= max -> parse_digits max (pretty_N_go x s) 0 = parse_digits max s (Z.of_N x).
Proof.
  revert s. induction (N.lt_wf_0 x) as [x _ IH]; intros s Hx.
  destruct (decide (x = 0)%N) as [->|Hne]; [by rewrite pretty_N_go_0|].
  rewrite pretty_N_go_step by lia.
  rewrite IH; [|apply N.div_lt; lia|rewrite N2Z.inj_div; apply Z.div_le_upper_bound; lia].
  simpl. rewrite digit_pretty_char by (apply N.mod_lt; lia). simpl.
  rewrite N2Z.inj_div, N2Z.inj_mod. change (Z.of_N 10) with 10.
  assert (Z.of_N x / 10 * 10 + Z.of_N x mod 10 = Z.of_N x) as ->
    by (pose proof (Z.div_mod (Z.of_N x) 10 ltac:(done)); lia).
  by rewrite (proj2 (Z.ltb_ge _ _)) by lia.
Qed.

Lemma parse_digits_pretty max n : 0 <= n <= max -> parse_digits max (pretty n) 0 = Some n.
Proof.
  intros H. destruct n as [|p|p]; [| |lia].
  { simpl. by rewrite (proj2 (Z.ltb_ge _ _)) by lia. }
  change (parse_digits max (pretty_N_go (N.pos p) "") 0 = Some (Z.pos p)).
  rewrite parse_pretty_go by lia. done.
Qed.

Lemma free_of_go c x s :
  (forall d, (d < 10)%N -> Ascii.eqb (pretty_N_char d) c = false) ->
  free_of c s = true -> free_of c (pretty_N_go x s) = true.
Proof.
  intros Hc. revert s. induction (N.lt_wf_0 x) as [x _ IH]; intros s Hs.
  destruct (decide (x = 0)%N) as [->|Hne]; [by rewrite pretty_N_go_0|].
  rewrite pretty_N_go_step by lia. apply IH; [apply N.div_lt; lia|].
  simpl. rewrite Hc by (apply N.mod_lt; lia). done.
Qed.

Lemma pretty_free_of_dash n : 0 <= n -> free_of "-"%char (pretty n) = true.
Proof.
  intros H. destruct n as [|p|p]; [done| |lia].
  change (free_of "-"%char (pretty_N_go (N.pos p) "") = true).
  apply free_of_go; [|done]. intros d Hd.
  assert (d = 0 \/ d = 1 \/ d = 2 \/ d = 3 \/ d = 4 \/ d = 5 \/ d = 6 \/ d = 7 \/ d = 8 \/ d = 9)%N
    as Hx by lia.
  repeat destruct Hx as [->|Hx]; subst; done.
Qed.

Lemma pretty_cons n : 0 <= n -> exists c s, pretty n = String c s /\ c <> "+"%char.
Proof.
  intros H. assert (digit "+"%char = None) as Hplus by done.
  destruct (pretty n) as [|c s] eqn:E.
  - assert (parse_digits n (pretty n) 0 = Some n) as Hp by (apply parse_digits_pretty; lia).
    rewrite E in Hp. simpl in Hp. injection Hp as <-. done.
  - exists c, s. split; [done|]. intros ->.
    assert (parse_digits n (pretty n) 0 = Some n) as Hp by (apply parse_digits_pretty; lia).
    rewrite E in Hp. by simpl in Hp.
Qed.

Lemma parse_u32_pretty n : is_u32 n -> parse_u32 (pretty n) = Some n.
Proof.
  intros [H0 H1]. unfold parse_u32, parse_uint.
  destruct (pretty_cons n H0) as (c & s & E & Hc).
  assert (parse_digits u32_max (pretty n) 0 = Some n) as Hp
    by (apply parse_digits_pretty; unfold u32_max; lia).
  rewrite E in *.
  destruct c as [[] [] [] [] [] [] [] []]; done.
Qed.

Lemma split_once_app c l r : free_of c l = true -> split_once c (l +:+ String c r) = Some (l, r).
Proof.
  induction l as [|b l IH]; simpl; [by rewrite Ascii.eqb_refl|].
  intros [Hb Hl]%andb_true_iff. apply negb_true_iff in Hb.
  change (String b l +:+ String c r) with (String b (l +:+ String c r)). simpl. by rewrite Hb, IH.
Qed.
