(* ===== verification/HashName.v ===== *)
(** * Names derived from a VM id (crates/basis-agent/src/network/mod.rs, vm.rs)

    The tap of a VM and its MAC address come from the standard library's
    [DefaultHasher]: SipHash-1-3 with both keys zero, over the bytes of the
    string and a final 0xff. *)

From Stdlib Require Import Ascii.
From S2P Require Import Prelude.

(** ** SipHash-1-3 *)

Definition rotl64 (x : Z) (n : Z) : Z := Z.lor (as_u64 (Z.shiftl x n)) (Z.shiftr x (64 - n)).
Definition add64 (x y : Z) : Z := as_u64 (x + y).

Record Sip := { sip0 : Z; sip1 : Z; sip2 : Z; sip3 : Z }.

Definition sip_round (s : Sip) : Sip :=
  let v0 := add64 (sip0 s) (sip1 s) in
  let v1 := Z.lxor (rotl64 (sip1 s) 13) v0 in
  let v0 := rotl64 v0 32 in
  let v2 := add64 (sip2 s) (sip3 s) in
  let v3 := Z.lxor (rotl64 (sip3 s) 16) v2 in
  let v0 := add64 v0 v3 in
  let v3 := Z.lxor (rotl64 v3 21) v0 in
  let v2 := add64 v2 v1 in
  let v1 := Z.lxor (rotl64 v1 17) v2 in
  let v2 := rotl64 v2 32 in
  {| sip0 := v0; sip1 := v1; sip2 := v2; sip3 := v3 |}.

(** The constants, with zero keys. *)
Definition sip_init : Sip := {|
  sip0 := 0x736f6d6570736575; sip1 := 0x646f72616e646f6d;
  sip2 := 0x6c7967656e657261; sip3 := 0x7465646279746573 |}.

Definition sip_block (s : Sip) (m : Z) : Sip :=
  let s := sip_round {| sip0 := sip0 s; sip1 := sip1 s; sip2 := sip2 s; sip3 := Z.lxor (sip3 s) m |} in
  {| sip0 := Z.lxor (sip0 s) m; sip1 := sip1 s; sip2 := sip2 s; sip3 := sip3 s |}.

(** Little-endian value of at most eight bytes. *)
Fixpoint le_value (bs : list Z) : Z :=
  match bs with [] => 0 | b :: bs' => b + 256 * le_value bs' end.

Fixpoint sip_blocks (len : Z) (bs : list Z) (s : Sip) (fuel : nat) : Sip :=
  match fuel with
  | O => s
  | S fuel' =>
      match bs with
      | b0 :: b1 :: b2 :: b3 :: b4 :: b5 :: b6 :: b7 :: bs' =>
          sip_blocks len bs' (sip_block s (le_value [b0; b1; b2; b3; b4; b5; b6; b7])) fuel'
      | tail => sip_block s (Z.lor (Z.shiftl (Z.land len 255) 56) (le_value tail))
      end
  end.

Definition siphash13 (bs : list Z) : Z :=
  let s := sip_blocks (Z.of_nat (length bs)) bs sip_init (S (length bs)) in
  let s := {| sip0 := sip0 s; sip1 := sip1 s; sip2 := Z.lxor (sip2 s) 255; sip3 := sip3 s |} in
  let s := sip_round (sip_round (sip_round s)) in
  Z.lxor (Z.lxor (sip0 s) (sip1 s)) (Z.lxor (sip2 s) (sip3 s)).

Fixpoint bytes_of (s : string) : list Z :=
  match s with
  | EmptyString => []
  | String c s' => Z.of_N (N_of_ascii c) :: bytes_of s'
  end.

(** [vm_id.hash(&mut DefaultHasher::new())]; [finish()]. *)
Definition default_hash (s : string) : Z := siphash13 (bytes_of s ++ [255]).

(** ** Hexadecimal *)

Definition hex_digit (n : Z) : ascii := ascii_of_N (Z.to_N (if n <? 10 then 48 + n else 87 + n)).
(** The [w] low digits; [{:0wx}] prints more only when [n] needs them. *)
Fixpoint hex_low (w : nat) (n : Z) (acc : string) : string :=
  match w with
  | O => acc
  | S w' => hex_low w' (n / 16) (String (hex_digit (n mod 16)) acc)
  end.
(** [format!("{:0wx}", n)] for [n] below [16^w]. *)
Definition hex_pad (w : nat) (n : Z) : string := hex_low w n "".

(** ** Names *)

Definition PRIMARY_TAP_PREFIX : string := "bas".
Definition vm_id_hash (vm_id : string) : string := hex_pad 10 (Z.land (default_hash vm_id) 0xffffffffff).
(** [primary_tap_name]. *)
Definition primary_tap_name (vm_id : string) : string := PRIMARY_TAP_PREFIX +:+ vm_id_hash vm_id.

(** [primary_mac]. *)
Definition primary_mac (vm_id : string) : string :=
  let h := default_hash vm_id in
  "52:54:00:" +:+ hex_pad 2 (Z.land (Z.shiftr h 16) 255) +:+ ":" +:+
  hex_pad 2 (Z.land (Z.shiftr h 8) 255) +:+ ":" +:+ hex_pad 2 (Z.land h 255).

(** [unit_name_for_vm]. *)
Definition unit_name_for_vm (vm_id : string) : string := "basis-vm-" +:+ vm_id +:+ ".service".

Lemma hex_low_length w n acc : String.length (hex_low w n acc) = (w + String.length acc)%nat.
Proof.
  revert n acc. induction w as [|w IH]; intros n acc; [done|]. simpl. rewrite IH. simpl. lia.
Qed.

(** Interface names have at most 15 characters. *)
Lemma primary_tap_name_length vm : String.length (primary_tap_name vm) = 13%nat.
Proof.
  change (String.length (primary_tap_name vm)) with (3 + String.length (vm_id_hash vm))%nat.
  unfold vm_id_hash, hex_pad. by rewrite hex_low_length.
Qed.

(** The masks keep the values [hex_pad] prints in full. *)
Lemma vm_id_hash_fits vm : 0 <= Z.land (default_hash vm) 0xffffffffff < 16 ^ 10.
Proof.
  change 0xffffffffff with (Z.ones 40). rewrite Z.land_ones by done.
  apply Z.mod_pos_bound. done.
Qed.
