(* ===== verification/IpAddr.v ===== *)
(** * IP addresses of both families

    [std::net::IpAddr] as the BGP code uses it: its order, its [Display] and
    its [FromStr]. IPv6 addresses never come out of the controller's
    allocators, but the code parses and prints them, so their text is here
    too (groups, the [::] abbreviation, a trailing dotted quad). *)

From Stdlib Require Import Ascii.
From stdpp Require Import sorting.
From S2P Require Import Prelude Ipv4 Text HashName.

Inductive IpAddr := V4 (a : Z) | V6 (a : Z).

#[global] Instance IpAddr_eq_dec : EqDecision IpAddr.
Proof. solve_decision. Defined.
#[global] Instance IpAddr_countable : Countable IpAddr.
Proof.
  refine (inj_countable' (fun i => match i with V4 a => inl a | V6 a => inr a end)
                         (fun s => match s with inl a => V4 a | inr a => V6 a end) _).
  by intros [].
Defined.

Definition is_ipv4 (i : IpAddr) : bool := match i with V4 _ => true | V6 _ => false end.

(** The order of [BTreeSet<IpAddr>]: IPv4 first. *)
Definition ip_le (i j : IpAddr) : Prop :=
  match i, j with
  | V4 a, V4 b | V6 a, V6 b => a <= b
  | V4 _, V6 _ => True
  | V6 _, V4 _ => False
  end.
#[global] Instance ip_le_dec i j : Decision (ip_le i j).
Proof. destruct i, j; simpl; apply _. Defined.
Definition ip_btree (X : gset IpAddr) : list IpAddr := merge_sort ip_le (elements X).

(** ** Parsing *)

(** A dotted quad at the front of the text. *)
Definition read_ipv4 (s : string) : option (Z * string) :=
  '(a, s1) ← read_octet s; s1 ← read_dot s1;
  '(b, s2) ← read_octet s1; s2 ← read_dot s2;
  '(c, s3) ← read_octet s2; s3 ← read_dot s3;
  '(d, s4) ← read_octet s3;
  Some (a * 2 ^ 24 + b * 2 ^ 16 + c * 2 ^ 8 + d, s4).

Definition hex_value (c : ascii) : option Z :=
  let k := Z.of_N (N_of_ascii c) in
  if (48 <=? k) && (k <=? 57) then Some (k - 48)
  else if (97 <=? k) && (k <=? 102) then Some (k - 87)
  else if (65 <=? k) && (k <=? 70) then Some (k - 55)
  else None.

(** At most four hexadecimal digits. *)
Fixpoint read_hex (s : string) (acc : Z) (count : nat) : option (Z * nat * string) :=
  match s with
  | String c s' =>
      match hex_value c with
      | Some d => if (3 <? count)%nat then None else read_hex s' (acc * 16 + d) (S count)
      | None => Some (acc, count, s)
      end
  | EmptyString => Some (acc, count, s)
  end.
Definition read_hex_group (s : string) : option (Z * string) :=
  '(v, count, rest) ← read_hex s 0 0;
  if (count =? 0)%nat then None else Some (v, rest).

Definition read_colon (s : string) : option string :=
  match s with String ":"%char s' => Some s' | _ => None end.

(** [read_groups]: up to [n] groups; a dotted quad takes the place of the last
    two, and is reported. *)
Fixpoint read_groups (n : nat) (first : bool) (s : string) : list Z * bool * string :=
  match n with
  | O => ([], false, s)
  | S n' =>
      let sep := if first then Some s else read_colon s in
      match (if (n' =? 0)%nat then None else s1 ← sep; read_ipv4 s1) with
      | Some (v4, rest) => ([v4 / 2 ^ 16; v4 mod 2 ^ 16], true, rest)
      | None =>
          match s1 ← sep; read_hex_group s1 with
          | None => ([], false, s)
          | Some (g, rest) =>
              let '(gs, v4, rest') := read_groups n' false rest in (g :: gs, v4, rest')
          end
      end
  end.

Definition of_groups (gs : list Z) : Z := fold_left (fun acc g => acc * 2 ^ 16 + g) gs 0.

Definition read_ipv6 (s : string) : option (Z * string) :=
  let '(head, head_v4, s1) := read_groups 8 true s in
  if (length head =? 8)%nat then Some (of_groups head, s1)
  else if head_v4 then None
  else s2 ← read_colon s1; s3 ← read_colon s2;
       let '(tail, _, s4) := read_groups (7 - length head) true s3 in
       Some (of_groups (head ++ replicate (8 - length head - length tail) 0 ++ tail), s4).

(** [str::parse::<IpAddr>]: the whole text, IPv4 before IPv6. *)
Definition ip_addr_parse (s : string) : option IpAddr :=
  match read_ipv4 s with
  | Some (a, rest) => match rest with EmptyString => Some (V4 a) | _ => None end
  | None => '(a, rest) ← read_ipv6 s;
            match rest with EmptyString => Some (V6 a) | _ => None end
  end.

(** ** Printing *)

(** [{:x}]. *)
Definition show_hex (n : Z) : string :=
  if n <? 16 then hex_pad 1 n else if n <? 256 then hex_pad 2 n
  else if n <? 4096 then hex_pad 3 n else hex_pad 4 n.

Definition groups_of (a : Z) : list Z :=
  map (fun i => a / 2 ^ (16 * (7 - i)) mod 2 ^ 16) (seqZ 0 8).

(** The first longest run of zero groups: its start and its length. *)
Fixpoint zero_runs (gs : list Z) (i : nat) (cur best : nat * nat) : nat * nat :=
  match gs with
  | [] => best
  | g :: gs' =>
      if g =? 0 then
        let cur := if (snd cur =? 0)%nat then (i, 1%nat) else (fst cur, S (snd cur)) in
        zero_runs gs' (S i) cur (if (snd best <? snd cur)%nat then cur else best)
      else zero_runs gs' (S i) (0%nat, 0%nat) best
  end.

Definition show_groups (gs : list Z) : string := join ":" (map show_hex gs).

(** [Ipv6Addr]'s [Display]. *)
Definition show_ipv6 (a : Z) : string :=
  let gs := groups_of a in
  if a / 2 ^ 32 =? 0xffff then "::ffff:" +:+ ip_to_string (a mod 2 ^ 32)
  else
    let '(start, len) := zero_runs gs 0 (0%nat, 0%nat) (0%nat, 0%nat) in
    if (1 <? len)%nat
    then show_groups (take start gs) +:+ "::" +:+ show_groups (drop (start + len) gs)
    else show_groups gs.

Definition ip_addr_to_string (i : IpAddr) : string :=
  match i with V4 a => ip_to_string a | V6 a => show_ipv6 a end.

(** ** Facts *)

Lemma read_ipv4_dotted n : is_u32 n -> read_ipv4 (ip_to_string n) = Some (n, EmptyString).
Proof.
  intros Hn. unfold read_ipv4, ip_to_string, dotted.
  rewrite read_octet_dot by apply octet_range. simpl.
  rewrite read_octet_dot by apply octet_range. simpl.
  rewrite read_octet_dot by apply octet_range. simpl.
  rewrite read_octet_end by apply octet_range. simpl. by rewrite octets_recompose.
Qed.

Lemma ip_addr_parse_v4 n : is_u32 n -> ip_addr_parse (ip_to_string n) = Some (V4 n).
Proof. intros Hn. unfold ip_addr_parse. by rewrite read_ipv4_dotted. Qed.

(** The address as text is read back. *)
Definition canonical (i : IpAddr) : Prop := ip_addr_parse (ip_addr_to_string i) = Some i.

Lemma canonical_v4 n : is_u32 n -> canonical (V4 n).
Proof. apply ip_addr_parse_v4. Qed.

Lemma canonical_inj i j : canonical i -> canonical j -> ip_addr_to_string i = ip_addr_to_string j -> i = j.
Proof. unfold canonical. intros Hi Hj E. rewrite E in Hi. congruence. Qed.

Lemma elem_of_ip_btree X i : i ∈ ip_btree X <-> i ∈ X.
Proof. unfold ip_btree. by rewrite merge_sort_Permutation, elem_of_elements. Qed.

Lemma read_ipv4_range s a r : read_ipv4 s = Some (a, r) -> is_u32 a.
Proof.
  unfold read_ipv4. intros H.
  repeat match type of H with
  | (_ ≫= _) = Some _ => apply bind_Some in H as (? & ? & H); simplify_option_eq
  | (let '(_, _) := ?p in _) = Some _ => destruct p
  end.
  simplify_eq.
  repeat match goal with H : read_octet _ = Some _ |- _ => apply read_octet_range in H end.
  unfold is_u32. lia.
Qed.

Example v6_loopback : ip_addr_parse "::1" = Some (V6 1) /\ ip_addr_to_string (V6 1) = "::1".
Proof. split; vm_compute; reflexivity. Qed.
Example v6_link_local :
  ip_addr_parse "fe80::1" = Some (V6 (0xfe80 * 2 ^ 112 + 1)) /\
  ip_addr_to_string (V6 (0xfe80 * 2 ^ 112 + 1)) = "fe80::1".
Proof. split; vm_compute; reflexivity. Qed.
Example v6_mapped : ip_addr_parse "::ffff:10.0.0.1" = Some (V6 (0xffff * 2 ^ 32 + 167772161)).
Proof. vm_compute. reflexivity. Qed.
Example v6_full :
  ip_addr_parse "2001:db8:1:2:3:4:5:6" = Some (V6 0x20010db8000100020003000400050006) /\
  ip_addr_to_string (V6 0x20010db8000000020003000000000006) = "2001:db8:0:2:3::6".
Proof. split; vm_compute; reflexivity. Qed.
Example v6_rejects : ip_addr_parse "1::2::3" = None /\ ip_addr_parse "12345::" = None /\ ip_addr_parse "" = None.
Proof. split_and!; vm_compute; reflexivity. Qed.
