(* ===== verification/Gobgp.v ===== *)
(** * The GoBGP client (crates/basis-common/src/gobgp.rs)

    Controller and agents drive a local [gobgpd] over gRPC: they list its
    peers, paths and policies and issue the calls that bring them to the wanted
    set. The daemon is the class [Gobgp]: its state and what a call does to it
    are parameters. A call that returns a stream gives the list of its items,
    [None] for an item that is an error. *)

From Stdlib Require Import Ascii.
From S2P Require Import Prelude Ipv4 Ipnet Text IpAddr.

(** ** Messages *)

Inductive AfiSafi := Ipv4Unicast | L2vpnEvpn.
Record Family := { fa_afi : Z; fa_safi : Z }.

Definition families_index (f : AfiSafi) : Z := match f with Ipv4Unicast => 0 | L2vpnEvpn => 9 end.
Definition to_family (f : AfiSafi) : Family :=
  match f with
  | Ipv4Unicast => {| fa_afi := 1; fa_safi := 1 |}
  | L2vpnEvpn => {| fa_afi := 25; fa_safi := 70 |}
  end.

Record Global := { gl_asn : Z; gl_router_id : string; gl_families : list Z; gl_listen_port : Z }.

Record PeerSpec := { ps_address : IpAddr; ps_asn : Z }.
(** [Peer]: its [conf] and whether it is a route-reflector client. *)
Record BgpPeer := { bp_neighbor_address : string; bp_peer_asn : Z; bp_rr_client : bool }.

Record IpAddressPrefix := { ip_prefix_addr : string; ip_prefix_len : Z }.
(** The prefix of an [Nlri], or another kind of route. *)
Inductive NlriKind := NlriPrefix (p : IpAddressPrefix) | NlriOther.
(** The attributes the code reads or writes. *)
Inductive Attr :=
  | AttrOrigin (origin : Z)
  | AttrNextHop (next_hop : string)
  | AttrMpReach (next_hops : list string)
  | AttrOther.
(** The oneof fields may be unset. *)
Record Path := {
  pa_nlri : option (option NlriKind);
  pa_pattrs : list (option Attr);
  pa_is_withdraw : bool;
  pa_family : option Family;
}.

Inductive DefinedType := DefinedPrefix | DefinedNeighbor.
Record Prefix := { px_ip_prefix : string; px_mask_length_min : Z; px_mask_length_max : Z }.
Record DefinedSet := {
  ds_type : DefinedType; ds_name : string; ds_list : list string; ds_prefixes : list Prefix
}.
Inductive RouteAction := RouteAccept | RouteReject.
(** A statement: the sets it matches (of match type ANY) and its action. *)
Record Statement := {
  st_name : string; st_prefix_set : option string; st_neighbor_set : option string; st_action : RouteAction
}.
Record Policy := { po_name : string; po_statements : list Statement }.
(** An assignment in the import direction. *)
Record PolicyAssignment := { as_name : string; as_policies : list Policy; as_default_action : RouteAction }.

Inductive WatchEvent := EventTable (paths : list Path) | EventPeer.

(** The daemon. *)
Class Gobgp := {
  GWorld : Type;
  gobgp_connect : string -> GWorld -> GWorld * bool;
  (** The [Global] of the response: ASN and router id. *)
  get_bgp : GWorld -> GWorld * option (option (Z * string));
  start_bgp_rpc : Global -> GWorld -> GWorld * bool;
  (** The prefix of each destination, if the response has one. *)
  list_path : Family -> GWorld -> GWorld * option (list (option (option string)));
  (** The neighbor address of each peer that has a [conf]. *)
  list_peer : GWorld -> GWorld * option (list (option (option string)));
  add_peer : BgpPeer -> GWorld -> GWorld * bool;
  delete_peer : string -> GWorld -> GWorld * bool;
  add_path : Path -> GWorld -> GWorld * bool;
  delete_path : Path -> GWorld -> GWorld * bool;
  set_policies : list DefinedSet -> list Policy -> GWorld -> GWorld * bool;
  delete_policy_assignment : PolicyAssignment -> bool -> GWorld -> GWorld * bool;
  add_policy_assignment : PolicyAssignment -> GWorld -> GWorld * bool;
  (** The events until the stream ends; an item is an error, an event without
      payload, or an event. *)
  watch_event : GWorld -> GWorld * option (list (option (option WatchEvent)));
}.

(** [ipnet::IpNet] beside IPv4: the text and the prefix length of an IPv6
    network. *)
Class Ipnet6 := { net6_parse : string -> option (string * Z) }.

Inductive BgpError := RpcFailed (call : string) | BadPrefix (text : string) | BgpDb.

(** ** Pure parts *)

Section pure.
Context `{I : Ipnet} `{I6 : Ipnet6}.

(** [split_prefix]. *)
Definition split_prefix (prefix : string) : result BgpError (IpAddr * Z) :=
  match split_once "/"%char prefix with
  | None => Err (BadPrefix prefix)
  | Some (a, l) =>
      match ip_addr_parse a, parse_u32 l with
      | Some addr, Some len => Ok (addr, len)
      | _, _ => Err (BadPrefix prefix)
      end
  end.

(** [ipv4_unicast_path]. *)
Definition ipv4_unicast_path (prefix : string) (next_hop : Z) : result BgpError Path :=
  match split_prefix prefix with
  | Err e => Err e
  | Ok (addr, len) => Ok {|
      pa_nlri := Some (Some (NlriPrefix {| ip_prefix_addr := ip_addr_to_string addr; ip_prefix_len := len |}));
      pa_pattrs := [Some (AttrOrigin 0); Some (AttrNextHop (ip_to_string next_hop))];
      pa_is_withdraw := false; pa_family := Some (to_family Ipv4Unicast) |}
  end.

(** [peer_message]. *)
Definition peer_message (spec : PeerSpec) (rr_client : bool) : BgpPeer := {|
  bp_neighbor_address := ip_addr_to_string (ps_address spec); bp_peer_asn := ps_asn spec;
  bp_rr_client := rr_client |}.

(** [str::parse::<IpNet>] as [prefix_defined_set] uses it: the text of the
    network, its prefix length and the length of a host route. *)
Definition ip_net (raw : string) : option (string * Z * Z) :=
  match net_parse raw with
  | Some n => Some (net_to_string n, net_prefix_len n, 32)
  | None => '(t, l) ← net6_parse raw; Some (t, l, 128)
  end.
Fixpoint prefix_entries (prefixes : list string) : result BgpError (list Prefix) :=
  match prefixes with
  | [] => Ok []
  | raw :: rest =>
      match ip_net raw with
      | None => Err (BadPrefix raw)
      | Some (text, len, host_len) =>
          match prefix_entries rest with
          | Err e => Err e
          | Ok out => Ok ({| px_ip_prefix := text; px_mask_length_min := len;
                             px_mask_length_max := host_len |} :: out)
          end
      end
  end.
Definition prefix_defined_set (name : string) (prefixes : list string) : result BgpError DefinedSet :=
  match prefix_entries prefixes with
  | Err e => Err e
  | Ok out => Ok {| ds_type := DefinedPrefix; ds_name := name; ds_list := []; ds_prefixes := out |}
  end.

(** [neighbor_defined_set]. *)
Definition host_route (a : IpAddr) : string :=
  match a with V4 v => ip_to_string v +:+ "/32" | V6 v => show_ipv6 v +:+ "/128" end.
Definition neighbor_defined_set (name : string) (addrs : list IpAddr) : DefinedSet := {|
  ds_type := DefinedNeighbor; ds_name := name; ds_list := map host_route addrs; ds_prefixes := [] |}.

(** [accept_statement]. *)
Definition accept_statement (name neighbor_set : string) (prefix_set : option string) : Statement := {|
  st_name := name; st_prefix_set := prefix_set; st_neighbor_set := Some neighbor_set;
  st_action := RouteAccept |}.

Record ClusterIngress := {
  ci_ingress_id : string;
  ci_allowed_prefixes : list string;
  ci_nodes : list IpAddr;
}.
Record IngressPolicySpec := { ip_clusters : list ClusterIngress; ip_hypervisors : list IpAddr }.

(** The loop of [reconcile_ingress_policy]: sets and statements per cluster. *)
Definition cluster_prefix_set (c : ClusterIngress) : string := "cluster-" +:+ ci_ingress_id c +:+ "-prefixes".
Definition cluster_node_set (c : ClusterIngress) : string := "cluster-" +:+ ci_ingress_id c +:+ "-nodes".
Fixpoint cluster_policy (cs : list ClusterIngress) : result BgpError (list DefinedSet * list Statement) :=
  match cs with
  | [] => Ok ([], [])
  | c :: cs' =>
      if bool_decide (ci_allowed_prefixes c = []) || bool_decide (ci_nodes c = []) then cluster_policy cs'
      else match prefix_defined_set (cluster_prefix_set c) (ci_allowed_prefixes c) with
      | Err e => Err e
      | Ok ps =>
          match cluster_policy cs' with
          | Err e => Err e
          | Ok (sets, stmts) =>
              Ok (ps :: neighbor_defined_set (cluster_node_set c) (ci_nodes c) :: sets,
                  accept_statement ("cluster-" +:+ ci_ingress_id c +:+ "-import") (cluster_node_set c)
                    (Some (cluster_prefix_set c)) :: stmts)
          end
      end
  end.

Definition POLICY_NAME : string := "cell-ingress".
Definition ASSIGNMENT_NAME : string := "global".
Definition HYPERVISOR_SET : string := "hypervisors".

(** The sets and the policy [reconcile_ingress_policy] pushes. *)
Definition ingress_policy (spec : IngressPolicySpec) : result BgpError (list DefinedSet * Policy) :=
  match cluster_policy (ip_clusters spec) with
  | Err e => Err e
  | Ok (sets, stmts) =>
      let '(sets, stmts) :=
        if bool_decide (ip_hypervisors spec = []) then (sets, stmts)
        else (sets ++ [neighbor_defined_set HYPERVISOR_SET (ip_hypervisors spec)],
              stmts ++ [accept_statement "hypervisor-import" HYPERVISOR_SET None]) in
      Ok (sets, {| po_name := POLICY_NAME; po_statements := stmts |})
  end.
Definition assignment (policies : list Policy) : PolicyAssignment := {|
  as_name := ASSIGNMENT_NAME; as_policies := policies; as_default_action := RouteReject |}.
End pure.

(** ** Learned routes *)

Record LearnedRoute := { lr_prefix : string; lr_prefix_len : Z; lr_next_hop : IpAddr; lr_is_withdraw : bool }.

(** [next_hop_from_attrs]: an attribute without payload ends the search. *)
Fixpoint next_hop_from_attrs (attrs : list (option Attr)) : option IpAddr :=
  match attrs with
  | [] => None
  | None :: _ => None
  | Some (AttrNextHop nh) :: rest =>
      match ip_addr_parse nh with Some ip => Some ip | None => next_hop_from_attrs rest end
  | Some (AttrMpReach nhs) :: rest =>
      match omap ip_addr_parse nhs with ip :: _ => Some ip | [] => next_hop_from_attrs rest end
  | Some _ :: rest => next_hop_from_attrs rest
  end.

(** [LearnedRoute::from_path]. *)
Definition from_path (p : Path) : option LearnedRoute :=
  nlri ← pa_nlri p; nlri ← nlri;
  match nlri with
  | NlriOther => None
  | NlriPrefix ip =>
      addr ← ip_addr_parse (ip_prefix_addr ip);
      if negb (is_ipv4 addr) then None
      else next_hop ← next_hop_from_attrs (pa_pattrs p);
           Some {| lr_prefix := ip_prefix_addr ip +:+ "/" +:+ pretty (ip_prefix_len ip);
                   lr_prefix_len := ip_prefix_len ip; lr_next_hop := next_hop;
                   lr_is_withdraw := pa_is_withdraw p |}
  end.

(** [LearnedRouteStream]; the items of [inner] still to come. *)
Record LearnedRouteStream := { ls_inner : list (option (option WatchEvent)); ls_buffered : list Path }.

(** [Vec::pop]: from the end. *)
Definition vec_pop {A} (l : list A) : option (list A * A) :=
  match reverse l with [] => None | x :: r => Some (reverse r, x) end.

(** The inner loop of [next]: pop until a path is a route. *)
Fixpoint pop_route (fuel : nat) (buffered : list Path) : list Path * option LearnedRoute :=
  match fuel with
  | O => (buffered, None)
  | S fuel' =>
      match vec_pop buffered with
      | None => ([], None)
      | Some (rest, p) =>
          match from_path p with Some r => (rest, Some r) | None => pop_route fuel' rest end
      end
  end.

(** [LearnedRouteStream::next]. *)
Fixpoint next_from (inner : list (option (option WatchEvent))) (buffered : list Path)
    : LearnedRouteStream * option LearnedRoute :=
  match pop_route (length buffered) buffered with
  | (rest, Some r) => ({| ls_inner := inner; ls_buffered := rest |}, Some r)
  | (rest, None) =>
      match inner with
      | [] => ({| ls_inner := []; ls_buffered := rest |}, None)
      | None :: inner' | Some None :: inner' => ({| ls_inner := inner'; ls_buffered := rest |}, None)
      | Some (Some (EventTable paths)) :: inner' => next_from inner' paths
      | Some (Some EventPeer) :: inner' => next_from inner' rest
      end
  end.
Definition stream_next (st : LearnedRouteStream) : LearnedRouteStream * option LearnedRoute :=
  next_from (ls_inner st) (ls_buffered st).

(** ** Calls *)

Section client.
Context `{G : Gobgp} `{I : Ipnet} `{I6 : Ipnet6}.

Abbreviation BgpM A := (SE GWorld BgpError A).

Definition rpc (name : string) (call : GWorld -> GWorld * bool) : BgpM unit :=
  fun w => let '(w', ok) := call w in (w', if ok then Ok tt else Err (RpcFailed name)).
(** A streaming call whose items are read to the end; an error item fails. *)
Fixpoint items {A} (name : string) (l : list (option A)) : result BgpError (list A) :=
  match l with
  | [] => Ok []
  | None :: _ => Err (RpcFailed name)
  | Some x :: l' => match items name l' with Ok xs => Ok (x :: xs) | Err e => Err e end
  end.
Definition rpc_stream {A} (name : string) (call : GWorld -> GWorld * option (list (option A))) : BgpM (list A) :=
  fun w => let '(w', r) := call w in
           (w', match r with None => Err (RpcFailed name) | Some l => items name l end).

(** The probe of every family. *)
Fixpoint probe_families (want : list AfiSafi) : BgpM bool :=
  match want with
  | [] => se_ret true
  | f :: want' =>
      fun w => let '(w', r) := list_path (to_family f) w in
               match r with None => (w', Ok false) | Some _ => probe_families want' w' end
  end.
Definition has_running_bgp_with (asn router_id : Z) (want : list AfiSafi) : BgpM bool :=
  fun w => let '(w', r) := get_bgp w in
           match r with
           | Some (Some (a, id)) =>
               if negb (a =? asn) || (id <>$ ip_to_string router_id) then (w', Ok false)
               else probe_families want w'
           | _ => (w', Ok false)
           end.
(** [start_bgp]. *)
Definition start_bgp (asn router_id : Z) (families : list AfiSafi) : BgpM unit :=
  do! running <- has_running_bgp_with asn router_id families ;
  if running : bool then se_ret tt
  else rpc "StartBgp" (start_bgp_rpc {| gl_asn := asn; gl_router_id := ip_to_string router_id;
                                        gl_families := map families_index families; gl_listen_port := 179 |}).

(** [list_peer_addresses] and [list_ipv4_prefixes]. *)
Definition list_peer_addresses : BgpM (gset IpAddr) :=
  do! l <- rpc_stream "ListPeer" list_peer ;
  se_ret (list_to_set (omap (fun o => a ← o; ip_addr_parse a) l)).
Definition list_ipv4_prefixes : BgpM (gset string) :=
  do! l <- rpc_stream "ListPath" (list_path (to_family Ipv4Unicast)) ;
  se_ret (list_to_set (omap (fun o => o) l)).

(** [reconcile_peers]. *)
Definition reconcile_peers (desired : list PeerSpec) (route_reflector_client : bool) : BgpM unit :=
  do! current <- list_peer_addresses ;
  let desired_set : gset IpAddr := list_to_set (map ps_address desired) in
  run! se_for (List.filter (fun p => negb (bool_decide (ps_address p ∈ current))) desired)
         (fun spec => rpc "AddPeer" (add_peer (peer_message spec route_reflector_client))) ;
  se_for (ip_btree (current ∖ desired_set))
    (fun addr => rpc "DeletePeer" (delete_peer (ip_addr_to_string addr))).

(** [reconcile_ipv4_paths]. *)
Definition string_btree (X : gset string) : list string :=
  merge_sort (fun a b => Is_true (String.leb a b)) (elements X).
Definition reconcile_ipv4_paths (desired : list string) (next_hop : Z) : BgpM unit :=
  do! current <- list_ipv4_prefixes ;
  let desired_set : gset string := list_to_set desired in
  run! se_for (string_btree (desired_set ∖ current)) (fun prefix =>
         do! path <- se_of (ipv4_unicast_path prefix next_hop) ;
         rpc "AddPath" (add_path path)) ;
  se_for (string_btree (current ∖ desired_set)) (fun prefix =>
    do! path <- se_of (ipv4_unicast_path prefix next_hop) ;
    rpc "DeletePath" (delete_path path)).

(** [reconcile_ingress_policy]. *)
Definition reconcile_ingress_policy (spec : IngressPolicySpec) : BgpM unit :=
  do! sp <- se_of (ingress_policy spec) ;
  run! rpc "SetPolicies" (set_policies (fst sp) [snd sp]) ;
  run! se_try (F:=BgpError) (rpc "DeletePolicyAssignment" (delete_policy_assignment (assignment []) true)) ;
  rpc "AddPolicyAssignment" (add_policy_assignment (assignment [snd sp])).

(** [watch_paths]. *)
Definition watch_paths : BgpM LearnedRouteStream :=
  fun w => let '(w', r) := watch_event w in
           (w', match r with
                | None => Err (RpcFailed "WatchEvent")
                | Some inner => Ok {| ls_inner := inner; ls_buffered := [] |}
                end).
End client.
