(* ===== verification/Client.v ===== *)
(** * The controller's client (crates/basis-client/src/lib.rs)

    The typed client of the [Basis] service: a cached channel, the retry loop
    every call goes through, and the calls. What tonic generates and does (a
    connection, a call over it, a timer) is the interface [BasisStub]. *)

From S2P Require Import Prelude Ipv4 Ipnet CidrNet Proto Config Overcommit DbTypes JsonText Ipam Clusters Hosts Vms Teardown Outbox Schema Scheduler Ctl Api Pools.

(** [tonic::Code]: the codes the controller answers with, and those only the
    transport reports. *)
Inductive StatusCode := Server (c : Code) | CodeUnknown | CodeOther.

#[global] Instance status_code_eq_dec : EqDecision StatusCode.
Proof. solve_decision. Defined.

Inductive ClientError :=
  | ErrTls
  | ErrEndpoint
  | ErrConnect
  | ErrRpc (status : StatusCode)
  | ErrMalformed (what : string).

(** [is_credentials_problem], [is_transient], [is_not_found]. *)
Definition client_credentials_problem (e : ClientError) : bool :=
  match e with
  | ErrTls | ErrEndpoint | ErrConnect => true
  | ErrRpc (Server CodeUnauthenticated) | ErrRpc (Server CodePermissionDenied) => true
  | ErrRpc _ | ErrMalformed _ => false
  end.
Definition client_transient (e : ClientError) : bool :=
  match e with
  | ErrRpc (Server CodeUnavailable) | ErrRpc (Server CodeDeadlineExceeded) => true
  | _ => false
  end.
Definition client_not_found (e : ClientError) : bool :=
  match e with ErrRpc (Server CodeNotFound) => true | _ => false end.

(** [TlsIdentity]. *)
Record TlsIdentity := { ti_cert : list Byte.byte; ti_key : list Byte.byte; ti_ca : list Byte.byte }.

(** A connected channel: where to, and as whom. *)
Record Channel := { ch_endpoint : string; ch_identity : TlsIdentity }.

(** The generated client, the transport and the timer. *)
Class BasisStub := {
  NWorld : Type;
  (** [Endpoint::from_shared] accepts the text. *)
  uri_ok : string -> bool;
  (** [tls_config] and [connect]. *)
  tls_connect : Channel -> NWorld -> NWorld * bool;
  (** [tokio::time::sleep], in milliseconds. *)
  pause : Z -> NWorld -> NWorld;
  stub_create_cluster : CreateClusterRequest -> Channel -> NWorld -> NWorld * result StatusCode CreateClusterResponse;
  stub_delete_cluster : string -> Channel -> NWorld -> NWorld * result StatusCode unit;
  stub_get_cluster : string -> Channel -> NWorld -> NWorld * result StatusCode Cluster;
  stub_list_clusters : Channel -> NWorld -> NWorld * result StatusCode (list Cluster);
  stub_create_machine : CreateMachineRequest -> Channel -> NWorld -> NWorld * result StatusCode CreateMachineResponse;
  stub_get_machine : string -> Channel -> NWorld -> NWorld * result StatusCode Machine;
  stub_delete_machine : string -> Channel -> NWorld -> NWorld * result StatusCode unit;
  stub_list_machines : string -> Channel -> NWorld -> NWorld * result StatusCode (list Machine);
  stub_list_pools : string -> Channel -> NWorld -> NWorld * result StatusCode (list PoolStatus);
  stub_set_device_scheduling_state :
    string -> string -> string -> string -> string -> Channel -> NWorld -> NWorld * result StatusCode unit;
}.

(** [Cluster] of this crate, [CreatedMachine], [MachineRequest] and
    [ClusterRequest]. *)
Record ClientCluster := {
  cc_cluster_id : string;
  cc_control_plane_endpoint : string;
  cc_vni : Z;
  cc_cidr : string;
  cc_service_block_cidr : string;
  cc_bgp_reflector_address : string;
  cc_asn : Z;
}.
Record CreatedMachine := { crm_id : string; crm_provider_id : string; crm_ip_address : string }.
Record MachineRequest := {
  mr_cluster_id : string;
  mr_name : string;
  mr_cpu : Z;
  mr_memory_mib : Z;
  mr_disk_gib : Z;
  mr_image : string;
  mr_bootstrap_data : list Byte.byte;
  mr_gpus : Z;
  mr_min_gpu_group_size : option Z;
  mr_storage_disks : list StorageDisk;
  mr_placement : option LabelSelector;
}.
Record ClusterRequest := {
  clr_name : string;
  clr_external_ip_pool : string;
  clr_external_service_ips : Z;
  clr_apiserver_visibility : ApiserverVisibility;
  clr_trust_domain : string;
}.

(** [BasisClient]. *)
Record BasisClient := {
  bc_endpoint : string;
  bc_identity : TlsIdentity;
  bc_channel : option Channel;
}.
Definition new_client (endpoint : string) (identity : TlsIdentity) : BasisClient := {|
  bc_endpoint := endpoint; bc_identity := identity; bc_channel := None |}.
Definition with_channel (ch : option Channel) (c : BasisClient) : BasisClient := {|
  bc_endpoint := bc_endpoint c; bc_identity := bc_identity c; bc_channel := ch |}.

Section client.
Context `{B : BasisStub}.

(** A client and the world it calls into. *)
Abbreviation ClientM A := (SE (BasisClient * NWorld) ClientError A).

(** [connected_client]. *)
Definition connected_client : ClientM Channel :=
  fun '(c, w) =>
    match bc_channel c with
    | Some ch => ((c, w), Ok ch)
    | None =>
        if negb (uri_ok (bc_endpoint c)) then ((c, w), Err ErrEndpoint)
        else
          let ch := {| ch_endpoint := bc_endpoint c; ch_identity := bc_identity c |} in
          let '(w', ok) := tls_connect ch w in
          if ok : bool then ((with_channel (Some ch) c, w'), Ok ch) else ((c, w'), Err ErrConnect)
    end.

(** [call]: [attempts] of [MAX_ATTEMPTS] are left. *)
Definition MAX_ATTEMPTS : nat := 5.
Definition drops_channel (st : StatusCode) : bool :=
  bool_decide (st = Server CodeUnavailable) || bool_decide (st = CodeUnknown) ||
  bool_decide (st = Server CodeDeadlineExceeded).
Fixpoint call_loop {T} (attempts : nat) (delay : Z) (last_err : option StatusCode)
    (f : Channel -> NWorld -> NWorld * result StatusCode T) : ClientM T :=
  match attempts with
  | O => se_fail (ErrRpc (unwrap_or (Server CodeUnavailable) last_err))
  | S attempts' =>
      do! ch <- connected_client ;
      fun '(c, w) =>
        match f ch w with
        | (w', Ok resp) => ((c, w'), Ok resp)
        | (w', Err status) =>
            let c' := if drops_channel status then with_channel None c else c in
            if bool_decide (status = Server CodeUnavailable) && negb (attempts' =? 0)%nat
            then call_loop attempts' (Z.min (delay * 2) 15000) (Some status) f (c', pause delay w')
            else ((c', w'), Err (ErrRpc status))
        end
  end.
Definition call {T} (f : Channel -> NWorld -> NWorld * result StatusCode T) : ClientM T :=
  call_loop MAX_ATTEMPTS 500 None f.

(** ** Calls *)

Definition client_create_cluster (req : ClusterRequest) : ClientM ClientCluster :=
  do! resp <- call (stub_create_cluster {|
    cr_name := clr_name req; cr_external_ip_pool := clr_external_ip_pool req;
    cr_external_service_ips := clr_external_service_ips req;
    cr_apiserver_visibility := visibility_num (clr_apiserver_visibility req);
    cr_trust_domain := clr_trust_domain req |}) ;
  se_ret {| cc_cluster_id := ccr_cluster_id resp;
            cc_control_plane_endpoint := ccr_control_plane_endpoint resp;
            cc_vni := ccr_vni resp; cc_cidr := ccr_cidr resp;
            cc_service_block_cidr := ccr_service_block_cidr resp;
            cc_bgp_reflector_address := ccr_bgp_reflector_address resp; cc_asn := ccr_bgp_asn resp |}.
Definition client_delete_cluster (cluster_id : string) : ClientM unit :=
  run! call (stub_delete_cluster cluster_id) ; se_ret tt.
Definition client_get_cluster (cluster_id : string) : ClientM ClientCluster :=
  do! resp <- call (stub_get_cluster cluster_id) ;
  se_ret {| cc_cluster_id := cl_cluster_id resp;
            cc_control_plane_endpoint := cl_control_plane_endpoint resp;
            cc_vni := cl_vni resp; cc_cidr := cl_cidr resp;
            cc_service_block_cidr := cl_service_block_cidr resp;
            cc_bgp_reflector_address := ""; cc_asn := 0 |}.
Definition client_list_clusters : ClientM (list Cluster) := call stub_list_clusters.

Definition machine_request (req : MachineRequest) : CreateMachineRequest := {|
  cm_cluster_id := mr_cluster_id req; cm_name := mr_name req; cm_cpu := mr_cpu req;
  cm_memory_mib := mr_memory_mib req; cm_disk_gib := mr_disk_gib req; cm_image := mr_image req;
  cm_bootstrap_data := mr_bootstrap_data req; cm_gpus := mr_gpus req;
  cm_gpu_constraints := mr_min_gpu_group_size req; cm_storage_disks := mr_storage_disks req;
  cm_placement := mr_placement req |}.
Definition client_create_machine (req : MachineRequest) : ClientM CreatedMachine :=
  do! resp <- call (stub_create_machine (machine_request req)) ;
  if cmr_id resp =$ "" then se_fail (ErrMalformed "CreateMachine returned empty id")
  else if cmr_provider_id resp =$ "" then se_fail (ErrMalformed "CreateMachine returned empty provider_id")
  else if cmr_ip_address resp =$ "" then se_fail (ErrMalformed "CreateMachine returned empty ip_address")
  else se_ret {| crm_id := cmr_id resp; crm_provider_id := cmr_provider_id resp;
                 crm_ip_address := cmr_ip_address resp |}.
Definition client_get_machine (id : string) : ClientM Machine := call (stub_get_machine id).
Definition client_delete_machine (id : string) : ClientM unit :=
  run! call (stub_delete_machine id) ; se_ret tt.
Definition client_list_machines (cluster_id : string) : ClientM (list Machine) :=
  call (stub_list_machines cluster_id).
Definition client_list_pools (host_id : string) : ClientM (list PoolStatus) := call (stub_list_pools host_id).
Definition client_set_device_scheduling_state (host_id pool device_id state reason : string) : ClientM unit :=
  run! call (stub_set_device_scheduling_state host_id pool device_id state reason) ; se_ret tt.
End client.
