(* ===== verification/Crds.v ===== *)
(** * Custom resources and conditions (crates/basis-capi-provider/src/crds.rs,
      conditions.rs)

    The resources the provider watches, as it reads them, the merge patches it
    writes to them, and the condition list both resources carry. *)

From S2P Require Import Prelude Ipv4 Ipnet CidrNet Proto Config Overcommit DbTypes JsonText Ipam Clusters Hosts Vms Teardown Outbox Schema Scheduler Ctl Api Client.

(** ** Conditions *)

Record Condition := {
  cond_kind : string;
  cond_status : string;
  cond_reason : option string;
  cond_message : option string;
  cond_last_transition_time : string;
  cond_observed_generation : option Z;
}.

(** [ready_true] and [ready_false], with the time as an argument. *)
Definition ready_true (now reason : string) (generation : option Z) : Condition := {|
  cond_kind := "Ready"; cond_status := "True"; cond_reason := Some reason; cond_message := None;
  cond_last_transition_time := now; cond_observed_generation := generation |}.
Definition ready_false (now reason message : string) (generation : option Z) : Condition := {|
  cond_kind := "Ready"; cond_status := "False"; cond_reason := Some reason; cond_message := Some message;
  cond_last_transition_time := now; cond_observed_generation := generation |}.

(** [upsert]: the first condition of the kind is updated in place. *)
Definition update_condition (current new : Condition) : Condition := {|
  cond_kind := cond_kind current;
  cond_status := cond_status new;
  cond_reason := cond_reason new;
  cond_message := cond_message new;
  cond_last_transition_time :=
    if cond_status current <>$ cond_status new then cond_last_transition_time new
    else cond_last_transition_time current;
  cond_observed_generation := cond_observed_generation new;
|}.
Fixpoint upsert (existing : list Condition) (new : Condition) : list Condition :=
  match existing with
  | [] => [new]
  | c :: rest => if cond_kind c =$ cond_kind new then update_condition c new :: rest else c :: upsert rest new
  end.

(** ** Resources *)

(** [ObjectMeta], the fields the provider reads. *)
Record OwnerRef := { or_kind : string; or_name : string }.
Record Meta := {
  md_name : string;
  md_namespace : option string;
  md_labels : gmap string string;
  md_generation : option Z;
  md_owner_references : option (list OwnerRef);
  md_finalizers : list string;
  md_deleted : bool;
}.

Record CredentialsRef := { cred_name : string; cred_namespace : option string }.
Record ControlPlaneEndpoint := { cpe_host : string; cpe_port : Z }.

Record BasisClusterSpec := {
  bcs_credentials_ref : CredentialsRef;
  bcs_external_ip_pool : string;
  bcs_external_service_ips : Z;
  bcs_apiserver_visibility : ApiserverVisibility;
  bcs_control_plane_endpoint : option ControlPlaneEndpoint;
  bcs_service_block_cidr : string;
}.
Record BasisClusterStatus := {
  bct_basis_cluster_id : option string;
  bct_vni : option Z;
  bct_cidr : option string;
  bct_bgp_reflector_address : option string;
  bct_bgp_asn : option Z;
  bct_initialization : option bool;
  bct_ready : bool;
  bct_failure_message : option string;
  bct_conditions : list Condition;
}.
Record BasisCluster := {
  bc_meta : Meta;
  bc_spec : BasisClusterSpec;
  bc_status : option BasisClusterStatus;
}.

(** [LabelSelectorSpec] shares its entries with the wire form. *)
Record LabelSelectorSpec := { lss_requires : list PlacementRequirement; lss_prefers : list PlacementPreference }.
Inductive DiskPurposeSpec := SpecGenericData | SpecReplicated.
Definition disk_purpose_as_proto (p : DiskPurposeSpec) : DiskPurpose :=
  match p with SpecReplicated => Replicated | SpecGenericData => GenericData end.
Record StorageDiskSpec := { sds_min_size_gib : Z; sds_selector : LabelSelectorSpec; sds_purpose : DiskPurposeSpec }.

Record BasisMachineSpec := {
  bms_cpu : Z;
  bms_memory_mib : Z;
  bms_disk_gib : Z;
  bms_image : string;
  bms_gpus : Z;
  bms_gpu_constraints : option Z;
  bms_storage_disks : list StorageDiskSpec;
  bms_placement : LabelSelectorSpec;
  bms_provider_id : option string;
}.
Record MachineAddress := { ma_kind : string; ma_address : string }.
Record BasisMachineStatus := {
  bmt_initialization : option bool;
  bmt_provider_id : option string;
  bmt_basis_vm_id : option string;
  bmt_credentials_ref : option CredentialsRef;
  bmt_addresses : list MachineAddress;
  bmt_ready : bool;
  bmt_failure_message : option string;
  bmt_conditions : list Condition;
}.
Record BasisMachine := {
  bm_meta : Meta;
  bm_spec : BasisMachineSpec;
  bm_status : option BasisMachineStatus;
}.

(** [CapiMachineSpec]: [bootstrap.dataSecretName]. *)
Record CapiMachine := { cpm_data_secret_name : option string }.

(** ** Merge patches *)

(** A field of a merge patch: not mentioned, [null], or a value. *)
Inductive Field A := Absent | Null | Value (a : A).
Arguments Absent {A}.
Arguments Null {A}.
Arguments Value {A} _.

Definition merge_opt {A} (f : Field A) (old : option A) : option A :=
  match f with Absent => old | Null => None | Value a => Some a end.
Definition merge_or {A} (default : A) (f : Field A) (old : A) : A :=
  match f with Absent => old | Null => default | Value a => a end.
(** Objects merge field by field: a reference written without a namespace
    leaves the one that is there. *)
Definition merge_ref (new : CredentialsRef) (old : option CredentialsRef) : CredentialsRef := {|
  cred_name := cred_name new;
  cred_namespace := match cred_namespace new with Some ns => Some ns | None => old ≫= cred_namespace end |}.

(** The patches of the reconcilers. [failureReason] is no field of the status. *)
Record MachineStatusPatch := {
  msp_ready : Field bool;
  msp_provisioned : Field bool;
  msp_provider_id : Field string;
  msp_basis_vm_id : Field string;
  msp_credentials_ref : Field CredentialsRef;
  msp_addresses : Field (list MachineAddress);
  msp_failure_message : Field string;
  msp_failure_reason : Field string;
  msp_conditions : Field (list Condition);
}.
Definition empty_machine_status : BasisMachineStatus := {|
  bmt_initialization := None; bmt_provider_id := None; bmt_basis_vm_id := None; bmt_credentials_ref := None;
  bmt_addresses := []; bmt_ready := false; bmt_failure_message := None; bmt_conditions := [] |}.
Definition merge_machine_status (p : MachineStatusPatch) (old : BasisMachineStatus) : BasisMachineStatus := {|
  bmt_initialization := merge_opt (msp_provisioned p) (bmt_initialization old);
  bmt_provider_id := merge_opt (msp_provider_id p) (bmt_provider_id old);
  bmt_basis_vm_id := merge_opt (msp_basis_vm_id p) (bmt_basis_vm_id old);
  bmt_credentials_ref :=
    match msp_credentials_ref p with
    | Absent => bmt_credentials_ref old
    | Null => None
    | Value r => Some (merge_ref r (bmt_credentials_ref old))
    end;
  bmt_addresses := merge_or [] (msp_addresses p) (bmt_addresses old);
  bmt_ready := merge_or false (msp_ready p) (bmt_ready old);
  bmt_failure_message := merge_opt (msp_failure_message p) (bmt_failure_message old);
  bmt_conditions := merge_or [] (msp_conditions p) (bmt_conditions old);
|}.

Record ClusterStatusPatch := {
  csp_basis_cluster_id : Field string;
  csp_vni : Field Z;
  csp_cidr : Field string;
  csp_bgp_reflector_address : Field string;
  csp_bgp_asn : Field Z;
  csp_ready : Field bool;
  csp_provisioned : Field bool;
  csp_failure_message : Field string;
  csp_conditions : Field (list Condition);
}.
Definition empty_cluster_status : BasisClusterStatus := {|
  bct_basis_cluster_id := None; bct_vni := None; bct_cidr := None; bct_bgp_reflector_address := None;
  bct_bgp_asn := None; bct_initialization := None; bct_ready := false; bct_failure_message := None;
  bct_conditions := [] |}.
Definition merge_cluster_status (p : ClusterStatusPatch) (old : BasisClusterStatus) : BasisClusterStatus := {|
  bct_basis_cluster_id := merge_opt (csp_basis_cluster_id p) (bct_basis_cluster_id old);
  bct_vni := merge_opt (csp_vni p) (bct_vni old);
  bct_cidr := merge_opt (csp_cidr p) (bct_cidr old);
  bct_bgp_reflector_address := merge_opt (csp_bgp_reflector_address p) (bct_bgp_reflector_address old);
  bct_bgp_asn := merge_opt (csp_bgp_asn p) (bct_bgp_asn old);
  bct_initialization := merge_opt (csp_provisioned p) (bct_initialization old);
  bct_ready := merge_or false (csp_ready p) (bct_ready old);
  bct_failure_message := merge_opt (csp_failure_message p) (bct_failure_message old);
  bct_conditions := merge_or [] (csp_conditions p) (bct_conditions old);
|}.
