(* ===== verification/Provider.v ===== *)
(** * The Cluster API provider's surroundings (crates/basis-capi-provider/src:
      client_cache.rs, bootstrap.rs, workload.rs, cilium_bgp.rs, reconciler.rs)

    The Kubernetes API as the provider uses it, the cache of controller clients
    keyed by credentials, the bootstrap secret, the BGP resources of a workload
    cluster, and what both reconcilers share. *)

From Stdlib Require Import Ascii.
From S2P Require Import Prelude Ipv4 Ipnet CidrNet Proto Config Overcommit DbTypes JsonText Ipam Clusters Hosts Vms Teardown Outbox Schema Scheduler Ctl Api Text HashName Client Crds.

(** [kube::Error]: an answer of the API server with its code, or another. *)
Inductive KubeError := KubeApi (code : Z) | KubeOther.

(** [Secret]: its [data]. *)
Record Secret := { sec_data : option (gmap string (list Byte.byte)) }.

(** [serde_json::Value]. *)
Inductive Json :=
  | JBool (b : bool)
  | JNum (n : Z)
  | JStr (s : string)
  | JArr (l : list Json)
  | JObj (fields : list (string * Json)).

(** [DynamicObject]: [types] are the API version and the kind. *)
Record DynamicObject := {
  dyn_types : option (string * string);
  dyn_name : string;
  dyn_resource_version : option string;
  dyn_managed_fields : option (list string);
  dyn_rest : string;
}.

(** The management cluster's API server, the workload clusters, the clock, and
    the crates that read and print documents. *)
Class Kube := {
  KWorld : Type;
  WorkloadClient : Type;
  now_rfc3339 : KWorld -> string;
  get_basis_cluster : string -> string -> KWorld -> KWorld * result KubeError BasisCluster;
  get_basis_machine : string -> string -> KWorld -> KWorld * result KubeError BasisMachine;
  get_capi_machine : string -> string -> KWorld -> KWorld * result KubeError CapiMachine;
  get_secret : string -> string -> KWorld -> KWorld * result KubeError Secret;
  get_secret_opt : string -> string -> KWorld -> KWorld * result KubeError (option Secret);
  (** merge patches of [spec] and of the [status] subresource *)
  patch_cluster_spec : string -> string -> ControlPlaneEndpoint -> string -> KWorld -> KWorld * result KubeError unit;
  patch_cluster_status : string -> string -> ClusterStatusPatch -> KWorld -> KWorld * result KubeError unit;
  patch_machine_spec : string -> string -> string -> KWorld -> KWorld * result KubeError unit;
  patch_machine_status : string -> string -> MachineStatusPatch -> KWorld -> KWorld * result KubeError unit;
  (** a client from a kubeconfig document, or what is wrong with it *)
  from_kubeconfig : list Byte.byte -> KWorld -> KWorld * result string WorkloadClient;
  (** server-side apply of an object of a group, version and kind *)
  apply_object : WorkloadClient -> string -> string -> string -> string -> DynamicObject -> KWorld -> KWorld * result KubeError unit;
  (** [Display] of the errors of kube and tonic *)
  kube_text : KubeError -> string;
  status_text : StatusCode -> string;
  json_to_string : Json -> option string;
  dynamic_from_str : string -> option DynamicObject;
}.

(** [Action]. *)
Inductive Action := AwaitChange | Requeue (seconds : Z).

(** ** Client cache (client_cache.rs) *)

Record SecretKey := { sk_namespace : string; sk_name : string }.
#[global] Instance secret_key_eq_dec : EqDecision SecretKey.
Proof. solve_decision. Defined.
#[global] Instance secret_key_countable : Countable SecretKey.
Proof.
  refine (inj_countable' (fun k => (sk_namespace k, sk_name k)) (fun '(n, m) => {| sk_namespace := n; sk_name := m |}) _).
  by intros [].
Defined.
Definition resolve_key (r : CredentialsRef) (fallback_namespace : string) : SecretKey := {|
  sk_namespace := unwrap_or fallback_namespace (cred_namespace r); sk_name := cred_name r |}.

Inductive CacheError :=
  | CacheKube (key : SecretKey) (source : KubeError)
  | CacheMissingKey (key : SecretKey) (field : string)
  | CacheInvalidServerUrl (key : SecretKey).

(** [String::from_utf8] accepts the bytes. *)
Definition in_range (lo hi : Z) (b : Byte.byte) : bool :=
  let n := Z.of_N (Byte.to_N b) in (lo <=? n) && (n <=? hi).
Abbreviation cont := (in_range 128 191).
Fixpoint utf8_ok (l : list Byte.byte) : bool :=
  match l with
  | [] => true
  | b :: l1 =>
      if in_range 0 127 b then utf8_ok l1
      else match l1 with
      | [] => false
      | c :: l2 =>
          if in_range 194 223 b then cont c && utf8_ok l2
          else match l2 with
          | [] => false
          | d :: l3 =>
              if in_range 224 239 b then
                (if in_range 224 224 b then in_range 160 191 c
                 else if in_range 237 237 b then in_range 128 159 c else cont c) && cont d && utf8_ok l3
              else match l3 with
              | [] => false
              | e :: l4 =>
                  in_range 240 244 b &&
                  (if in_range 240 240 b then in_range 144 191 c
                   else if in_range 244 244 b then in_range 128 143 c else cont c) &&
                  cont d && cont e && utf8_ok l4
              end
          end
      end
  end.

Definition extract_bytes (data : gmap string (list Byte.byte)) (field : string) (key : SecretKey)
    : result CacheError (list Byte.byte) :=
  match data !! field with Some b => Ok b | None => Err (CacheMissingKey key field) end.
Definition extract_utf8 (data : gmap string (list Byte.byte)) (field : string) (key : SecretKey)
    : result CacheError string :=
  match extract_bytes data field key with
  | Err e => Err e
  | Ok bytes => if utf8_ok bytes then Ok (String.string_of_list_byte bytes) else Err (CacheInvalidServerUrl key)
  end.

(** The client a Secret describes. *)
Definition client_from (secret : Secret) (key : SecretKey) : result CacheError BasisClient :=
  let data := unwrap_or ∅ (sec_data secret) in
  match extract_utf8 data "serverUrl" key with
  | Err e => Err e
  | Ok endpoint =>
      match extract_bytes data "cert" key, extract_bytes data "key" key, extract_bytes data "ca" key with
      | Err e, _, _ => Err e
      | Ok _, Err e, _ => Err e
      | Ok _, Ok _, Err e => Err e
      | Ok cert, Ok k, Ok ca => Ok (new_client endpoint {| ti_cert := cert; ti_key := k; ti_ca := ca |})
      end
  end.

(** ** Provider state *)

Section provider.
Context `{K : Kube} `{B : BasisStub}.

(** The two worlds and the cache: clients live in [pv_clients] and are shared
    by handle, so a client taken out of the cache stays usable. *)
Record Prov := {
  pv_kube : KWorld;
  pv_net : NWorld;
  pv_clients : list BasisClient;
  pv_entries : gmap SecretKey nat;
  pv_trust_domain : string;
}.
Definition set_kube (w : KWorld) (s : Prov) : Prov := {|
  pv_kube := w; pv_net := pv_net s; pv_clients := pv_clients s; pv_entries := pv_entries s;
  pv_trust_domain := pv_trust_domain s |}.
Definition set_net (w : NWorld) (cs : list BasisClient) (s : Prov) : Prov := {|
  pv_kube := pv_kube s; pv_net := w; pv_clients := cs; pv_entries := pv_entries s;
  pv_trust_domain := pv_trust_domain s |}.
Definition set_entries (cs : list BasisClient) (m : gmap SecretKey nat) (s : Prov) : Prov := {|
  pv_kube := pv_kube s; pv_net := pv_net s; pv_clients := cs; pv_entries := m;
  pv_trust_domain := pv_trust_domain s |}.

Definition kube_op {A} (m : KWorld -> KWorld * result KubeError A) : SE Prov KubeError A :=
  fun s => let '(w, r) := m (pv_kube s) in (set_kube w s, r).
Definition kube_time {E} : SE Prov E string := se_gets (fun s => now_rfc3339 (pv_kube s)).
(** A call of the client with a handle; handles are positions of [pv_clients]. *)
Definition client_op {A} (i : nat) (m : SE (BasisClient * NWorld) ClientError A) : SE Prov ClientError A :=
  fun s => match pv_clients s !! i with
           | None => (s, Err (ErrMalformed "no client"))
           | Some c => let '((c', w), r) := m (c, pv_net s) in (set_net w (<[i := c']> (pv_clients s)) s, r)
           end.

(** [BasisClientCache::load], [get] and [invalidate]. *)
Definition load_client (key : SecretKey) : SE Prov CacheError BasisClient :=
  do! secret <- se_map_err (CacheKube key) (kube_op (get_secret (sk_namespace key) (sk_name key))) ;
  se_of (client_from secret key).
Definition cache_get (r : CredentialsRef) (fallback_namespace : string) : SE Prov CacheError nat :=
  let key := resolve_key r fallback_namespace in
  do! hit <- se_gets (fun s => pv_entries s !! key) ;
  match hit with
  | Some i => se_ret i
  | None =>
      do! client <- load_client key ;
      fun s => match pv_entries s !! key with
               | Some i => (s, Ok i)
               | None => let i := length (pv_clients s) in
                         (set_entries (pv_clients s ++ [client]) (<[key := i]> (pv_entries s)) s, Ok i)
               end
  end.
Definition cache_invalidate {E} (r : CredentialsRef) (fallback_namespace : string) : SE Prov E unit :=
  se_modify (fun s => set_entries (pv_clients s) (delete (resolve_key r fallback_namespace) (pv_entries s)) s).

(** ** Bootstrap data (bootstrap.rs) *)

Inductive BootstrapError := MissingValue (secret : string) | FetchSecret (name : string) (source : KubeError).
Definition load_bootstrap_data (namespace secret_name : string) : SE Prov BootstrapError (list Byte.byte) :=
  do! secret <- se_map_err (FetchSecret secret_name) (kube_op (get_secret namespace secret_name)) ;
  match sec_data secret ≫= (fun d => d !! "value") with
  | Some bytes => se_ret bytes
  | None => se_fail (MissingValue secret_name)
  end.
End provider.

(** [namespace_of]. *)
Definition namespace_of (m : Meta) : string := unwrap_or "default" (md_namespace m).

(** [ReconcileError]: what the failure helper needs to know of an error. *)
Class ReconcileError (E : Type) := {
  condition_reason : E -> string;
  is_credentials_problem : E -> bool;
  is_transient : E -> bool;
  err_to_string : E -> string;
}.

(** ** BGP resources of a workload cluster (cilium_bgp.rs) *)

Record BgpRenderInputs := { br_cluster_id : string; br_reflector_address : string; br_asn : Z }.

Definition CILIUM_API_VERSION : string := "cilium.io/v2alpha1".
Definition PEER_CONFIG_NAME : string := "basis-rr".
Definition CLUSTER_CONFIG_NAME : string := "basis-cell".
Definition ADVERT_NAME : string := "basis-lb-services".
Definition managed_by_labels : list (string * Json) :=
  [("app.kubernetes.io/managed-by", JStr "basis-capi-provider")].
Definition bgp_advertise_labels (cluster_id : string) : list (string * Json) :=
  [("app.kubernetes.io/managed-by", JStr "basis-capi-provider");
   ("basis.lattice.dev/cluster-id", JStr cluster_id);
   ("advertise", JStr "default-lb")].
Definition document (kind name : string) (labels : list (string * Json)) (spec : Json) : Json :=
  JObj [("apiVersion", JStr CILIUM_API_VERSION); ("kind", JStr kind);
        ("metadata", JObj [("name", JStr name); ("labels", JObj labels)]); ("spec", spec)].
Definition peer_config : Json :=
  document "CiliumBGPPeerConfig" PEER_CONFIG_NAME managed_by_labels (JObj [
    ("timers", JObj [("holdTimeSeconds", JNum 90); ("keepAliveTimeSeconds", JNum 30);
                     ("connectRetryTimeSeconds", JNum 120)]);
    ("gracefulRestart", JObj [("enabled", JBool true); ("restartTimeSeconds", JNum 120)]);
    ("families", JArr [JObj [("afi", JStr "ipv4"); ("safi", JStr "unicast");
       ("advertisements", JObj [("matchLabels", JObj [("advertise", JStr "default-lb")])])]])]).
Definition cluster_config (inputs : BgpRenderInputs) : Json :=
  document "CiliumBGPClusterConfig" CLUSTER_CONFIG_NAME managed_by_labels (JObj [
    ("bgpInstances", JArr [JObj [("name", JStr "basis-cell"); ("localASN", JNum (br_asn inputs));
       ("peers", JArr [JObj [("name", JStr "basis-rr"); ("peerASN", JNum (br_asn inputs));
          ("peerAddress", JStr (br_reflector_address inputs));
          ("peerConfigRef", JObj [("kind", JStr "CiliumBGPPeerConfig"); ("name", JStr PEER_CONFIG_NAME)])]])]])]).
Definition advertisement (inputs : BgpRenderInputs) : Json :=
  document "CiliumBGPAdvertisement" ADVERT_NAME (bgp_advertise_labels (br_cluster_id inputs)) (JObj [
    ("advertisements", JArr [JObj [("advertisementType", JStr "Service");
       ("service", JObj [("addresses", JArr [JStr "LoadBalancerIP"])]);
       ("selector", JObj [("matchExpressions",
          JArr [JObj [("key", JStr "io.kubernetes.service.namespace"); ("operator", JStr "Exists")]])])]])]).
(** [render_bgp_crds]. *)
Definition render_bgp_crds `{K : Kube} (inputs : BgpRenderInputs) : option (list string) :=
  p ← json_to_string peer_config;
  c ← json_to_string (cluster_config inputs);
  a ← json_to_string (advertisement inputs);
  Some [p; c; a].
