(* ===== verification/Reconcilers.v ===== *)
(** * The reconcilers of the provider (crates/basis-capi-provider/src:
      cluster.rs, machine.rs, reconciler.rs, workload.rs)

    One pass over a [BasisCluster] or a [BasisMachine], whole: apply, observe,
    cleanup, the reflection of a failure onto the resource, and the choice of
    the next pass. kube-runtime's [finalizer] decides which of apply and cleanup
    runs; it is the interface [Finalizer]. *)

From Stdlib Require Import Ascii.
From S2P Require Import Prelude Ipv4 Ipnet CidrNet Proto Config Overcommit DbTypes JsonText Ipam Clusters Hosts Vms Teardown Outbox Schema Scheduler Ctl Api Text HashName Client Crds Provider.

Inductive Event (O : Type) := EvApply (o : O) | EvCleanup (o : O).
Arguments EvApply {O} _.
Arguments EvCleanup {O} _.

Inductive FinalizerError (E : Type) :=
  | ApplyFailed (e : E) | CleanupFailed (e : E) | AddFinalizer | RemoveFinalizer | OtherFinalizer.
Arguments ApplyFailed {E} _.
Arguments CleanupFailed {E} _.
Arguments AddFinalizer {E}.
Arguments RemoveFinalizer {E}.
Arguments OtherFinalizer {E}.

Class Finalizer (S O E : Type) := {
  finalizer : string -> (Event O -> SE S E Action) -> O -> SE S (FinalizerError E) Action;
  finalizer_text : FinalizerError E -> string;
}.

(** ** Texts of the errors *)

Section texts.
Context `{K : Kube}.

Definition client_error_text (e : ClientError) : string :=
  match e with
  | ErrTls => "configuring TLS: "
  | ErrEndpoint => "invalid controller endpoint: "
  | ErrConnect => "connecting to controller: "
  | ErrRpc st => "controller RPC failed: " +:+ status_text st
  | ErrMalformed what => "controller returned malformed response: " +:+ what
  end.
Definition cache_error_text (e : CacheError) : string :=
  match e with
  | CacheKube k source => "kube error reading credentials Secret " +:+ sk_namespace k +:+ "/" +:+ sk_name k
                          +:+ ": " +:+ kube_text source
  | CacheMissingKey k field => "credentials Secret " +:+ sk_namespace k +:+ "/" +:+ sk_name k
                               +:+ " missing required key '" +:+ field +:+ "'"
  | CacheInvalidServerUrl k => "credentials Secret " +:+ sk_namespace k +:+ "/" +:+ sk_name k
                               +:+ " key 'serverUrl' is not valid UTF-8"
  end.
Definition bootstrap_error_text (e : BootstrapError) : string :=
  match e with
  | MissingValue s => "bootstrap secret `" +:+ s +:+ "` has no `value` field"
  | FetchSecret n source => "fetching secret `" +:+ n +:+ "`: " +:+ kube_text source
  end.
End texts.

(** ** Clusters (cluster.rs) *)

Inductive ClusterError :=
  | CeKube (e : KubeError)
  | CeFinalizer (text : string)
  | CeBasis (e : ClientError)
  | CeCredentials (e : CacheError)
  | CeInternal (text : string).

#[export] Instance cluster_reconcile_error `{K : Kube} : ReconcileError ClusterError := {|
  condition_reason e :=
    match e with
    | CeKube _ => "KubeApiError"
    | CeFinalizer _ => "FinalizerError"
    | CeBasis e => if client_credentials_problem e then "BasisCredentialsInvalid"
                   else if client_transient e then "BasisBackpressure" else "BasisRpcError"
    | CeCredentials _ => "BasisCredentialsInvalid"
    | CeInternal _ => "InternalError"
    end;
  is_credentials_problem e :=
    match e with CeCredentials _ => true | CeBasis e => client_credentials_problem e | _ => false end;
  is_transient e := match e with CeBasis e => client_transient e | _ => false end;
  err_to_string e :=
    match e with
    | CeKube e => "kube error: " +:+ kube_text e
    | CeFinalizer t => "finalizer error: " +:+ t
    | CeBasis e => "basis controller: " +:+ client_error_text e
    | CeCredentials e => "resolving credentials: " +:+ cache_error_text e
    | CeInternal t => "internal: " +:+ t
    end;
|}.

Definition CLUSTER_FINALIZER : string := "basiscluster.infrastructure.cluster.x-k8s.io/finalizer".
Definition KUBE_API_PORT : Z := 6443.

Section cluster.
Context `{K : Kube} `{B : BasisStub}.
Abbreviation ClusterM A := (SE Prov ClusterError A).

(** [workload_client] (workload.rs). *)
Definition workload_client (cluster_name namespace : string) : ClusterM (option WorkloadClient) :=
  let secret_name := cluster_name +:+ "-kubeconfig" in
  do! secret <- se_map_err (fun e => CeInternal ("getting " +:+ secret_name +:+ ": " +:+ kube_text e))
                  (kube_op (get_secret_opt namespace secret_name)) ;
  match secret with
  | None => se_ret None
  | Some secret =>
      match sec_data secret ≫= (fun d => d !! "value") with
      | None => se_fail (CeInternal ("Secret " +:+ namespace +:+ "/" +:+ secret_name +:+ " missing data"))
      | Some bytes =>
          fun s => let '(w, r) := from_kubeconfig bytes (pv_kube s) in
                   (set_kube w s, match r with Ok c => Ok (Some c) | Err t => Err (CeInternal t) end)
      end
  end.

(** [apply_bgp_crds] (workload.rs): a refused document is skipped, a malformed
    one ends the pass. *)
Definition apply_bgp_crd (workload : WorkloadClient) (doc : string) : ClusterM unit :=
  match dynamic_from_str doc with
  | None => se_fail (CeInternal "parsing BGP CRD doc")
  | Some obj =>
      match dyn_types obj with
      | None => se_fail (CeInternal "BGP CRD doc missing apiVersion")
      | Some (api_version, kind) =>
          match split_once "/"%char api_version with
          | None => se_fail (CeInternal ("BGP CRD apiVersion " +:+ api_version +:+ " missing group/version separator"))
          | Some (group, version) =>
              let stripped := {| dyn_types := dyn_types obj; dyn_name := dyn_name obj; dyn_resource_version := None;
                                 dyn_managed_fields := None; dyn_rest := dyn_rest obj |} in
              run! se_try (F:=ClusterError) (kube_op (apply_object workload group version kind (dyn_name obj) stripped)) ;
              se_ret tt
          end
      end
  end.
Definition apply_bgp_crds (workload : WorkloadClient) (docs : list string) : ClusterM unit :=
  se_for docs (apply_bgp_crd workload).

(** [record_failure_status] (reconciler.rs), for each kind of resource. *)
Definition failure_conditions {E} `{R : ReconcileError E} (now : string) (generation : option Z)
    (existing : list Condition) (err : E) : list Condition :=
  upsert existing (ready_false now (condition_reason err) (err_to_string err) generation).
Definition record_cluster_failure {F} (namespace name : string) (generation : option Z)
    (existing : list Condition) (err : ClusterError) : SE Prov F unit :=
  do! now <- kube_time ;
  run! se_try (kube_op (patch_cluster_status namespace name {|
    csp_basis_cluster_id := Absent; csp_vni := Absent; csp_cidr := Absent; csp_bgp_reflector_address := Absent;
    csp_bgp_asn := Absent; csp_ready := Value false; csp_provisioned := Absent;
    csp_failure_message := Value (err_to_string err);
    csp_conditions := Value (failure_conditions now generation existing err) |})) ;
  se_ret tt.

Definition cluster_conditions (c : BasisCluster) : list Condition :=
  match bc_status c with Some st => bct_conditions st | None => [] end.
(** [(!s.is_empty()).then(..)] and [(n != 0).then_some(n)] as JSON. *)
Definition json_opt {A} (o : option A) : Field A := match o with Some a => Value a | None => Null end.

(** The status patch of a provisioned cluster. *)
Definition cluster_ready_patch (now : string) (cluster : BasisCluster) (created : ClientCluster)
    (reflector : option string) (asn : option Z) : ClusterStatusPatch := {|
  csp_basis_cluster_id := Value (cc_cluster_id created);
  csp_vni := Value (cc_vni created);
  csp_cidr := Value (cc_cidr created);
  csp_bgp_reflector_address := json_opt reflector;
  csp_bgp_asn := json_opt asn;
  csp_ready := Value true;
  csp_provisioned := Value true;
  csp_failure_message := Null;
  csp_conditions := Value (upsert (cluster_conditions cluster)
                             (ready_true now "Provisioned" (md_generation (bc_meta cluster))));
|}.

(** [apply]. *)
Definition cluster_apply (cluster : BasisCluster) : ClusterM Action :=
  let name := md_name (bc_meta cluster) in
  let namespace := namespace_of (bc_meta cluster) in
  do! basis <- se_map_err CeCredentials (cache_get (bcs_credentials_ref (bc_spec cluster)) namespace) ;
  do! td <- se_gets pv_trust_domain ;
  do! created <- se_map_err CeBasis (client_op basis (client_create_cluster {|
    clr_name := name;
    clr_external_ip_pool := bcs_external_ip_pool (bc_spec cluster);
    clr_external_service_ips := bcs_external_service_ips (bc_spec cluster);
    clr_apiserver_visibility := bcs_apiserver_visibility (bc_spec cluster);
    clr_trust_domain := td |})) ;
  run! se_map_err CeKube (kube_op (patch_cluster_spec namespace name
         {| cpe_host := cc_control_plane_endpoint created; cpe_port := KUBE_API_PORT |}
         (cc_service_block_cidr created))) ;
  do! now <- kube_time ;
  let reflector := if cc_bgp_reflector_address created =$ "" then None else Some (cc_bgp_reflector_address created) in
  let asn := if cc_asn created =? 0 then None else Some (cc_asn created) in
  run! se_map_err CeKube (kube_op (patch_cluster_status namespace name
         (cluster_ready_patch now cluster created reflector asn))) ;
  match reflector, asn with
  | Some reflector, Some asn =>
      match render_bgp_crds {| br_cluster_id := cc_cluster_id created; br_reflector_address := reflector;
                               br_asn := asn |} with
      | None => se_fail (CeInternal "rendering BGP CRDs")
      | Some docs =>
          do! workload <- workload_client name namespace ;
          match workload with
          | Some workload => run! apply_bgp_crds workload docs ; se_ret (Requeue 300)
          | None => se_ret (Requeue 15)
          end
      end
  | _, _ => se_ret (Requeue 300)
  end.

(** [cleanup]. *)
Definition cluster_cleanup (cluster : BasisCluster) : ClusterM Action :=
  match bc_status cluster ≫= bct_basis_cluster_id with
  | None => se_ret AwaitChange
  | Some id =>
      do! basis <- se_map_err CeCredentials
        (cache_get (bcs_credentials_ref (bc_spec cluster)) (namespace_of (bc_meta cluster))) ;
      do! r <- se_try (client_op basis (client_delete_cluster id)) ;
      match r with
      | Ok _ => se_ret AwaitChange
      | Err e => if client_not_found e then se_ret AwaitChange else se_fail (CeBasis e)
      end
  end.

(** [on_failure]. *)
Definition cluster_on_failure {F} (cluster : BasisCluster) (namespace : string) (err : ClusterError) : SE Prov F unit :=
  run! (if is_credentials_problem err
        then cache_invalidate (bcs_credentials_ref (bc_spec cluster)) namespace else se_ret tt) ;
  record_cluster_failure namespace (md_name (bc_meta cluster)) (md_generation (bc_meta cluster))
    (cluster_conditions cluster) err.

(** The closure of [reconcile], [reconcile] and [error_policy]. *)
Definition cluster_event (namespace : string) (event : Event BasisCluster) : ClusterM Action :=
  let resource := match event with EvApply c | EvCleanup c => c end in
  do! action <- se_try (match event with EvApply c => cluster_apply c | EvCleanup c => cluster_cleanup c end) ;
  match action with
  | Ok a => se_ret a
  | Err err => run! cluster_on_failure resource namespace err ; se_fail err
  end.
Definition cluster_reconcile `{Fz : Finalizer Prov BasisCluster ClusterError} (cluster : BasisCluster) : ClusterM Action :=
  se_map_err (fun e => CeFinalizer (finalizer_text e))
    (finalizer CLUSTER_FINALIZER (cluster_event (namespace_of (bc_meta cluster))) cluster).
Definition cluster_error_policy (error : ClusterError) : Action :=
  if is_transient error then Requeue 5 else Requeue 15.
End cluster.

(** ** Machines (machine.rs) *)

Inductive MachineError :=
  | MeKube (e : KubeError)
  | MeFinalizer (text : string)
  | MeBootstrap (e : BootstrapError)
  | MeBasis (e : ClientError)
  | MeCredentials (e : CacheError)
  | MeMissing (field : string)
  | MeClusterNotReady (cluster : string)
  | MeWaitingForCapi (field : string)
  | MeVmFailed (message : string).

#[export] Instance machine_reconcile_error `{K : Kube} : ReconcileError MachineError := {|
  condition_reason e :=
    match e with
    | MeKube _ => "KubeApiError"
    | MeFinalizer _ => "FinalizerError"
    | MeBootstrap _ => "BootstrapNotReady"
    | MeBasis e => if client_credentials_problem e then "BasisCredentialsInvalid"
                   else if client_transient e then "BasisBackpressure" else "BasisRpcError"
    | MeCredentials _ => "BasisCredentialsInvalid"
    | MeMissing _ => "Misconfigured"
    | MeClusterNotReady _ => "ClusterNotReady"
    | MeWaitingForCapi _ => "WaitingForCAPI"
    | MeVmFailed _ => "VMFailed"
    end;
  is_credentials_problem e :=
    match e with MeCredentials _ => true | MeBasis e => client_credentials_problem e | _ => false end;
  is_transient e :=
    match e with MeBasis e => client_transient e | MeWaitingForCapi _ => true | _ => false end;
  err_to_string e :=
    match e with
    | MeKube e => "kube error: " +:+ kube_text e
    | MeFinalizer t => "finalizer error: " +:+ t
    | MeBootstrap e => "bootstrap: " +:+ bootstrap_error_text e
    | MeBasis e => "basis controller: " +:+ client_error_text e
    | MeCredentials e => "resolving credentials: " +:+ cache_error_text e
    | MeMissing f => "missing required field: " +:+ f
    | MeClusterNotReady c => "BasisCluster '" +:+ c +:+ "' has no basisClusterId yet — retrying"
    | MeWaitingForCapi f => "waiting for CAPI to populate " +:+ f
    | MeVmFailed m => "VM reported failed state: " +:+ m
    end;
|}.

Definition MACHINE_FINALIZER : string := "basismachine.infrastructure.cluster.x-k8s.io/finalizer".
Definition CLUSTER_LABEL : string := "cluster.x-k8s.io/cluster-name".

(** [label_selector_to_proto]. *)
Definition label_selector_to_proto (spec : LabelSelectorSpec) : option LabelSelector :=
  if bool_decide (lss_requires spec = []) && bool_decide (lss_prefers spec = []) then None
  else Some {|
    ls_requires := map (fun r => {| req_key := req_key r; req_values := req_values r |}) (lss_requires spec);
    ls_prefers := map (fun p => {| pref_key := pref_key p; pref_value := pref_value p;
                                   pref_weight := pref_weight p |}) (lss_prefers spec) |}.

Section machine.
Context `{K : Kube} `{B : BasisStub}.
Abbreviation MachineM A := (SE Prov MachineError A).

Definition machine_conditions (m : BasisMachine) : list Condition :=
  match bm_status m with Some st => bmt_conditions st | None => [] end.
Definition vm_id_of (m : BasisMachine) : option string := bm_status m ≫= bmt_basis_vm_id.
Definition creds_of (m : BasisMachine) : option CredentialsRef := bm_status m ≫= bmt_credentials_ref.

(** The patches: [commit_status], [record_terminal_failure] and
    [record_failure_status]. *)
Definition running_patch (now : string) (created : CreatedMachine) (creds : CredentialsRef)
    (machine : BasisMachine) : MachineStatusPatch := {|
  msp_ready := Value true;
  msp_provisioned := Value true;
  msp_provider_id := Value (crm_provider_id created);
  msp_basis_vm_id := Value (crm_id created);
  msp_credentials_ref := Value creds;
  msp_addresses := Value [{| ma_kind := "InternalIP"; ma_address := crm_ip_address created |}];
  msp_failure_message := Null;
  msp_failure_reason := Null;
  msp_conditions := Value (upsert (machine_conditions machine)
                             (ready_true now "VMRunning" (md_generation (bm_meta machine))));
|}.
Definition failed_patch (reason : Field string) (message : string) (conditions : list Condition) : MachineStatusPatch := {|
  msp_ready := Value false; msp_provisioned := Absent; msp_provider_id := Absent; msp_basis_vm_id := Absent;
  msp_credentials_ref := Absent; msp_addresses := Absent; msp_failure_message := Value message;
  msp_failure_reason := reason; msp_conditions := Value conditions |}.

Definition commit_status (namespace name : string) (created : CreatedMachine) (creds : CredentialsRef)
    (machine : BasisMachine) : MachineM unit :=
  do! now <- kube_time ;
  se_map_err MeKube (kube_op (patch_machine_status namespace name (running_patch now created creds machine))).
Definition commit_spec_provider_id (namespace name provider_id : string) : MachineM unit :=
  se_map_err MeKube (kube_op (patch_machine_spec namespace name provider_id)).
Definition record_terminal_failure (namespace name : string) (machine : BasisMachine) (reason message : string)
    : MachineM unit :=
  do! now <- kube_time ;
  run! se_try (F:=MachineError) (kube_op (patch_machine_status namespace name
         (failed_patch (Value reason) message
            (upsert (machine_conditions machine)
               (ready_false now reason message (md_generation (bm_meta machine))))))) ;
  se_ret tt.
Definition record_machine_failure {F} (namespace : string) (machine : BasisMachine) (err : MachineError) : SE Prov F unit :=
  do! now <- kube_time ;
  run! se_try (kube_op (patch_machine_status namespace (md_name (bm_meta machine))
         (failed_patch Absent (err_to_string err)
            (failure_conditions now (md_generation (bm_meta machine)) (machine_conditions machine) err)))) ;
  se_ret tt.

(** [observe_vm]. *)
Definition observe_vm (namespace name : string) (vm : Machine) (machine : BasisMachine) : MachineM Action :=
  match machine_state_of (ma_state vm) with
  | Running =>
      let created := {| crm_id := ma_id vm; crm_provider_id := ma_provider_id vm; crm_ip_address := ma_ip_address vm |} in
      match creds_of machine with
      | None => se_fail (MeMissing "status.credentialsRef")
      | Some creds =>
          run! commit_status namespace name created creds machine ;
          run! commit_spec_provider_id namespace name (crm_provider_id created) ;
          se_ret (Requeue 60)
      end
  | Failed =>
      se_fail (MeVmFailed (if ma_error_message vm =$ "" then "VM reported failed state (no detail from agent)"
                           else ma_error_message vm))
  | _ => se_ret (Requeue 15)
  end.

(** [resolve_cluster_ref]: the basis cluster id and the credentials. *)
Definition resolve_cluster_ref (namespace cluster_name : string) : MachineM (string * CredentialsRef) :=
  do! cluster <- se_map_err MeKube (kube_op (get_basis_cluster namespace cluster_name)) ;
  match bc_status cluster ≫= bct_basis_cluster_id with
  | None => se_fail (MeClusterNotReady cluster_name)
  | Some id => se_ret (id, bcs_credentials_ref (bc_spec cluster))
  end.

(** [find_bootstrap_secret]. *)
Definition find_bootstrap_secret (namespace name : string) : MachineM string :=
  do! bm <- se_map_err MeKube (kube_op (get_basis_machine namespace name)) ;
  match md_owner_references (bm_meta bm) ≫= List.find (fun r => or_kind r =$ "Machine") with
  | None => se_fail (MeWaitingForCapi "BasisMachine.metadata.ownerReferences[Machine]")
  | Some owner =>
      do! machine <- se_map_err MeKube (kube_op (get_capi_machine namespace (or_name owner))) ;
      match cpm_data_secret_name machine with
      | None => se_fail (MeWaitingForCapi "Machine.spec.bootstrap.dataSecretName")
      | Some s => se_ret s
      end
  end.

(** The request [apply] sends. *)
Definition provider_request (machine : BasisMachine) (basis_cluster_id : string) (bootstrap_data : list Byte.byte)
    : MachineRequest :=
  let spec := bm_spec machine in {|
  mr_cluster_id := basis_cluster_id;
  mr_name := md_name (bm_meta machine);
  mr_cpu := bms_cpu spec;
  mr_memory_mib := bms_memory_mib spec;
  mr_disk_gib := bms_disk_gib spec;
  mr_image := bms_image spec;
  mr_bootstrap_data := bootstrap_data;
  mr_gpus := bms_gpus spec;
  mr_min_gpu_group_size := bms_gpu_constraints spec;
  mr_storage_disks :=
    map (fun d => {| disk_min_size_gib := sds_min_size_gib d;
                     disk_selector := label_selector_to_proto (sds_selector d);
                     disk_purpose := disk_purpose_num (disk_purpose_as_proto (sds_purpose d)) |}) (bms_storage_disks spec);
  mr_placement := label_selector_to_proto (bms_placement spec);
|}.

(** [apply]. *)
Definition machine_apply (machine : BasisMachine) (namespace : string) : MachineM Action :=
  let name := md_name (bm_meta machine) in
  match md_labels (bm_meta machine) !! CLUSTER_LABEL with
  | None => se_fail (MeMissing "cluster-name label")
  | Some cluster_name =>
      do! cr <- resolve_cluster_ref namespace cluster_name ;
      let '(basis_cluster_id, credentials_ref) := cr in
      do! basis <- se_map_err MeCredentials (cache_get credentials_ref namespace) ;
      match vm_id_of machine with
      | Some vm_id =>
          do! r <- se_try (client_op basis (client_get_machine vm_id)) ;
          match r with
          | Ok vm => observe_vm namespace name vm machine
          | Err e =>
              if client_not_found e
              then run! record_terminal_failure namespace name machine "VmDisappeared"
                          ("Basis VM " +:+ vm_id +:+ " not found") ;
                   se_ret AwaitChange
              else se_fail (MeBasis e)
          end
      | None =>
          do! bootstrap_secret <- find_bootstrap_secret namespace name ;
          do! bootstrap_data <- se_map_err MeBootstrap (load_bootstrap_data namespace bootstrap_secret) ;
          do! created <- se_map_err MeBasis
            (client_op basis (client_create_machine (provider_request machine basis_cluster_id bootstrap_data))) ;
          run! commit_status namespace name created credentials_ref machine ;
          run! commit_spec_provider_id namespace name (crm_provider_id created) ;
          se_ret (Requeue 60)
      end
  end.

(** [cleanup]. *)
Definition machine_cleanup (machine : BasisMachine) : MachineM Action :=
  match vm_id_of machine with
  | None => se_ret AwaitChange
  | Some id =>
      match creds_of machine with
      | None => se_fail (MeMissing "status.credentialsRef")
      | Some credentials_ref =>
          do! basis <- se_map_err MeCredentials (cache_get credentials_ref (namespace_of (bm_meta machine))) ;
          do! r <- se_try (client_op basis (client_delete_machine id)) ;
          match r with
          | Ok _ => se_ret AwaitChange
          | Err e => if client_not_found e then se_ret AwaitChange else se_fail (MeBasis e)
          end
      end
  end.

(** [on_failure]. *)
Definition machine_on_failure {F} (machine : BasisMachine) (namespace : string) (err : MachineError) : SE Prov F unit :=
  if is_transient err then se_ret tt
  else
    run! (if is_credentials_problem err
          then match md_labels (bm_meta machine) !! CLUSTER_LABEL with
               | None => se_ret tt
               | Some cluster_name =>
                   do! cr <- se_try (resolve_cluster_ref namespace cluster_name) ;
                   match cr with
                   | Ok (_, credentials_ref) => cache_invalidate credentials_ref namespace
                   | Err _ => se_ret tt
                   end
               end
          else se_ret tt) ;
    record_machine_failure namespace machine err.

(** The closure of [reconcile], [reconcile] and [error_policy]. *)
Definition machine_event (namespace : string) (event : Event BasisMachine) : MachineM Action :=
  let resource := match event with EvApply m | EvCleanup m => m end in
  do! action <- se_try (match event with EvApply m => machine_apply m namespace | EvCleanup m => machine_cleanup m end) ;
  match action with
  | Ok a => se_ret a
  | Err err => run! machine_on_failure resource namespace err ; se_fail err
  end.
Definition machine_reconcile `{Fz : Finalizer Prov BasisMachine MachineError} (machine : BasisMachine) : MachineM Action :=
  se_map_err (fun e => MeFinalizer (finalizer_text e))
    (finalizer MACHINE_FINALIZER (machine_event (namespace_of (bm_meta machine))) machine).
Definition machine_error_policy (error : MachineError) : Action :=
  match error with
  | MeClusterNotReady _ => Requeue 5
  | _ => if is_transient error then Requeue 5 else Requeue 15
  end.
End machine.
