(* ===== verification/Triple.v ===== *)
(** * Hoare triples for the state and error monad

    [triple P m Q X]: from a state with [P], the call [m] either returns a
    value [a] in a state with [Q a], or fails in a state with [X]. It says
    what holds at every point where a sequence of commands can stop. *)

From S2P Require Import Prelude.

Definition triple {S E A} (P : S -> Prop) (m : SE S E A) (Q : A -> S -> Prop) (X : S -> Prop) : Prop :=
  forall s, P s -> match m s with (s', Ok a) => Q a s' | (s', Err _) => X s' end.

Section triple.
Context {S E : Type}.
Implicit Types P X : S -> Prop.

Lemma triple_ret {A} (a : A) (Q : A -> S -> Prop) X : triple (E:=E) (Q a) (se_ret a) Q X.
Proof. by intros s. Qed.
Lemma triple_fail {A} (e : E) (Q : A -> S -> Prop) X : triple X (se_fail e) Q X.
Proof. by intros s. Qed.
Lemma triple_of {A} (r : result E A) (Q : A -> S -> Prop) P X :
  (forall s, P s -> match r with Ok a => Q a s | Err _ => X s end) -> triple P (se_of r) Q X.
Proof. intros H s Hs. specialize (H s Hs). by destruct r. Qed.
Lemma triple_gets {A} (f : S -> A) (Q : A -> S -> Prop) P X :
  (forall s, P s -> Q (f s) s) -> triple (E:=E) P (se_gets f) Q X.
Proof. intros H s Hs. by apply H. Qed.
Lemma triple_modify (f : S -> S) (Q : unit -> S -> Prop) P X :
  (forall s, P s -> Q tt (f s)) -> triple (E:=E) P (se_modify f) Q X.
Proof. intros H s Hs. by apply H. Qed.
Lemma triple_bind {A B} (m : SE S E A) (k : A -> SE S E B) P (R : A -> S -> Prop) (Q : B -> S -> Prop) X :
  triple P m R X -> (forall a, triple (R a) (k a) Q X) -> triple P (se_bind m k) Q X.
Proof.
  intros Hm Hk s Hs. unfold se_bind. specialize (Hm s Hs).
  destruct (m s) as [s1 [a|e]]; [|done]. by apply Hk.
Qed.
Lemma triple_pre {A} (m : SE S E A) P P' (Q : A -> S -> Prop) X :
  (forall s, P' s -> P s) -> triple P m Q X -> triple P' m Q X.
Proof. intros H Hm s Hs. by apply Hm, H. Qed.
Lemma triple_post {A} (m : SE S E A) P (Q Q' : A -> S -> Prop) X X' :
  (forall a s, Q a s -> Q' a s) -> (forall s, X s -> X' s) -> triple P m Q X -> triple P m Q' X'.
Proof.
  intros HQ HX Hm s Hs. specialize (Hm s Hs). destruct (m s) as [s1 [a|e]]; auto.
Qed.
(** A loop invariant that may mention what is left to do. *)
Lemma triple_for {A} (l : list A) (body : A -> SE S E unit) (I : list A -> S -> Prop) X :
  (forall x l', triple (I (x :: l')) (body x) (fun _ => I l') X) ->
  triple (I l) (se_for l body) (fun _ => I []) X.
Proof.
  intros Hb. induction l as [|x l IH]; [by intros ?|]. simpl.
  eapply triple_bind; [apply Hb|]. intros []. apply IH.
Qed.
Lemma triple_try {F A} (m : SE S E A) P (Q : result E A -> S -> Prop) X X' :
  triple P m (fun a => Q (Ok a)) X -> (forall e s, X s -> Q (Err e) s) ->
  triple (E:=F) P (se_try m) Q X'.
Proof.
  intros Hm HX s Hs. unfold se_try. specialize (Hm s Hs).
  destruct (m s) as [s1 [a|e]]; [done|]. by apply HX.
Qed.

(** A loop that collects results; the invariant sees what is left and what
    was collected. *)
Lemma triple_map {A B} (body : A -> SE S E B) (I : list A -> list B -> S -> Prop) X l : forall acc,
  (forall x rest acc, triple (I (x :: rest) acc) (body x) (fun b => I rest (acc ++ [b])) X) ->
  triple (I l acc) (se_map l body) (fun bs => I [] (acc ++ bs)) X.
Proof.
  induction l as [|x l IH]; intros acc Hb; simpl.
  - intros s Hs. simpl. by rewrite app_nil_r.
  - eapply triple_bind; [apply Hb|]. intros b. eapply triple_bind; [by apply IH|]. intros bs s Hs.
    simpl. by rewrite <- app_assoc in Hs.
Qed.

(** A triple about a run that is known. *)
Lemma triple_run_ok {A} (m : SE S E A) P (Q : A -> S -> Prop) X s s' a :
  triple P m Q X -> P s -> m s = (s', Ok a) -> Q a s'.
Proof. intros Hm Hs Hr. specialize (Hm s Hs). by rewrite Hr in Hm. Qed.
Lemma triple_run_err {A} (m : SE S E A) P (Q : A -> S -> Prop) X s s' e :
  triple P m Q X -> P s -> m s = (s', Err e) -> X s'.
Proof. intros Hm Hs Hr. specialize (Hm s Hs). by rewrite Hr in Hm. Qed.
Lemma keeps_triple {A} (Q : S -> Prop) (m : SE S E A) : triple Q m (fun _ => Q) Q <-> keeps Q m.
Proof.
  split; intros Hm s Hs; specialize (Hm s Hs); by destruct (m s) as [s1 [a|e]].
Qed.
End triple.

(** ** What a call leaves alone *)

(** [f] has the same value before and after the call. *)
Definition fixes {S E A B} (f : S -> B) (m : SE S E A) : Prop := forall s, f (fst (m s)) = f s.

Create HintDb fixes.

Section fixes.
Context {S E : Type} {B : Type} (f : S -> B).

Lemma fixes_ret {A} (a : A) : fixes f (se_ret (E:=E) a).
Proof. done. Qed.
Lemma fixes_fail {A} (e : E) : fixes f (se_fail (A:=A) e).
Proof. done. Qed.
Lemma fixes_of {A} (r : result E A) : fixes f (se_of r).
Proof. done. Qed.
Lemma fixes_gets {A} (g : S -> A) : fixes f (se_gets (E:=E) g).
Proof. done. Qed.
Lemma fixes_modify g : (forall s, f (g s) = f s) -> fixes f (se_modify (E:=E) g).
Proof. intros H s. apply H. Qed.
Lemma fixes_bind {A C} (m : SE S E A) (k : A -> SE S E C) :
  fixes f m -> (forall a, fixes f (k a)) -> fixes f (se_bind m k).
Proof.
  intros Hm Hk s. unfold se_bind. specialize (Hm s). destruct (m s) as [s' [a|e]]; simpl in *; [|done].
  by rewrite Hk.
Qed.
Lemma fixes_for {A} (l : list A) (body : A -> SE S E unit) :
  (forall x, fixes f (body x)) -> fixes f (se_for l body).
Proof. intros H. induction l; simpl; [apply fixes_ret|]. by apply fixes_bind. Qed.
Lemma fixes_map {A C} (l : list A) (body : A -> SE S E C) :
  (forall x, fixes f (body x)) -> fixes f (se_map l body).
Proof.
  intros H. induction l; simpl; [apply fixes_ret|]. apply fixes_bind; [done|]. intros ?.
  apply fixes_bind; [done|]. intros ?. apply fixes_ret.
Qed.
Lemma fixes_try {F A} (m : SE S E A) : fixes f m -> fixes f (se_try (F:=F) m).
Proof. intros H s. unfold se_try. specialize (H s). by destruct (m s). Qed.
Lemma fixes_map_err {F A} (g : E -> F) (m : SE S E A) : fixes f m -> fixes f (se_map_err g m).
Proof. intros H s. unfold se_map_err. specialize (H s). by destruct (m s). Qed.

Lemma fixes_keeps {A} (Q : B -> Prop) (m : SE S E A) : fixes f m -> keeps (fun s => Q (f s)) m.
Proof. intros H s Hs. by rewrite H. Qed.
End fixes.

#[export] Hint Resolve fixes_ret fixes_fail fixes_of fixes_gets : fixes.

(** Walk through the sequence of calls. *)
Ltac fixes_step :=
  first
    [ solve [eauto 2 with fixes]
    | apply fixes_bind; [|intros ?]
    | apply fixes_for; intros ?
    | apply fixes_map; intros ?
    | apply fixes_try
    | apply fixes_map_err
    | case_match
    | progress cbn zeta beta ].
Ltac fixes_tac := repeat fixes_step.

(** Carrying a fact that the call keeps. *)
Lemma triple_frame {S E A} (K : S -> Prop) (P : S -> Prop) (m : SE S E A) (Q : A -> S -> Prop) (X : S -> Prop) :
  triple P m Q X -> keeps K m ->
  triple (fun s => P s /\ K s) m (fun a s => Q a s /\ K s) (fun s => X s /\ K s).
Proof.
  intros Hm HK s [HP HKs]. specialize (Hm s HP). specialize (HK s HKs).
  destruct (m s) as [s' [a|e]]; by split.
Qed.
Lemma triple_map_err {S E F A} (g : E -> F) (P : S -> Prop) (m : SE S E A) (Q : A -> S -> Prop) (X : S -> Prop) :
  triple P m Q X -> triple P (se_map_err g m) Q X.
Proof.
  intros Hm s Hs. specialize (Hm s Hs). unfold se_map_err. by destruct (m s) as [s' [a|e]].
Qed.
