(* ===== verification/Gauges.v ===== *)
(** * Gauges and their series

    What the two metrics modules (crates/basis-controller/src/metrics.rs,
    crates/basis-agent/src/metrics.rs) use of the Prometheus client: families
    with declared label names, series that exist once their labels were set,
    [reset], and the panic of [with_label_values] on a wrong number of labels. *)

From S2P Require Import Prelude Overcommit Triple.

(** The families of a registry: the name each is registered under and the
    labels it declares. *)
Class Families (F : Type) := {
  family_eq_dec :: EqDecision F;
  family_name : F -> string;
  family_labels : F -> list string;
}.

(** The value of a series: an [IntGauge] or a [Gauge]. *)
Inductive GaugeValue := IntValue (n : Z) | FloatValue (x : f64).

Inductive MetricsError (E : Type) :=
  | Panicked
  | AlreadyReg (name : string)
  | QueryFailed (e : E).
Arguments Panicked {E}.
Arguments AlreadyReg {E} name.
Arguments QueryFailed {E} e.

(** The series of every family, by label values. *)
Definition Series (F : Type) : Type := F -> gmap (list string) GaugeValue.

(** [Duration::as_secs_f64]. *)
Definition NANOS_PER_SEC : Z := 1000000000.
Definition as_secs_f64 (nanos : Z) : f64 :=
  f64_add (f64_of_int (nanos / NANOS_PER_SEC))
          (f64_div (f64_of_int (nanos mod NANOS_PER_SEC)) (f64_of_int NANOS_PER_SEC)).

Section gauges.
Context {F : Type} `{FF : Families F} {E : Type}.

(** [Registry::register]: a name is registered once. *)
Definition register (f : F) : SE (list string) (MetricsError E) unit :=
  fun names => if decide (family_name f ∈ names) then (names, Err (AlreadyReg (family_name f)))
               else (family_name f :: names, Ok tt).

Definition set_series (f : F) (labels : list string) (v : GaugeValue) (g : Series F) : Series F :=
  fun f' => if decide (f' = f) then <[labels := v]> (g f') else g f'.

(** [vec.with_label_values(labels).set(v)]. *)
Definition set_gauge (f : F) (labels : list string) (v : GaugeValue) : SE (Series F) (MetricsError E) unit :=
  fun g => if decide (length labels = length (family_labels f)) then (set_series f labels v g, Ok tt)
           else (g, Err Panicked).

(** [vec.reset()], for each of the families. *)
Definition reset (fs : list F) (g : Series F) : Series F :=
  fun f => if decide (f ∈ fs) then ∅ else g f.

(** A run of [set_gauge] calls. *)
Definition publish (writes : list (F * list string * GaugeValue)) : SE (Series F) (MetricsError E) unit :=
  se_for writes (fun '(f, labels, v) => set_gauge f labels v).

(** ** What a run of writes leaves *)

Definition written (writes : list (F * list string * GaugeValue)) (g : Series F) : Series F :=
  foldl (fun g '(f, labels, v) => set_series f labels v g) g writes.

Definition labels_fit (w : F * list string * GaugeValue) : Prop :=
  length (snd (fst w)) = length (family_labels (fst (fst w))).

Lemma publish_run ws g : Forall labels_fit ws -> publish ws g = (written ws g, Ok tt).
Proof.
  intros Hf. revert g. induction Hf as [|[[f ls] v] ws Hw _ IH]; intros g; [done|].
  unfold publish, se_for. fold (@se_for (Series F) (MetricsError E)). unfold se_bind, set_gauge at 1.
  rewrite decide_True by done. apply IH.
Qed.

Lemma written_app ws ws' g : written (ws ++ ws') g = written ws' (written ws g).
Proof. apply foldl_app. Qed.

Lemma set_series_ne f f' ls v g : f' <> f -> set_series f ls v g f' = g f'.
Proof. intros. unfold set_series. by rewrite decide_False. Qed.

(** A series that is not written keeps its value. *)
Lemma written_other ws g f ls :
  (forall v, (f, ls, v) ∉ ws) -> written ws g f !! ls = g f !! ls.
Proof.
  revert g. induction ws as [|[[f' ls'] v'] ws IH]; intros g Hn; [done|]. simpl.
  rewrite IH by (intros v Hv; apply (Hn v); set_solver). unfold set_series.
  destruct (decide (f = f')) as [->|]; [|done].
  rewrite lookup_insert_ne; [done|]. intros ->. apply (Hn v'). set_solver.
Qed.

(** A series all of whose writes agree has that value. *)
Lemma written_at ws g f ls v :
  (f, ls, v) ∈ ws -> (forall v', (f, ls, v') ∈ ws -> v' = v) -> written ws g f !! ls = Some v.
Proof.
  revert g. induction ws as [|[[f' ls'] v'] ws IH]; intros g Hin Hu; [by apply not_elem_of_nil in Hin|].
  simpl. destruct (decide (Exists (fun w => fst w = (f, ls)) ws)) as [Hex|Hno].
  - apply IH; [|intros; apply Hu; set_solver].
    apply Exists_exists in Hex as ([k u] & Hw & Hk). simpl in Hk. subst k.
    by rewrite <- (Hu u) by set_solver.
  - rewrite written_other by (intros u Hw; apply Hno, Exists_exists; by exists (f, ls, u)).
    apply elem_of_cons in Hin as [[= <- <- <-]|Hin]; [|exfalso; apply Hno, Exists_exists; by exists (f, ls, v)].
    unfold set_series. rewrite decide_True by done. apply lookup_insert_eq.
Qed.

(** A family none of whose series is written is the same. *)
Lemma written_family ws g f : (forall w, w ∈ ws -> fst (fst w) <> f) -> written ws g f = g f.
Proof.
  revert g. induction ws as [|[[f' ls] v] ws IH]; intros g Hn; [done|]. simpl.
  rewrite IH by set_solver. apply set_series_ne.
  intros ->. by apply (Hn (f', ls, v)); [left|].
Qed.

(** A series of a family that was empty was written. *)
Lemma written_inv ws g f ls v :
  g f = ∅ -> written ws g f !! ls = Some v -> (f, ls, v) ∈ ws.
Proof.
  intros Hg. assert (forall g, written ws g f !! ls = Some v -> (f, ls, v) ∈ ws \/ g f !! ls = Some v) as Hw.
  { induction ws as [|[[f' ls'] v'] ws IH]; intros g0 Hl; [by right|]. simpl in Hl.
    destruct (IH _ Hl) as [?|Hs]; [left; by right|]. unfold set_series in Hs.
    destruct (decide (f = f')) as [->|]; [|by right].
    apply lookup_insert_Some in Hs as [[-> ->]|[_ Hs]]; [left; by left|by right]. }
  intros Hl. destruct (Hw g Hl) as [?|Hs]; [done|]. by rewrite Hg, lookup_empty in Hs.
Qed.

(** The series of a family that was empty are those written. *)
Lemma written_lookup ws g f ls v :
  g f = ∅ -> (forall v v', (f, ls, v) ∈ ws -> (f, ls, v') ∈ ws -> v = v') ->
  written ws g f !! ls = Some v <-> (f, ls, v) ∈ ws.
Proof.
  intros Hg Hu. split; [by apply written_inv|]. intros Hin. apply written_at; [done|]. intros v' Hv'. eauto.
Qed.
End gauges.

(** ** Calls that write series *)

Definition Writes (F : Type) : Type := list (F * list string * GaugeValue).

(** [emits series P m]: [m] returns, and what it did to the series is a run of
    writes with [P]. *)
Definition emits {F : Type} `{FF : Families F} {S X : Type} (series : S -> Series F) {A}
    (P : Writes F -> Prop) (m : SE S X A) : Prop :=
  forall s, exists s' a ws, m s = (s', Ok a) /\ series s' = written ws (series s) /\ P ws.

Section emits.
Context {F : Type} `{FF : Families F} {S X : Type}.
Context {series : S -> Series F}.
#[local] Abbreviation emits := (emits (X:=X) series).

Lemma emits_ret {A} (a : A) : emits (fun ws => ws = []) (se_ret a).
Proof. intros s. by exists s, a, []. Qed.
Lemma emits_weaken {A} (P Q : Writes F -> Prop) (m : SE S X A) : (forall ws, P ws -> Q ws) -> emits P m -> emits Q m.
Proof. intros H Hm s. destruct (Hm s) as (s' & a & ws & ? & ? & ?). exists s', a, ws. auto. Qed.
Lemma emits_bind {A B} (P Q : Writes F -> Prop) (m : SE S X A) (k : A -> SE S X B) :
  emits P m -> (forall a, emits Q (k a)) ->
  emits (fun ws => exists w1 w2, ws = w1 ++ w2 /\ P w1 /\ Q w2) (se_bind m k).
Proof.
  intros Hm Hk s. destruct (Hm s) as (s1 & a & w1 & E1 & G1 & H1).
  destruct (Hk a s1) as (s2 & b & w2 & E2 & G2 & H2). exists s2, b, (w1 ++ w2).
  unfold se_bind. rewrite E1, E2, G2, G1, written_app. eauto 8.
Qed.
Lemma emits_for {A} (P : A -> Writes F -> Prop) (l : list A) (body : A -> SE S X unit) :
  (forall x, emits (P x) (body x)) ->
  emits (fun ws => exists wss, ws = concat wss /\ Forall2 P l wss) (se_for l body).
Proof.
  intros Hb. induction l as [|x l IH]; simpl.
  - eapply emits_weaken; [|apply emits_ret]. intros ? ->. by exists [].
  - eapply emits_weaken; [|apply emits_bind; [apply Hb|intros ?; apply IH]].
    intros ? (w1 & ? & -> & ? & wss & -> & ?). exists (w1 :: wss). by split; [|constructor].
Qed.
(** One step of a sequence. *)
Lemma emits_step {A B} P (m : SE S X A) (k : A -> SE S X B) s :
  emits P m -> exists s1 a ws, series s1 = written ws (series s) /\ P ws /\ se_bind m k s = k a s1.
Proof. intros Hm. destruct (Hm s) as (s1 & a & ws & E & G & H). exists s1, a, ws. unfold se_bind. by rewrite E. Qed.

(** A loop wrote what each round wrote. *)
Lemma rounds_in {A} (P : A -> Writes F -> Prop) l wss w :
  Forall2 P l wss -> w ∈ concat wss -> exists x ws, x ∈ l /\ P x ws /\ w ∈ ws.
Proof.
  induction 1 as [|x ws l wss Hp _ IH]; simpl; [by intros ?%not_elem_of_nil|].
  rewrite elem_of_app. intros [Hw|Hw]; [exists x, ws; set_solver|].
  destruct (IH Hw) as (y & ws' & ? & ? & ?). exists y, ws'. set_solver.
Qed.
Lemma rounds_all {A} (P : A -> Writes F -> Prop) l wss x :
  Forall2 P l wss -> x ∈ l -> exists ws, P x ws /\ ws ⊆ concat wss.
Proof.
  induction 1 as [|y ws l wss Hp _ IH]; simpl; [by intros ?%not_elem_of_nil|].
  intros [->|Hx]%elem_of_cons; [exists ws; set_solver|].
  destruct (IH Hx) as (ws' & ? & ?). exists ws'. set_solver.
Qed.

(** When a round writes only series whose first label is its own key, what
    was written under a key is what its round wrote. *)
Lemma rounds_own {A} (P : A -> Writes F -> Prop) (key : A -> string) l wss :
  (forall x ws w, P x ws -> w ∈ ws -> head (snd (fst w)) = Some (key x)) ->
  NoDup (map key l) -> Forall2 P l wss -> forall x, x ∈ l ->
  exists ws, P x ws /\ forall w, head (snd (fst w)) = Some (key x) -> w ∈ concat wss <-> w ∈ ws.
Proof.
  intros Hk Hnd HF. induction HF as [|y ws l wss Hp HF IH]; [by intros x ?%not_elem_of_nil|].
  simpl in Hnd. apply NoDup_cons in Hnd as [Hn Hnd]. intros x [->|Hx]%elem_of_cons.
  - exists ws. split; [done|]. intros w Hw. cbn [concat]. rewrite elem_of_app. split; [|by left].
    intros [?|Hin]; [done|]. destruct (rounds_in _ _ _ _ HF Hin) as (z & ws' & Hz & Hpz & Hwz).
    specialize (Hk z ws' w Hpz Hwz). rewrite Hk in Hw. injection Hw as Hw. destruct Hn. rewrite <- Hw.
    apply list_elem_of_fmap. by exists z.
  - destruct (IH Hnd x Hx) as (ws' & Hp' & Hw'). exists ws'. split; [done|]. intros w Hw. cbn [concat].
    rewrite elem_of_app, <- Hw' by done. split; [|by right]. intros [Hin|?]; [|done].
    specialize (Hk y ws w Hp Hin). rewrite Hk in Hw. injection Hw as Hw. destruct Hn. rewrite Hw.
    apply list_elem_of_fmap. by exists x.
Qed.

(** Every write of the run satisfies [W]. *)
Lemma emits_all_bind {A B} (W : F * list string * GaugeValue -> Prop) (m : SE S X A) (k : A -> SE S X B) :
  emits (Forall W) m -> (forall a, emits (Forall W) (k a)) -> emits (Forall W) (se_bind m k).
Proof.
  intros Hm Hk. eapply emits_weaken; [|by apply emits_bind].
  intros ? (? & ? & -> & ? & ?). by apply Forall_app.
Qed.
Lemma emits_all_for {A} (W : F * list string * GaugeValue -> Prop) (l : list A) (body : A -> SE S X unit) :
  (forall x, emits (Forall W) (body x)) -> emits (Forall W) (se_for l body).
Proof.
  intros Hb. induction l; simpl; [|by apply emits_all_bind].
  eapply emits_weaken; [|apply emits_ret]. by intros ? ->.
Qed.
(** The run is known. *)
Lemma emits_for_eq {A} (l : list A) (body : A -> SE S X unit) (ws : A -> Writes F) :
  (forall x, emits (eq (ws x)) (body x)) -> emits (eq (concat (map ws l))) (se_for l body).
Proof.
  intros Hb. eapply emits_weaken; [|exact (emits_for (fun x => eq (ws x)) l body Hb)]. intros ? (wss & -> & HF). f_equal.
  induction HF as [|x w l wss <- _ IH]; [done|]. simpl. by f_equal.
Qed.
End emits.
