(* ===== verification/Metrics.v ===== *)
(** * The controller's metrics (crates/basis-controller/src/metrics.rs)

    The families the controller registers and [refresh], the pass the poller
    makes every five seconds: it reads the database query by query, with
    other callers writing in between, and rewrites every gauge derived from
    it. *)

From S2P Require Import Prelude Ipv4 Ipnet CidrNet Proto Config Overcommit DbTypes JsonText Ipam Clusters Hosts Vms Teardown Outbox Schema Triple Gauges.

(** [Metrics]: the handles, by the names they are registered under. *)
Inductive Family :=
  | basis_clusters | basis_hosts | basis_vms
  | basis_host_cpu_total | basis_host_cpu_assigned
  | basis_host_memory_mib_total | basis_host_memory_mib_assigned
  | basis_host_rootfs_bytes_total | basis_host_rootfs_bytes_assigned
  | basis_host_data_bytes_total | basis_host_data_bytes_assigned
  | basis_host_gpus_total | basis_host_gpus_assigned
  | basis_host_last_heartbeat_age_seconds | basis_vm_age_in_state_seconds
  | basis_cpu_overcommit_ratio
  | basis_agent_connected | basis_scheduler_decisions_total | basis_vm_create_result_total
  | basis_vm_create_duration_seconds | basis_vm_time_to_running_seconds
  | basis_pool_capacity_bytes | basis_device_capacity_bytes
  | basis_device_physical_state | basis_device_scheduling_state
  | basis_pool_reservations | basis_pending_commands.

Definition name_of_family (f : Family) : string :=
  match f with
  | basis_clusters => "basis_clusters"
  | basis_hosts => "basis_hosts"
  | basis_vms => "basis_vms"
  | basis_host_cpu_total => "basis_host_cpu_total"
  | basis_host_cpu_assigned => "basis_host_cpu_assigned"
  | basis_host_memory_mib_total => "basis_host_memory_mib_total"
  | basis_host_memory_mib_assigned => "basis_host_memory_mib_assigned"
  | basis_host_rootfs_bytes_total => "basis_host_rootfs_bytes_total"
  | basis_host_rootfs_bytes_assigned => "basis_host_rootfs_bytes_assigned"
  | basis_host_data_bytes_total => "basis_host_data_bytes_total"
  | basis_host_data_bytes_assigned => "basis_host_data_bytes_assigned"
  | basis_host_gpus_total => "basis_host_gpus_total"
  | basis_host_gpus_assigned => "basis_host_gpus_assigned"
  | basis_host_last_heartbeat_age_seconds => "basis_host_last_heartbeat_age_seconds"
  | basis_vm_age_in_state_seconds => "basis_vm_age_in_state_seconds"
  | basis_cpu_overcommit_ratio => "basis_cpu_overcommit_ratio"
  | basis_agent_connected => "basis_agent_connected"
  | basis_scheduler_decisions_total => "basis_scheduler_decisions_total"
  | basis_vm_create_result_total => "basis_vm_create_result_total"
  | basis_vm_create_duration_seconds => "basis_vm_create_duration_seconds"
  | basis_vm_time_to_running_seconds => "basis_vm_time_to_running_seconds"
  | basis_pool_capacity_bytes => "basis_pool_capacity_bytes"
  | basis_device_capacity_bytes => "basis_device_capacity_bytes"
  | basis_device_physical_state => "basis_device_physical_state"
  | basis_device_scheduling_state => "basis_device_scheduling_state"
  | basis_pool_reservations => "basis_pool_reservations"
  | basis_pending_commands => "basis_pending_commands"
  end.

Definition labels_of_family (f : Family) : list string :=
  match f with
  | basis_clusters | basis_cpu_overcommit_ratio | basis_vm_time_to_running_seconds => []
  | basis_hosts => ["healthy"]
  | basis_vms => ["state"; "cluster"]
  | basis_host_cpu_total | basis_host_cpu_assigned
  | basis_host_memory_mib_total | basis_host_memory_mib_assigned
  | basis_host_rootfs_bytes_total | basis_host_rootfs_bytes_assigned
  | basis_host_data_bytes_total | basis_host_data_bytes_assigned
  | basis_host_gpus_total | basis_host_gpus_assigned
  | basis_host_last_heartbeat_age_seconds | basis_agent_connected => ["host"]
  | basis_vm_age_in_state_seconds => ["vm_id"; "name"; "state"; "host"; "cluster"]
  | basis_scheduler_decisions_total => ["outcome"]
  | basis_vm_create_result_total | basis_vm_create_duration_seconds => ["result"]
  | basis_pool_capacity_bytes => ["host"; "pool"; "backend"; "layer"]
  | basis_device_capacity_bytes => ["host"; "pool"; "device"; "kind"]
  | basis_device_physical_state => ["host"; "pool"; "device"; "physical"]
  | basis_device_scheduling_state => ["host"; "pool"; "device"; "state"]
  | basis_pool_reservations => ["host"; "pool"; "device"; "cluster"; "purpose"; "state"]
  | basis_pending_commands => ["host"; "state"]
  end.

#[global] Instance family_dec : EqDecision Family.
Proof. solve_decision. Defined.
#[global] Instance controller_families : Families Family := {|
  family_eq_dec := family_dec; family_name := name_of_family; family_labels := labels_of_family |}.

(** The order of registration in [Metrics::new]. *)
Definition registration : list Family := [
  basis_clusters; basis_hosts; basis_vms; basis_host_cpu_total; basis_host_cpu_assigned;
  basis_host_memory_mib_total; basis_host_memory_mib_assigned; basis_host_rootfs_bytes_total;
  basis_host_rootfs_bytes_assigned; basis_host_data_bytes_total; basis_host_data_bytes_assigned;
  basis_host_gpus_total; basis_host_gpus_assigned; basis_host_last_heartbeat_age_seconds;
  basis_vm_age_in_state_seconds; basis_cpu_overcommit_ratio; basis_agent_connected;
  basis_scheduler_decisions_total; basis_vm_create_result_total; basis_vm_create_duration_seconds;
  basis_vm_time_to_running_seconds; basis_pool_capacity_bytes; basis_device_capacity_bytes;
  basis_device_physical_state; basis_device_scheduling_state; basis_pool_reservations;
  basis_pending_commands ].

(** [Metrics::new]: the unlabelled gauges exist from the start. *)
Definition metrics_new (cpu_overcommit_ratio : f64) : result (MetricsError DbError) (Series Family) :=
  match se_for registration register [] with
  | (_, Err e) => Err e
  | (_, Ok _) =>
      Ok (set_series basis_clusters [] (IntValue 0)
            (set_series basis_cpu_overcommit_ratio [] (FloatValue cpu_overcommit_ratio) (fun _ => ∅)))
  end.

(** ** The queries made for the metrics only (db.rs) *)

Record PoolReservationCount := {
  prc_host_id : string;
  prc_pool : string;
  prc_device_id : string;
  prc_cluster_id : string;
  prc_purpose : string;
  prc_state : string;
  prc_count : Z;
}.
Record PendingCommandCount := { pcc_host_id : string; pcc_state : string; pcc_count : Z }.

(** [GROUP BY] the key, with [COUNT]. *)
Definition group_count {A K} `{EqDecision K} (key : A -> K) (t : list A) : list (K * Z) :=
  map (fun k => (k, count_where (fun r => bool_decide (key r = k)) t)) (remove_dups (map key t)).

(** [Db::pool_reservation_counts] and [Db::pending_command_counts]. *)
Definition pool_reservation_counts : DbM (list PoolReservationCount) :=
  se_gets (fun db =>
    map (fun '((h, p, d, c, u, s), n) =>
           {| prc_host_id := h; prc_pool := p; prc_device_id := d; prc_cluster_id := c;
              prc_purpose := u; prc_state := s; prc_count := n |})
        (group_count (fun r => (pda_host_id r, pda_pool r, pda_device_id r, pda_cluster_id r,
                                pda_purpose r, pda_state r)) (pool_disk_assignment db))).
Definition pending_command_counts : DbM (list PendingCommandCount) :=
  se_gets (fun db =>
    map (fun '((h, s), n) => {| pcc_host_id := h; pcc_state := s; pcc_count := n |})
        (group_count (fun r => (pc_host_id r, pc_state r)) (pending_command db))).

(** ** Labels *)

(** [MachineState::as_str_name]. *)
Definition machine_state_name (s : MachineState) : string :=
  match s with
  | Pending => "PENDING" | Creating => "CREATING" | Running => "RUNNING" | Stopping => "STOPPING"
  | Stopped => "STOPPED" | Failed => "FAILED" | PendingTeardown => "PENDING_TEARDOWN"
  end.

Definition state_label (state : Z) : string :=
  let n := as_i32 state in
  if (0 <=? n) && (n <=? 6) then machine_state_name (machine_state_of n) else "UNKNOWN".

Definition ALL_VM_STATES : list string :=
  ["PENDING"; "CREATING"; "RUNNING"; "STOPPING"; "STOPPED"; "FAILED"].

(** humantime's [parse_rfc3339]: nanoseconds since the epoch. *)
Class Humantime := { parse_rfc3339 : string -> option Z }.

(** A pass: how many readings of the database or of the clock it has made,
    and the series. *)
Record Pass := { pass_reads : nat; pass_series : Series Family }.
Definition set_pass_series (f : Series Family -> Series Family) (s : Pass) : Pass :=
  {| pass_reads := pass_reads s; pass_series := f (pass_series s) |}.
Definition another_reading (s : Pass) : Pass :=
  {| pass_reads := S (pass_reads s); pass_series := pass_series s |}.

Abbreviation MetM A := (SE Pass (MetricsError DbError) A).

Section refresh.
Context `{J : DbJson} `{T : Humantime}.
(** The database and the clock at each reading: other callers write and time
    passes in between. *)
Variable snap : nat -> Db.
Variable clock : nat -> Z.

Definition query {A} (m : DbM A) : MetM A :=
  fun s => (another_reading s, match snd (m (snap (pass_reads s))) with
                               | Ok a => Ok a
                               | Err e => Err (QueryFailed e)
                               end).
Definition system_time : MetM Z := fun s => (another_reading s, Ok (clock (pass_reads s))).
Definition on_series {A} (m : SE (Series Family) (MetricsError DbError) A) : MetM A :=
  fun s => let '(g, r) := m (pass_series s) in (set_pass_series (fun _ => g) s, r).
Definition set_metric (f : Family) (labels : list string) (v : GaugeValue) : MetM unit :=
  on_series (set_gauge f labels v).
Definition resets (fs : list Family) : MetM unit := se_modify (set_pass_series (reset fs)).

(** [age_seconds]: zero for a malformed timestamp or one in the future. *)
Definition age_seconds (rfc3339 : string) : MetM f64 :=
  match parse_rfc3339 rfc3339 with
  | None => se_ret (f64_of_int 0)
  | Some t =>
      do! n <- system_time ;
      se_ret (if t <=? n then as_secs_f64 (n - t) else f64_of_int 0)
  end.

(** The gauges of one host. *)
Definition host_series (host : HostRow) (usage : HostUsage) : list (Family * list string * GaugeValue) :=
  let h := h_hostname host in [
    (basis_host_cpu_total, [h], IntValue (h_total_cpu host));
    (basis_host_cpu_assigned, [h], IntValue (used_cpu usage));
    (basis_host_memory_mib_total, [h], IntValue (h_total_memory_mib host));
    (basis_host_memory_mib_assigned, [h], IntValue (used_memory_mib usage));
    (basis_host_rootfs_bytes_total, [h], IntValue (h_rootfs_total_bytes host));
    (basis_host_rootfs_bytes_assigned, [h], IntValue (sat_i64 (used_rootfs_gib usage * GIB)));
    (basis_host_data_bytes_total, [h], IntValue (h_data_total_bytes host));
    (basis_host_data_bytes_assigned, [h], IntValue (sat_i64 (used_data_gib usage * GIB)));
    (basis_host_gpus_total, [h], IntValue (as_i64 (Z.of_nat (length (h_gpu_inventory host)))));
    (basis_host_gpus_assigned, [h], IntValue (as_i64 (Z.of_nat (size (assigned_pci usage)))))].
Definition host_gauges (usage_by_host : gmap string HostUsage) (host : HostRow) : MetM unit :=
  run! on_series (publish (host_series host (unwrap_or usage_default (usage_by_host !! h_id host)))) ;
  do! age <- age_seconds (h_last_heartbeat host) ;
  set_metric basis_host_last_heartbeat_age_seconds [h_hostname host] (FloatValue age).

(** [.iter().map(|r| (id, name)).collect::<HashMap<_, _>>()]: the last row
    with a key wins. *)
Definition name_map {A} (id name : A -> string) (t : list A) : gmap string string :=
  foldl (fun m r => <[id r := name r]> m) ∅ t.

(** The VM counts by state and cluster. *)
Definition zero_counts (clusters : list ClusterRow) : gmap (string * string) Z :=
  foldl (fun m state =>
           foldl (fun m c => <[(state, c_name c) := 0]> m) (<[(state, EmptyString) := 0]> m) clusters)
        ∅ ALL_VM_STATES.
Definition count_vm (k : string * string) (m : gmap (string * string) Z) : gmap (string * string) Z :=
  <[k := unwrap_or 0 (m !! k) + 1]> m.
Definition vm_key (cluster_id_to_name : gmap string string) (vm : VmRow) : string * string :=
  (state_label (vm_state vm), unwrap_or "unknown" (cluster_id_to_name !! vm_cluster_id vm)).
Definition vm_age (host_id_to_name cluster_id_to_name : gmap string string) (vm : VmRow) : MetM unit :=
  let '(state, cluster_name) := vm_key cluster_id_to_name vm in
  let host_name := unwrap_or "unknown" (host_id_to_name !! vm_host_id vm) in
  do! age <- age_seconds (vm_updated_at vm) ;
  set_metric basis_vm_age_in_state_seconds [vm_id vm; vm_name vm; state; host_name; cluster_name] (FloatValue age).

(** The gauges of a pool and of a device. *)
Definition flag (b : bool) : GaugeValue := IntValue (if b then 1 else 0).
Definition pool_series (h : string) (pool : HostPoolRow) : list (Family * list string * GaugeValue) :=
  map (fun '(layer, v) => (basis_pool_capacity_bytes, [h; hp_pool pool; hp_backend pool; layer], IntValue v))
    [("configured", hp_configured_total_bytes pool); ("ready", hp_ready_total_bytes pool);
     ("schedulable_total", hp_schedulable_total_bytes pool); ("schedulable_free", hp_schedulable_free_bytes pool)].
Definition device_series (h pool : string) (scheduling : string) (d : HostPoolDeviceRow)
    : list (Family * list string * GaugeValue) :=
  [(basis_device_capacity_bytes, [h; pool; hpd_device_id d; "total"], IntValue (hpd_total_bytes d));
   (basis_device_capacity_bytes, [h; pool; hpd_device_id d; "free"], IntValue (hpd_free_bytes d))] ++
  map (fun state => (basis_device_physical_state, [h; pool; hpd_device_id d; state], flag (hpd_physical d =$ state)))
    ["Ready"; "Degraded"; "Missing"; "Unspecified"] ++
  map (fun state => (basis_device_scheduling_state, [h; pool; hpd_device_id d; state], flag (scheduling =$ state)))
    ["enabled"; "disabled"].
Definition scheduling_of (drains : gmap (string * string) DeviceSchedulingStateRow) (pool device : string) : string :=
  from_option dss_state "enabled" (drains !! (pool, device)).
Definition storage_gauges (host : HostRow) : MetM unit :=
  let h := h_hostname host in
  do! pools <- query (list_host_pools (h_id host)) ;
  do! drains <- query (host_drain_markers (h_id host)) ;
  se_for pools (fun pool =>
    run! on_series (publish (pool_series h pool)) ;
    do! devices <- query (list_pool_devices (h_id host) (hp_pool pool)) ;
    se_for devices (fun d =>
      on_series (publish (device_series h (hp_pool pool) (scheduling_of drains (hp_pool pool) (hpd_device_id d)) d)))).

(** The reservations and the outbox, by their labels. *)
Definition count_gauges (names : gmap string string) : MetM unit :=
  do! reservations <- query pool_reservation_counts ;
  run! se_for reservations (fun r =>
         set_metric basis_pool_reservations
           [unwrap_or "unknown" (names !! prc_host_id r); prc_pool r; prc_device_id r;
            prc_cluster_id r; prc_purpose r; prc_state r] (IntValue (prc_count r))) ;
  do! commands <- query pending_command_counts ;
  se_for commands (fun r =>
    set_metric basis_pending_commands [unwrap_or "unknown" (names !! pcc_host_id r); pcc_state r]
      (IntValue (pcc_count r))).

(** The families reset before the host and VM loops, and before the storage loop. *)
Definition host_families : list Family := [
  basis_host_cpu_total; basis_host_cpu_assigned; basis_host_memory_mib_total;
  basis_host_memory_mib_assigned; basis_host_rootfs_bytes_total; basis_host_rootfs_bytes_assigned;
  basis_host_data_bytes_total; basis_host_data_bytes_assigned; basis_host_gpus_total;
  basis_host_gpus_assigned; basis_host_last_heartbeat_age_seconds; basis_vms;
  basis_vm_age_in_state_seconds].
Definition storage_families : list Family := [
  basis_pool_capacity_bytes; basis_device_capacity_bytes; basis_device_physical_state;
  basis_device_scheduling_state; basis_pool_reservations; basis_pending_commands].

(** [refresh]. *)
Definition refresh : MetM unit :=
  do! hosts <- query list_hosts ;
  do! vms <- query (list_vms None) ;
  do! clusters <- query list_clusters ;
  run! set_metric basis_clusters [] (IntValue (as_i64 (Z.of_nat (length clusters)))) ;
  run! resets [basis_hosts] ;
  run! set_metric basis_hosts ["true"] (IntValue (count_where h_healthy hosts)) ;
  run! set_metric basis_hosts ["false"] (IntValue (count_where (fun h => negb (h_healthy h)) hosts)) ;
  run! resets host_families ;
  do! usage_by_host <- query host_usage_snapshot ;
  run! se_for hosts (host_gauges usage_by_host) ;
  let host_id_to_name := name_map h_id h_hostname hosts in
  let cluster_id_to_name := name_map c_id c_name clusters in
  let vm_counts := foldl (fun m vm => count_vm (vm_key cluster_id_to_name vm) m) (zero_counts clusters) vms in
  run! se_for vms (vm_age host_id_to_name cluster_id_to_name) ;
  run! se_for (map_to_list vm_counts) (fun '((state, cluster), count) =>
         set_metric basis_vms [state; cluster] (IntValue count)) ;
  run! resets storage_families ;
  run! se_for hosts storage_gauges ;
  count_gauges host_id_to_name.
End refresh.
