(* ===== verification/MetricsFacts.v ===== *)
(** * What a metrics pass publishes

    A pass of the controller's poller succeeds, never sets a gauge with the
    wrong number of labels, leaves no series of a host or of a state that is
    gone, and counts every VM once; what it says of a drained device. *)

From S2P Require Import Prelude Ipv4 Ipnet CidrNet Proto Config Overcommit DbTypes JsonText Ipam Clusters Hosts Vms Teardown Outbox Schema Triple Gauges Metrics.

Abbreviation Writes := (Gauges.Writes Family).
Abbreviation emits := (Gauges.emits (X:=MetricsError DbError) pass_series).

Section emits.
Context `{J : DbJson} `{T : Humantime}.
Variable snap : nat -> Db.
Variable clock : nat -> Z.

Lemma emits_publish ws : Forall labels_fit ws -> emits (eq ws) (on_series (publish ws)).
Proof.
  intros Hf s. unfold on_series. rewrite publish_run by done. eexists _, _, ws. split_and!; [done|done|done].
Qed.
Lemma emits_set f ls v : length ls = length (labels_of_family f) -> emits (eq [(f, ls, v)]) (set_metric f ls v).
Proof.
  intros Hl s. unfold set_metric, on_series, set_gauge. rewrite decide_True by done.
  by eexists _, _, [(f, ls, v)].
Qed.
Lemma emits_query {A} (m : DbM A) :
  (forall db, is_ok (snd (m db)) = true) -> emits (fun ws => ws = []) (query snap m).
Proof.
  intros Hm s. unfold query. specialize (Hm (snap (pass_reads s))).
  destruct (snd (m _)) as [a|e]; [|done]. by exists (another_reading s), a, [].
Qed.
Lemma emits_age t : emits (fun ws => ws = []) (age_seconds clock t).
Proof.
  unfold age_seconds. destruct (parse_rfc3339 t) as [n|]; [|apply emits_ret].
  intros s. by eexists _, _, [].
Qed.

(** A gauge set to an age. *)
Lemma emits_aged t f ls : length ls = length (labels_of_family f) ->
  emits (fun ws => exists age, ws = [(f, ls, FloatValue age)])
        (do! age <- age_seconds clock t ; set_metric f ls (FloatValue age)).
Proof.
  intros Hl s. destruct (emits_age t s) as (s1 & age & ws & E & G & ->). unfold se_bind. rewrite E.
  destruct (emits_set f ls (FloatValue age) Hl s1) as (s2 & u & ws & E2 & G2 & <-).
  exists s2, u, [(f, ls, FloatValue age)]. split_and!; [done|by rewrite G2, G|by exists age].
Qed.
(** ** The loops of [refresh] *)

Definition host_writes (usage : gmap string HostUsage) (host : HostRow) (ws : Writes) : Prop :=
  exists age, ws = host_series host (unwrap_or usage_default (usage !! h_id host)) ++
                   [(basis_host_last_heartbeat_age_seconds, [h_hostname host], FloatValue age)].
Lemma emits_host_gauges usage host : emits (host_writes usage host) (host_gauges clock usage host).
Proof.
  unfold host_gauges. eapply emits_weaken; [|apply emits_bind; [apply emits_publish; repeat constructor|]].
  2: { intros _. by apply emits_aged. }
  intros ? (? & ? & -> & <- & age & ->). by exists age.
Qed.

Definition age_writes (_ : VmRow) (ws : Writes) : Prop :=
  exists ls age, ws = [(basis_vm_age_in_state_seconds, ls, FloatValue age)].
Lemma emits_vm_age hn cn vm : emits (age_writes vm) (vm_age clock hn cn vm).
Proof.
  unfold vm_age. destruct (vm_key cn vm) as [st c]. eapply emits_weaken; [|by apply emits_aged].
  intros ? [age ->]. by eexists _, _.
Qed.

(** What the storage loop can write, whatever the readings in between. *)
Definition storage_write (w : Family * list string * GaugeValue) : Prop :=
  fst (fst w) ∈ [basis_pool_capacity_bytes; basis_device_capacity_bytes; basis_device_physical_state;
                 basis_device_scheduling_state].
Lemma emits_all_query {A} (W : Family * list string * GaugeValue -> Prop) (m : DbM A) :
  (forall db, is_ok (snd (m db)) = true) -> emits (Forall W) (query snap m).
Proof. intros. eapply emits_weaken; [|by apply emits_query]. by intros ? ->. Qed.

Lemma emits_storage_gauges host : emits (Forall storage_write) (storage_gauges snap host).
Proof.
  unfold storage_gauges. apply emits_all_bind; [by apply emits_all_query|intros pools].
  apply emits_all_bind; [by apply emits_all_query|intros drains].
  apply emits_all_for. intros pool. apply emits_all_bind.
  { eapply emits_weaken; [|apply emits_publish; repeat constructor].
    intros ? <-. repeat constructor; unfold storage_write; simpl; set_solver. }
  intros _. apply emits_all_bind; [by apply emits_all_query|intros devices].
  apply emits_all_for. intros d. eapply emits_weaken; [|apply emits_publish; repeat constructor].
  intros ? <-. repeat constructor; unfold storage_write; simpl; set_solver.
Qed.

(** ** The whole pass *)

Definition vm_counts (cs : list ClusterRow) (vs : list VmRow) : gmap (string * string) Z :=
  foldl (fun m vm => count_vm (vm_key (name_map c_id c_name cs) vm) m) (zero_counts cs) vs.
Definition vm_writes (cs : list ClusterRow) (vs : list VmRow) : Writes :=
  map (fun '((state, cluster), n) => (basis_vms, [state; cluster], IntValue n)) (map_to_list (vm_counts cs vs)).

(** The series at the end of a pass, from those at its start. *)
Definition passed (hs : list HostRow) (vs : list VmRow) (cs : list ClusterRow)
    (w1 w2 : Writes) (g : Series Family) : Series Family :=
  written w2 (reset storage_families (written (w1 ++ vm_writes cs vs) (reset host_families
    (written [(basis_hosts, ["true"], IntValue (count_where h_healthy hs));
              (basis_hosts, ["false"], IntValue (count_where (fun h => negb (h_healthy h)) hs))]
       (reset [basis_hosts] (set_series basis_clusters [] (IntValue (as_i64 (Z.of_nat (length cs)))) g)))))).

Lemma emits_vm_counts cs vs :
  emits (eq (vm_writes cs vs))
    (se_for (map_to_list (vm_counts cs vs)) (fun '((state, cluster), count) =>
       set_metric basis_vms [state; cluster] (IntValue count))).
Proof.
  unfold vm_writes. induction (map_to_list (vm_counts cs vs)) as [|[[st c] n] l IH]; simpl.
  - eapply emits_weaken; [|apply emits_ret]. by intros ? ->.
  - eapply emits_weaken; [|apply emits_bind; [by apply emits_set|intros _; exact IH]].
    by intros ? (? & ? & -> & <- & <-).
Qed.

Lemma emits_counts names :
  emits (Forall (fun w => fst (fst w) ∈ [basis_pool_reservations; basis_pending_commands])) (count_gauges snap names).
Proof.
  unfold count_gauges. apply emits_all_bind; [by apply emits_all_query|intros rs]. apply emits_all_bind.
  { apply emits_all_for. intros r. eapply emits_weaken; [|by apply emits_set].
    intros ? <-. repeat constructor. }
  intros _. apply emits_all_bind; [by apply emits_all_query|intros cmds].
  apply emits_all_for. intros r. eapply emits_weaken; [|by apply emits_set].
  intros ? <-. repeat constructor.
Qed.

(** Up to the usage query: three readings, and the host and VM series empty. *)
Definition cleared (hs : list HostRow) (cs : list ClusterRow) (s : Pass) : Pass := {|
  pass_reads := 3 + pass_reads s;
  pass_series := reset host_families
    (written [(basis_hosts, ["true"], IntValue (count_where h_healthy hs));
              (basis_hosts, ["false"], IntValue (count_where (fun h => negb (h_healthy h)) hs))]
       (reset [basis_hosts] (set_series basis_clusters [] (IntValue (as_i64 (Z.of_nat (length cs)))) (pass_series s)))) |}.
Lemma refresh_head s :
  let hs := hosts (snap (pass_reads s)) in let vs := vms (snap (1 + pass_reads s)%nat) in
  let cs := clusters (snap (2 + pass_reads s)%nat) in
  refresh snap clock s = (
    do! usage_by_host <- query snap host_usage_snapshot ;
    run! se_for hs (host_gauges clock usage_by_host) ;
    run! se_for vs (vm_age clock (name_map h_id h_hostname hs) (name_map c_id c_name cs)) ;
    run! se_for (map_to_list (vm_counts cs vs)) (fun '((state, cluster), count) =>
           set_metric basis_vms [state; cluster] (IntValue count)) ;
    run! resets storage_families ;
    run! se_for hs (storage_gauges snap) ;
    count_gauges snap (name_map h_id h_hostname hs)) (cleared hs cs s).
Proof. reflexivity. Qed.

(** The next call of the sequence in the goal, by what it emits. *)
#[local] Tactic Notation "destruct_step" constr(H) "as" simple_intropattern(pat) :=
  match goal with |- context [se_bind _ ?k ?s = (_, Ok tt)] => destruct (emits_step _ _ k s H) as pat end.

Lemma refresh_run (P : HostRow -> Writes -> Prop) s usage :
  let at_reading k := snap (k + pass_reads s) in
  (forall host, emits (P host) (storage_gauges snap host)) ->
  snd (host_usage_snapshot (at_reading 3%nat)) = Ok usage ->
  exists s' wss was sss tail,
    refresh snap clock s = (s', Ok tt) /\
    Forall2 (host_writes usage) (hosts (at_reading 0%nat)) wss /\
    Forall2 age_writes (vms (at_reading 1%nat)) was /\
    Forall2 P (hosts (at_reading 0%nat)) sss /\
    Forall (fun w => fst (fst w) ∈ [basis_pool_reservations; basis_pending_commands]) tail /\
    pass_series s' = passed (hosts (at_reading 0%nat)) (vms (at_reading 1%nat)) (clusters (at_reading 2%nat))
                       (concat wss ++ concat was) (concat sss ++ tail) (pass_series s).
Proof.
  intros at_reading HP Hu. rewrite refresh_head. cbv zeta. subst at_reading. cbv beta in Hu |- *.
  change (snap (0 + pass_reads s)%nat) with (snap (pass_reads s)).
  set (hs := hosts (snap (pass_reads s))). set (vs := vms (snap (1 + pass_reads s)%nat)).
  set (cs := clusters (snap (2 + pass_reads s)%nat)). set (s1 := cleared hs cs s).
  unfold se_bind at 1, query at 1. change (snap (pass_reads s1)) with (snap (3 + pass_reads s)%nat). rewrite Hu. cbv iota beta.
  destruct_step (emits_for _ hs _ (emits_host_gauges usage)) as (s2 & [] & w2 & G2 & (wss & -> & H2) & ->).
  destruct_step (emits_for _ vs _ (emits_vm_age (name_map h_id h_hostname hs) (name_map c_id c_name cs)))
    as (s3 & [] & w3 & G3 & (was & -> & H3) & ->).
  destruct_step (emits_vm_counts cs vs) as (s4 & [] & w4 & G4 & <- & ->).
  unfold se_bind at 1, resets, se_modify. cbv iota beta.
  destruct_step (emits_for _ hs _ HP) as (s5 & [] & w5 & G5 & (sss & -> & H5) & ->).
  destruct (emits_counts (name_map h_id h_hostname hs) s5) as (s6 & [] & tail & E6 & G6 & Ht).
  rewrite E6.
  exists s6, wss, was, sss, tail. split_and!; [done|done|done|done|done|].
  rewrite G6, G5. simpl. rewrite G4, G3, G2. unfold passed. by rewrite !written_app.
Qed.
End emits.

(** ** The counts of VMs *)

Lemma sum_of_perm {A} (f : A -> Z) l l' : l ≡ₚ l' -> sum_of f l = sum_of f l'.
Proof. induction 1; simpl in *; lia. Qed.
Lemma sum_of_map {A B} (f : B -> Z) (g : A -> B) l : sum_of f (map g l) = sum_of (fun x => f (g x)) l.
Proof. induction l; simpl; congruence. Qed.

Definition map_total {K} `{Countable K} (m : gmap K Z) : Z := sum_of snd (map_to_list m).
Lemma map_total_insert {K} `{Countable K} (m : gmap K Z) k v :
  map_total (<[k := v]> m) = map_total m - unwrap_or 0 (m !! k) + v.
Proof.
  unfold map_total. rewrite <- insert_delete_eq, (sum_of_perm _ _ _ (map_to_list_insert _ _ _ (lookup_delete_eq _ _))).
  simpl. destruct (m !! k) as [n|] eqn:E; simpl.
  - rewrite <- (sum_of_perm _ _ _ (map_to_list_delete m k n E)). simpl. lia.
  - rewrite delete_id by done. lia.
Qed.

(** A label the baseline covers. *)
Definition baseline (cs : list ClusterRow) (k : string * string) : Prop :=
  fst k ∈ ALL_VM_STATES /\ (snd k = EmptyString \/ snd k ∈ map c_name cs).

Lemma zero_row (state : string) (cs : list ClusterRow) (m : gmap (string * string) Z) (k : string * string) :
  foldl (fun m c => <[(state, c_name c) := 0]> m) m cs !! k =
  if bool_decide (fst k = state /\ snd k ∈ map c_name cs) then Some 0 else m !! k.
Proof.
  revert m. induction cs as [|c cs IH]; intros m; simpl.
  { rewrite bool_decide_eq_false_2; [done|]. intros [_ ?]. by eapply not_elem_of_nil. }
  rewrite IH. case_bool_decide as H1.
  - rewrite bool_decide_eq_true_2; [done|]. destruct H1. set_solver.
  - destruct (decide (k = (state, c_name c))) as [->|Hne].
    + rewrite lookup_insert_eq, bool_decide_eq_true_2; [done|]. simpl. set_solver.
    + rewrite lookup_insert_ne by done. rewrite bool_decide_eq_false_2; [done|].
      destruct k as [st n]. simpl in *. intros [-> [->|?]%elem_of_cons]; naive_solver.
Qed.

Lemma zero_counts_spec cs k :
  zero_counts cs !! k = if bool_decide (baseline cs k) then Some 0 else None.
Proof.
  unfold zero_counts, baseline.
  assert (forall l (m : gmap (string * string) Z), foldl (fun m state => foldl (fun m c => <[(state, c_name c) := 0]> m)
            (<[(state, EmptyString) := 0]> m) cs) m l !! k =
          if bool_decide (fst k ∈ l /\ (snd k = EmptyString \/ snd k ∈ map c_name cs)) then Some 0 else m !! k) as Hf.
  { induction l as [|st l IH]; intros m; cbn [foldl].
    { rewrite bool_decide_eq_false_2; [done|]. intros [? _]. by eapply not_elem_of_nil. }
    rewrite IH. case_bool_decide as H1.
    { rewrite bool_decide_eq_true_2; [done|]. set_solver. }
    rewrite zero_row. case_bool_decide as H2.
    { rewrite bool_decide_eq_true_2; [done|]. destruct H2 as [-> ?]. set_solver. }
    destruct (decide (k = (st, EmptyString))) as [->|Hne].
    - rewrite lookup_insert_eq, bool_decide_eq_true_2; [done|]. simpl. set_solver.
    - rewrite lookup_insert_ne by done. rewrite bool_decide_eq_false_2; [done|].
      destruct k as [st' n]. simpl in *. intros [[->|?]%elem_of_cons Hn]; [|naive_solver].
      destruct Hn as [->|?]; naive_solver. }
  by rewrite Hf, lookup_empty.
Qed.

Lemma zero_counts_total cs : map_total (zero_counts cs) = 0.
Proof.
  assert (forall l : list ((string * string) * Z), (forall x, x ∈ l -> snd x = 0) -> sum_of snd l = 0) as Hz.
  { induction l as [|x l IH]; intros Hl; [done|]. simpl. rewrite (Hl x), IH by set_solver. lia. }
  apply Hz. intros [k n] Hin%elem_of_map_to_list. rewrite zero_counts_spec in Hin. by case_bool_decide; simplify_eq.
Qed.

(** How many VMs have the label [k]. *)
Definition labelled (cs : list ClusterRow) (vs : list VmRow) (k : string * string) : Z :=
  count_where (fun vm => bool_decide (vm_key (name_map c_id c_name cs) vm = k)) vs.

Lemma count_vms_spec cs vs k : forall m,
  foldl (fun m vm => count_vm (vm_key (name_map c_id c_name cs) vm) m) m vs !! k =
  if bool_decide (labelled cs vs k = 0) then m !! k else Some (unwrap_or 0 (m !! k) + labelled cs vs k).
Proof.
  unfold labelled, count_where, select. induction vs as [|v vs IH]; intros m; cbn [foldl filter length]; [done|].
  rewrite IH. unfold count_vm. set (k' := vm_key _ v). set (n := length (List.filter _ vs)). cbn [List.filter]. fold k'.
  destruct (decide (k' = k)) as [<-|Hne].
  - rewrite lookup_insert_eq. rewrite (bool_decide_eq_true_2 (k' = k')) by done. cbn [length]. fold n.
    repeat case_bool_decide; simpl; try lia; f_equal; lia.
  - rewrite lookup_insert_ne by done. by rewrite (bool_decide_eq_false_2 (k' = k)).
Qed.

Lemma labelled_pos cs vs k : 0 <= labelled cs vs k.
Proof. unfold labelled, count_where. lia. Qed.

(** Every count is exact, and the VMs are counted once each. *)
Lemma vm_counts_spec cs vs k n :
  vm_counts cs vs !! k = Some n <-> (baseline cs k \/ 0 < labelled cs vs k) /\ n = labelled cs vs k.
Proof.
  unfold vm_counts. rewrite count_vms_spec, zero_counts_spec. pose proof (labelled_pos cs vs k).
  repeat case_bool_decide; simpl; split; [intros [= <-]|intros [_ ->]|intros [=]|intros [[?|?] ->]| | | |];
    try (intros [= <-]); try (intros [_ ->]); try (f_equal; lia); try (split; [tauto || (right; lia)|lia]); done || lia.
Qed.
Lemma vm_counts_total cs vs : map_total (vm_counts cs vs) = Z.of_nat (length vs).
Proof.
  unfold vm_counts. assert (forall m, map_total (foldl (fun m vm => count_vm (vm_key (name_map c_id c_name cs) vm) m) m vs)
    = map_total m + Z.of_nat (length vs)) as Hf.
  { induction vs as [|v vs IH]; intros m; simpl; [lia|]. rewrite IH. unfold count_vm. rewrite map_total_insert. lia. }
  by rewrite Hf, zero_counts_total.
Qed.

(** ** The series after a pass *)

(** The families of the host loop. *)
Definition per_host : list Family := [
  basis_host_cpu_total; basis_host_cpu_assigned; basis_host_memory_mib_total;
  basis_host_memory_mib_assigned; basis_host_rootfs_bytes_total; basis_host_rootfs_bytes_assigned;
  basis_host_data_bytes_total; basis_host_data_bytes_assigned; basis_host_gpus_total;
  basis_host_gpus_assigned; basis_host_last_heartbeat_age_seconds].

Section passed.
Context `{J : DbJson}.
Variables (hs : list HostRow) (vs : list VmRow) (cs : list ClusterRow) (usage : gmap string HostUsage).
Variables (wss was : list Writes) (w2 : Writes) (g : Series Family).
Hypothesis Hwss : Forall2 (host_writes usage) hs wss.
Hypothesis Hwas : Forall2 age_writes vs was.
Hypothesis Hw2 : forall w, w ∈ w2 -> fst (fst w) ∈ storage_families.
Let after := passed hs vs cs (concat wss ++ concat was) w2 g.

Lemma host_write_family w : w ∈ concat wss -> fst (fst w) ∈ per_host.
Proof.
  intros Hw. destruct (rounds_in _ _ _ _ Hwss Hw) as (h & ws & _ & [age ->] & Hin).
  repeat (apply elem_of_cons in Hin as [->|Hin]; [simpl; set_solver|]). by apply not_elem_of_nil in Hin.
Qed.
Lemma age_write_family w : w ∈ concat was -> fst (fst w) = basis_vm_age_in_state_seconds.
Proof.
  intros Hw. destruct (rounds_in _ _ _ _ Hwas Hw) as (v & ws & _ & (ls & age & ->) & Hin).
  by apply list_elem_of_singleton in Hin as ->.
Qed.
Lemma vm_write_family w : w ∈ vm_writes cs vs -> fst (fst w) = basis_vms.
Proof. unfold vm_writes. intros ([[st c] n] & -> & _)%list_elem_of_fmap. done. Qed.

Lemma after_clusters : after basis_clusters !! [] = Some (IntValue (as_i64 (Z.of_nat (length cs)))).
Proof.
  unfold after, passed. rewrite written_family by (intros w Hw Hf; apply Hw2 in Hw; by rewrite Hf in Hw; apply (bool_decide_eq_true_2 _) in Hw).
  unfold reset at 1. rewrite decide_False by (intros Hf; by apply (bool_decide_eq_true_2 _) in Hf).
  rewrite written_family.
  - unfold reset, set_series. simpl. apply lookup_insert_eq.
  - intros w [[Hw|Hw]%elem_of_app|Hw]%elem_of_app Hf.
    + apply host_write_family in Hw. rewrite Hf in Hw. by apply (bool_decide_eq_true_2 _) in Hw.
    + apply age_write_family in Hw. congruence.
    + apply vm_write_family in Hw. congruence.
Qed.

Lemma after_host_family f : f ∈ host_families -> f ∉ storage_families ->
  exists g', g' f = ∅ /\ after f = written ((concat wss ++ concat was) ++ vm_writes cs vs) g' f.
Proof.
  intros H1 H2. unfold after, passed.
  rewrite written_family by (intros w Hw <-; by apply H2, Hw2). unfold reset at 1. rewrite decide_False by done.
  eexists. split; [|done]. unfold reset at 1. by rewrite decide_True.
Qed.

Lemma after_vms ls v : after basis_vms !! ls = Some v <-> (basis_vms, ls, v) ∈ vm_writes cs vs.
Proof.
  destruct (after_host_family basis_vms) as (g' & Hg & ->); [unfold host_families; set_solver|unfold storage_families; set_solver|].
  assert (forall v, (basis_vms, ls, v) ∈ (concat wss ++ concat was) ++ vm_writes cs vs <->
                    (basis_vms, ls, v) ∈ vm_writes cs vs) as Hin.
  { intros v'. split; [|set_solver]. intros [[Hw|Hw]%elem_of_app|Hw]%elem_of_app; [| |done].
    - apply host_write_family in Hw. revert Hw. unfold per_host. simpl. set_solver.
    - by apply age_write_family in Hw. }
  rewrite written_lookup; [by rewrite Hin|done|]. setoid_rewrite Hin. unfold vm_writes.
  intros v1 v2 ([[s1 c1] n1] & [= -> ->] & H1)%list_elem_of_fmap ([[s2 c2] n2] & [= <- <- ->] & H2)%list_elem_of_fmap.
  apply elem_of_map_to_list in H1, H2. congruence.
Qed.

(** The host loop writes each series once. *)
Lemma host_write_keys :
  map fst (concat wss) = concat (map (fun host => map (fun f => (f, [h_hostname host])) per_host) hs).
Proof.
  clear -Hwss. induction Hwss as [|h ws hs' wss' [age ->] Hr IH]; [done|]. cbn [concat map].
  by rewrite map_app, (IH Hr).
Qed.
Lemma host_writes_once : NoDup (map h_hostname hs) -> NoDup (map fst (concat wss)).
Proof.
  rewrite host_write_keys. intros Hnd. clear -Hnd. induction hs as [|h hs' IH]; [constructor|]. cbn [map concat].
  apply NoDup_cons in Hnd as [Hn Hnd]. apply NoDup_app. split_and!; [|intros k Hk Hk'|by apply IH].
  - apply NoDup_fmap_2; [by intros ? ? [=]|]. apply (bool_decide_eq_true_1 _). vm_compute. reflexivity.
  - apply list_elem_of_fmap in Hk as (f & -> & _). apply Hn.
    apply list_elem_of_In, in_concat in Hk' as (l & (h' & <- & Hh)%in_map_iff & Hl).
    apply in_map_iff in Hl as (f' & [= -> E] & _). rewrite <- E. apply list_elem_of_In. by apply in_map.
Qed.

Lemma after_host f ls v : NoDup (map h_hostname hs) -> f ∈ per_host ->
  after f !! ls = Some v <-> (f, ls, v) ∈ concat wss.
Proof.
  intros Hnd Hf.
  destruct (after_host_family f) as (g' & Hg & ->);
    [revert Hf; unfold per_host, host_families; set_solver|revert Hf; unfold per_host, storage_families; clear; set_solver|].
  assert (forall v, (f, ls, v) ∈ (concat wss ++ concat was) ++ vm_writes cs vs <-> (f, ls, v) ∈ concat wss) as Hin.
  { intros v'. split; [|set_solver]. intros [[Hw|Hw]%elem_of_app|Hw]%elem_of_app; [done| |].
    - apply age_write_family in Hw. simpl in Hw. subst f. by apply (bool_decide_eq_true_2 _) in Hf.
    - apply vm_write_family in Hw. simpl in Hw. subst f. by apply (bool_decide_eq_true_2 _) in Hf. }
  rewrite written_lookup; [apply Hin|done|]. setoid_rewrite Hin.
  intros v1 v2 [i H1]%list_elem_of_lookup [j H2]%list_elem_of_lookup.
  assert (i = j) as ->; [|congruence].
  eapply (NoDup_lookup _ _ _ _ (host_writes_once Hnd)); rewrite list_lookup_fmap; [by rewrite H1|by rewrite H2].
Qed.
End passed.

(** [g] publishes the integer [n] for the labels. *)
Definition shows (g : Series Family) (f : Family) (labels : list string) (n : Z) : Prop :=
  g f !! labels = Some (IntValue n).
Definition int_value (v : GaugeValue) : Z := match v with IntValue n => n | FloatValue _ => 0 end.
Definition series_total (m : gmap (list string) GaugeValue) : Z := sum_of (fun kv => int_value (snd kv)) (map_to_list m).

Lemma vm_series_total (cs : list ClusterRow) (vs : list VmRow) (m : gmap (list string) GaugeValue) :
  (forall ls v, m !! ls = Some v <-> (basis_vms, ls, v) ∈ vm_writes cs vs) ->
  series_total m = Z.of_nat (length vs).
Proof.
  intros Hm. rewrite <- (vm_counts_total cs). unfold series_total, map_total.
  rewrite (sum_of_perm _ _ (map (fun '((st, c), n) => ([st; c], IntValue n)) (map_to_list (vm_counts cs vs)))).
  { rewrite sum_of_map. apply sum_of_ext. by intros [[st c] n] _. }
  apply NoDup_Permutation; [apply NoDup_map_to_list| |].
  - apply NoDup_fmap_2; [|apply NoDup_map_to_list]. by intros [[? ?] ?] [[? ?] ?] [= -> -> ->].
  - intros [ls v]. rewrite elem_of_map_to_list, Hm. unfold vm_writes. split.
    + intros ([[st c] n] & [= -> ->] & Hin)%list_elem_of_fmap. apply list_elem_of_fmap. by exists ((st, c), n).
    + intros ([[st c] n] & [= -> ->] & Hin)%list_elem_of_fmap. apply list_elem_of_fmap. by exists ((st, c), n).
Qed.

Lemma storage_tail hs sss tail :
  Forall2 (fun _ : HostRow => Forall storage_write) hs sss ->
  Forall (fun w : Family * list string * GaugeValue => fst (fst w) ∈ [basis_pool_reservations; basis_pending_commands]) tail ->
  forall w, w ∈ concat sss ++ tail -> fst (fst w) ∈ storage_families.
Proof.
  intros H3 H4 w [Hw|Hw]%elem_of_app.
  - destruct (rounds_in _ _ _ _ H3 Hw) as (_ & ws & _ & Hf & Hin).
    rewrite Forall_forall in Hf. apply Hf in Hin. unfold storage_write in Hin. unfold storage_families. set_solver.
  - rewrite Forall_forall in H4. apply H4 in Hw. unfold storage_families. set_solver.
Qed.
Lemma host_write_labels usage hs wss f ls v :
  Forall2 (host_writes usage) hs wss -> (f, ls, v) ∈ concat wss -> exists host, host ∈ hs /\ ls = [h_hostname host].
Proof.
  intros H1 Hw. destruct (rounds_in _ _ _ _ H1 Hw) as (host & ws & Hin & [age ->] & Hws).
  exists host. split; [done|].
  repeat (apply elem_of_cons in Hws as [[= _ -> _]|Hws]; [done|]). by apply not_elem_of_nil in Hws.
Qed.
Lemma host_write_exists usage hs wss host f :
  Forall2 (host_writes usage) hs wss -> host ∈ hs -> f ∈ per_host ->
  exists v, (f, [h_hostname host], v) ∈ concat wss.
Proof.
  intros H1 Hin Hf. assert ((f, [h_hostname host]) ∈ map fst (concat wss)) as Hk.
  { rewrite (host_write_keys hs usage wss H1). apply list_elem_of_In, in_concat.
    exists (map (fun f => (f, [h_hostname host])) per_host). split.
    - apply (in_map (fun host => map (fun f => (f, [h_hostname host])) per_host)). by apply list_elem_of_In.
    - apply (in_map (fun f => (f, [h_hostname host]))). by apply list_elem_of_In. }
  apply list_elem_of_fmap in Hk as ([k v] & Hkv & Hw). simpl in Hkv. subst k. by exists v.
Qed.

(** C28: a metrics pass publishes the database. Whatever the previous series,
    and whatever others write between its queries, a pass whose usage query
    does not overflow succeeds, with no gauge set under a wrong number of
    labels, and afterwards: the cluster count is the number of clusters read;
    a series of VM counts exists exactly for the baseline labels and the
    labels of a VM read, its value is the number of such VMs, and the values
    sum to the number of VMs; each host gauge has one series per host read
    and none for another; and the series of a host show its row, and the load
    its VMs put on it in the snapshot of the usage query (root and data disks
    in bytes, saturated). *)
Theorem refresh_publishes `{J : DbJson} `{T : Humantime} (snap : nat -> Db) (clock : nat -> Z) (s : Pass) :
  let db k := snap (k + pass_reads s)%nat in
  let hs := hosts (db 0%nat) in let vs := vms (db 1%nat) in let cs := clusters (db 2%nat) in
  hosts_ok hs -> (forall host, load_fits (load (vms (db 3%nat)) host)) ->
  exists s', refresh snap clock s = (s', Ok tt) /\
    let g := pass_series s' in
    shows g basis_clusters [] (as_i64 (Z.of_nat (length cs))) /\
    (forall st c n, shows g basis_vms [st; c] n <->
       (baseline cs (st, c) \/ 0 < labelled cs vs (st, c)) /\ n = labelled cs vs (st, c)) /\
    series_total (g basis_vms) = Z.of_nat (length vs) /\
    (forall f labels, f ∈ per_host ->
       is_Some (g f !! labels) <-> exists host, host ∈ hs /\ labels = [h_hostname host]) /\
    (forall host, host ∈ hs ->
       let '(cpu, mem, rootfs, data) := load (vms (db 3%nat)) (h_id host) in
       let show f n := shows g f [h_hostname host] n in
       show basis_host_cpu_total (h_total_cpu host) /\ show basis_host_cpu_assigned cpu /\
       show basis_host_memory_mib_total (h_total_memory_mib host) /\ show basis_host_memory_mib_assigned mem /\
       show basis_host_rootfs_bytes_total (h_rootfs_total_bytes host) /\
       show basis_host_rootfs_bytes_assigned (sat_i64 (rootfs * GIB)) /\
       show basis_host_data_bytes_total (h_data_total_bytes host) /\
       show basis_host_data_bytes_assigned (sat_i64 (data * GIB))).
Proof.
  intros db hs vs cs Hok Hfit.
  destruct (host_usage_snapshot_exact (db 3%nat) Hfit) as (usage & Eu & Hu).
  destruct (refresh_run snap clock (fun _ => Forall storage_write) s usage) as (s' & wss & was & sss & tail & E & H1 & H2 & H3 & H4 & G).
  { apply emits_storage_gauges. }
  { fold (db 3%nat). by rewrite Eu. }
  fold (db 0%nat) (db 1%nat) (db 2%nat) in H1, H2, H3, G. fold hs vs cs in H1, H2, H3, G.
  exists s'. split; [done|]. intros g. subst g. rewrite G.
  pose proof (storage_tail _ _ _ H3 H4) as Hw2.
  pose proof (after_vms hs vs cs usage wss was _ (pass_series s) H1 H2 Hw2) as Hvms.
  pose proof (fun f ls v => after_host hs vs cs usage wss was _ (pass_series s) H1 H2 Hw2 f ls v (ho_hostname _ Hok)) as Hhost.
  split_and!.
  - by eapply after_clusters.
  - intros st c n. unfold shows. rewrite Hvms. unfold vm_writes. rewrite list_elem_of_fmap. split.
    + intros ([[st' c'] n'] & [= <- <- <-] & Hin%elem_of_map_to_list). by apply vm_counts_spec.
    + intros Hn%vm_counts_spec. exists ((st, c), n). split; [done|by apply elem_of_map_to_list].
  - by eapply vm_series_total.
  - intros f ls Hf. split.
    + intros [v Hv]. apply Hhost in Hv; [|done]. by eapply host_write_labels.
    + intros (host & Hin & ->). destruct (host_write_exists _ _ _ _ _ H1 Hin Hf) as [v Hv]. exists v. by apply Hhost.
  - intros host Hin. destruct (Hu (h_id host)) as (Hl & _). destruct (load _ _) as [[[cpu mem] rootfs] data].
    unfold usage_load in Hl. injection Hl as Hcpu Hmem Hroot Hdata.
    destruct (rounds_all _ _ _ _ H1 Hin) as (ws & [age ->] & Hsub). intros show.
    assert (forall f n, f ∈ per_host ->
      (f, [h_hostname host], IntValue n) ∈ host_series host (unwrap_or usage_default (usage !! h_id host)) -> show f n) as Hs.
    { intros f n Hf Hw. apply Hhost; [done|]. apply Hsub, elem_of_app. by left. }
    rewrite <- Hcpu, <- Hmem, <- Hroot, <- Hdata.
    split_and!; (apply Hs; [unfold per_host|unfold host_series]; set_solver).
Qed.

(** The names of [Metrics::new] are distinct: nothing is refused. *)
Lemma metrics_new_ok ratio : is_ok (metrics_new ratio) = true.
Proof. reflexivity. Qed.

(** When the usage query fails the pass stops after the resets: no host and
    no VM has a series until a pass succeeds. *)
Lemma failed_pass_clears `{J : DbJson} `{T : Humantime} snap clock s e :
  snd (host_usage_snapshot (snap (3 + pass_reads s)%nat)) = Err e ->
  exists s', refresh snap clock s = (s', Err (QueryFailed e)) /\ forall f, f ∈ host_families -> pass_series s' f = ∅.
Proof.
  intros He. eexists. split.
  - rewrite refresh_head. cbv zeta. unfold se_bind at 1, query at 1. cbn [pass_reads cleared]. by rewrite He.
  - intros f Hf. simpl. unfold reset at 1. by rewrite decide_True.
Qed.

(** ** Devices, in a database no one writes *)

Section quiet.
Context `{J : DbJson} `{T : Humantime}.
Variable db : Db.

Definition drains_of (host : string) : gmap (string * string) DeviceSchedulingStateRow :=
  match snd (host_drain_markers host db) with Ok m => m | Err _ => ∅ end.
Definition pools_of (host : string) : list HostPoolRow := select (fun r => hp_host_id r =$ host) (host_pools db).
Definition pool_devices (host pool : string) : list HostPoolDeviceRow :=
  merge_sort device_le (select (fun r => (hpd_host_id r =$ host) && (hpd_pool r =$ pool)) (host_pool_devices db)).
Definition pool_storage (host : HostRow) (pool : HostPoolRow) : Writes :=
  pool_series (h_hostname host) pool ++
  concat (map (fun d => device_series (h_hostname host) (hp_pool pool)
                          (scheduling_of (drains_of (h_id host)) (hp_pool pool) (hpd_device_id d)) d)
              (pool_devices (h_id host) (hp_pool pool))).
Definition storage_series (host : HostRow) : Writes :=
  concat (map (pool_storage host) (pools_of (h_id host))).

Lemma emits_read {A B} (f : Db -> A) (P : Writes -> Prop) (k : A -> MetM B) :
  emits P (k (f db)) -> emits P (se_bind (query (fun _ => db) (se_gets f)) k).
Proof. intros Hk s. destruct (Hk (another_reading s)) as (s' & a & ws & E & G & H). by exists s', a, ws. Qed.
Lemma emits_storage_quiet host : emits (eq (storage_series host)) (storage_gauges (fun _ => db) host).
Proof.
  unfold storage_gauges. apply emits_read, emits_read, emits_for_eq. intros pool.
  eapply emits_weaken; [|apply emits_bind; [apply emits_publish; repeat constructor|]].
  2: { intros _. apply emits_read, emits_for_eq. intros d. apply emits_publish. repeat constructor. }
  by intros ? (? & ? & -> & <- & <-).
Qed.

(** What a write of the scheduling gauge says. *)
Lemma scheduling_write host ls v :
  (basis_device_scheduling_state, ls, v) ∈ storage_series host <->
  exists pool d st, pool ∈ pools_of (h_id host) /\ d ∈ pool_devices (h_id host) (hp_pool pool) /\
    st ∈ ["enabled"; "disabled"] /\ ls = [h_hostname host; hp_pool pool; hpd_device_id d; st] /\
    v = flag (scheduling_of (drains_of (h_id host)) (hp_pool pool) (hpd_device_id d) =$ st).
Proof.
  unfold storage_series, pool_storage. rewrite list_elem_of_In, in_concat. split.
  - intros (l & (pool & <- & Hp)%in_map_iff & [Hw|Hw]%in_app_or).
    { simpl in Hw. naive_solver. }
    apply in_concat in Hw as (l & (d & <- & Hd)%in_map_iff & Hw). apply list_elem_of_In in Hp, Hd.
    exists pool, d. simpl in Hw.
    destruct Hw as [?|[?|[?|[?|[?|[?|[Hw|[Hw|[]]]]]]]]]; try discriminate; injection Hw as <- <-.
    + exists "enabled". set_solver.
    + exists "disabled". set_solver.
  - intros (pool & d & st & Hp & Hd & Hst & -> & ->). eexists. split; [apply in_map, list_elem_of_In, Hp|].
    apply in_or_app. right. apply in_concat. eexists. split; [apply in_map, list_elem_of_In, Hd|].
    unfold device_series. apply in_or_app. right. apply in_or_app. right.
    apply (in_map (fun state => (basis_device_scheduling_state,
      [h_hostname host; hp_pool pool; hpd_device_id d; state], flag (_ =$ state)))). by apply list_elem_of_In.
Qed.
End quiet.

Lemma refresh_scheduling `{J : DbJson} `{T : Humantime} db clock s host pool d st :
  hosts_ok (hosts db) -> (forall h, load_fits (load (vms db) h)) ->
  host ∈ hosts db -> pool ∈ pools_of db (h_id host) -> d ∈ pool_devices db (h_id host) (hp_pool pool) ->
  st ∈ ["enabled"; "disabled"] ->
  exists s', refresh (fun _ => db) clock s = (s', Ok tt) /\
    pass_series s' basis_device_scheduling_state !! [h_hostname host; hp_pool pool; hpd_device_id d; st] =
      Some (flag (scheduling_of (drains_of db (h_id host)) (hp_pool pool) (hpd_device_id d) =$ st)).
Proof.
  intros Hok Hfit Hh Hp Hd Hst.
  destruct (host_usage_snapshot_exact db Hfit) as (usage & Eu & _).
  destruct (refresh_run (fun _ => db) clock (fun host => eq (storage_series db host)) s usage)
    as (s' & wss & was & sss & tail & E & _ & _ & H3 & H4 & G); [apply emits_storage_quiet|by rewrite Eu|].
  exists s'. split; [done|]. rewrite G. unfold passed. rewrite Forall_forall in H4.
  apply written_at.
  - apply elem_of_app. left. destruct (rounds_all _ _ _ _ H3 Hh) as (ws & <- & Hsub). apply Hsub, scheduling_write.
    exists pool, d, st. done.
  - intros v' [Hw|Hw]%elem_of_app; [|apply H4 in Hw; simpl in Hw; set_solver].
    destruct (rounds_in _ _ _ _ H3 Hw) as (host' & ws & Hh' & <- & Hin).
    apply scheduling_write in Hin as (pool' & d' & st' & _ & _ & _ & [= Eh Ep Ed ->] & ->).
    assert (host' = host) as -> by (by eapply (NoDup_map_inj h_hostname (hosts db)); [apply Hok|..]).
    by rewrite Ep, Ed.
Qed.

(** The metrics never show a device as disabled. In a database no one
    writes, after the operator disables a device the pass publishes 0 for it
    under [state="enabled"] and 0 under [state="disabled"], because the marker
    says ['draining']; after the operator enables it again the pass publishes
    1 and 0. *)
Theorem disabled_device_in_no_state `{J : DbJson} `{T : Humantime} db clock s host pool d reason :
  hosts_ok (hosts db) -> (forall h, load_fits (load (vms db) h)) ->
  host ∈ hosts db -> pool ∈ host_pools db -> d ∈ host_pool_devices db ->
  hp_host_id pool = h_id host -> hpd_host_id d = h_id host -> hpd_pool d = hp_pool pool ->
  let setting state := fst (set_device_scheduling_state (h_id host) (hp_pool pool) (hpd_device_id d) state reason db) in
  let after state enabled disabled :=
    exists s', refresh (fun _ => setting state) clock s = (s', Ok tt) /\
      forall st n, (st, n) ∈ [("enabled", enabled); ("disabled", disabled)] ->
        shows (pass_series s') basis_device_scheduling_state [h_hostname host; hp_pool pool; hpd_device_id d; st] n in
  after "disabled" 0 0 /\ after "enabled" 1 0.
Proof.
  intros Hok Hfit Hh Hp Hd E1 E2 E3 setting after.
  destruct (set_device_scheduling_state_spec (h_id host) (hp_pool pool) (hpd_device_id d) reason db) as (Hdis & Hen & _).
  assert (forall state word,
    scheduling_of (drains_of (setting state) (h_id host)) (hp_pool pool) (hpd_device_id d) = word ->
    state ∈ ["enabled"; "disabled"] ->
    after state (if word =$ "enabled" then 1 else 0) (if word =$ "disabled" then 1 else 0)) as Hafter.
  { intros state word <- Hstate.
    assert (hosts (setting state) = hosts db /\ vms (setting state) = vms db /\ host_pools (setting state) = host_pools db /\
            host_pool_devices (setting state) = host_pool_devices db) as (Eh & Ev & Ep & Ed).
    { subst setting. cbv beta. unfold set_device_scheduling_state. destruct db. by repeat case_match. }
    assert (forall st, st ∈ ["enabled"; "disabled"] -> exists s', refresh (fun _ => setting state) clock s = (s', Ok tt) /\
      pass_series s' basis_device_scheduling_state !! [h_hostname host; hp_pool pool; hpd_device_id d; st] =
      Some (flag (scheduling_of (drains_of (setting state) (h_id host)) (hp_pool pool) (hpd_device_id d) =$ st))) as Hrun.
    { intros st Hst. apply refresh_scheduling; [..|done].
      - by rewrite Eh.
      - by rewrite Ev.
      - by rewrite Eh.
      - unfold pools_of. rewrite Ep. apply elem_of_select. split; [done|by apply String.eqb_eq].
      - unfold pool_devices. rewrite Ed, merge_sort_Permutation. apply elem_of_select.
        split; [done|]. by rewrite E2, E3, !String.eqb_refl. }
    destruct (Hrun "enabled") as (s' & E & G1); [set_solver|]. destruct (Hrun "disabled") as (s'' & E' & G2); [set_solver|].
    rewrite E in E'. injection E' as <-. exists s'. split; [done|].
    intros st n [[= -> ->]|[[= -> ->]|[]%not_elem_of_nil]%elem_of_cons]%elem_of_cons; [exact G1|exact G2]. }
  unfold scheduling_of, drains_of in Hafter. split.
  - apply (Hafter "disabled" "draining"); [|set_solver]. subst setting. cbv beta. unfold host_drain_markers, se_gets in *.
    cbv beta iota in *. simpl in Hdis |- *. by rewrite Hdis.
  - apply (Hafter "enabled" "enabled"); [|set_solver]. subst setting. cbv beta. unfold host_drain_markers, se_gets in *.
    cbv beta iota in *. simpl in Hen |- *. by rewrite Hen.
Qed.

(** ** Examples *)

#[local] Instance one_timestamp : Humantime := {|
  parse_rfc3339 t := if t =$ "2026-01-01T00:00:00Z" then Some 1767225600000000000 else None |}.

Definition metered_pool : HostPoolRow := {|
  hp_host_id := "h1"; hp_pool := "fast"; hp_backend := "lvm"; hp_labels := "{}";
  hp_configured_total_bytes := 100 * GIB; hp_ready_total_bytes := 100 * GIB;
  hp_schedulable_total_bytes := 100 * GIB; hp_schedulable_free_bytes := 90 * GIB |}.
Definition metered_device : HostPoolDeviceRow := {|
  hpd_host_id := "h1"; hpd_pool := "fast"; hpd_device_id := "nvme0"; hpd_total_bytes := 100 * GIB;
  hpd_free_bytes := 90 * GIB; hpd_physical := "Ready"; hpd_physical_reason := "" |}.
Definition metered_db : Db :=
  set_host_pool_devices (fun _ => [metered_device]) (set_host_pools (fun _ => [metered_pool]) loaded_db).
Definition first_pass : Pass := {| pass_reads := 0; pass_series := fun _ => ∅ |}.

Lemma metered_fits : forall host, load_fits (load (vms metered_db) host).
Proof.
  intros host. assert (vms metered_db = [example_vm "vm1" "h1"]) as -> by (vm_compute; reflexivity).
  unfold load, host_min_sizes, select. simpl. destruct (on_host host _); vm_compute; repeat split; discriminate.
Qed.
Lemma metered_hosts : hosts_ok (hosts metered_db).
Proof. split; apply (bool_decide_eq_true_1 _); vm_compute; reflexivity. Qed.

(** The VM is inserted between the query of the hosts and that of the VMs. *)
Lemma refresh_publishes_witness :
  exists s', refresh (fun k => if Nat.eqb k 0 then fleet_db else metered_db) (fun _ => 0) first_pass = (s', Ok tt) /\
    shows (pass_series s') basis_vms ["RUNNING"; "c1"] 1 /\
    shows (pass_series s') basis_host_cpu_assigned ["h1"] 8.
Proof.
  destruct (refresh_publishes (fun k => if Nat.eqb k 0 then fleet_db else metered_db) (fun _ => 0) first_pass
    metered_hosts metered_fits) as (s' & E & _ & Hvms & _ & _ & Hhosts).
  exists s'. split; [exact E|]. split.
  - apply Hvms. split; [right|]; vm_compute; reflexivity.
  - pose proof (Hhosts (example_host "h1" "10.1.0.1")) as Hh. cbv beta in Hh.
    assert (load (vms metered_db) "h1" = (8, 1024, 20, 10)) as El by (vm_compute; reflexivity).
    change (load _ _) with (load (vms metered_db) "h1") in Hh. rewrite El in Hh. apply Hh.
    vm_compute. left.
Defined.

Lemma disabled_device_in_no_state_witness :
  exists s', refresh (fun _ => fst (set_device_scheduling_state "h1" "fast" "nvme0" "disabled" None metered_db))
    (fun _ => 0) first_pass = (s', Ok tt) /\
    shows (pass_series s') basis_device_scheduling_state ["h1"; "fast"; "nvme0"; "disabled"] 0.
Proof.
  destruct (disabled_device_in_no_state metered_db (fun _ => 0) first_pass (example_host "h1" "10.1.0.1") metered_pool
    metered_device None metered_hosts metered_fits) as ((s' & E & G) & _).
  - vm_compute. left.
  - left.
  - left.
  - reflexivity.
  - reflexivity.
  - reflexivity.
  - exists s'. split; [exact E|]. apply (G "disabled" 0). right. left.
Defined.
