(* ===== verification/Host.v ===== *)
(** * A hypervisor as its agent sees it (crates/basis-agent/src/db.rs, vm.rs)

    The agent changes its host through commands (lvm2, ip, systemctl, ...)
    and through files. What these do is outside the program: the class [Host]
    takes the state of the machine, running a command and touching a file as
    parameters. Beside the machine the agent has a SQLite file ([AgentDb]: its
    VMs and the ledger of volume reservations), what its VM and network
    managers remember, and its stream to the controller. *)

From stdpp Require Import countable.
From S2P Require Import Prelude Ipv4 Ipnet Proto Config Overcommit DbTypes JsonText Vms Outbox Scheduler Ctl Agent Text.

(** What a finished process leaves: its exit status and its output. *)
Record Output := { out_ok : bool; out_stdout : string; out_stderr : string }.

Class Host := {
  World : Type;
  (** [Command::new(tool).args(args).output()]; [None] when it cannot be
      started. *)
  run : string -> list string -> World -> World * option Output;
  (** Waiting for a semaphore until its timeout. *)
  permit : string -> World -> World * bool;
  (** [Path::exists], [create_dir_all], [remove_dir_all], [fs::write],
      [remove_file], [rename], [fs::read_link], [read_to_string], and
      [read_dir] with whether an entry is a directory. *)
  path_exists : string -> World -> bool;
  create_dir_all : string -> World -> World * bool;
  remove_dir_all : string -> World -> World * bool;
  write_file : string -> string -> World -> World * bool;
  remove_file : string -> World -> World * bool;
  rename_file : string -> string -> World -> World * bool;
  read_link : string -> World -> option string;
  read_to_string : string -> World -> option string;
  read_dir : string -> World -> option (list (string * bool));
}.

(** ** The local database *)

Record LocalVmRow := {
  lr_vm_id : string;
  lr_name : string;
  lr_unit_name : string;
  lr_ip_address : string;
  lr_cpu : Z;
  lr_memory_mib : Z;
  lr_disk_gib : Z;
  lr_gpu_pci_addresses : string;
  lr_image : string;
  lr_vni : Z;
  lr_cluster_id : string;
  lr_created_at : string;
  lr_storage_disks : string;
}.

(** One data disk in [storage_disks]. *)
Record LocalStorageDisk := {
  ls_assignment_id : string;
  ls_pool : string;
  ls_device_id : string;
  ls_disk_index : Z;
  ls_size_gib : Z;
  ls_purpose : string;
  ls_device_path : string;
}.

(** One row of [lvm_reservation]; the states are [Creating], [Ready] and
    [Deleting]. *)
Record LvmReservationRow := {
  rv_assignment_id : string;
  rv_pool : string;
  rv_device_id : string;
  rv_vg : string;
  rv_lv_name : string;
  rv_vm_id : string;
  rv_disk_index : Z;
  rv_size_gib : Z;
  rv_state : string;
}.

Record CachedImageRow := {
  ci_image_ref : string;
  ci_local_path : string;
  ci_size_bytes : Z;
  ci_pulled_at : string;
}.

Record AgentDb := {
  agent_state : gmap string string;
  local_vms : list LocalVmRow;
  lvm_reservation : list LvmReservationRow;
  cached_images : list CachedImageRow;
}.

Definition set_local_vms f (d : AgentDb) : AgentDb := {|
  agent_state := agent_state d; local_vms := f (local_vms d);
  lvm_reservation := lvm_reservation d; cached_images := cached_images d |}.
Definition set_reservations f (d : AgentDb) : AgentDb := {|
  agent_state := agent_state d; local_vms := local_vms d;
  lvm_reservation := f (lvm_reservation d); cached_images := cached_images d |}.

(** [AgentDb::get_host_id] and [set_host_id]. *)
Definition get_host_id (d : AgentDb) : option string := agent_state d !! "host_id".
Definition set_host_id (host_id : string) (d : AgentDb) : AgentDb := {|
  agent_state := <["host_id" := host_id]> (agent_state d); local_vms := local_vms d;
  lvm_reservation := lvm_reservation d; cached_images := cached_images d |}.

(** [AgentDb::insert_vm]: [None] on a duplicate id. *)
Definition local_insert_vm (vm : LocalVmRow) (d : AgentDb) : option AgentDb :=
  if existsb (fun r => lr_vm_id r =$ lr_vm_id vm) (local_vms d) then None
  else Some (set_local_vms (fun t => t ++ [vm]) d).

(** [AgentDb::delete_vm], [get_vm]; [list_vms] is [local_vms]. *)
Definition local_delete_vm (vm : string) (d : AgentDb) : AgentDb :=
  set_local_vms (delete_where (fun r => lr_vm_id r =$ vm)) d.
Definition local_get_vm (vm : string) (d : AgentDb) : option LocalVmRow :=
  select1 (fun r => lr_vm_id r =$ vm) (local_vms d).

(** [AgentDb::record_cached_image]: an upsert on [image_ref]. *)
Definition record_cached_image (row : CachedImageRow) (d : AgentDb) : AgentDb := {|
  agent_state := agent_state d; local_vms := local_vms d; lvm_reservation := lvm_reservation d;
  cached_images :=
    if existsb (fun r => ci_image_ref r =$ ci_image_ref row) (cached_images d)
    then update_where (fun r => ci_image_ref r =$ ci_image_ref row) (fun _ => row) (cached_images d)
    else cached_images d ++ [row] |}.

(** serde_json at [Vec<String>] and [Vec<LocalStorageDisk>]. *)
Class AgentJson := {
  gpus_to_json : list string -> string;
  gpus_of_json : string -> option (list string);
  local_disks_to_json : list LocalStorageDisk -> string;
  local_disks_of_json : string -> option (list LocalStorageDisk);
}.
Class AgentJsonLaws `(J : AgentJson) := {
  gpus_roundtrip l : gpus_of_json (gpus_to_json l) = Some l;
  local_disks_roundtrip l :
    Forall (fun d => is_u32 (ls_disk_index d) /\ 0 <= ls_size_gib d < 2 ^ 64) l ->
    local_disks_of_json (local_disks_to_json l) = Some l;
}.

(** ** What the managers remember *)

Record TrackedVm := { tv_unit_name : string; tv_vm_dir : string }.

(** [TreeVrf] and [ClusterLive] of network/cluster.rs. *)
Record TreeVrf := { vrf_name : string; vrf_table_id : Z }.
Record ClusterLive := {
  cl_cidr : option string;
  cl_prefixes : gset string;
  cl_proxy_arp_addrs : gset string;
  cl_vrf : option TreeVrf;
}.

Section state.
Context `{H : Host}.

Record Agt := {
  at_world : World;
  at_db : AgentDb;
  (** [VmManager::tracked] and [pending] *)
  at_tracked : gmap string TrackedVm;
  at_pending : gset string;
  (** [ClusterManager::host_id] and [live] *)
  at_host_id : string;
  at_live : gmap Z ClusterLive;
  (** what was sent to the controller *)
  at_sent : list AgentMessage;
}.

Definition set_world f (s : Agt) : Agt := {|
  at_world := f (at_world s); at_db := at_db s; at_tracked := at_tracked s;
  at_pending := at_pending s; at_host_id := at_host_id s; at_live := at_live s; at_sent := at_sent s |}.
Definition set_agent_db f (s : Agt) : Agt := {|
  at_world := at_world s; at_db := f (at_db s); at_tracked := at_tracked s;
  at_pending := at_pending s; at_host_id := at_host_id s; at_live := at_live s; at_sent := at_sent s |}.
Definition set_tracked f (s : Agt) : Agt := {|
  at_world := at_world s; at_db := at_db s; at_tracked := f (at_tracked s);
  at_pending := at_pending s; at_host_id := at_host_id s; at_live := at_live s; at_sent := at_sent s |}.
Definition set_vm_pending f (s : Agt) : Agt := {|
  at_world := at_world s; at_db := at_db s; at_tracked := at_tracked s;
  at_pending := f (at_pending s); at_host_id := at_host_id s; at_live := at_live s; at_sent := at_sent s |}.
Definition set_live f (s : Agt) : Agt := {|
  at_world := at_world s; at_db := at_db s; at_tracked := at_tracked s;
  at_pending := at_pending s; at_host_id := at_host_id s; at_live := f (at_live s); at_sent := at_sent s |}.
Definition set_self f (s : Agt) : Agt := {|
  at_world := at_world s; at_db := at_db s; at_tracked := at_tracked s;
  at_pending := at_pending s; at_host_id := f (at_host_id s); at_live := at_live s; at_sent := at_sent s |}.
Definition set_sent f (s : Agt) : Agt := {|
  at_world := at_world s; at_db := at_db s; at_tracked := at_tracked s;
  at_pending := at_pending s; at_host_id := at_host_id s; at_live := at_live s; at_sent := f (at_sent s) |}.

(** An action on the machine. *)
Definition world {E A} (f : World -> World * A) : SE Agt E A :=
  fun s => let '(w, a) := f (at_world s) in (set_world (fun _ => w) s, Ok a).
End state.

(** ** A codec *)

Definition local_disk_tuple (d : LocalStorageDisk) :=
  (ls_assignment_id d, ls_pool d, ls_device_id d, ls_disk_index d, ls_size_gib d, ls_purpose d,
   ls_device_path d).
Definition tuple_local_disk '(a, p, dv, i, n, pu, pa) : LocalStorageDisk := {|
  ls_assignment_id := a; ls_pool := p; ls_device_id := dv; ls_disk_index := i; ls_size_gib := n;
  ls_purpose := pu; ls_device_path := pa |}.

#[global] Instance local_disk_eq_dec : EqDecision LocalStorageDisk.
Proof. solve_decision. Defined.
#[global] Instance local_disk_countable : Countable LocalStorageDisk.
Proof. apply (inj_countable' local_disk_tuple tuple_local_disk). by intros []. Defined.

#[global] Instance text_agent_json : AgentJson := {|
  gpus_to_json := to_text;
  gpus_of_json := of_text;
  local_disks_to_json := to_text;
  local_disks_of_json := of_text;
|}.
#[global] Instance text_agent_json_laws : AgentJsonLaws text_agent_json.
Proof. split; intros; apply of_to_text. Qed.
