(* ===== verification/Lvm.v ===== *)
(** * LVM storage of a host (crates/basis-agent/src/lvm.rs, config.rs)

    The rootfs volumes of VMs (thin snapshots of golden images) and their
    data volumes: one volume group per device, one linear volume per disk,
    with a ledger of reservations written before and after each change of the
    hardware. The storage configuration and its validation are here too. *)

From Stdlib Require Import Ascii.
From S2P Require Import Prelude Ipv4 Proto Overcommit DbTypes Hosts Agent Text Host.

(** ** Configuration (config.rs) *)

Inductive PoolBackend := LvmLinear | RawDisk | NvmeNamespace.
Definition pool_backend_as_str (b : PoolBackend) : string :=
  match b with
  | LvmLinear => "lvm-linear"
  | RawDisk => "raw-disk"
  | NvmeNamespace => "nvme-namespace"
  end.

Record PoolDeviceSpec := { pd_id : string; pd_vg : option string; pd_size_gib : Z }.
Record PoolSpec := {
  ps_name : string;
  ps_backend : PoolBackend;
  ps_labels : gmap string string;
  ps_devices : list PoolDeviceSpec;
}.
Record RootfsSpec := { rs_vg : string; rs_thin_pool : string }.
Record StorageSpec := { ss_rootfs : RootfsSpec; ss_pools : list PoolSpec }.

Inductive StorageSpecError :=
  | DuplicatePool (name : string)
  | UnsupportedBackend (pool : string)
  | DeviceInTwoPools (device pool : string)
  | DeviceWithoutVg (pool device : string)
  | VgOnTwoDevices (vg : string).

(** The devices of one pool, with the device ids and groups seen so far. *)
Fixpoint validate_devices (pool : string) (seen : list string * list string)
    (ds : list PoolDeviceSpec) : result StorageSpecError (list string * list string) :=
  match ds with
  | [] => Ok seen
  | d :: ds' =>
      if existsb (String.eqb (pd_id d)) (fst seen) then Err (DeviceInTwoPools (pd_id d) pool)
      else match pd_vg d with
      | None => Err (DeviceWithoutVg pool (pd_id d))
      | Some vg =>
          if existsb (String.eqb vg) (snd seen) then Err (VgOnTwoDevices vg)
          else validate_devices pool (pd_id d :: fst seen, vg :: snd seen) ds'
      end
  end.

Fixpoint validate_storage_pools (names : list string) (seen : list string * list string)
    (ps : list PoolSpec) : result StorageSpecError unit :=
  match ps with
  | [] => Ok tt
  | p :: ps' =>
      if existsb (String.eqb (ps_name p)) names then Err (DuplicatePool (ps_name p))
      else match ps_backend p with
      | LvmLinear =>
          match validate_devices (ps_name p) seen (ps_devices p) with
          | Ok seen' => validate_storage_pools (ps_name p :: names) seen' ps'
          | Err e => Err e
          end
      | RawDisk | NvmeNamespace => Err (UnsupportedBackend (ps_name p))
      end
  end.

(** [StorageSpec::validate]. *)
Definition validate_storage (spec : StorageSpec) : result StorageSpecError unit :=
  validate_storage_pools [] ([], []) (ss_pools spec).

(** ** Types *)

Inductive LvmError :=
  | VgMissing (vg : string)
  | ThinPoolMissing (vg pool : string)
  | NotThinPool (vg pool attr : string)
  | VgPvCountWrong (vg : string) (pv_count : nat)
  | ForeignLv (vg lv : string)
  | DeviceNotInPool (pool device_id : string)
  | AssignmentConflict (assignment_id vm_id : string) (disk_index : Z)
  | LvmCommand (cmd stderr : string)
  | ImageConvert (what : string)
  | LvmIo
  | LvmDb
  | Busy (role : string).

Record Allocation := { al_path : string; al_actual_size_gib : Z }.

Record DiskAllocationRequest := {
  rq_assignment_id : string;
  rq_device_id : string;
  rq_vm_id : string;
  rq_disk_index : Z;
  rq_min_size_gib : Z;
}.

(** [DevicePhysicalHealth] of the agent. *)
Inductive DeviceHealth := HealthReady | HealthDegraded | HealthMissing.
Definition health_as_proto (h : DeviceHealth) : DevicePhysicalHealth :=
  match h with
  | HealthReady => DeviceHealthReady
  | HealthDegraded => DeviceHealthDegraded
  | HealthMissing => DeviceHealthMissing
  end.

Record PoolDevice := {
  dv_id : string;
  dv_total_gib : Z;
  dv_free_gib : Z;
  dv_physical : DeviceHealth;
  dv_physical_reason : string;
}.

Record RootfsBytes := {
  rb_total : Z; rb_free : Z; rb_metadata_total : Z; rb_metadata_free : Z;
}.

(** [PoolCapacity] and [StorageCapacity] of the agent. *)
Record HostPoolCapacity := {
  hc_pool : string;
  hc_backend : PoolBackend;
  hc_labels : gmap string string;
  hc_configured_total_bytes : Z;
  hc_ready_total_bytes : Z;
  hc_schedulable_total_bytes : Z;
  hc_schedulable_free_bytes : Z;
  hc_devices : list PoolDevice;
}.
Record HostStorageCapacity := { hs_rootfs : RootfsBytes; hs_pools : list HostPoolCapacity }.

Record LostReservation := {
  lo_assignment_id : string; lo_vm_id : string; lo_disk_index : Z; lo_pool : string; lo_device_id : string;
}.
Record ReconcileReport := {
  rp_orphans_removed : Z;
  rp_creating_resolved : Z;
  rp_deleting_resolved : Z;
  rp_lost_reservations : list LostReservation;
}.

(** [LvmLinearBackend]: the pool's name and labels, and the group of each
    device. The table is a [HashMap] in the code; its order is that of the
    list. *)
Record LvmLinearBackend := {
  be_spec : PoolSpec;
  be_device_vgs : list (string * string);
}.

(** [Storage]: the pools in the iteration order of the [HashMap]. *)
Record Storage := {
  st_rootfs : RootfsSpec;
  st_pools : list LvmLinearBackend;
}.

(** The groups the devices of a pool declare; [None] is the panic of
    [expect]. *)
Fixpoint device_vgs_of (ds : list PoolDeviceSpec) : option (list (string * string)) :=
  match ds with
  | [] => Some []
  | d :: ds' => vg ← pd_vg d; rest ← device_vgs_of ds'; Some ((pd_id d, vg) :: rest)
  end.

(** [LvmLinearBackend::new]. *)
Definition backend_new (spec : PoolSpec) : option LvmLinearBackend :=
  vgs ← device_vgs_of (ps_devices spec);
  Some {| be_spec := spec; be_device_vgs := vgs |}.

(** [Storage::from_host_spec]; a backend other than LVM is unreachable. *)
Fixpoint backends_of (ps : list PoolSpec) : option (list LvmLinearBackend) :=
  match ps with
  | [] => Some []
  | p :: ps' =>
      b ← (match ps_backend p with LvmLinear => backend_new p | _ => None end);
      rest ← backends_of ps';
      Some (b :: rest)
  end.
Definition from_host_spec (spec : StorageSpec) : option Storage :=
  bs ← backends_of (ss_pools spec);
  Some {| st_rootfs := ss_rootfs spec; st_pools := bs |}.

(** ** Names *)

Definition IMAGE_LV_PREFIX : string := "image-".
Definition VM_LV_PREFIX : string := "vm-".
Definition DATA_LV_PREFIX : string := "basis-data-".

Definition lv_name (vm_id : string) (disk_index : Z) : string :=
  DATA_LV_PREFIX +:+ vm_id +:+ "-" +:+ pretty disk_index.
Definition lv_path (vg lv : string) : string := "/dev/" +:+ vg +:+ "/" +:+ lv.
Definition image_lv_path (st : Storage) (image_hash : string) : string :=
  "/dev/" +:+ rs_vg (st_rootfs st) +:+ "/" +:+ IMAGE_LV_PREFIX +:+ image_hash.
Definition vm_lv_path (st : Storage) (vm_id : string) : string :=
  "/dev/" +:+ rs_vg (st_rootfs st) +:+ "/" +:+ VM_LV_PREFIX +:+ vm_id.

(** [parse_data_disk_lv_name]. *)
Definition parse_data_disk_lv_name (name : string) : option (string * Z) :=
  rest ← strip_prefix DATA_LV_PREFIX name;
  '(vm_id, index_str) ← rsplit_once "-"%char rest;
  if vm_id =$ "" then None
  else index ← parse_u32 index_str; Some (vm_id, index).

(** The device of the map ([HashMap::get] on distinct keys). *)
Definition vg_for (b : LvmLinearBackend) (device_id : string) : result LvmError string :=
  ok_or (DeviceNotInPool (ps_name (be_spec b)) device_id)
        (snd <$> select1 (fun kv => fst kv =$ device_id) (be_device_vgs b)).
Definition backend_vgs (b : LvmLinearBackend) : list string := map snd (be_device_vgs b).

(** [Storage::pool]. *)
Definition storage_pool (st : Storage) (name : string) : option LvmLinearBackend :=
  select1 (fun b => ps_name (be_spec b) =$ name) (st_pools st).

(** ** Commands *)

Section lvm.
Context `{H : Host}.

Abbreviation LvmM A := (SE Agt LvmError A).

(** [Command::new(tool).args(args).output().await?]. *)
Definition output (tool : string) (args : list string) : LvmM Output :=
  do! o <- world (run tool args) ; se_of (ok_or LvmIo o).

(** [run_cmd]. *)
Definition run_cmd (tool : string) (args : list string) : LvmM string :=
  do! out <- output tool args ;
  if out_ok out then se_ret (out_stdout out)
  else se_fail (LvmCommand (tool +:+ " " +:+ join " " args) (trim (out_stderr out))).

(** [VgGate::acquire]. *)
Definition acquire (role : string) : LvmM unit :=
  do! b <- world (permit role) ;
  if b : bool then se_ret tt else se_fail (Busy role).
Definition pool_role (b : LvmLinearBackend) : string := "pool=" +:+ ps_name (be_spec b).

Definition lv_attr (vg lv : string) : LvmM (option string) :=
  do! out <- run_cmd "lvs" ["--noheadings"; "-o"; "lv_attr"; "-S"; "lv_name=" +:+ lv; vg] ;
  let t := trim out in
  se_ret (if t =$ "" then None else Some t).
Definition attr_is_readonly (attr : string) : bool :=
  match attr with String _ (String "r"%char _) => true | _ => false end.
Definition lvremove (vg lv : string) : LvmM unit :=
  run! run_cmd "lvremove" ["-f"; vg +:+ "/" +:+ lv] ; se_ret tt.
Definition lvextend (vg lv : string) (size_gib : Z) : LvmM unit :=
  do! r <- se_try (run_cmd "lvextend" ["-L"; pretty size_gib +:+ "G"; vg +:+ "/" +:+ lv]) ;
  match r with
  | Ok _ => se_ret tt
  | Err (LvmCommand cmd stderr) =>
      if contains "No size change" stderr || contains "not larger than" stderr
      then se_ret tt else se_fail (LvmCommand cmd stderr)
  | Err e => se_fail e
  end.
(** [lvs -o lv_name vg], one trimmed name per line. *)
Definition lv_names (vg : string) : LvmM (list string) :=
  do! out <- run_cmd "lvs" ["--noheadings"; "-o"; "lv_name"; vg] ;
  se_ret (map trim (lines out)).

(** ** Validation *)

Definition check_vg_exists (vg : string) : LvmM unit :=
  do! out <- output "vgs" ["--noheadings"; "-o"; "vg_name"; vg] ;
  if negb (out_ok out) || (out_stdout out =$ "") then se_fail (VgMissing vg) else se_ret tt.

Definition check_thin_pool (vg pool : string) : LvmM unit :=
  do! out <- output "lvs" ["--noheadings"; "--separator=|"; "-o"; "lv_name,lv_attr"; vg +:+ "/" +:+ pool] ;
  if negb (out_ok out) then se_fail (ThinPoolMissing vg pool) else
  let attr := trim (unwrap_or "" (split_char "|"%char (trim (out_stdout out)) !! 1%nat)) in
  if starts_with "t" attr then se_ret tt else se_fail (NotThinPool vg pool attr).

Definition check_vg_one_pv (vg : string) : LvmM unit :=
  do! out <- run_cmd "vgs" ["--noheadings"; "--separator=|"; "-o"; "pv_name"; vg] ;
  let pvs := select (fun s => s <>$ "") (map trim (lines out)) in
  if (length pvs =? 1)%nat then se_ret tt else se_fail (VgPvCountWrong vg (length pvs)).

Definition check_vg_no_foreign_lvs (vg : string) : LvmM unit :=
  do! names <- lv_names vg ;
  match select1 (fun n => (n <>$ "") && negb (bool_decide (is_Some (parse_data_disk_lv_name n)))) names with
  | Some n => se_fail (ForeignLv vg n)
  | None => se_ret tt
  end.

(** [LvmLinearBackend::validate]: the devices in the order of the spec. *)
Definition backend_validate (b : LvmLinearBackend) : LvmM unit :=
  se_for (be_device_vgs b) (fun '(_, vg) =>
    run! check_vg_exists vg ; run! check_vg_one_pv vg ; check_vg_no_foreign_lvs vg).

(** ** Data volumes *)

(** A statement on the ledger. *)
Definition reservations : LvmM (list LvmReservationRow) :=
  se_gets (fun s => lvm_reservation (at_db s)).
Definition on_ledger f : LvmM unit := se_modify (set_agent_db (set_reservations f)).

Definition lookup_assignment (assignment_id : string) : LvmM (option LvmReservationRow) :=
  do! t <- reservations ; se_ret (select1 (fun r => rv_assignment_id r =$ assignment_id) t).

Definition drop_reservation (assignment_id : string) : LvmM unit :=
  on_ledger (delete_where (fun r => rv_assignment_id r =$ assignment_id)).
Definition with_rv_state (st : string) (r : LvmReservationRow) : LvmReservationRow := {|
  rv_assignment_id := rv_assignment_id r; rv_pool := rv_pool r; rv_device_id := rv_device_id r;
  rv_vg := rv_vg r; rv_lv_name := rv_lv_name r; rv_vm_id := rv_vm_id r;
  rv_disk_index := rv_disk_index r; rv_size_gib := rv_size_gib r; rv_state := st |}.
Definition set_reservation_state (assignment_id st : string) : LvmM unit :=
  on_ledger (update_where (fun r => rv_assignment_id r =$ assignment_id) (with_rv_state st)).

(** The UNIQUE constraints of [lvm_reservation]. *)
Definition reservation_clash (r : LvmReservationRow) (t : list LvmReservationRow) : bool :=
  existsb (fun q => (rv_assignment_id q =$ rv_assignment_id r) ||
                    ((rv_vm_id q =$ rv_vm_id r) && (rv_disk_index q =? rv_disk_index r)) ||
                    ((rv_vg q =$ rv_vg r) && (rv_lv_name q =$ rv_lv_name r))) t.
Definition insert_reservation (r : LvmReservationRow) : LvmM unit :=
  do! t <- reservations ;
  if reservation_clash r t then se_fail LvmDb else on_ledger (fun t => t ++ [r]).

(** The row a request reserves. *)
Definition reservation_of (b : LvmLinearBackend) (vg : string) (req : DiskAllocationRequest)
    : LvmReservationRow := {|
  rv_assignment_id := rq_assignment_id req; rv_pool := ps_name (be_spec b);
  rv_device_id := rq_device_id req; rv_vg := vg;
  rv_lv_name := lv_name (rq_vm_id req) (rq_disk_index req); rv_vm_id := rq_vm_id req;
  rv_disk_index := rq_disk_index req; rv_size_gib := as_i64 (rq_min_size_gib req);
  rv_state := "Creating" |}.

(** From the reservation to the volume. *)
Definition create_lv (b : LvmLinearBackend) (vg : string) (req : DiskAllocationRequest) : LvmM Allocation :=
  let lv := lv_name (rq_vm_id req) (rq_disk_index req) in
  run! insert_reservation (reservation_of b vg req) ;
  run! acquire (pool_role b) ;
  do! stale <- lv_attr vg lv ;
  run! (match stale with Some _ => lvremove vg lv | None => se_ret tt end) ;
  run! run_cmd "lvcreate" ["--wipesignatures"; "y"; "--yes"; "--size";
                           pretty (rq_min_size_gib req) +:+ "G"; "--name"; lv; vg] ;
  run! set_reservation_state (rq_assignment_id req) "Ready" ;
  se_ret {| al_path := lv_path vg lv; al_actual_size_gib := rq_min_size_gib req |}.

(** [LvmLinearBackend::allocate]. *)
Definition allocate (b : LvmLinearBackend) (req : DiskAllocationRequest) : LvmM Allocation :=
  do! existing <- lookup_assignment (rq_assignment_id req) ;
  let fresh :=
    do! t <- reservations ;
    if existsb (fun r => (rv_vm_id r =$ rq_vm_id req) && (rv_disk_index r =? rq_disk_index req) &&
                         (rv_assignment_id r <>$ rq_assignment_id req)) t
    then se_fail (AssignmentConflict (rq_assignment_id req) (rq_vm_id req) (rq_disk_index req))
    else do! vg <- se_of (vg_for b (rq_device_id req)) ; create_lv b vg req in
  match existing with
  | Some r =>
      if rv_state r =$ "Ready"
      then se_ret {| al_path := lv_path (rv_vg r) (rv_lv_name r);
                     al_actual_size_gib := as_u64 (rv_size_gib r) |}
      else run! drop_reservation (rq_assignment_id req) ; fresh
  | None => fresh
  end.

(** [LvmLinearBackend::release]. *)
Definition release (b : LvmLinearBackend) (vm_id : string) : LvmM unit :=
  do! t <- reservations ;
  let rows := select (fun r => (rv_pool r =$ ps_name (be_spec b)) && (rv_vm_id r =$ vm_id)) t in
  match rows with
  | [] => se_ret tt
  | _ =>
      run! se_for rows (fun r => set_reservation_state (rv_assignment_id r) "Deleting") ;
      run! acquire (pool_role b) ;
      se_for rows (fun r => run! lvremove (rv_vg r) (rv_lv_name r) ;
                            drop_reservation (rv_assignment_id r))
  end.

(** [LvmLinearBackend::managed_vm_ids]: the ids, possibly repeated. *)
Definition managed_vm_ids (b : LvmLinearBackend) : LvmM (list string) :=
  do! per_vg <- se_map (backend_vgs b) (fun vg =>
    do! names <- lv_names vg ;
    se_ret (omap (fun n => fst <$> parse_data_disk_lv_name n) names)) ;
  se_ret (concat per_vg).

(** ** Restart *)

Definition report_default : ReconcileReport := {|
  rp_orphans_removed := 0; rp_creating_resolved := 0; rp_deleting_resolved := 0;
  rp_lost_reservations := [] |}.
Definition creating_resolved (r : ReconcileReport) : ReconcileReport := {|
  rp_orphans_removed := rp_orphans_removed r; rp_creating_resolved := rp_creating_resolved r + 1;
  rp_deleting_resolved := rp_deleting_resolved r; rp_lost_reservations := rp_lost_reservations r |}.
Definition deleting_resolved (r : ReconcileReport) : ReconcileReport := {|
  rp_orphans_removed := rp_orphans_removed r; rp_creating_resolved := rp_creating_resolved r;
  rp_deleting_resolved := rp_deleting_resolved r + 1; rp_lost_reservations := rp_lost_reservations r |}.
Definition orphan_removed (r : ReconcileReport) : ReconcileReport := {|
  rp_orphans_removed := rp_orphans_removed r + 1; rp_creating_resolved := rp_creating_resolved r;
  rp_deleting_resolved := rp_deleting_resolved r; rp_lost_reservations := rp_lost_reservations r |}.
Definition lost_reservation (row : LvmReservationRow) (r : ReconcileReport) : ReconcileReport := {|
  rp_orphans_removed := rp_orphans_removed r; rp_creating_resolved := rp_creating_resolved r;
  rp_deleting_resolved := rp_deleting_resolved r;
  rp_lost_reservations := rp_lost_reservations r ++
    [{| lo_assignment_id := rv_assignment_id row; lo_vm_id := rv_vm_id row;
        lo_disk_index := as_u32 (rv_disk_index row); lo_pool := rv_pool row;
        lo_device_id := rv_device_id row |}] |}.

(** One row of the ledger against the hardware. *)
Definition reconcile_row (b : LvmLinearBackend) (live : list string) (row : LvmReservationRow)
    (report : ReconcileReport) : LvmM ReconcileReport :=
  do! attr <- lv_attr (rv_vg row) (rv_lv_name row) ;
  let lv_present := bool_decide (is_Some attr) in
  let vm_alive := existsb (String.eqb (rv_vm_id row)) live in
  let drop := drop_reservation (rv_assignment_id row) in
  let remove := run! acquire (pool_role b) ; run! lvremove (rv_vg row) (rv_lv_name row) ; drop in
  if rv_state row =$ "Creating" then
    if lv_present && vm_alive then
      run! set_reservation_state (rv_assignment_id row) "Ready" ; se_ret (creating_resolved report)
    else run! drop ; se_ret (creating_resolved report)
  else if rv_state row =$ "Deleting" then
    if lv_present then run! remove ; se_ret (deleting_resolved report)
    else run! drop ; se_ret (deleting_resolved report)
  else if rv_state row =$ "Ready" then
    if negb lv_present then se_ret (lost_reservation row report)
    else if vm_alive then se_ret report
    else run! remove ; se_ret report
  else se_ret report.

Fixpoint reconcile_rows (b : LvmLinearBackend) (live : list string) (rows : list LvmReservationRow)
    (report : ReconcileReport) : LvmM ReconcileReport :=
  match rows with
  | [] => se_ret report
  | row :: rows' =>
      do! report <- reconcile_row b live row report ; reconcile_rows b live rows' report
  end.

(** Volumes of the basis pattern that no row claimed at the start, of VMs
    that are gone. *)
Fixpoint sweep_names (b : LvmLinearBackend) (live : list string) (claimed : list (string * string))
    (vg : string) (names : list string) (report : ReconcileReport) : LvmM ReconcileReport :=
  match names with
  | [] => se_ret report
  | name :: names' =>
      match parse_data_disk_lv_name name with
      | Some (vm_id, _) =>
          if existsb (fun c => (fst c =$ vg) && (snd c =$ name)) claimed || existsb (String.eqb vm_id) live
          then sweep_names b live claimed vg names' report
          else run! acquire (pool_role b) ; run! lvremove vg name ;
               sweep_names b live claimed vg names' (orphan_removed report)
      | None => sweep_names b live claimed vg names' report
      end
  end.
Fixpoint sweep_vgs (b : LvmLinearBackend) (live : list string) (claimed : list (string * string))
    (vgs : list string) (report : ReconcileReport) : LvmM ReconcileReport :=
  match vgs with
  | [] => se_ret report
  | vg :: vgs' =>
      do! names <- lv_names vg ;
      do! report <- sweep_names b live claimed vg names report ;
      sweep_vgs b live claimed vgs' report
  end.

(** [LvmLinearBackend::reconcile]. *)
Definition backend_reconcile (b : LvmLinearBackend) (live : list string) : LvmM ReconcileReport :=
  do! t <- reservations ;
  let rows := select (fun r => rv_pool r =$ ps_name (be_spec b)) t in
  do! report <- reconcile_rows b live rows report_default ;
  sweep_vgs b live (map (fun r => (rv_vg r, rv_lv_name r)) rows) (backend_vgs b) report.

(** ** Capacity *)

(** [vg_capacity]: the size and the free bytes of a group. *)
Definition vg_capacity (vg : string) : LvmM (Z * Z) :=
  do! out <- run_cmd "vgs" ["--noheadings"; "--separator=|"; "--units"; "b"; "--nosuffix"; "-o";
                            "vg_size,vg_free"; vg] ;
  let parts := map trim (split_char "|"%char (trim out)) in
  let field i := ok_or (LvmCommand "vgs" "could not parse") (parse_u64 (unwrap_or "0" (parts !! i))) in
  do! total <- se_of (field 0%nat) ;
  do! free <- se_of (field 1%nat) ;
  se_ret (total, free).

(** What [devices] reports of one device; [dev.size_gib * (1 << 30)] is a
    [u64] product. *)
Definition device_of (d : PoolDeviceSpec) (vg : string) : LvmM PoolDevice :=
  do! cap <- se_try (vg_capacity vg) ;
  let '(h, reason, total, free) :=
    match cap with
    | Ok (total, free) => (HealthReady, "", total, free)
    | Err (VgMissing _) => (HealthMissing, "vg " +:+ vg +:+ " not present", as_u64 (pd_size_gib d * GIB), 0)
    | Err (LvmCommand cmd stderr) =>
        (HealthDegraded, "lvm command `" +:+ cmd +:+ "` failed: " +:+ stderr, as_u64 (pd_size_gib d * GIB), 0)
    | Err _ => (HealthDegraded, "io error", as_u64 (pd_size_gib d * GIB), 0)
    end in
  se_ret {| dv_id := pd_id d; dv_total_gib := total / GIB; dv_free_gib := free / GIB;
            dv_physical := h; dv_physical_reason := reason |}.

(** [LvmLinearBackend::devices]. *)
Definition backend_devices (b : LvmLinearBackend) : LvmM (list PoolDevice) :=
  se_map (ps_devices (be_spec b)) (fun d => device_of d (unwrap_or "" (pd_vg d))).

(** [pool_capacity]: the four layers of a pool's bytes. *)
Definition dv_ready (d : PoolDevice) : bool :=
  match dv_physical d with HealthReady => true | _ => false end.
Definition dv_bytes (d : PoolDevice) : Z := as_u64 (dv_total_gib d * GIB).
Definition capacity_of (b : LvmLinearBackend) (devices : list PoolDevice) : HostPoolCapacity :=
  let ready := select dv_ready devices in {|
  hc_pool := ps_name (be_spec b); hc_backend := LvmLinear; hc_labels := ps_labels (be_spec b);
  hc_configured_total_bytes := as_u64 (sum_of dv_bytes devices);
  hc_ready_total_bytes := as_u64 (sum_of dv_bytes ready);
  hc_schedulable_total_bytes := as_u64 (sum_of dv_bytes ready);
  hc_schedulable_free_bytes := as_u64 (sum_of (fun d => as_u64 (dv_free_gib d * GIB)) ready);
  hc_devices := devices |}.
Definition pool_capacity (b : LvmLinearBackend) : LvmM HostPoolCapacity :=
  do! ds <- backend_devices b ; se_ret (capacity_of b ds).

(** ** The rootfs pool and the registry *)

(** [Storage::create_vm_rootfs]. *)
Definition create_vm_rootfs (st : Storage) (vm_id image_hash : string) (disk_gib : Z) : LvmM string :=
  let vg := rs_vg (st_rootfs st) in
  let lv := VM_LV_PREFIX +:+ vm_id in
  run! acquire "rootfs" ;
  do! stale <- lv_attr vg lv ;
  run! (match stale with Some _ => lvremove vg lv | None => se_ret tt end) ;
  run! run_cmd "lvcreate" ["--snapshot"; "--name"; lv; "--setactivationskip"; "n"; "--permission"; "rw";
                           vg +:+ "/" +:+ IMAGE_LV_PREFIX +:+ image_hash] ;
  run! lvextend vg lv disk_gib ;
  se_ret (vm_lv_path st vm_id).

(** [Storage::remove_vm_rootfs]. *)
Definition remove_vm_rootfs (st : Storage) (vm_id : string) : LvmM unit :=
  let vg := rs_vg (st_rootfs st) in
  let lv := VM_LV_PREFIX +:+ vm_id in
  do! attr <- lv_attr vg lv ;
  match attr with
  | None => se_ret tt
  | Some _ => run! acquire "rootfs" ; lvremove vg lv
  end.

(** [Storage::ensure_image_lv]: the read-only bit marks a filled image. *)
Definition ensure_image_lv (st : Storage) (image_hash source_qcow2 : string) (virtual_size_gib : Z)
    : LvmM string :=
  let vg := rs_vg (st_rootfs st) in
  let lv := IMAGE_LV_PREFIX +:+ image_hash in
  let path := image_lv_path st image_hash in
  do! attr <- lv_attr vg lv ;
  if from_option attr_is_readonly false attr then se_ret path else
  run! acquire "rootfs" ;
  do! attr <- lv_attr vg lv ;
  if from_option attr_is_readonly false attr then se_ret path else
  run! (match attr with Some _ => lvremove vg lv | None => se_ret tt end) ;
  run! run_cmd "lvcreate" ["--virtualsize"; pretty virtual_size_gib +:+ "G"; "--thin"; "--name"; lv;
                           vg +:+ "/" +:+ rs_thin_pool (st_rootfs st)] ;
  do! out <- world (run "qemu-img" ["convert"; "-O"; "raw"; "-t"; "none"; "-T"; "none"; source_qcow2; path]) ;
  match out with
  | None => se_fail (ImageConvert "qemu-img spawn")
  | Some o =>
      if negb (out_ok o) then
        run! se_try (F:=LvmError) (lvremove vg lv) ; se_fail (ImageConvert "qemu-img exited")
      else
        run! run_cmd "lvchange" ["--permission"; "r"; vg +:+ "/" +:+ lv] ;
        se_ret path
  end.

(** [Storage::release_vm_disks], [reconcile], [list_managed_vm_ids], [validate]. *)
Definition release_vm_disks (st : Storage) (vm_id : string) : LvmM unit :=
  se_for (st_pools st) (fun b => release b vm_id).
Definition storage_reconcile (st : Storage) (live : list string) : LvmM (list ReconcileReport) :=
  se_map (st_pools st) (fun b => backend_reconcile b live).
Definition list_managed_vm_ids (st : Storage) : LvmM (list string) :=
  do! names <- lv_names (rs_vg (st_rootfs st)) ;
  do! per_pool <- se_map (st_pools st) managed_vm_ids ;
  se_ret (remove_dups (omap (strip_prefix VM_LV_PREFIX) names ++ concat per_pool)).
End lvm.
