(* ===== verification/Resources.v ===== *)
(** * Configuration files (crates/basis-common/src/resource.rs, the config.rs of agent and controller)

    The resource envelope, reading one from a file, and what the agent and the
    controller accept as their configuration. YAML and the file system are
    parameters. *)

From Stdlib Require Import SpecFloat.
From S2P Require Import Prelude Ipv4 Ipnet CidrNet Proto Config Overcommit DbTypes JsonText Ipam Clusters Hosts Vms Teardown Outbox Schema Scheduler Ctl Agent Text Host Lvm.

(** ** The envelope *)

Definition RESOURCE_API_VERSION : string := "basis.dev/v1alpha1".

Record ResourceOf (Spec : Type) := {
  res_api_version : string;
  res_kind : string;
  res_name : string;
  res_spec : Spec;
}.
Arguments res_api_version {Spec}.
Arguments res_kind {Spec}.
Arguments res_name {Spec}.
Arguments res_spec {Spec}.
Arguments Build_ResourceOf {Spec}.

Inductive ResourceError :=
  | ResRead (path : string)
  | ResParse (path : string)
  | ResApiVersion (path got : string)
  | ResKind (path got expected : string)
  | ResOther (kind : string).

(** serde_yaml_ng: a text as an envelope around a value, and the value at the
    types of the two configurations. *)
Class ConfigYaml (HostSpec ControllerSpec : Type) := {
  CValue : Type;
  envelope_of_yaml : string -> option (ResourceOf CValue);
  host_spec_of_yaml : CValue -> option HostSpec;
  controller_spec_of_yaml : CValue -> option ControllerSpec;
}.

(** [load_resource]: the version, then the kind, then the specification. *)
Definition load_resource {Value Spec} (parse : string -> option (ResourceOf Value)) (from_value : Value -> option Spec)
    (read : string -> option string) (path expected_kind : string) : result ResourceError (ResourceOf Spec) :=
  match read path with
  | None => Err (ResRead path)
  | Some contents =>
      match parse contents with
      | None => Err (ResParse path)
      | Some env =>
          if res_api_version env <>$ RESOURCE_API_VERSION then Err (ResApiVersion path (res_api_version env))
          else if res_kind env <>$ expected_kind then Err (ResKind path (res_kind env) expected_kind)
          else match from_value (res_spec env) with
          | None => Err (ResParse path)
          | Some spec => Ok {| res_api_version := res_api_version env; res_kind := res_kind env;
                               res_name := res_name env; res_spec := spec |}
          end
      end
  end.

(** ** The agent's configuration *)

Record TlsConfig := { tls_cert : string; tls_key : string; tls_ca : string }.
Record NetworkSpec := { nsp_bridge : string; nsp_physical_nic : string }.
Record RegistryCredentials := { rgc_host : string; rgc_username : string; rgc_password : string }.
Record HostSpec := {
  hsp_controller_endpoint : string;
  hsp_data_dir : string;
  hsp_network : NetworkSpec;
  hsp_storage : StorageSpec;
  hsp_tls : TlsConfig;
  hsp_registries : list RegistryCredentials;
  hsp_metrics_listen : string;
  hsp_gobgpd_endpoint : string;
  hsp_rank : Z;
  hsp_labels : gmap string string;
}.
Definition HOST_KIND : string := "Host".

(** ** The controller's configuration *)

Record BgpConfig := { bgc_asn : Z; bgc_router_id : string; bgc_gobgpd_endpoint : string }.
Record ControllerSpec := {
  csp_listen : string;
  csp_metrics_listen : string;
  csp_data_dir : string;
  csp_tls : TlsConfig;
  csp_network : NetworkConfig;
  csp_dns_servers : list string;
  csp_cpu_overcommit_ratio : f64;
  csp_bgp : BgpConfig;
  csp_auto_reconcile_orphan_inventory : bool;
}.
Definition CONTROLLER_KIND : string := "BasisController".

Section load.
Context `{Y : ConfigYaml HostSpec ControllerSpec}.
Variable read : string -> option string.

(** [load] of the agent: the storage section is checked. *)
Definition load_host (path : string) : result ResourceError (ResourceOf HostSpec) :=
  match load_resource envelope_of_yaml host_spec_of_yaml read path HOST_KIND with
  | Err e => Err e
  | Ok host =>
      match validate_storage (hsp_storage (res_spec host)) with
      | Ok _ => Ok host
      | Err _ => Err (ResOther HOST_KIND)
      end
  end.

(** [BasisControllerSpec::load]. *)
Definition load_controller (path : string) : result ResourceError ControllerSpec :=
  match load_resource envelope_of_yaml controller_spec_of_yaml read path CONTROLLER_KIND with
  | Err e => Err e
  | Ok r => Ok (res_spec r)
  end.
End load.

Inductive SpecError :=
  | OvercommitOutOfRange
  | NetworkInvalid (e : ConfigError)
  | AsnZero
  | RouterIdInvalid.

(** [is_finite] and [< 1.0]. *)
Definition f64_is_finite (x : f64) : bool :=
  match x with S754_zero _ | S754_finite _ _ _ => true | _ => false end.
Definition f64_lt (x y : f64) : bool :=
  match SFcompare x y with Some Lt => true | _ => false end.

(** [BgpConfig::validate] and [BasisControllerSpec::validate]. *)
Definition validate_bgp (b : BgpConfig) : result SpecError unit :=
  if bgc_asn b =? 0 then Err AsnZero
  else match ip_parse (bgc_router_id b) with
       | Some _ => Ok tt
       | None => Err RouterIdInvalid
       end.
Definition validate_controller `{I : Ipnet} (c : ControllerSpec) : result SpecError unit :=
  if negb (f64_is_finite (csp_cpu_overcommit_ratio c)) || f64_lt (csp_cpu_overcommit_ratio c) ratio_1
  then Err OvercommitOutOfRange
  else match validate (csp_network c) with
       | Err e => Err (NetworkInvalid e)
       | Ok _ => validate_bgp (csp_bgp c)
       end.

(** The configuration [main] starts the server with. *)
Definition server_config (c : ControllerSpec) : CtlConfig := {|
  cc_network := csp_network c; cc_bgp_asn := bgc_asn (csp_bgp c); cc_bgp_router_id := bgc_router_id (csp_bgp c);
  cc_auto_reconcile_orphan_inventory := csp_auto_reconcile_orphan_inventory c;
  cc_dns_servers := csp_dns_servers c; cc_cpu_overcommit_ratio := csp_cpu_overcommit_ratio c |}.

(** A file of another kind is reported as such, whatever its specification. *)
Lemma load_resource_kind {Value Spec} parse (from_value : Value -> option Spec) read path kind contents env :
  read path = Some contents -> parse contents = Some env ->
  res_api_version env = RESOURCE_API_VERSION -> res_kind env <> kind ->
  load_resource parse from_value read path kind = Err (ResKind path (res_kind env) kind).
Proof.
  intros Hr Hp Hv Hk. unfold load_resource. rewrite Hr, Hp, Hv. rewrite String.eqb_refl. simpl.
  by rewrite (proj2 (String.eqb_neq _ _) Hk).
Qed.

(** A host configuration that loads describes storage the agent can build. *)
Lemma load_host_builds `{Y : ConfigYaml HostSpec ControllerSpec} read path host :
  load_host read path = Ok host ->
  validate_storage (hsp_storage (res_spec host)) = Ok tt /\ res_kind host = HOST_KIND.
Proof.
  unfold load_host, load_resource. intros H. repeat case_match; simplify_eq; simpl in *.
  all: match goal with x : unit |- _ => destruct x end; (split; [done|]).
  all: match goal with E : (_ <>$ HOST_KIND) = false |- _ => apply negb_false_iff, String.eqb_eq in E; done end.
Qed.
