(* ===== verification/Ledger.v ===== *)
(** * The reservation ledger and the volumes

    What lvm2 is assumed to do ([LvmHost]), and the invariant that makes the
    ledger of crates/basis-agent/src/lvm.rs useful after a crash: every data
    volume of a managed group has its row, whatever command failed. *)

From Stdlib Require Import Ascii.
From S2P Require Import Prelude Ipv4 Proto DbTypes Text Host Lvm Triple.

(** The arguments of the volume commands. *)
Definition lvs_attr_args (vg lv : string) : list string :=
  ["--noheadings"; "-o"; "lv_attr"; "-S"; "lv_name=" +:+ lv; vg].
Definition lvs_names_args (vg : string) : list string := ["--noheadings"; "-o"; "lv_name"; vg].
Definition lvremove_args (vg lv : string) : list string := ["-f"; vg +:+ "/" +:+ lv].
Definition lvcreate_args (vg lv : string) (gib : Z) : list string :=
  ["--wipesignatures"; "y"; "--yes"; "--size"; pretty gib +:+ "G"; "--name"; lv; vg].
Definition snapshot_args (vg lv origin : string) : list string :=
  ["--snapshot"; "--name"; lv; "--setactivationskip"; "n"; "--permission"; "rw"; vg +:+ "/" +:+ origin].
Definition thin_args (vg pool lv : string) (gib : Z) : list string :=
  ["--virtualsize"; pretty gib +:+ "G"; "--thin"; "--name"; lv; vg +:+ "/" +:+ pool].

(** A finished command that reported success. *)
Definition succeeded (o : option Output) : Prop := exists out, o = Some out /\ out_ok out = true.

(** What the agent relies on lvm2 for. [lv_set] are the volumes that exist,
    as (group, name). Only lvcreate and lvremove change it; each touches the
    volume it names at most, and a failed one may or may not have done so. *)
Class LvmHost `{H : Host} := {
  lv_set : World -> gset (string * string);
  lv_frame tool args w : tool <> "lvcreate" -> tool <> "lvremove" ->
    lv_set (fst (run tool args w)) = lv_set w;
  lv_permit role w : lv_set (fst (permit role w)) = lv_set w;
  lv_mkdir p w : lv_set (fst (create_dir_all p w)) = lv_set w;
  lv_rmdir p w : lv_set (fst (remove_dir_all p w)) = lv_set w;
  lv_write p c w : lv_set (fst (write_file p c w)) = lv_set w;
  lv_unlink p w : lv_set (fst (remove_file p w)) = lv_set w;
  lv_rename p q w : lv_set (fst (rename_file p q w)) = lv_set w;
  lvs_attr_spec vg lv w w' out : run "lvs" (lvs_attr_args vg lv) w = (w', Some out) ->
    out_ok out = true -> trim (out_stdout out) <> "" <-> (vg, lv) ∈ lv_set w;
  lvs_names_spec vg w w' out : run "lvs" (lvs_names_args vg) w = (w', Some out) ->
    out_ok out = true ->
    forall n, n <> "" -> n ∈ map trim (lines (out_stdout out)) <-> (vg, n) ∈ lv_set w;
  lvremove_spec vg lv w w' o : run "lvremove" (lvremove_args vg lv) w = (w', o) ->
    (lv_set w' = lv_set w \/ lv_set w' = lv_set w ∖ {[(vg, lv)]}) /\
    (succeeded o -> (vg, lv) ∉ lv_set w');
  lvcreate_spec vg lv gib w w' o : run "lvcreate" (lvcreate_args vg lv gib) w = (w', o) ->
    (lv_set w' = lv_set w \/ lv_set w' = {[(vg, lv)]} ∪ lv_set w) /\
    (succeeded o -> (vg, lv) ∈ lv_set w');
  snapshot_spec vg lv origin w w' o : run "lvcreate" (snapshot_args vg lv origin) w = (w', o) ->
    (lv_set w' = lv_set w \/ lv_set w' = {[(vg, lv)]} ∪ lv_set w) /\
    (succeeded o -> (vg, lv) ∈ lv_set w');
  thin_spec vg pool lv gib w w' o : run "lvcreate" (thin_args vg pool lv gib) w = (w', o) ->
    (lv_set w' = lv_set w \/ lv_set w' = {[(vg, lv)]} ∪ lv_set w) /\
    (succeeded o -> (vg, lv) ∈ lv_set w');
}.

(** ** Names *)

(** The name of a data volume tells its VM and disk: reading back the name
    the agent gives a volume returns the VM id and the index, for every
    non-empty id (dashes included) and every [u32] index; so different disks
    have different names. *)
Lemma lv_name_roundtrip vm i :
  vm <> "" -> is_u32 i -> parse_data_disk_lv_name (lv_name vm i) = Some (vm, i).
Proof.
  intros Hvm Hi. unfold parse_data_disk_lv_name, lv_name. rewrite strip_prefix_app. simpl.
  change ("-" +:+ pretty i) with (String "-"%char (pretty i)).
  rewrite rsplit_once_app by (apply pretty_free_of_dash, Hi). simpl.
  rewrite (proj2 (String.eqb_neq _ _) Hvm), parse_u32_pretty by done. done.
Qed.
Lemma lv_name_inj vm1 i1 vm2 i2 :
  vm1 <> "" -> vm2 <> "" -> is_u32 i1 -> is_u32 i2 ->
  lv_name vm1 i1 = lv_name vm2 i2 -> vm1 = vm2 /\ i1 = i2.
Proof.
  intros Hv1 Hv2 H1 H2 Heq. pose proof (lv_name_roundtrip vm1 i1 Hv1 H1) as Hp.
  rewrite Heq, lv_name_roundtrip in Hp by done. by simplify_eq.
Qed.

(** Rootfs and image volumes are never taken for data volumes. *)
Lemma vm_lv_not_data vm : parse_data_disk_lv_name (VM_LV_PREFIX +:+ vm) = None.
Proof. done. Qed.
Lemma image_lv_not_data h : parse_data_disk_lv_name (IMAGE_LV_PREFIX +:+ h) = None.
Proof. done. Qed.

(** ** The invariant *)

Definition row_key (r : LvmReservationRow) : string * string := (rv_vg r, rv_lv_name r).
Definition row_disk (r : LvmReservationRow) : string * Z := (rv_vm_id r, rv_disk_index r).

(** A row names the volume of its VM's disk on a device of its pool. *)
Definition row_ok (st : Storage) (r : LvmReservationRow) : Prop :=
  rv_vm_id r <> "" /\ is_u32 (rv_disk_index r) /\
  rv_lv_name r = lv_name (rv_vm_id r) (rv_disk_index r) /\
  exists b, b ∈ st_pools st /\ ps_name (be_spec b) = rv_pool r /\ vg_for b (rv_device_id r) = Ok (rv_vg r).

Record ledger_wf (st : Storage) (t : list LvmReservationRow) : Prop := {
  lw_ids : NoDup (map rv_assignment_id t);
  lw_disks : NoDup (map row_disk t);
  lw_keys : NoDup (map row_key t);
  lw_rows r : r ∈ t -> row_ok st r;
}.

Definition data_vgs (st : Storage) : list string := concat (map backend_vgs (st_pools st)).

(** Every data volume has its row, and a ready row has its volume. *)
Definition covered (st : Storage) (t : list LvmReservationRow) (L : gset (string * string)) : Prop :=
  forall vg n, (vg, n) ∈ L -> vg ∈ data_vgs st -> is_Some (parse_data_disk_lv_name n) ->
  exists r, r ∈ t /\ row_key r = (vg, n).
Definition backed (t : list LvmReservationRow) (L : gset (string * string)) : Prop :=
  forall r, r ∈ t -> rv_state r = "Ready" -> row_key r ∈ L.

Definition storage_inv (st : Storage) (t : list LvmReservationRow) (L : gset (string * string)) : Prop :=
  ledger_wf st t /\ covered st t L /\ backed t L.

(** ** Changes of the ledger and of the volumes *)

Lemma storage_inv_remove st t L x :
  storage_inv st t L -> (forall r, r ∈ t -> row_key r = x -> rv_state r <> "Ready") ->
  storage_inv st t (L ∖ {[x]}).
Proof.
  intros (Hwf & Hc & Hb) Hx. split; [done|split].
  - intros vg n Hin. apply Hc. set_solver.
  - intros r Hr Hs. specialize (Hb r Hr Hs). specialize (Hx r Hr). set_solver.
Qed.

Lemma storage_inv_add st t L x :
  storage_inv st t L ->
  (fst x ∈ data_vgs st -> is_Some (parse_data_disk_lv_name (snd x)) ->
     exists r, r ∈ t /\ row_key r = x) ->
  storage_inv st t ({[x]} ∪ L).
Proof.
  intros (Hwf & Hc & Hb) Hx. split; [done|split].
  - intros vg n Hin Hvg Hn. apply elem_of_union in Hin as [Heq%elem_of_singleton|Hin]; [|by apply Hc].
    subst x. by apply Hx.
  - intros r Hr Hs. specialize (Hb r Hr Hs). set_solver.
Qed.

Lemma with_rv_state_key st r : row_key (with_rv_state st r) = row_key r.
Proof. done. Qed.

Lemma elem_of_set_state id state t (r : LvmReservationRow) :
  r ∈ update_where (fun r => rv_assignment_id r =$ id) (with_rv_state state) t ->
  exists q, q ∈ t /\ rv_assignment_id r = rv_assignment_id q /\ row_key r = row_key q /\
    row_disk r = row_disk q /\ rv_pool r = rv_pool q /\ rv_device_id r = rv_device_id q /\
    (rv_assignment_id q = id /\ rv_state r = state \/ rv_assignment_id q <> id /\ r = q).
Proof.
  intros (q & Hq & ->)%elem_of_update_where. exists q.
  destruct (rv_assignment_id q =$ id) eqn:Hid;
    [apply String.eqb_eq in Hid|apply String.eqb_neq in Hid]; split_and!; auto.
Qed.

Lemma storage_inv_set_state st t L id state :
  storage_inv st t L ->
  (state = "Ready" -> forall r, r ∈ t -> rv_assignment_id r = id -> row_key r ∈ L) ->
  storage_inv st (update_where (fun r => rv_assignment_id r =$ id) (with_rv_state state) t) L.
Proof.
  intros ([H1 H2 H3 H4] & Hc & Hb) Hs. split; [split|split].
  - by rewrite map_update_where.
  - by rewrite map_update_where.
  - by rewrite map_update_where.
  - intros r (q & Hq & ->)%elem_of_update_where. destruct (_ =$ _); by apply (H4 q).
  - intros vg n Hin Hvg Hn. destruct (Hc vg n Hin Hvg Hn) as (r & Hr & Hk).
    exists (if rv_assignment_id r =$ id then with_rv_state state r else r). split.
    + apply elem_of_update_where. by exists r.
    + by destruct (rv_assignment_id r =$ id).
  - intros r (q & Hq & _ & Hk & _ & _ & _ & [[Hid Hst]|[_ ->]])%elem_of_set_state Hr; [|by apply Hb].
    rewrite Hk. apply Hs; [congruence|done..].
Qed.

Lemma storage_inv_drop st t L id :
  storage_inv st t L -> (forall r, r ∈ t -> rv_assignment_id r = id -> row_key r ∉ L) ->
  storage_inv st (delete_where (fun r => rv_assignment_id r =$ id) t) L.
Proof.
  intros ([H1 H2 H3 H4] & Hc & Hb) Hx. split; [split|split].
  - by apply NoDup_delete_where.
  - by apply NoDup_delete_where.
  - by apply NoDup_delete_where.
  - intros r [Hr _]%elem_of_delete_where. by apply H4.
  - intros vg n Hin Hvg Hn. destruct (Hc vg n Hin Hvg Hn) as (r & Hr & Hk).
    exists r. split; [|done]. apply elem_of_delete_where. split; [done|].
    apply String.eqb_neq. intros Hid. apply (Hx r Hr Hid). by rewrite Hk.
  - intros r [Hr _]%elem_of_delete_where. by apply Hb.
Qed.

(** A new row, none of whose keys is taken. *)
Lemma clash_fresh r t :
  reservation_clash r t = false ->
  forall q, q ∈ t -> rv_assignment_id q <> rv_assignment_id r /\ row_disk q <> row_disk r /\
                     row_key q <> row_key r.
Proof.
  intros Hcl q Hq. unfold reservation_clash in Hcl. pose proof (proj1 (existsb_false _ _) Hcl q Hq) as Hn.
  simpl in Hn. unfold row_disk, row_key. apply orb_false_iff in Hn as [Hn Hk].
  apply orb_false_iff in Hn as [Ha Hd]. apply String.eqb_neq in Ha. split_and!; [done|intros [= E1 E2]..].
  - by rewrite E1, E2, String.eqb_refl, Z.eqb_refl in Hd.
  - by rewrite E1, E2, !String.eqb_refl in Hk.
Qed.

Lemma ledger_wf_insert st t r :
  ledger_wf st t -> row_ok st r -> reservation_clash r t = false -> ledger_wf st (t ++ [r]).
Proof.
  intros [H1 H2 H3 H4] Hr Hcl. pose proof (clash_fresh _ _ Hcl) as Hfresh. split.
  1-3: apply NoDup_map_app; [done|]; intros q Hq; by apply Hfresh.
  intros q [Hq|Hq%list_elem_of_singleton]%elem_of_app; [by apply H4|by subst q].
Qed.

Lemma backed_insert t L r : backed t L -> rv_state r <> "Ready" -> backed (t ++ [r]) L.
Proof.
  intros Hb Hs q [Hq|Hq%list_elem_of_singleton]%elem_of_app Hst; [by apply Hb|by subst q].
Qed.

Lemma storage_inv_insert st t L r :
  storage_inv st t L -> row_ok st r -> reservation_clash r t = false -> rv_state r <> "Ready" ->
  storage_inv st (t ++ [r]) L.
Proof.
  intros (Hwf & Hc & Hb) Hr Hcl Hs. split_and!; [by apply ledger_wf_insert| |by apply backed_insert].
  intros vg n Hin Hvg Hn. destruct (Hc vg n Hin Hvg Hn) as (q & Hq & Hk).
  exists q. rewrite elem_of_app. auto.
Qed.

(** A row replaced by one for the same volume and disk. *)
Lemma storage_inv_replace st t L r r' :
  storage_inv st t L -> r ∈ t -> row_ok st r' -> rv_state r' <> "Ready" ->
  rv_assignment_id r' = rv_assignment_id r -> row_key r' = row_key r -> row_disk r' = row_disk r ->
  let t' := delete_where (fun q => rv_assignment_id q =$ rv_assignment_id r) t in
  reservation_clash r' t' = false /\ storage_inv st (t' ++ [r']) L.
Proof.
  intros ([H1 H2 H3 H4] & Hc & Hb) Hr Hr' Hs Eid Ekey Edisk t'.
  assert (forall q, q ∈ t' -> q ∈ t /\ q <> r) as Ht'.
  { intros q [Hq Hn%String.eqb_neq]%elem_of_delete_where. split; [done|]. by intros ->. }
  assert (reservation_clash r' t' = false) as Hcl.
  { apply existsb_false. intros q [Hq Hn]%Ht'. destruct (orb _ _) eqn:E; [exfalso|done]. apply Hn.
    apply orb_true_iff in E as [E|E]; [apply orb_true_iff in E as [E|E]|]; bsimp.
    - apply (NoDup_map_inj _ _ _ _ H1); congruence.
    - apply (NoDup_map_inj _ _ _ _ H2); [done..|]. rewrite <- Edisk. unfold row_disk. destruct E. congruence.
    - apply (NoDup_map_inj _ _ _ _ H3); [done..|]. rewrite <- Ekey. unfold row_key. destruct E. congruence. }
  split; [done|]. split_and!.
  - apply ledger_wf_insert; [|done..]. split; [by apply NoDup_delete_where..|].
    intros q [Hq _]%Ht'. by apply H4.
  - intros vg n Hin Hvg Hn. destruct (Hc vg n Hin Hvg Hn) as (q & Hq & Hk). setoid_rewrite elem_of_app.
    destruct (String.eqb_spec (rv_assignment_id q) (rv_assignment_id r)) as [E|E].
    + exists r'. split; [right; by apply list_elem_of_singleton|].
      rewrite Ekey, <- Hk. f_equal. by apply (NoDup_map_inj _ _ _ _ H1).
    + exists q. split; [left|done]. apply elem_of_delete_where. split; [done|]. by apply String.eqb_neq.
  - apply backed_insert; [|done]. intros q [Hq _]%Ht'. by apply Hb.
Qed.

(** ** Commands, seen from the ledger *)

Create HintDb silent.

Section ledger.
Context `{HL : LvmHost}.

Definition ledger (s : Agt) : list LvmReservationRow := lvm_reservation (at_db s).
Definition volumes (s : Agt) : gset (string * string) := lv_set (at_world s).
(** A fact about the ledger and the volumes. *)
Definition on (I : list LvmReservationRow -> gset (string * string) -> Prop) (s : Agt) : Prop :=
  I (ledger s) (volumes s).
(** A call that changes neither. *)
Definition silent {E A} (m : SE Agt E A) : Prop :=
  forall s, ledger (fst (m s)) = ledger s /\ volumes (fst (m s)) = volumes s.

Lemma triple_silent {E A} (m : SE Agt E A) I : silent m -> triple (on I) m (fun _ => on I) (on I).
Proof.
  intros Hm s Hs. destruct (Hm s) as [Hl Hv]. unfold on in *.
  destruct (m s) as [s' [a|e]]; simpl in *; by rewrite Hl, Hv.
Qed.
Lemma silent_bind {E A B} (m : SE Agt E A) (k : A -> SE Agt E B) :
  silent m -> (forall a, silent (k a)) -> silent (se_bind m k).
Proof.
  intros Hm Hk s. unfold se_bind. destruct (Hm s) as [Hl Hv].
  destruct (m s) as [s' [a|e]]; simpl in *; [|done].
  destruct (Hk a s') as [Hl' Hv']. by rewrite Hl', Hv'.
Qed.
Lemma silent_ret {E A} (a : A) : silent (E:=E) (se_ret a).
Proof. done. Qed.
Lemma silent_fail {E A} (e : E) : silent (A:=A) (se_fail e).
Proof. done. Qed.
Lemma silent_of {E A} (r : result E A) : silent (se_of r).
Proof. done. Qed.
Lemma silent_gets {E A} (f : Agt -> A) : silent (E:=E) (se_gets f).
Proof. done. Qed.
Lemma silent_try {E F A} (m : SE Agt E A) : silent m -> silent (E:=F) (se_try m).
Proof. intros Hm s. unfold se_try. specialize (Hm s). by destruct (m s) as [s' r]. Qed.
Lemma silent_world {E A} (f : World -> World * A) :
  (forall w, lv_set (fst (f w)) = lv_set w) -> silent (E:=E) (world f).
Proof.
  intros Hf s. unfold world, volumes. specialize (Hf (at_world s)).
  by destruct (f (at_world s)) as [w a].
Qed.
Lemma silent_output tool args :
  tool <> "lvcreate" -> tool <> "lvremove" -> silent (output tool args).
Proof.
  intros Hc Hr. apply silent_bind; [|intros; apply silent_of].
  apply silent_world. intros w. by apply lv_frame.
Qed.
Lemma silent_run_cmd tool args :
  tool <> "lvcreate" -> tool <> "lvremove" -> silent (run_cmd tool args).
Proof.
  intros Hc Hr. apply silent_bind; [by apply silent_output|]. intros out.
  destruct (out_ok out); [apply silent_ret|apply silent_fail].
Qed.
Lemma silent_acquire role : silent (acquire role).
Proof.
  apply silent_bind; [apply silent_world, lv_permit|]. intros []; [apply silent_ret|apply silent_fail].
Qed.
Lemma silent_lv_attr vg lv : silent (lv_attr vg lv).
Proof. apply silent_bind; [by apply silent_run_cmd|]. intros out. apply silent_ret. Qed.

(** What a command that ran and succeeded leaves. *)
Lemma run_cmd_cases tool args s :
  let '(w, o) := run tool args (at_world s) in
  fst (run_cmd tool args s) = set_world (fun _ => w) s /\
  (is_ok (snd (run_cmd tool args s)) = true -> succeeded o).
Proof.
  unfold run_cmd, output, world, se_bind, succeeded. destruct (run tool args (at_world s)) as [w [out|]]; simpl.
  - destruct (out_ok out) eqn:E; simpl; [eauto|done].
  - done.
Qed.

Lemma triple_lvremove (I : list LvmReservationRow -> gset (string * string) -> Prop) vg lv :
  (forall t L, I t L -> I t (L ∖ {[(vg, lv)]})) ->
  triple (on I) (lvremove vg lv) (fun _ => on (fun t L => I t L /\ (vg, lv) ∉ L)) (on I).
Proof.
  intros HI s Hs. unfold lvremove, se_bind.
  pose proof (run_cmd_cases "lvremove" (lvremove_args vg lv) s) as Hc.
  destruct (run "lvremove" (lvremove_args vg lv) (at_world s)) as [w o] eqn:Hr.
  destruct (lvremove_spec vg lv _ _ _ Hr) as [Hset Hok]. unfold lvremove_args in *.
  destruct (run_cmd _ _ s) as [s' [a|e]]; simpl in Hc;
    destruct Hc as [-> Hsucc]; unfold on, ledger, volumes in *; simpl in *.
  - split; [|by apply Hok, Hsucc]. destruct Hset as [->| ->]; auto.
  - destruct Hset as [->| ->]; auto.
Qed.

(** [lvcreate] in one of its three forms. *)
Definition creates (args : list string) (x : string * string) : Prop :=
  forall w w' o, run "lvcreate" args w = (w', o) ->
    (lv_set w' = lv_set w \/ lv_set w' = {[x]} ∪ lv_set w) /\ (succeeded o -> x ∈ lv_set w').
Lemma triple_lvcreate (I : list LvmReservationRow -> gset (string * string) -> Prop) args x :
  creates args x -> (forall t L, I t L -> I t ({[x]} ∪ L)) ->
  triple (on I) (run_cmd "lvcreate" args) (fun _ => on (fun t L => I t L /\ x ∈ L)) (on I).
Proof.
  intros Hcr HI s Hs. pose proof (run_cmd_cases "lvcreate" args s) as Hc.
  destruct (run "lvcreate" args (at_world s)) as [w o] eqn:Hr.
  destruct (Hcr _ _ _ Hr) as [Hset Hok].
  destruct (run_cmd _ _ s) as [s' [a|e]]; simpl in Hc;
    destruct Hc as [-> Hsucc]; unfold on, ledger, volumes in *; simpl in *.
  - split; [|by apply Hok, Hsucc]. destruct Hset as [->| ->]; auto.
  - destruct Hset as [->| ->]; auto.
Qed.

Lemma triple_on_ledger (f : list LvmReservationRow -> list LvmReservationRow) (I J : list LvmReservationRow -> gset (string * string) -> Prop) X :
  (forall t L, I t L -> J (f t) L) -> triple (on I) (on_ledger f) (fun _ => on J) X.
Proof. intros HIJ. apply triple_modify. intros s Hs. by apply HIJ. Qed.

(** ** Reserving a volume *)

(** The request is one the controller can make: a VM id, a [u32] index, and
    the same disk on the same device whenever it repeats an assignment. *)
Definition request_ok (b : LvmLinearBackend) (req : DiskAllocationRequest)
    (t : list LvmReservationRow) : Prop :=
  rq_vm_id req <> "" /\ is_u32 (rq_disk_index req) /\
  forall r, r ∈ t -> rv_assignment_id r = rq_assignment_id req ->
    rv_vm_id r = rq_vm_id req /\ rv_disk_index r = rq_disk_index req /\
    rv_device_id r = rq_device_id req /\ rv_pool r = ps_name (be_spec b) /\
    vg_for b (rv_device_id r) = Ok (rv_vg r).

(** What a finished allocation promises. *)
Definition allocated (st : Storage) (b : LvmLinearBackend) (req : DiskAllocationRequest) (a : Allocation)
    (t : list LvmReservationRow) (L : gset (string * string)) : Prop :=
  storage_inv st t L /\
  exists vg, vg_for b (rq_device_id req) = Ok vg /\
    let lv := lv_name (rq_vm_id req) (rq_disk_index req) in
    al_path a = lv_path vg lv /\ (vg, lv) ∈ L /\
    exists r, r ∈ t /\ rv_assignment_id r = rq_assignment_id req /\ rv_state r = "Ready" /\
      row_key r = (vg, lv).

(** The row of the request is in the ledger and not ready. *)
Definition reserved (st : Storage) (req : DiskAllocationRequest) (r : LvmReservationRow)
    (t : list LvmReservationRow) (L : gset (string * string)) : Prop :=
  storage_inv st t L /\ r ∈ t /\ rv_assignment_id r = rq_assignment_id req /\ rv_state r <> "Ready".

Lemma reserved_remove st req r t L :
  reserved st req r t L -> reserved st req r t (L ∖ {[row_key r]}).
Proof.
  intros (Hinv & Hr & Hid & Hs). split_and!; try done. apply storage_inv_remove; [done|].
  intros q Hq Hk. destruct Hinv as ([_ _ Hkeys _] & _). by rewrite (NoDup_map_inj _ _ _ _ Hkeys Hq Hr Hk).
Qed.
Lemma reserved_add st req r t L :
  reserved st req r t L -> reserved st req r t ({[row_key r]} ∪ L).
Proof.
  intros (Hinv & Hr & Hid & Hs). split_and!; try done. apply storage_inv_add; [done|]. eauto.
Qed.

(** From the reservation on: the volume is made, or the row is left for a retry. *)
Lemma triple_create_lv st b vg req :
  let r := reservation_of b vg req in
  let a := {| al_path := lv_path vg (rv_lv_name r); al_actual_size_gib := rq_min_size_gib req |} in
  vg_for b (rq_device_id req) = Ok vg ->
  triple (on (reserved st req r))
    (run! acquire (pool_role b) ;
     do! stale <- lv_attr vg (rv_lv_name r) ;
     run! (match stale with Some _ => lvremove vg (rv_lv_name r) | None => se_ret tt end) ;
     run! run_cmd "lvcreate" (lvcreate_args vg (rv_lv_name r) (rq_min_size_gib req)) ;
     run! set_reservation_state (rq_assignment_id req) "Ready" ;
     se_ret a)
    (fun a => on (allocated st b req a)) (on (storage_inv st)).
Proof.
  intros r a Hvg. set (R := on (reserved st req r)).
  apply (triple_post _ _ (fun a => on (allocated st b req a)) _ R); [done|by intros s [? _]|].
  eapply (triple_bind _ _ _ (fun _ => R)); [apply triple_silent, silent_acquire|intros _].
  eapply (triple_bind _ _ _ (fun _ => R)); [apply triple_silent, silent_lv_attr|intros stale].
  eapply (triple_bind _ _ _ (fun _ => R)).
  { destruct stale; [|apply triple_silent, silent_ret].
    eapply triple_post, triple_lvremove; [by intros ? ? []|done|]. intros t L. apply reserved_remove. }
  intros _. eapply triple_bind.
  { apply (triple_lvcreate (reserved st req r) _ (row_key r)).
    - intros w w' o. apply lvcreate_spec.
    - intros t L. apply reserved_add. }
  intros out. apply (triple_bind _ _ _ (fun _ => on (allocated st b req a))); [|by intros _ s].
  apply triple_on_ledger.
  { intros t L [(Hinv & Hr & Hid & Hs) Hin]. split.
    - apply storage_inv_set_state; [done|]. intros _ q Hq Hqid.
      destruct Hinv as ([Hids _ _ _] & _). by rewrite (NoDup_map_inj _ _ _ _ Hids Hq Hr) by congruence.
    - exists vg. split; [done|]. cbn zeta. split_and!; [reflexivity|done|]. exists (with_rv_state "Ready" r). split_and!; try done.
      apply elem_of_update_where. exists r. split; [done|]. by rewrite <- Hid, String.eqb_refl. }
Qed.

Lemma vg_for_data st b dev vg : b ∈ st_pools st -> vg_for b dev = Ok vg -> vg ∈ data_vgs st.
Proof.
  intros Hb. unfold vg_for. destruct (select1 _ _) as [[d v]|] eqn:E; simpl; intros [= ->].
  apply select1_Some in E as [E _]. unfold data_vgs, backend_vgs.
  apply list_elem_of_In, in_concat. exists (map snd (be_device_vgs b)). split.
  - apply in_map_iff. exists b. split; [done|]. by apply list_elem_of_In.
  - apply in_map_iff. exists (d, vg). split; [done|]. by apply list_elem_of_In.
Qed.

(** The reservation is written under unique keys before any command runs. *)
Lemma triple_insert_reservation st req r I :
  rv_assignment_id r = rq_assignment_id req -> rv_state r <> "Ready" ->
  (forall t L, I t L -> if reservation_clash r t then storage_inv st t L else storage_inv st (t ++ [r]) L) ->
  triple (on I) (insert_reservation r) (fun _ => on (reserved st req r)) (on (storage_inv st)).
Proof.
  intros Hid Hst HI.
  apply (triple_bind _ _ _ (fun t => on (fun t' L => t' = t /\ I t' L))).
  { apply triple_gets. by intros s Hs. }
  intros t. destruct (reservation_clash _ _) eqn:Hcl.
  - intros s [Ht Hs]. specialize (HI _ _ Hs). by rewrite Ht, Hcl, <- Ht in HI.
  - apply triple_on_ledger. intros t' L [-> Hinv]. specialize (HI _ _ Hinv). rewrite Hcl in HI.
    split_and!; [done|apply elem_of_app; right; by apply list_elem_of_singleton|done..].
Qed.

Lemma reservation_row_ok st b vg req :
  b ∈ st_pools st -> vg_for b (rq_device_id req) = Ok vg ->
  rq_vm_id req <> "" -> is_u32 (rq_disk_index req) -> row_ok st (reservation_of b vg req).
Proof. intros. unfold row_ok. simpl. split_and!; [done..|]. by exists b. Qed.

(** [allocate] when its assignment has no row. *)
Lemma triple_reserve st b vg req :
  b ∈ st_pools st -> vg_for b (rq_device_id req) = Ok vg ->
  rq_vm_id req <> "" -> is_u32 (rq_disk_index req) ->
  triple (on (storage_inv st)) (create_lv b vg req)
    (fun a => on (allocated st b req a)) (on (storage_inv st)).
Proof.
  intros Hb Hvg Hvm Hi. unfold create_lv.
  apply (triple_bind _ _ _ (fun _ => on (reserved st req (reservation_of b vg req)))).
  - apply triple_insert_reservation; [done..|]. intros t L Hinv.
    destruct (reservation_clash _ _) eqn:Hcl; [done|].
    apply storage_inv_insert; try done. by apply reservation_row_ok.
  - intros _. by apply triple_create_lv.
Qed.

(** [allocate] when the unfinished row of an earlier attempt has just been
    dropped: the ledger is sound again once the row is back. *)
Definition gap (st : Storage) (b : LvmLinearBackend) (vg : string) (req : DiskAllocationRequest)
    (t : list LvmReservationRow) (L : gset (string * string)) : Prop :=
  reservation_clash (reservation_of b vg req) t = false /\
  storage_inv st (t ++ [reservation_of b vg req]) L.
Lemma triple_reserve_again st b vg req :
  vg_for b (rq_device_id req) = Ok vg ->
  triple (on (gap st b vg req)) (create_lv b vg req)
    (fun a => on (allocated st b req a)) (on (storage_inv st)).
Proof.
  intros Hvg. unfold create_lv.
  apply (triple_bind _ _ _ (fun _ => on (reserved st req (reservation_of b vg req)))).
  - apply triple_insert_reservation; [done..|]. intros t L [-> Hinv]. done.
  - intros _. by apply triple_create_lv.
Qed.
Lemma gap_no_conflict st b vg req t L :
  gap st b vg req t L ->
  existsb (fun q => (rv_vm_id q =$ rq_vm_id req) && (rv_disk_index q =? rq_disk_index req) &&
                    (rv_assignment_id q <>$ rq_assignment_id req)) t = false.
Proof.
  intros [Hcl _]. apply existsb_false. intros q Hq.
  destruct (clash_fresh _ _ Hcl q Hq) as (_ & Hd & _). unfold row_disk in Hd. simpl in Hd |- *.
  destruct (String.eqb_spec (rv_vm_id q) (rq_vm_id req)) as [E1|]; [|done].
  destruct (Z.eqb_spec (rv_disk_index q) (rq_disk_index req)) as [E2|]; [|done].
  destruct Hd. congruence.
Qed.

Lemma request_gap st b req t L r :
  storage_inv st t L -> request_ok b req t -> b ∈ st_pools st ->
  r ∈ t -> rv_assignment_id r = rq_assignment_id req ->
  exists vg, vg_for b (rq_device_id req) = Ok vg /\
    gap st b vg req (delete_where (fun q => rv_assignment_id q =$ rq_assignment_id req) t) L.
Proof.
  intros Hinv (Hvm & Hi & Hreq) Hb Hr Hid. destruct (Hreq r Hr Hid) as (Evm & Ei & Edev & Epool & Evg).
  exists (rv_vg r). rewrite <- Edev. split; [done|].
  assert (rv_lv_name r = lv_name (rv_vm_id r) (rv_disk_index r)) as Eln.
  { destruct Hinv as ([_ _ _ Hrows] & _). by destruct (Hrows r Hr) as (_ & _ & ? & _). }
  destruct (storage_inv_replace st t L r (reservation_of b (rv_vg r) req)) as [Hcl Hinv']; try done.
  - apply reservation_row_ok; try done. by rewrite <- Edev.
  - unfold row_key. simpl. by rewrite Eln, Evm, Ei.
  - unfold row_disk. simpl. by rewrite Evm, Ei.
  - rewrite Hid in *. by split.
Qed.

(** Reserving a data volume keeps the ledger and the volumes in step at
    every point where it can stop. Whatever command fails or is refused, every
    data volume in a managed group still has its row and every ready row its
    volume, so a retry or a release can find it; and when [allocate] returns,
    the returned path is that of an existing volume on the requested device
    with a ready row, also when it repeats an assignment. *)
Lemma triple_allocate st b req :
  b ∈ st_pools st ->
  triple (on (fun t L => storage_inv st t L /\ request_ok b req t)) (allocate b req)
    (fun a => on (allocated st b req a)) (on (storage_inv st)).
Proof.
  intros Hb. unfold allocate, lookup_assignment. cbn zeta.
  intros s [Hinv Hreq]. unfold se_bind at 1 2, se_ret at 1, reservations at 1, se_gets.
  fold (ledger s). destruct (select1 _ (ledger s)) as [r|] eqn:Hsel.
  - apply select1_Some in Hsel as [Hr Hid%String.eqb_eq].
    destruct (rv_state r =$ "Ready") eqn:Hst.
    + apply String.eqb_eq in Hst. simpl. split; [done|].
      destruct Hreq as (_ & _ & Hreq). destruct (Hreq r Hr Hid) as (Evm & Ei & Edev & _ & Evg).
      destruct Hinv as ([_ _ _ Hrows] & _ & Hback). destruct (Hrows r Hr) as (_ & _ & Eln & _).
      specialize (Hback r Hr Hst). unfold row_key in Hback. rewrite Eln, Evm, Ei in Hback.
      exists (rv_vg r). rewrite <- Edev. split; [done|]. simpl. rewrite Eln, Evm, Ei.
      split_and!; [done..|]. exists r. unfold row_key. by rewrite Eln, Evm, Ei.
    + destruct (request_gap st b req _ _ r Hinv Hreq Hb Hr Hid) as (vg & Hvg & Hgap).
      unfold se_bind at 1, drop_reservation, on_ledger, se_modify at 1.
      set (s1 := set_agent_db _ s). assert (on (gap st b vg req) s1) as Hs1 by done.
      unfold se_bind at 1, reservations, se_gets at 1. cbn beta iota.
      fold (ledger s1). rewrite (gap_no_conflict _ _ _ _ _ _ Hs1), Hvg.
      by apply triple_reserve_again.
  - destruct Hreq as (Hvm & Hi & _). unfold se_bind at 1, reservations, se_gets at 1.
    destruct (existsb _ _); [done|]. unfold se_bind at 1, se_of at 1.
    destruct (vg_for b (rq_device_id req)) as [vg|e] eqn:Hvg; [|done]. by apply triple_reserve.
Qed.

(** ** Releasing the volumes of a VM *)

(** Volumes of [L0] that are not data volumes of [vm] are still there. *)
Definition spared (vm : string) (L0 L : gset (string * string)) : Prop :=
  forall vg n, (vg, n) ∈ L0 -> (forall i, parse_data_disk_lv_name n <> Some (vm, i)) -> (vg, n) ∈ L.
(** Nothing of [vm] is left in the ledger or in a data group. *)
Definition gone (st : Storage) (vm : string) (t : list LvmReservationRow)
    (L : gset (string * string)) : Prop :=
  (forall r, r ∈ t -> rv_vm_id r <> vm) /\
  forall vg n i, vg ∈ data_vgs st -> (vg, n) ∈ L -> parse_data_disk_lv_name n <> Some (vm, i).

(** The rows of [vm] are on pools of [ps] only. *)
Definition confined (vm : string) (ps : list string) (t : list LvmReservationRow) : Prop :=
  forall r, r ∈ t -> rv_vm_id r = vm -> rv_pool r ∈ ps.

(** [q] is still what [t] says about its assignment, and marked. *)
Definition doomed (vm : string) (q : LvmReservationRow) (t : list LvmReservationRow) : Prop :=
  exists r, r ∈ t /\ rv_assignment_id r = rv_assignment_id q /\ row_key r = row_key q /\
    rv_vm_id r = vm /\ rv_state r = "Deleting".

(** The second loop: the rows left to remove, marked, are all that [vm] has in the pool. *)
Definition releasing (st : Storage) (vm pool : string) (ps : list string) (L0 : gset (string * string))
    (left : list LvmReservationRow) (t : list LvmReservationRow) (L : gset (string * string)) : Prop :=
  storage_inv st t L /\ spared vm L0 L /\ confined vm (pool :: ps) t /\
  NoDup (map rv_assignment_id left) /\
  (forall q, q ∈ left -> doomed vm q t) /\
  (forall r, r ∈ t -> rv_vm_id r = vm -> rv_pool r = pool ->
     rv_assignment_id r ∈ map rv_assignment_id left).

Lemma releasing_remove st vm pool ps L0 q left t L :
  releasing st vm pool ps L0 (q :: left) t L ->
  releasing st vm pool ps L0 (q :: left) t (L ∖ {[row_key q]}).
Proof.
  intros (Hinv & Hsp & Hcf & Hnd & Hd & Hall). destruct (Hd q) as (r & Hr & Eid & Ek & Evm & Est); [set_solver|].
  pose proof Hinv as ([_ _ Hkeys Hrows] & _). split_and!; try done.
  - apply storage_inv_remove; [done|]. intros r' Hr' Hk.
    rewrite (NoDup_map_inj _ _ _ _ Hkeys Hr' Hr) by congruence. by rewrite Est.
  - intros vg n Hin Hn. apply elem_of_difference. split; [by apply Hsp|].
    intros Heq%elem_of_singleton. destruct (Hrows r Hr) as (Hne & Hi & Eln & _).
    unfold row_key in *. apply (Hn (rv_disk_index r)).
    replace n with (rv_lv_name r) by congruence. rewrite Eln, Evm. apply lv_name_roundtrip; [congruence|done].
Qed.

Lemma releasing_drop st vm pool ps L0 q left t L :
  releasing st vm pool ps L0 (q :: left) t L -> row_key q ∉ L ->
  releasing st vm pool ps L0 left (delete_where (fun r => rv_assignment_id r =$ rv_assignment_id q) t) L.
Proof.
  intros (Hinv & Hsp & Hcf & Hnd & Hd & Hall) Hnot. simpl in Hnd. apply NoDup_cons in Hnd as [Hq Hnd].
  pose proof Hinv as ([Hids _ _ _] & _). split_and!; try done.
  - apply storage_inv_drop; [done|]. intros r' Hr' Hid.
    destruct (Hd q) as (r & Hr & Eid & Ek & _); [set_solver|].
    rewrite (NoDup_map_inj _ _ _ _ Hids Hr' Hr) by congruence. by rewrite Ek.
  - intros r [Hr _]%elem_of_delete_where. by apply Hcf.
  - intros p Hp. destruct (Hd p) as (r & Hr & Eid & ?); [set_solver|]. exists r. split_and!; try apply H0; try done.
    apply elem_of_delete_where. split; [done|]. apply String.eqb_neq. intros E. apply Hq.
    apply list_elem_of_In, in_map_iff. exists p. rewrite <- list_elem_of_In. split; [congruence|done].
  - intros r [Hr Hne%String.eqb_neq]%elem_of_delete_where Hvm Hpool.
    specialize (Hall r Hr Hvm Hpool). simpl in Hall. set_solver.
Qed.

(** The first loop: the rows are marked one after the other. *)
Definition tracks (vm : string) (q : LvmReservationRow) (t : list LvmReservationRow) : Prop :=
  exists r, r ∈ t /\ rv_assignment_id r = rv_assignment_id q /\ row_key r = row_key q /\ rv_vm_id r = vm.
Definition marking (st : Storage) (vm pool : string) (ps : list string) (L0 : gset (string * string))
    (rows left : list LvmReservationRow) (t : list LvmReservationRow) (L : gset (string * string)) : Prop :=
  storage_inv st t L /\ spared vm L0 L /\ confined vm (pool :: ps) t /\
  NoDup (map rv_assignment_id rows) /\
  (forall q, q ∈ rows -> tracks vm q t /\ (q ∈ left \/ doomed vm q t)) /\
  (forall r, r ∈ t -> rv_vm_id r = vm -> rv_pool r = pool ->
     rv_assignment_id r ∈ map rv_assignment_id rows).

Lemma mark_doomed vm q id t :
  tracks vm q t -> rv_assignment_id q = id \/ doomed vm q t ->
  doomed vm q (update_where (fun r => rv_assignment_id r =$ id) (with_rv_state "Deleting") t).
Proof.
  intros (r & Hr & Eid & Ek & Evm) [Hid|(r' & Hr' & Eid' & Ek' & Evm' & Est)].
  - exists (with_rv_state "Deleting" r). split_and!; try done. apply elem_of_update_where. exists r.
    split; [done|]. by rewrite Eid, Hid, String.eqb_refl.
  - exists (if rv_assignment_id r' =$ id then with_rv_state "Deleting" r' else r').
    split; [apply elem_of_update_where; by exists r'|]. by destruct (_ =$ _).
Qed.
Lemma mark_tracks vm q id state t :
  tracks vm q t -> tracks vm q (update_where (fun r => rv_assignment_id r =$ id) (with_rv_state state) t).
Proof.
  intros (r & Hr & Eid & Ek & Evm). exists (if rv_assignment_id r =$ id then with_rv_state state r else r).
  split; [apply elem_of_update_where; by exists r|]. by destruct (_ =$ _).
Qed.

Lemma marking_step st vm pool ps L0 rows q left t L :
  marking st vm pool ps L0 rows (q :: left) t L ->
  marking st vm pool ps L0 rows left
    (update_where (fun r => rv_assignment_id r =$ rv_assignment_id q) (with_rv_state "Deleting") t) L.
Proof.
  intros (Hinv & Hsp & Hcf & Hnd & Hd & Hall). split_and!; try done.
  - by apply storage_inv_set_state.
  - intros r (p & Hp & ->)%elem_of_update_where. destruct (_ =$ _); by apply (Hcf p).
  - intros p Hp. destruct (Hd p Hp) as [Ht Hor]. split; [by apply mark_tracks|].
    destruct Hor as [[->|Hl]%elem_of_cons|Hdoom].
    + right. apply mark_doomed; auto.
    + by left.
    + right. apply mark_doomed; auto.
  - intros r (p & Hp & ->)%elem_of_update_where. destruct (_ =$ _); by apply (Hall p).
Qed.

(** [release] of one pool. *)
Definition released (st : Storage) (vm : string) (ps : list string) (L0 : gset (string * string))
    (t : list LvmReservationRow) (L : gset (string * string)) : Prop :=
  storage_inv st t L /\ spared vm L0 L /\ confined vm ps t.

Lemma NoDup_select {A K} (k : A -> K) (p : A -> bool) t : NoDup (map k t) -> NoDup (map k (select p t)).
Proof.
  intros Ht. replace (select p t) with (delete_where (fun r => negb (p r)) t); [by apply NoDup_delete_where|].
  unfold select, delete_where. apply filter_ext. intros r. by rewrite negb_involutive.
Qed.

Lemma start_marking st vm pool ps L0 rows t L :
  (forall r, r ∈ rows <-> r ∈ t /\ rv_vm_id r = vm /\ rv_pool r = pool) ->
  NoDup (map rv_assignment_id rows) ->
  released st vm (pool :: ps) L0 t L -> marking st vm pool ps L0 rows rows t L.
Proof.
  intros Hrows Hnd (Hinv & Hsp & Hcf). split_and!; try done.
  - intros q Hq. split; [|by left]. apply Hrows in Hq as (Hq & Hvm & _). by exists q.
  - intros r Hr Hvm Hp. apply list_elem_of_In, in_map, list_elem_of_In. by apply Hrows.
Qed.

Lemma triple_mark st vm pool ps L0 rows :
  triple (on (marking st vm pool ps L0 rows rows))
    (se_for rows (fun r => set_reservation_state (rv_assignment_id r) "Deleting"))
    (fun _ => on (releasing st vm pool ps L0 rows)) (on (fun t L => storage_inv st t L /\ spared vm L0 L)).
Proof.
  eapply triple_post, (triple_for rows _ (fun left => on (marking st vm pool ps L0 rows left))).
  - intros _ s (Hinv & Hsp & Hcf & Hnd & Hd & Hall). split_and!; try done.
    intros q Hq. by destruct (Hd q Hq) as [_ [Hn%elem_of_nil|Hn]].
  - intros s Hs. exact Hs.
  - intros q left. apply triple_on_ledger. intros t' L. apply marking_step.
Qed.

Lemma triple_remove_rows st vm pool ps L0 rows :
  triple (on (releasing st vm pool ps L0 rows))
    (se_for rows (fun r => run! lvremove (rv_vg r) (rv_lv_name r) ; drop_reservation (rv_assignment_id r)))
    (fun _ => on (released st vm ps L0)) (on (fun t L => storage_inv st t L /\ spared vm L0 L)).
Proof.
  eapply triple_post, (triple_for rows _ (fun left => on (releasing st vm pool ps L0 left))).
  - intros _ s (Hinv & Hsp & Hcf & _ & _ & Hall). split_and!; try done.
    intros r Hr Hvm. pose proof (Hcf r Hr Hvm) as [E|E]%elem_of_cons; [|done].
    by apply Hall, elem_of_nil in Hr.
  - intros s Hs. exact Hs.
  - intros q left.
    apply (triple_bind _ _ _ (fun _ => on (fun t L => releasing st vm pool ps L0 (q :: left) t L /\
                                           row_key q ∉ L))).
    + eapply triple_post, (triple_lvremove (releasing st vm pool ps L0 (q :: left))).
      * intros a s Hs. exact Hs.
      * intros s (Hinv & Hsp & _). by split.
      * intros t L. apply releasing_remove.
    + intros _. apply triple_on_ledger. intros t L [Hrel Hnot]. by apply releasing_drop.
Qed.

Lemma triple_release st vm b ps L0 :
  triple (on (released st vm (ps_name (be_spec b) :: ps) L0)) (release b vm)
    (fun _ => on (released st vm ps L0))
    (on (fun t L => storage_inv st t L /\ spared vm L0 L)).
Proof.
  set (pool := ps_name (be_spec b)).
  apply (triple_bind _ _ _ (fun t => on (fun t' L => t' = t /\ released st vm (pool :: ps) L0 t' L))).
  { apply triple_gets. by intros s Hs. }
  intros t. set (rows := select _ t).
  assert (forall r, r ∈ rows <-> r ∈ t /\ rv_vm_id r = vm /\ rv_pool r = pool) as Hrows.
  { intros r. unfold rows. rewrite elem_of_select, andb_true_iff, !String.eqb_eq. tauto. }
  apply (triple_pre _ (on (marking st vm pool ps L0 rows rows))).
  { intros s [Ht Hrel]. unfold on in *. rewrite Ht in *. apply start_marking; [done| |done].
    destruct Hrel as (([Hids _ _ _] & _) & _). by apply NoDup_select. }
  assert (triple (on (marking st vm pool ps L0 rows rows))
    (run! se_for rows (fun r => set_reservation_state (rv_assignment_id r) "Deleting") ;
     run! acquire (pool_role b) ;
     se_for rows (fun r => run! lvremove (rv_vg r) (rv_lv_name r) ; drop_reservation (rv_assignment_id r)))
    (fun _ => on (released st vm ps L0)) (on (fun t L => storage_inv st t L /\ spared vm L0 L))) as Hrun.
  { apply (triple_bind _ _ _ (fun _ => on (releasing st vm pool ps L0 rows))); [apply triple_mark|]. intros _.
    apply (triple_bind _ _ _ (fun _ => on (releasing st vm pool ps L0 rows))); [|intros _; apply triple_remove_rows].
    eapply triple_post, triple_silent, silent_acquire; [done|]. by intros s (? & ? & _). }
  destruct rows as [|q rows'] eqn:Er; [|done].
  intros s (Hinv & Hsp & Hcf & _ & _ & Hall). split_and!; try done.
  intros r Hr Hvm. pose proof (Hcf r Hr Hvm) as [E|E]%elem_of_cons; [|done].
  by apply Hall, elem_of_nil in Hr.
Qed.

(** Releasing the data disks of a VM. Whichever command fails, the ledger
    still knows every data volume that is left, and no volume of anything but
    this VM's data disks is removed. When the release succeeds, nothing of the
    VM is left: no row in the ledger, and no volume in any data group whose
    name reads as one of the VM's disks. *)
Lemma triple_release_vm_disks st vm L0 :
  triple (on (fun t L => storage_inv st t L /\ spared vm L0 L)) (release_vm_disks st vm)
    (fun _ => on (fun t L => storage_inv st t L /\ spared vm L0 L /\ gone st vm t L))
    (on (fun t L => storage_inv st t L /\ spared vm L0 L)).
Proof.
  set (names := map (fun b => ps_name (be_spec b))).
  apply (triple_pre _ (on (released st vm (names (st_pools st)) L0))).
  { intros s [Hinv Hsp]. pose proof Hinv as ([_ _ _ Hrows] & _). split_and!; [done..|].
    intros r Hr _. destruct (Hrows r Hr) as (_ & _ & _ & b & Hb & <- & _).
    apply list_elem_of_In, (in_map (fun b => ps_name (be_spec b))), list_elem_of_In, Hb. }
  eapply triple_post, (triple_for _ _ (fun left => on (released st vm (names left) L0))).
  - intros _ s (Hinv & Hsp & Hcf). split_and!; [done..|]. split.
    + intros r Hr Hvm. by apply Hcf, elem_of_nil in Hr.
    + intros vg n i Hvg Hin Hp. pose proof Hinv as ([_ _ _ Hrows] & Hc & _).
      destruct (Hc vg n Hin Hvg) as (r & Hr & Hk); [by rewrite Hp|].
      destruct (Hrows r Hr) as (Hne & Hi & Eln & _). injection Hk as _ <-.
      rewrite Eln, lv_name_roundtrip in Hp by done. injection Hp as Evm _.
      by apply Hcf, elem_of_nil in Hr.
  - intros s Hs. exact Hs.
  - intros b left. apply triple_release.
Qed.

(** ** Rootfs volumes *)

Lemma storage_inv_remove_rootfs st t L vg n :
  parse_data_disk_lv_name n = None -> storage_inv st t L -> storage_inv st t (L ∖ {[(vg, n)]}).
Proof.
  intros Hn Hinv. apply storage_inv_remove; [done|]. intros r Hr [= _ Hk].
  destruct Hinv as ([_ _ _ Hrows] & _). destruct (Hrows r Hr) as (Hne & Hi & Eln & _).
  by rewrite <- Hk, Eln, lv_name_roundtrip in Hn by done.
Qed.
Lemma storage_inv_add_rootfs st t L vg n :
  parse_data_disk_lv_name n = None -> storage_inv st t L -> storage_inv st t ({[(vg, n)]} ∪ L).
Proof. intros Hn Hinv. apply storage_inv_add; [done|]. simpl. rewrite Hn. by intros _ []. Qed.

Lemma triple_lv_attr I vg lv :
  triple (on I) (lv_attr vg lv) (fun a => on (fun t L => I t L /\ (is_Some a <-> (vg, lv) ∈ L))) (on I).
Proof.
  intros s Hs. pose proof (silent_lv_attr vg lv s) as [Hl Hv].
  assert (forall a s', lv_attr vg lv s = (s', Ok a) -> is_Some a <-> (vg, lv) ∈ volumes s) as Hspec.
  { intros a s'. unfold lv_attr, run_cmd, output, world, se_bind, volumes.
    destruct (run _ _ (at_world s)) as [w [out|]] eqn:Hr; [simpl|done].
    destruct (out_ok out) eqn:Hok; [simpl|done]. intros [= _ <-].
    rewrite <- (lvs_attr_spec _ _ _ _ _ Hr Hok).
    destruct (String.eqb_spec (trim (out_stdout out)) ""); by split. }
  destruct (lv_attr vg lv s) as [s' [a|e]] eqn:E; simpl in *; unfold on in *; rewrite Hl, Hv; [|done].
  split; [done|]. by apply (Hspec a s').
Qed.

Lemma triple_lv_names I vg :
  triple (on I) (lv_names vg)
    (fun ns => on (fun t L => I t L /\ forall n, n <> "" -> n ∈ ns <-> (vg, n) ∈ L)) (on I).
Proof.
  intros s Hs. unfold lv_names.
  pose proof (silent_run_cmd "lvs" (lvs_names_args vg) ltac:(done) ltac:(done) s) as [Hl Hv].
  pose proof (run_cmd_cases "lvs" (lvs_names_args vg) s) as Hc.
  unfold lvs_names_args in *. unfold se_bind at 1.
  destruct (run_cmd _ _ s) as [s' [a|e]] eqn:E; simpl in *; unfold on in *; rewrite Hl, Hv; [|done].
  split; [done|]. revert E. unfold run_cmd, output, world, se_bind, volumes.
  destruct (run _ _ (at_world s)) as [w [out|]] eqn:Hr; [simpl|done].
  destruct (out_ok out) eqn:Hok; [simpl|done]. intros [= _ <-]. by apply (lvs_names_spec _ _ _ _ Hr).
Qed.

(** [remove_vm_rootfs]: the snapshot is gone when it returns. *)
Lemma triple_remove_vm_rootfs I st vm :
  let x := (rs_vg (st_rootfs st), VM_LV_PREFIX +:+ vm) in
  (forall t L, I t L -> I t (L ∖ {[x]})) ->
  triple (on I) (remove_vm_rootfs st vm) (fun _ => on (fun t L => I t L /\ x ∉ L)) (on I).
Proof.
  intros x HI. eapply triple_bind; [apply triple_lv_attr|]. intros [attr|].
  - apply (triple_pre _ (on I)); [by intros s [? _]|].
    apply (triple_bind _ _ _ (fun _ => on I)); [apply triple_silent, silent_acquire|]. intros _.
    by apply triple_lvremove.
  - intros s [Hs Ha]. split; [done|]. intros Hx. apply Ha in Hx. by destruct Hx.
Qed.

(** [create_vm_rootfs]: the snapshot exists when it returns. *)
Lemma triple_create_vm_rootfs I st vm image gib :
  let x := (rs_vg (st_rootfs st), VM_LV_PREFIX +:+ vm) in
  (forall t L, I t L -> I t (L ∖ {[x]})) -> (forall t L, I t L -> I t ({[x]} ∪ L)) ->
  triple (on I) (create_vm_rootfs st vm image gib)
    (fun p => on (fun t L => I t L /\ x ∈ L /\ p = vm_lv_path st vm)) (on I).
Proof.
  intros x Hrem Hadd.
  apply (triple_bind _ _ _ (fun _ => on I)); [apply triple_silent, silent_acquire|]. intros _.
  apply (triple_bind _ _ _ (fun _ => on I)); [apply triple_silent, silent_lv_attr|]. intros stale.
  apply (triple_bind _ _ _ (fun _ => on I)).
  { destruct stale; [|apply triple_silent, silent_ret].
    eapply triple_post, triple_lvremove; [by intros ? ? []|done|done]. }
  intros _. apply (triple_bind _ _ _ (fun _ => on (fun t L => I t L /\ x ∈ L))).
  { apply triple_lvcreate; [|done]. intros w w' o. apply snapshot_spec. }
  intros _. apply (triple_bind _ _ _ (fun _ => on (fun t L => I t L /\ x ∈ L))).
  { eapply triple_post, triple_silent; [done|by intros s []|]. unfold lvextend.
    apply silent_bind; [apply silent_try; by apply silent_run_cmd|].
    intros [a|[]]; try apply silent_fail; [apply silent_ret|]. destruct (orb _ _); [apply silent_ret|apply silent_fail]. }
  intros _ s [Hs Hx]. by split_and!.
Qed.

(** [ensure_image_lv] only touches the image's volume. *)
Lemma triple_ensure_image_lv I st image src gib :
  let x := (rs_vg (st_rootfs st), IMAGE_LV_PREFIX +:+ image) in
  (forall t L, I t L -> I t (L ∖ {[x]})) -> (forall t L, I t L -> I t ({[x]} ∪ L)) ->
  triple (on I) (ensure_image_lv st image src gib) (fun p => on (fun t L => I t L /\ x ∈ L)) (on I).
Proof.
  intros x Hrem Hadd. set (R := fun t L => I t L /\ x ∈ L).
  assert (forall a s, on (fun t L => I t L /\ (is_Some a <-> x ∈ L)) s ->
            from_option attr_is_readonly false a = true -> on R s) as Hdone.
  { intros a s [Hs Ha] Hro. split; [done|]. apply Ha. by destruct a. }
  unfold ensure_image_lv. eapply triple_bind; [apply triple_lv_attr|]. intros a1.
  destruct (from_option attr_is_readonly false a1) eqn:E1.
  { intros s Hs. by apply (Hdone a1). }
  apply (triple_bind _ _ _ (fun _ => on I)).
  { apply (triple_pre _ (on I)); [by intros s []|]. apply triple_silent, silent_acquire. }
  intros _. eapply triple_bind; [apply triple_lv_attr|]. intros a2.
  destruct (from_option attr_is_readonly false a2) eqn:E2.
  { intros s Hs. by apply (Hdone a2). }
  apply (triple_bind _ _ _ (fun _ => on I)).
  { apply (triple_pre _ (on I)); [by intros s []|]. destruct a2; [|apply triple_silent, silent_ret].
    eapply triple_post, triple_lvremove; [by intros ? ? []|done|done]. }
  intros _. apply (triple_bind _ _ _ (fun _ => on R)).
  { apply triple_lvcreate; [|done]. intros w w' o. apply thin_spec. }
  intros _. apply (triple_bind _ _ _ (fun _ => on R)).
  { apply (triple_post _ _ (fun _ => on R) _ (on R)); [done|by intros s []|].
    apply triple_silent, silent_world. intros w. by apply lv_frame. }
  intros [o|]; [|by intros s []]. destruct (out_ok o); simpl.
  - apply (triple_bind _ _ _ (fun _ => on R)); [|by intros _ s].
    apply (triple_post _ _ (fun _ => on R) _ (on R)); [done|by intros s []|].
    apply triple_silent. by apply silent_run_cmd.
  - apply (triple_pre _ (on I)); [by intros s []|].
    apply (triple_bind _ _ _ (fun _ => on I)); [|by intros _ s].
    apply (triple_try _ _ _ (on I)); [|done].
    eapply triple_post, triple_lvremove; [by intros ? ? []|done|done].
Qed.
End ledger.
#[export] Hint Resolve silent_bind silent_ret silent_fail silent_of silent_gets silent_try silent_acquire
  silent_lv_attr : silent.
