(* ===== verification/Nvlink.v ===== *)
(** * NVLink groups of a host (crates/basis-agent/src/gpu.rs)

    The parsers of [nvidia-smi] output and the union-find with path halving
    that turns NVLink edges into the groups the scheduler places by. A device
    index is a [nat] (a [u32] that indexes a vector in the code). *)

From Stdlib Require Import Ascii Relations.
From stdpp Require Import relations.
From S2P Require Import Prelude Ipv4 Text.

(** ** Parsing *)

Definition lower_char (c : ascii) : ascii :=
  let k := N_of_ascii c in if ((65 <=? k) && (k <=? 90))%N then ascii_of_N (k + 32) else c.
(** [str::to_lowercase] on ASCII. *)
Fixpoint to_lowercase (s : string) : string :=
  match s with
  | EmptyString => EmptyString
  | String c s' => String (lower_char c) (to_lowercase s')
  end.

(** [parse_index_to_pci]: later lines win, as in [HashMap::insert]. *)
Definition index_line (line : string) : option (nat * string) :=
  match map trim (split_char ","%char line) with
  | i :: pci :: _ => idx ← parse_u32 i; Some (Z.to_nat idx, to_lowercase pci)
  | _ => None
  end.
Definition parse_index_to_pci (csv : string) : gmap nat string :=
  fold_left (fun m line => match index_line line with
                           | Some (i, pci) => <[i := pci]> m
                           | None => m
                           end) (lines csv) ∅.

Fixpoint all_chars (p : ascii -> bool) (s : string) : bool :=
  match s with EmptyString => true | String c s' => p c && all_chars p s' end.
Definition is_ascii_digit (c : ascii) : bool := bool_decide (is_Some (digit c)).
(** A cell of the matrix that is an NVLink: NV and digits. *)
Definition is_nvlink (cell : string) : bool :=
  match strip_prefix "NV" cell with Some s => all_chars is_ascii_digit s | None => false end.

(** [str::split_once] at white space. *)
Fixpoint split_once_space (s : string) : option (string * string) :=
  match s with
  | EmptyString => None
  | String c s' =>
      if is_space c then Some (EmptyString, s')
      else '(l, r) ← split_once_space s'; Some (String c l, r)
  end.

(** The edges of one row, each once. *)
Definition row_edges (n_gpus : nat) (line : string) : list (nat * nat) :=
  match
    rest ← strip_prefix "GPU" (trim_start line);
    '(idx_str, row) ← split_once_space rest;
    row_idx ← parse_u32 idx_str;
    Some (Z.to_nat row_idx, row)
  with
  | None => []
  | Some (row_idx, row) =>
      if (n_gpus <=? row_idx)%nat then []
      else omap (fun '(col_idx, cell) =>
                   if (col_idx <=? row_idx)%nat then None
                   else if is_nvlink cell then Some (row_idx, col_idx) else None)
                (imap pair (take n_gpus (split_whitespace row)))
  end.
(** [parse_nvlink_edges]. *)
Definition parse_nvlink_edges (matrix : string) (n_gpus : nat) : list (nat * nat) :=
  concat (map (row_edges n_gpus) (lines matrix)).

(** ** Union-find *)

(** [find]: path halving; [None] is an index out of bounds or fuel used up. *)
Fixpoint find (fuel : nat) (parent : list nat) (x : nat) : option (list nat * nat) :=
  match fuel with
  | O => None
  | S fuel' =>
      y ← parent !! x;
      if (y =? x)%nat then Some (parent, x)
      else z ← parent !! y;
           find fuel' (<[x := z]> parent) z
  end.

(** The loop over the edges. *)
Fixpoint unite (parent : list nat) (edges : list (nat * nat)) : option (list nat) :=
  match edges with
  | [] => Some parent
  | (a, b) :: edges' =>
      '(parent, ra) ← find (length parent) parent a;
      '(parent, rb) ← find (length parent) parent b;
      unite (if (ra =? rb)%nat then parent else <[ra := rb]> parent) edges'
  end.

Definition has_edge (edges : list (nat * nat)) (i : nat) : bool :=
  existsb (fun '(a, b) => (a =? i)%nat || (b =? i)%nat) edges.

(** The loop that numbers the roots in the order of the devices. *)
Record Numbering := {
  nb_parent : list nat;
  nb_root_to_id : gmap nat nat;
  nb_next_id : nat;
  nb_result : gmap string nat;
}.
Definition number_one (index_to_pci : gmap nat string) (edges : list (nat * nat)) (i : nat)
    (s : Numbering) : option Numbering :=
  match index_to_pci !! i with
  | None => Some s
  | Some pci =>
      if negb (has_edge edges i) then Some s
      else
        '(parent, root) ← find (length (nb_parent s)) (nb_parent s) i;
        let '(ids, id, next) :=
          match nb_root_to_id s !! root with
          | Some id => (nb_root_to_id s, id, nb_next_id s)
          | None => (<[root := nb_next_id s]> (nb_root_to_id s), nb_next_id s, S (nb_next_id s))
          end in
        Some {| nb_parent := parent; nb_root_to_id := ids; nb_next_id := next;
                nb_result := <[pci := id]> (nb_result s) |}
  end.
Fixpoint number_from (index_to_pci : gmap nat string) (edges : list (nat * nat)) (todo : list nat)
    (s : Numbering) : option Numbering :=
  match todo with
  | [] => Some s
  | i :: todo' => s ← number_one index_to_pci edges i s; number_from index_to_pci edges todo' s
  end.

(** [assign_nvlink_groups]; [None] is a panic. *)
Definition assign_nvlink_groups (index_to_pci : gmap nat string) (edges : list (nat * nat))
    : option (gmap string nat) :=
  let n := size index_to_pci in
  parent ← unite (seq 0 n) edges;
  nb_result <$> number_from index_to_pci edges (seq 0 n)
    {| nb_parent := parent; nb_root_to_id := ∅; nb_next_id := 1; nb_result := ∅ |}.

(** ** Paths to a root *)

Inductive path (p : list nat) : nat -> nat -> nat -> Prop :=
  | path_root x : p !! x = Some x -> path p x 0 x
  | path_step x y k r : p !! x = Some y -> y <> x -> path p y k r -> path p x (S k) r.

Lemma path_det p x k r k' r' : path p x k r -> path p x k' r' -> k = k' /\ r = r'.
Proof.
  intros H. revert k' r'. induction H as [x Hx|x y k r Hx Hne Hp IH]; intros k' r' H'.
  - by inversion H'; simplify_eq.
  - inversion H' as [|? y' k'' ? Hx' Hne' Hp']; simplify_eq. by destruct (IH _ _ Hp') as [-> ->].
Qed.
Lemma path_end p x k r : path p x k r -> p !! r = Some r.
Proof. by induction 1. Qed.
Lemma path_dom p x k r : path p x k r -> (x < length p)%nat.
Proof. intros []; by eapply lookup_lt_Some. Qed.

(** A path visits pairwise different indices, so it is shorter than the list. *)
Lemma path_nodes p x k r :
  path p x k r ->
  exists l, length l = S k /\ NoDup l /\
    forall y, y ∈ l -> (y < length p)%nat /\ exists k' r', (k' <= k)%nat /\ path p y k' r'.
Proof.
  induction 1 as [x Hx|x y k r Hx Hne Hp (l & Hlen & Hnd & Hl)].
  - exists [x]. split_and!; [done|apply NoDup_singleton|]. intros y ->%list_elem_of_singleton.
    split; [by eapply lookup_lt_Some|]. exists 0%nat, x. split; [lia|by constructor].
  - assert (path p x (S k) r) as Hx' by (by econstructor).
    exists (x :: l). split_and!; [simpl; lia| |].
    + apply NoDup_cons. split; [|done]. intros Hin. destruct (Hl _ Hin) as (_ & k' & r' & Hk & Hp').
      destruct (path_det _ _ _ _ _ _ Hx' Hp') as [<- _]. lia.
    + intros z [->|Hz]%elem_of_cons.
      * split; [by eapply path_dom|]. by exists (S k), r.
      * destruct (Hl z Hz) as (? & k' & r' & ? & ?). split; [done|]. exists k', r'. split; [lia|done].
Qed.
Lemma path_short p x k r : path p x k r -> (k < length p)%nat.
Proof.
  intros (l & Hlen & Hnd & Hl)%path_nodes.
  assert (length l <= length (seq 0 (length p)))%nat as Hle.
  { apply submseteq_length, NoDup_submseteq; [done|]. intros y Hy. apply elem_of_seq.
    destruct (Hl y Hy) as [? _]. lia. }
  rewrite length_seq in Hle. lia.
Qed.

(** Halving keeps every root and lengthens no path. *)
Lemma path_halve p x y z :
  p !! x = Some y -> p !! y = Some z -> y <> x ->
  forall k w r, path p w k r -> exists k', (k' <= k)%nat /\ path (<[x := z]> p) w k' r.
Proof.
  intros Hx Hy Hne k. induction k as [k IH] using lt_wf_ind. intros w r Hp.
  inversion Hp as [? Hw|? v k0 ? Hw Hvw Hv]; subst.
  - exists 0%nat. split; [done|]. constructor. rewrite list_lookup_insert_ne; [done|]. intros ->. congruence.
  - destruct (decide (w = x)) as [->|Hwx].
    + rewrite Hx in Hw. simplify_eq. inversion Hv as [? Hyy|? z' k1 ? Hyz Hzy Hz]; subst.
      * rewrite Hy in Hyy. simplify_eq. exists 1%nat. split; [lia|].
        econstructor; [apply list_lookup_insert_eq; by eapply lookup_lt_Some|done|].
        constructor. by rewrite list_lookup_insert_ne.
      * rewrite Hy in Hyz. simplify_eq. destruct (IH k1 ltac:(lia) _ _ Hz) as (k' & Hk' & Hp').
        exists (S k'). split; [lia|]. econstructor; [apply list_lookup_insert_eq; by eapply lookup_lt_Some| |done].
        intros ->. destruct (path_det _ _ _ _ _ _ Hp Hz) as [? _]. lia.
    + destruct (IH k0 ltac:(lia) _ _ Hv) as (k' & Hk' & Hp'). exists (S k'). split; [lia|].
      econstructor; [|done..]. by rewrite list_lookup_insert_ne.
Qed.

(** [find] returns the root, with every other root unchanged. *)
Lemma find_spec fuel : forall p x k r,
  path p x k r -> (k < fuel)%nat ->
  exists p', find fuel p x = Some (p', r) /\ length p' = length p /\
    forall w k r, path p w k r -> exists k', path p' w k' r.
Proof.
  induction fuel as [|fuel IH]; intros p x k r Hp Hk; [lia|]. simpl.
  inversion Hp as [? Hx|? y k0 ? Hx Hne Hy]; subst; rewrite Hx; simpl.
  - rewrite Nat.eqb_refl. exists p. split_and!; [done..|]. eauto.
  - rewrite (proj2 (Nat.eqb_neq y x)) by done.
    assert (exists z, p !! y = Some z) as [z Hz] by (inversion Hy; eauto). rewrite Hz. simpl.
    pose proof (path_halve p x y z Hx Hz Hne) as Hh.
    assert (exists k1, (k1 <= k0)%nat /\ path p z k1 r) as (k1 & Hk1 & Hpz).
    { inversion Hy as [? Hyy|? z' k1 ? Hyz ? Hz']; simplify_eq.
      - by exists 0%nat.
      - exists k1. split; [lia|done]. }
    destruct (Hh k1 z r Hpz) as (k2 & Hk2 & Hpz').
    destruct (IH (<[x:=z]> p) z k2 r Hpz' ltac:(lia)) as (p' & Hf & Hlen & Hroots).
    exists p'. split_and!; [done|by rewrite Hlen, length_insert|].
    intros w k' r' Hw. destruct (Hh _ _ _ Hw) as (k3 & _ & Hw'). eauto.
Qed.

(** Linking a root under another. *)
Lemma path_link p ra rb w k r :
  p !! ra = Some ra -> p !! rb = Some rb -> ra <> rb -> path p w k r ->
  exists k', path (<[ra := rb]> p) w k' (if decide (r = ra) then rb else r).
Proof.
  intros Ha Hb Hne. induction 1 as [x Hx|x y k r Hx Hxy Hp [k' IH]].
  - destruct (decide (x = ra)) as [->|Hn].
    + exists 1%nat. econstructor; [apply list_lookup_insert_eq; by eapply lookup_lt_Some|done|].
      constructor. by rewrite list_lookup_insert_ne.
    + exists 0%nat. constructor. by rewrite list_lookup_insert_ne.
  - exists (S k'). econstructor; [|done..]. rewrite list_lookup_insert_ne; [done|]. intros ->. congruence.
Qed.

(** ** The forest is the equivalence closure of the edges *)

Definition edge (E : list (nat * nat)) (x y : nat) : Prop := (x, y) ∈ E.
Definition linked (E : list (nat * nat)) : nat -> nat -> Prop := rtsc (edge E).

Lemma linked_sym E x y : linked E x y -> linked E y x.
Proof. apply rtsc_equivalence. Qed.
Lemma linked_trans E x y z : linked E x y -> linked E y z -> linked E x z.
Proof. apply rtsc_equivalence. Qed.
Lemma linked_edge E a b : (a, b) ∈ E -> linked E a b.
Proof. intros H. apply rtc_once. by left. Qed.
Lemma linked_mono E E' x y : (forall e, e ∈ E -> e ∈ E') -> linked E x y -> linked E' x y.
Proof.
  intros HE. apply rtc_subrel. intros u v [H|H]; [left|right]; by apply HE.
Qed.

Lemma linked_add E a b x y :
  linked (E ++ [(a, b)]) x y <->
  linked E x y \/ (linked E x a /\ linked E b y) \/ (linked E x b /\ linked E a y).
Proof.
  assert (forall e, e ∈ E -> e ∈ E ++ [(a, b)]) as Hin by (intros e ?; apply elem_of_app; by left).
  assert (linked (E ++ [(a, b)]) a b) as Hab by (apply linked_edge, elem_of_app; right; by left).
  split.
  - induction 1 as [x|x y z Hxy Hyz IH]; [left; apply rtc_refl|].
    assert (linked E x y \/ (x = a /\ y = b) \/ (x = b /\ y = a)) as Hstep.
    { destruct Hxy as [H|H]; unfold edge in H; apply elem_of_app in H as [H|H%list_elem_of_singleton];
        simplify_eq; auto; left; [|apply linked_sym]; by apply linked_edge. }
    destruct Hstep as [H|[[-> ->]|[-> ->]]].
    + destruct IH as [IH|[[IH1 IH2]|[IH1 IH2]]]; [left|right; left|right; right]; try split; try done;
        by eapply linked_trans.
    + destruct IH as [IH|[[IH1 IH2]|[IH1 IH2]]].
      * right; left. split; [apply rtc_refl|done].
      * right; left. split; [apply rtc_refl|done].
      * by left.
    + destruct IH as [IH|[[IH1 IH2]|[IH1 IH2]]].
      * right; right. split; [apply rtc_refl|done].
      * by left.
      * right; right. split; [apply rtc_refl|done].
  - intros [H|[[H1 H2]|[H1 H2]]].
    + by eapply linked_mono.
    + eapply linked_trans; [by eapply linked_mono|]. eapply linked_trans; [done|]. by eapply linked_mono.
    + eapply linked_trans; [by eapply linked_mono|]. eapply linked_trans; [by apply linked_sym|].
      by eapply linked_mono.
Qed.

Definition root (p : list nat) (x r : nat) : Prop := exists k, path p x k r.

Lemma root_det p x r r' : root p x r -> root p x r' -> r = r'.
Proof. intros [k H] [k' H']. by destruct (path_det _ _ _ _ _ _ H H'). Qed.

Record forest (p : list nat) (n : nat) (E : list (nat * nat)) : Prop := {
  fo_length : length p = n;
  fo_total x : (x < n)%nat -> exists r, root p x r;
  fo_linked x y r s : root p x r -> root p y s -> r = s <-> linked E x y;
}.

Lemma forest_seq n : forest (seq 0 n) n [].
Proof.
  assert (forall x r, root (seq 0 n) x r -> r = x) as Hr.
  { intros x r [k Hp]. inversion Hp as [|? y ? ? Hx Hne]; [done|]. subst.
    apply lookup_seq in Hx as [-> _]. simpl in *. lia. }
  split.
  - apply length_seq.
  - intros x Hx. exists x, 0%nat. constructor. by apply lookup_seq.
  - intros x y r s ->%Hr ->%Hr. split; [intros ->; apply rtc_refl|].
    induction 1 as [|x y z [H|H] _ IH]; [done|..]; by apply elem_of_nil in H.
Qed.

Lemma forest_find p n E x :
  forest p n E -> (x < n)%nat ->
  exists p' r, find (length p) p x = Some (p', r) /\ forest p' n E /\ root p' x r /\
    forall w s, root p w s <-> root p' w s.
Proof.
  intros [Hlen Htot Hl] Hx. destruct (Htot x Hx) as (r & k & Hp).
  destruct (find_spec (length p) p x k r Hp (path_short _ _ _ _ Hp)) as (p' & Hf & Hlen' & Hroots).
  assert (forall w s, root p w s -> root p' w s) as Hto.
  { intros w s [k' Hw]. apply Hroots in Hw as [k'' Hw]. by exists k''. }
  assert (forall w s, root p' w s -> root p w s) as Hfrom.
  { intros w s' Hw. pose proof Hw as [k' Hw']. apply path_dom in Hw'. rewrite Hlen', Hlen in Hw'.
    destruct (Htot w Hw') as [s'' Hs'']. by rewrite (root_det _ _ _ _ Hw (Hto _ _ Hs'')). }
  exists p', r. split_and!; [done| |apply Hto; by exists k|split; auto]. split; [congruence| |].
  - intros w Hw. destruct (Htot w Hw) as [s Hs]. eauto.
  - intros u v s t Hu Hv. apply Hl; by apply Hfrom.
Qed.

Lemma forest_union p n E a b ra rb :
  forest p n E -> root p a ra -> root p b rb ->
  forest (if (ra =? rb)%nat then p else <[ra := rb]> p) n (E ++ [(a, b)]).
Proof.
  intros [Hlen Htot Hl] Ha Hb. destruct (Nat.eqb_spec ra rb) as [->|Hne].
  - assert (linked E a b) as Hab by (by apply (Hl a b rb rb)).
    split; [done..|]. intros x y r s Hx Hy. rewrite (Hl x y r s Hx Hy), linked_add. split; [auto|].
    intros [H|[[H1 H2]|[H1 H2]]]; [done| |].
    + by eapply linked_trans, linked_trans.
    + eapply linked_trans; [done|]. eapply linked_trans; [|done]. by apply linked_sym.
  - assert (p !! ra = Some ra) as Hra by (destruct Ha as [k Ha]; by eapply path_end).
    assert (p !! rb = Some rb) as Hrb by (destruct Hb as [k Hb]; by eapply path_end).
    assert (forall w r, root p w r -> root (<[ra:=rb]> p) w (if decide (r = ra) then rb else r)) as Hto.
    { intros w r [k Hw]. by destruct (path_link p ra rb w k r Hra Hrb Hne Hw) as [k' ?]; exists k'. }
    split; [by rewrite length_insert| |].
    + intros x Hx. destruct (Htot x Hx) as [r Hr]. eauto.
    + intros x y r s Hx Hy.
      assert (forall w s, root (<[ra:=rb]> p) w s ->
                exists s0, root p w s0 /\ s = if decide (s0 = ra) then rb else s0) as Hfrom.
      { intros w s' Hw. pose proof Hw as [k' Hw']. apply path_dom in Hw'. rewrite length_insert, Hlen in Hw'.
        destruct (Htot w Hw') as [s0 Hs0]. exists s0. split; [done|]. by eapply root_det, Hto. }
      apply Hfrom in Hx as (r0 & Hx & ->). apply Hfrom in Hy as (s0 & Hy & ->). rewrite linked_add.
      rewrite <- (Hl x y r0 s0 Hx Hy), <- (Hl x a r0 ra Hx Ha), <- (Hl b y rb s0 Hb Hy),
              <- (Hl x b r0 rb Hx Hb), <- (Hl a y ra s0 Ha Hy).
      destruct (decide (r0 = ra)), (decide (s0 = ra)); subst; naive_solver.
Qed.

Definition in_range (n : nat) (E : list (nat * nat)) : Prop :=
  forall a b, (a, b) ∈ E -> (a < n)%nat /\ (b < n)%nat.

Lemma unite_spec n E : forall p E0,
  forest p n E0 -> in_range n E -> exists p', unite p E = Some p' /\ forest p' n (E0 ++ E).
Proof.
  induction E as [|[a b] E IH]; intros p E0 Hf Hr; simpl.
  - exists p. by rewrite app_nil_r.
  - destruct (Hr a b) as [Ha Hb]; [by left|].
    destruct (forest_find p n E0 a Hf Ha) as (p1 & ra & -> & Hf1 & Hra & _). simpl.
    destruct (forest_find p1 n E0 b Hf1 Hb) as (p2 & rb & Hfind & Hf2 & Hrb & Hto). rewrite Hfind. simpl.
    destruct (IH _ (E0 ++ [(a, b)]) (forest_union _ _ _ _ _ _ _ Hf2 (proj1 (Hto _ _) Hra) Hrb)) as (p' & -> & Hf').
    { intros u v Huv. apply Hr. by right. }
    exists p'. split; [done|]. by rewrite <- app_assoc in Hf'.
Qed.

(** ** Numbering *)

(** What the numbering has done for the devices [done]. *)
Record numbered (pcis : gmap nat string) (E : list (nat * nat)) (n : nat) (done : list nat)
    (s : Numbering) : Prop := {
  nu_forest : forest (nb_parent s) n E;
  nu_ids r i : nb_root_to_id s !! r = Some i -> (1 <= i < nb_next_id s)%nat;
  nu_inj r r' i : nb_root_to_id s !! r = Some i -> nb_root_to_id s !! r' = Some i -> r = r';
  nu_done x pci r : x ∈ done -> pcis !! x = Some pci -> has_edge E x = true -> root (nb_parent s) x r ->
    exists i, nb_root_to_id s !! r = Some i /\ nb_result s !! pci = Some i;
  nu_only pci i : nb_result s !! pci = Some i ->
    exists x, x ∈ done /\ pcis !! x = Some pci /\ has_edge E x = true;
  nu_next : (1 <= nb_next_id s)%nat;
}.

Section numbering.
Context (pcis : gmap nat string) (E : list (nat * nat)) (n : nat).
Context (Hinj : forall x y pci, pcis !! x = Some pci -> pcis !! y = Some pci -> x = y).

Lemma numbered_skip i dn s :
  numbered pcis E n dn s -> pcis !! i = None \/ has_edge E i = false -> numbered pcis E n (dn ++ [i]) s.
Proof.
  intros [Hf Hids Hij Hdone Honly Hnext] Hi. split; try done.
  - intros x pci r [Hx| ->%list_elem_of_singleton]%elem_of_app; [by apply Hdone|].
    destruct Hi as [Hi|Hi]; rewrite Hi; done.
  - intros pci j Hj. destruct (Honly pci j Hj) as (x & Hx & ?). exists x. rewrite elem_of_app. auto.
Qed.

(** Device [i], whose root is [r], gets the id [j] of its root. *)
Lemma numbered_add i pci r j ids p next dn s :
  numbered pcis E n dn s -> pcis !! i = Some pci -> has_edge E i = true ->
  forest p n E -> root p i r -> (forall w t, root p w t -> root (nb_parent s) w t) ->
  ids !! r = Some j -> (forall t k, nb_root_to_id s !! t = Some k -> ids !! t = Some k) ->
  (forall t k, ids !! t = Some k -> (1 <= k < next)%nat) ->
  (forall t t' k, ids !! t = Some k -> ids !! t' = Some k -> t = t') -> (1 <= next)%nat ->
  numbered pcis E n (dn ++ [i])
    {| nb_parent := p; nb_root_to_id := ids; nb_next_id := next; nb_result := <[pci := j]> (nb_result s) |}.
Proof.
  intros [_ _ _ Hdone Honly _] Hpci He Hf Hr Hto Hj Hsub Hids Hij Hnext. split; try done; simpl.
  - intros x pci' t Hx Hpci' Hxe Ht. destruct (decide (x = i)) as [->|Hne].
    + rewrite (root_det _ _ _ _ Ht Hr). exists j. simplify_eq. by rewrite lookup_insert_eq.
    + apply elem_of_app in Hx as [Hx|Hx%list_elem_of_singleton]; [|done].
      destruct (Hdone x pci' t Hx Hpci' Hxe (Hto _ _ Ht)) as (k & Hk & Hres). exists k.
      split; [by apply Hsub|]. rewrite lookup_insert_ne; [done|]. intros <-. by eapply Hne, Hinj.
  - intros pci' k [[-> _]|[_ Hk]]%lookup_insert_Some.
    + exists i. split_and!; [|done..]. apply elem_of_app. right. by apply list_elem_of_singleton.
    + destruct (Honly _ _ Hk) as (x & Hx & ?). exists x. rewrite elem_of_app. auto.
Qed.

Lemma number_one_spec i dn s :
  numbered pcis E n dn s -> (i < n)%nat ->
  exists s', number_one pcis E i s = Some s' /\ numbered pcis E n (dn ++ [i]) s'.
Proof.
  intros Hs Hi. unfold number_one. destruct (pcis !! i) as [pci|] eqn:Hpci; [|exists s; split; [done|]; apply numbered_skip; auto].
  destruct (has_edge E i) eqn:He; simpl; [|exists s; split; [done|]; apply numbered_skip; auto].
  pose proof Hs as [Hf Hids Hij _ _ Hnext].
  destruct (forest_find _ n E i Hf Hi) as (p & r & -> & Hfp & Hr & Hto). simpl.
  destruct (nb_root_to_id s !! r) as [j|] eqn:Hj; eexists; (split; [done|]); eapply numbered_add; eauto.
  1,2: intros w t; apply Hto.
  - by rewrite lookup_insert_eq.
  - intros t k Ht. rewrite lookup_insert_ne; [done|]. congruence.
  - intros t k [[-> <-]|[_ Ht]]%lookup_insert_Some; [lia|]. apply Hids in Ht. lia.
  - intros t t' k [[<- <-]|[? Ht]]%lookup_insert_Some [[<- Hk]|[? Ht']]%lookup_insert_Some; try done.
    + apply Hids in Ht'. lia.
    + subst. apply Hids in Ht. lia.
    + by eapply Hij.
Qed.

Lemma number_from_spec todo : forall dn s,
  numbered pcis E n dn s -> (forall i, i ∈ todo -> (i < n)%nat) ->
  exists s', number_from pcis E todo s = Some s' /\ numbered pcis E n (dn ++ todo) s'.
Proof.
  induction todo as [|i todo IH]; intros dn s Hs Hlt; simpl.
  - exists s. by rewrite app_nil_r.
  - destruct (number_one_spec i dn s Hs) as (s1 & -> & Hs1); [apply Hlt; by left|]. simpl.
    destruct (IH _ _ Hs1) as (s2 & Hn & Hs2); [intros j Hj; apply Hlt; by right|].
    exists s2. split; [done|]. by rewrite <- app_assoc in Hs2.
Qed.
End numbering.

Lemma row_edges_in_range n line : in_range n (row_edges n line).
Proof.
  intros a b. unfold row_edges.
  destruct (rest ← strip_prefix "GPU" (trim_start line); _) as [[i row]|]; [|by intros ?%elem_of_nil].
  destruct (Nat.leb_spec n i) as [|Hi]; [by intros ?%elem_of_nil|].
  intros ((j, cell) & Hin & Hc)%list_elem_of_omap. destruct (j <=? i)%nat; [done|].
  destruct (is_nvlink cell); [|done]. injection Hc as <- <-. split; [done|].
  apply list_elem_of_lookup in Hin as [k Hk]. rewrite list_lookup_imap in Hk.
  destruct (take n _ !! k) eqn:Htk; [|done]. simpl in Hk. injection Hk as -> _.
  apply lookup_lt_Some in Htk. rewrite length_take in Htk. lia.
Qed.

Lemma parse_nvlink_edges_in_range n matrix : in_range n (parse_nvlink_edges matrix n).
Proof.
  intros a b Hin. unfold parse_nvlink_edges in Hin. apply list_elem_of_In, in_concat in Hin as (l & Hl & Hin).
  apply in_map_iff in Hl as (line & <- & _). apply (row_edges_in_range n line). by apply list_elem_of_In.
Qed.

Lemma has_edge_spec E i : has_edge E i = true <-> exists j, edge E i j \/ edge E j i.
Proof.
  unfold has_edge, edge. rewrite existsb_true. split.
  - intros ([a b] & Hin & [->%Nat.eqb_eq| ->%Nat.eqb_eq]%orb_true_iff); eauto.
  - intros (j & [H|H]); (eexists; split; [done|]); simpl; by rewrite Nat.eqb_refl, ?orb_true_r.
Qed.

Lemma numbered_groups pcis E n p s :
  (forall x y pci, pcis !! x = Some pci -> pcis !! y = Some pci -> x = y) ->
  (forall x pci, pcis !! x = Some pci -> (x < n)%nat) ->
  numbered pcis E n (seq 0 n) s -> nb_parent s = p ->
  (forall x pci, pcis !! x = Some pci -> is_Some (nb_result s !! pci) <-> exists y, edge E x y \/ edge E y x) /\
  (forall x y px py gx gy, pcis !! x = Some px -> pcis !! y = Some py ->
     nb_result s !! px = Some gx -> nb_result s !! py = Some gy ->
     (1 <= gx)%nat /\ (gx = gy <-> linked E x y)).
Proof.
  intros Hinj Hdense [Hf Hids Hij Hdone Honly _] <-.
  assert (forall x pci g, pcis !! x = Some pci -> nb_result s !! pci = Some g ->
            exists r, root (nb_parent s) x r /\ nb_root_to_id s !! r = Some g) as Hgrp.
  { intros x pci g Hx Hg. destruct (Honly _ _ Hg) as (x' & Hx' & Hpci & He).
    assert (x' = x) as -> by (by eapply Hinj). pose proof Hf as [_ Htot _].
    destruct (Htot x (Hdense _ _ Hx)) as [r Hr]. exists r. split; [done|].
    destruct (Hdone x pci r Hx' Hx He Hr) as (i & Hi & Hg'). congruence. }
  split.
  - intros x pci Hx. rewrite <- has_edge_spec. split.
    + intros [g Hg]. destruct (Honly _ _ Hg) as (x' & _ & Hpci & He). by rewrite (Hinj x x' pci).
    + intros He. pose proof Hf as [_ Htot _]. destruct (Htot x (Hdense _ _ Hx)) as [r Hr].
      destruct (Hdone x pci r) as (i & _ & Hi); [|done..|by rewrite Hi].
      apply elem_of_seq. specialize (Hdense _ _ Hx). lia.
  - intros x y px py gx gy Hx Hy Hgx Hgy.
    destruct (Hgrp x px gx Hx Hgx) as (r & Hr & Hir). destruct (Hgrp y py gy Hy Hgy) as (t & Ht & Hit).
    split; [apply Hids in Hir; lia|]. pose proof Hf as [_ _ Hl]. rewrite <- (Hl x y r t Hr Ht).
    split; [intros ->; by eapply Hij|intros ->; congruence].
Qed.

(** C32: the NVLink groups a host reports. On the output of [nvidia-smi], with
    the device indices dense and the PCI addresses distinct, the agent always
    gets its groups: the union-find's loops end and no vector is indexed out
    of bounds. A device has a group exactly when some NVLink edge touches it,
    the group is never zero, and two devices are in the same group exactly
    when a chain of NVLink edges joins them. *)
Theorem nvlink_groups_sound csv matrix :
  let pcis := parse_index_to_pci csv in
  let E := parse_nvlink_edges matrix (size pcis) in
  (forall x y pci, pcis !! x = Some pci -> pcis !! y = Some pci -> x = y) ->
  (forall x pci, pcis !! x = Some pci -> (x < size pcis)%nat) ->
  exists groups, assign_nvlink_groups pcis E = Some groups /\
    (forall x pci, pcis !! x = Some pci -> is_Some (groups !! pci) <-> exists y, edge E x y \/ edge E y x) /\
    (forall x y px py gx gy, pcis !! x = Some px -> pcis !! y = Some py ->
       groups !! px = Some gx -> groups !! py = Some gy ->
       (1 <= gx)%nat /\ (gx = gy <-> linked E x y)).
Proof.
  intros pcis E Hinj Hdense. unfold assign_nvlink_groups. set (n := size pcis) in *.
  destruct (unite_spec n E (seq 0 n) [] (forest_seq n) (parse_nvlink_edges_in_range n matrix)) as (p & -> & Hf).
  simpl in Hf |- *.
  destruct (number_from_spec pcis E n Hinj (seq 0 n) []
    {| nb_parent := p; nb_root_to_id := ∅; nb_next_id := 1; nb_result := ∅ |}) as (s & -> & Hs).
  - split; simpl; try done; intros *; rewrite ?lookup_empty; try done. by intros ?%elem_of_nil.
  - intros i Hi%elem_of_seq. lia.
  - exists (nb_result s). split; [done|]. by eapply numbered_groups.
Qed.

Definition example_csv : string :=
  "0, 0000:17:00.0" +:+ String LF ("1, 0000:65:00.0" +:+ String LF ("2, 0000:CA:00.0" +:+ String LF "")).
Definition example_matrix : string :=
  "        GPU0    GPU1    GPU2    CPU Affinity" +:+ String LF
  ("GPU0     X      SYS     NV4     0-31" +:+ String LF
  ("GPU1    SYS      X      SYS     0-31" +:+ String LF
  ("GPU2    NV4     SYS      X      32-63" +:+ String LF ""))).

Lemma nvlink_groups_sound_witness :
  assign_nvlink_groups (parse_index_to_pci example_csv)
    (parse_nvlink_edges example_matrix (size (parse_index_to_pci example_csv))) =
    Some {["0000:17:00.0" := 1%nat; "0000:ca:00.0" := 1%nat]} /\
  linked (parse_nvlink_edges example_matrix 3) 0 2.
Proof.
  assert (parse_index_to_pci example_csv =
    {[0%nat := "0000:17:00.0"; 1%nat := "0000:65:00.0"; 2%nat := "0000:ca:00.0"]}) as Ep
    by (vm_compute; reflexivity).
  assert (assign_nvlink_groups (parse_index_to_pci example_csv)
    (parse_nvlink_edges example_matrix (size (parse_index_to_pci example_csv))) =
    Some {["0000:17:00.0" := 1%nat; "0000:ca:00.0" := 1%nat]}) as Eg by (vm_compute; reflexivity).
  split; [exact Eg|].
  destruct (nvlink_groups_sound example_csv example_matrix) as (g & Hg & _ & Hl).
  - rewrite Ep. intros x y pci Hx Hy. rewrite !lookup_insert_Some, lookup_singleton_Some in Hx, Hy.
    destruct Hx as [[<- <-]|[_ [[<- <-]|[_ [<- <-]]]]], Hy as [[<- Hy]|[_ [[<- Hy]|[_ [<- Hy]]]]]; done.
  - rewrite Ep. intros x pci Hx. rewrite !lookup_insert_Some, lookup_singleton_Some in Hx.
    change (size _) with 3%nat.
    destruct Hx as [[<- _]|[_ [[<- _]|[_ [<- _]]]]]; lia.
  - rewrite Eg in Hg. injection Hg as <-. rewrite Ep in Hl.
    by apply (Hl 0%nat 2%nat "0000:17:00.0" "0000:ca:00.0" 1%nat 1%nat).
Defined.
