(* ===== verification/Capacity.v ===== *)
(** * What a host has (crates/basis-agent/src/lvm.rs, host_info.rs)

    The capacity of the rootfs pool and of the data pools, the check of the
    storage layout at start, and the host's processors and memory. The sizes
    and percentages lvs prints are read as [f64]. *)

From Stdlib Require Import SpecFloat Ascii.
From S2P Require Import Prelude Ipv4 Overcommit DbTypes Text Host Lvm Nvlink.

(** ** Decimal text as [f64] *)

(** The value of [m] times ten to the [e], rounded to nearest. *)
Definition f64_of_decimal (neg : bool) (m e : Z) : f64 :=
  if m =? 0 then S754_zero neg
  else if 0 <=? e then binary_normalize 53 1024 ((if neg then Z.opp else id) (m * 10 ^ e)) 0 neg
  else let '(q, e', l) := SFdiv_core_binary 53 1024 m 0 (10 ^ (- e)) 0 in
       binary_round_aux 53 1024 neg q e' l.

(** The leading digits: their value after [acc], how many, and what follows. *)
Fixpoint leading_digits (s : string) (acc : Z) : Z * Z * string :=
  match s with
  | String c s' =>
      match digit c with
      | Some d => let '(m, n, rest) := leading_digits s' (acc * 10 + d) in (m, n + 1, rest)
      | None => (acc, 0, s)
      end
  | EmptyString => (acc, 0, s)
  end.
Definition signed (s : string) : bool * string :=
  match s with
  | String "-"%char r => (true, r)
  | String "+"%char r => (false, r)
  | _ => (false, s)
  end.

(** [str::parse::<f64>]. *)
Definition parse_f64 (s : string) : option f64 :=
  let '(neg, s) := signed s in
  let word := to_lowercase s in
  if (word =$ "inf") || (word =$ "infinity") then Some (S754_infinity neg)
  else if word =$ "nan" then Some S754_nan
  else
    let '(m1, n1, r1) := leading_digits s 0 in
    let '(m2, n2, r2) := match r1 with
                         | String "."%char r => leading_digits r m1
                         | _ => (m1, 0, r1)
                         end in
    if n1 + n2 =? 0 then None
    else match r2 with
    | EmptyString => Some (f64_of_decimal neg m2 (- n2))
    | String c r3 =>
        if Ascii.eqb c "e" || Ascii.eqb c "E" then
          let '(eneg, r4) := signed r3 in
          let '(e, n, r5) := leading_digits r4 0 in
          if (n =? 0) || (r5 <>$ "") then None
          else Some (f64_of_decimal neg m2 ((if eneg then - e else e) - n2))
        else None
    end.

(** [x as u64]: truncation toward zero, saturating, and 0 for NaN. *)
Definition f64_to_u64 (x : f64) : Z :=
  match x with
  | S754_zero _ | S754_nan => 0
  | S754_infinity s => if s then 0 else 2 ^ 64 - 1
  | S754_finite true _ _ => 0
  | S754_finite false m e =>
      Z.min (if 0 <=? e then Z.pos m * 2 ^ e else Z.pos m / 2 ^ (- e)) (2 ^ 64 - 1)
  end.

(** [(total as f64 * pct / 100.0) as u64] and [u64::saturating_sub]. *)
Definition used_of (total : Z) (pct : f64) : Z :=
  f64_to_u64 (f64_div (f64_mul (f64_of_int total) pct) (f64_of_int 100)).
Definition saturating_sub (a b : Z) : Z := Z.max 0 (a - b).

Section capacity.
Context `{H : Host}.

Abbreviation LvmM A := (SE Agt LvmError A).

(** [thin_pool_capacity]. *)
Definition thin_pool_capacity (vg pool : string) : LvmM RootfsBytes :=
  do! out <- run_cmd "lvs" ["--noheadings"; "--separator=|"; "--units"; "b"; "--nosuffix"; "-o";
                            "lv_size,data_percent,lv_metadata_size,metadata_percent"; vg +:+ "/" +:+ pool] ;
  let parts := map trim (split_char "|"%char (trim out)) in
  let number s := ok_or (LvmCommand "lvs" "could not parse") (parse_f64 s) in
  let size i := match number (unwrap_or "0" (parts !! i)) with Ok x => Ok (f64_to_u64 x) | Err e => Err e end in
  let percent i := match parts !! i with
                   | Some s => if s =$ "" then Ok (S754_zero false) else number s
                   | None => Ok (S754_zero false)
                   end in
  do! data_total <- se_of (size 0%nat) ;
  do! data_pct <- se_of (percent 1%nat) ;
  do! meta_total <- se_of (size 2%nat) ;
  do! meta_pct <- se_of (percent 3%nat) ;
  se_ret {| rb_total := data_total; rb_free := saturating_sub data_total (used_of data_total data_pct);
            rb_metadata_total := meta_total;
            rb_metadata_free := saturating_sub meta_total (used_of meta_total meta_pct) |}.

(** [Storage::capacity] and [Storage::validate]. *)
Definition storage_capacity (st : Storage) : LvmM HostStorageCapacity :=
  do! rootfs <- thin_pool_capacity (rs_vg (st_rootfs st)) (rs_thin_pool (st_rootfs st)) ;
  do! pools <- se_map (st_pools st) pool_capacity ;
  se_ret {| hs_rootfs := rootfs; hs_pools := pools |}.
Definition storage_validate (st : Storage) : LvmM HostStorageCapacity :=
  run! check_vg_exists (rs_vg (st_rootfs st)) ;
  run! check_thin_pool (rs_vg (st_rootfs st)) (rs_thin_pool (st_rootfs st)) ;
  run! se_for (st_pools st) backend_validate ;
  storage_capacity st.

(** [HostResources::discover]; the processors are what the operating system
    says. *)
Definition num_cpus (parallelism : option Z) : Z := unwrap_or 1 (as_u32 <$> parallelism).
Definition meminfo_kb (line : string) : option Z :=
  rest ← strip_prefix "MemTotal:" line;
  word ← head (split_whitespace rest);
  parse_u64 word.
Fixpoint meminfo_mib (ls : list string) : Z :=
  match ls with
  | [] => 0
  | l :: ls' => match meminfo_kb l with Some kb => kb / 1024 | None => meminfo_mib ls' end
  end.
Definition total_memory_mib (w : World) : Z :=
  match read_to_string "/proc/meminfo" w with
  | None => 0
  | Some contents => meminfo_mib (lines contents)
  end.
End capacity.

(** ** Facts *)

Lemma f64_to_u64_range x : 0 <= f64_to_u64 x < 2 ^ 64.
Proof.
  destruct x as [s|s| |[] m e]; simpl; try destruct s; try lia.
  destruct (0 <=? e) eqn:E.
  - assert (0 <= Z.pos m * 2 ^ e) by (apply Z.mul_nonneg_nonneg; [lia|apply Z.pow_nonneg; lia]). lia.
  - assert (0 <= Z.pos m / 2 ^ (- e)) by (apply Z.div_pos; [lia|apply Z.pow_pos_nonneg; lia]). lia.
Qed.

(** What is free is never more than there is, whatever lvs prints. *)
Lemma thin_pool_capacity_bounded `{H : Host} vg pool s s' r :
  thin_pool_capacity vg pool s = (s', Ok r) ->
  0 <= rb_free r <= rb_total r /\ 0 <= rb_metadata_free r <= rb_metadata_total r /\
  rb_total r < 2 ^ 64 /\ rb_metadata_total r < 2 ^ 64.
Proof.
  unfold thin_pool_capacity, se_bind, se_of, se_ret, saturating_sub. intros Hr.
  destruct (run_cmd _ _ s) as [s1 [out|e]]; [|done]. revert Hr.
  generalize (map trim (split_char "|"%char (trim out))). intros parts Hr.
  destruct (ok_or _ (parse_f64 (unwrap_or "0" (parts !! 0%nat)))) as [x0|?]; [|done].
  destruct (match parts !! 1%nat with Some _ => _ | None => _ end) as [p1|?]; [|done].
  destruct (ok_or _ (parse_f64 (unwrap_or "0" (parts !! 2%nat)))) as [x2|?]; [|done].
  destruct (match parts !! 3%nat with Some _ => _ | None => _ end) as [p3|?]; [|done].
  injection Hr as <- <-. cbn [rb_free rb_total rb_metadata_free rb_metadata_total]. pose proof (f64_to_u64_range x0). pose proof (f64_to_u64_range x2).
  pose proof (f64_to_u64_range (f64_div (f64_mul (f64_of_int (f64_to_u64 x0)) p1) (f64_of_int 100))) as U1.
  pose proof (f64_to_u64_range (f64_div (f64_mul (f64_of_int (f64_to_u64 x2)) p3) (f64_of_int 100))) as U2.
  fold (used_of (f64_to_u64 x0) p1) in U1. fold (used_of (f64_to_u64 x2) p3) in U2. lia.
Qed.

Lemma used_of_examples :
  (used_of 107374182400 <$> parse_f64 "25.00") = Some 26843545600 /\
  (used_of 107374182400 <$> parse_f64 "0.10") = Some 107374182 /\
  (used_of (2 ^ 63) <$> parse_f64 "100.00") = Some (2 ^ 63) /\
  parse_f64 "" = None /\ parse_f64 "." = None /\ parse_f64 "1e" = None /\
  (f64_to_u64 <$> parse_f64 "1.5e3") = Some 1500.
Proof. vm_compute. done. Qed.
