(* ===== verification/Gpu.v ===== *)
(** * GPUs of a host (crates/basis-agent/src/gpu.rs)

    Discovery, and binding a device to vfio-pci through sysfs. *)

From Stdlib Require Import Ascii.
From S2P Require Import Prelude Ipv4 DbTypes Text Nvlink Host.

Inductive GpuError :=
  | BindFailed (pci_address : string)
  | UnbindFailed (pci_address : string)
  | IommuGroupMissing (pci_address : string)
  | TopologyDiscoveryFailed (reason : string)
  | IommuDisabled (reason : string)
  | GpuIo.

(** [Path::file_name]: the last component. *)
Definition file_name (p : string) : option string :=
  let comps := select (fun c => (c <>$ "") && (c <>$ ".")) (split_char "/"%char p) in
  match last comps with
  | Some c => if c =$ ".." then None else Some c
  | None => None
  end.

(** [extract_model_name]: what follows the last colon and space. *)
Fixpoint after_last_colon (s : string) : option string :=
  match s with
  | EmptyString => None
  | String c s' =>
      match after_last_colon s' with
      | Some r => Some r
      | None => if Ascii.eqb c ":"%char then strip_prefix " " s' else None
      end
  end.
Definition extract_model_name (lspci_line : string) : string :=
  match after_last_colon lspci_line with
  | Some r => trim r
  | None => "Unknown GPU"
  end.

Definition set_nvlink_group (g : Z) (i : GpuInfo) : GpuInfo := {|
  pci_address := pci_address i; model := model i; iommu_group := iommu_group i; nvlink_group := g |}.

Section gpu.
Context `{H : Host}.

Abbreviation GpuM A := (SE Agt GpuError A).

Definition DEVICES : string := "/sys/bus/pci/devices/".
Definition DRIVERS_PROBE : string := "/sys/bus/pci/drivers_probe".

(** [std::fs::write(path, text)] with its error mapped. *)
Definition write_or (e : GpuError) (path text : string) : GpuM unit :=
  do! ok <- world (write_file path text) ;
  if ok : bool then se_ret tt else se_fail e.

(** [validate_iommu]. *)
Definition validate_iommu : GpuM unit :=
  let path := "/sys/kernel/iommu_groups" in
  do! w <- se_gets at_world ;
  if negb (path_exists path w) then se_fail (IommuDisabled "does not exist")
  else match read_dir path w with
  | None => se_fail (IommuDisabled "reading")
  | Some [] => se_fail (IommuDisabled "is empty")
  | Some (_ :: _) => se_ret tt
  end.

(** [read_iommu_group]. *)
Definition read_iommu_group (pci : string) : GpuM string :=
  do! w <- se_gets at_world ;
  match read_link (DEVICES +:+ pci +:+ "/iommu_group") w with
  | None => se_fail (IommuGroupMissing pci)
  | Some target => se_of (ok_or (IommuGroupMissing pci) (file_name target))
  end.

(** The driver a device is bound to, when its link can be read. *)
Definition current_driver (pci : string) (w : World) : option string :=
  if path_exists (DEVICES +:+ pci +:+ "/driver") w
  then target ← read_link (DEVICES +:+ pci +:+ "/driver") w; file_name target
  else None.

(** [bind_vfio]. *)
Definition bind_vfio (pci : string) : GpuM string :=
  do! w <- se_gets at_world ;
  let bind :=
    run! write_or (BindFailed pci) (DEVICES +:+ pci +:+ "/driver_override") "vfio-pci" ;
    run! write_or (BindFailed pci) DRIVERS_PROBE pci ;
    do! group <- read_iommu_group pci ;
    se_ret ("/dev/vfio/" +:+ group) in
  match current_driver pci w with
  | Some driver =>
      if driver =$ "vfio-pci" then
        do! group <- read_iommu_group pci ; se_ret ("/dev/vfio/" +:+ group)
      else run! write_or (UnbindFailed pci) ("/sys/bus/pci/drivers/" +:+ driver +:+ "/unbind") pci ; bind
  | None => bind
  end.

(** [unbind_vfio]: the middle write is best effort. *)
Definition unbind_vfio (pci : string) : GpuM unit :=
  run! write_or (UnbindFailed pci) (DEVICES +:+ pci +:+ "/driver_override") "" ;
  run! world (write_file "/sys/bus/pci/drivers/vfio-pci/unbind" pci) ;
  write_or (UnbindFailed pci) DRIVERS_PROBE pci.

(** [nvlink_groups_from_nvidia_smi]; an index out of bounds is a panic. *)
Definition gpu_output (tool : string) (args : list string) : GpuM Output :=
  do! o <- world (run tool args) ; se_of (ok_or GpuIo o).
Definition nvlink_groups_from_nvidia_smi : GpuM (gmap string nat) :=
  do! topo <- gpu_output "nvidia-smi" ["topo"; "-m"] ;
  if negb (out_ok topo) then se_fail (TopologyDiscoveryFailed (out_stderr topo)) else
  do! pci <- gpu_output "nvidia-smi" ["--query-gpu=index,pci.bus_id"; "--format=csv,noheader"] ;
  if negb (out_ok pci) then se_fail (TopologyDiscoveryFailed (out_stderr pci)) else
  let index_to_pci := parse_index_to_pci (out_stdout pci) in
  let edges := parse_nvlink_edges (out_stdout topo) (size index_to_pci) in
  se_of (ok_or (TopologyDiscoveryFailed "panic") (assign_nvlink_groups index_to_pci edges)).

(** A line of [lspci -Dnn] that is a GPU, with its address. *)
Definition gpu_line (line : string) : option string :=
  if (contains "3D controller" line || contains "VGA compatible controller" line) &&
     (contains "NVIDIA" line || contains "AMD" line)
  then head (split_whitespace line) else None.

Fixpoint gpus_of_lines (ls : list string) : GpuM (list GpuInfo) :=
  match ls with
  | [] => se_ret []
  | line :: ls' =>
      match gpu_line line with
      | None => gpus_of_lines ls'
      | Some pci =>
          do! group <- read_iommu_group pci ;
          do! rest <- gpus_of_lines ls' ;
          se_ret ({| pci_address := pci; model := extract_model_name line; iommu_group := group;
                     nvlink_group := 0 |} :: rest)
      end
  end.

(** [discover_gpus]. *)
Definition discover_gpus : GpuM (list GpuInfo) :=
  do! out <- gpu_output "lspci" ["-Dnn"] ;
  if negb (out_ok out) then se_ret [] else
  do! gpus <- gpus_of_lines (lines (out_stdout out)) ;
  do! groups <- se_try nvlink_groups_from_nvidia_smi ;
  match groups with
  | Ok groups =>
      se_ret (map (fun g => match groups !! to_lowercase (pci_address g) with
                            | Some n => set_nvlink_group (Z.of_nat n) g
                            | None => g
                            end) gpus)
  | Err _ => se_ret gpus
  end.
End gpu.
