(* ===== verification/Net.v ===== *)
(** * Host networking (crates/basis-agent/src/network/mod.rs)

    The uplink bridge, the taps of the VMs and the firewall rules, as
    sequences of [ip] and [iptables] commands. *)

From Stdlib Require Import Ascii.
From S2P Require Import Prelude Ipv4 Text HashName Host.

Inductive NetworkError :=
  | BridgeFailed (what : string)
  | UplinkNicNotOnBridge (bridge nic : string)
  | TapInconsistent (tap : string)
  | UplinkProbeError (iface reason : string)
  | CommandFailed.

Definition VXLAN_OVERHEAD : Z := 50.

Record UplinkProbe := { up_mtu : Z; up_vtep_address : string }.
Record UplinkBridge := { ub_bridge_name : string; ub_physical_nic : string; ub_uplink_mtu : Z }.

(** The token after the first [inet], without its prefix length. *)
Fixpoint inet_address (toks : list string) : option string :=
  match toks with
  | [] => None
  | t :: toks' =>
      if t =$ "inet" then
        match toks' with
        | [] => None
        | a :: toks'' =>
            match split_once "/"%char a with
            | Some (addr, _) => Some addr
            | None => inet_address toks''
            end
        end
      else inet_address toks'
  end.

(** [s.trim_end_matches(':').split('@').next()]. *)
Fixpoint trim_end_colons (s : string) : string :=
  match s with
  | EmptyString => EmptyString
  | String c s' =>
      match trim_end_colons s' with
      | EmptyString => if Ascii.eqb c ":"%char then EmptyString else String c EmptyString
      | t => String c t
      end
  end.
Definition link_name (s : string) : string :=
  unwrap_or "" (head (split_char "@"%char (trim_end_colons s))).

Section net.
Context `{H : Host}.

Abbreviation NetM A := (SE Agt NetworkError A).

(** [Command::new(tool).args(args).output().await?]. *)
Definition net_output (tool : string) (args : list string) : NetM Output :=
  do! o <- world (run tool args) ; se_of (ok_or CommandFailed o).
(** [run_cmd]. *)
Definition net_cmd (tool : string) (args : list string) : NetM unit :=
  do! out <- net_output tool args ;
  if out_ok out then se_ret tt
  else se_fail (BridgeFailed (tool +:+ " " +:+ join " " args +:+ " failed: " +:+ out_stderr out)).

(** [link_exists]. *)
Definition link_exists (name : string) : NetM bool :=
  do! out <- net_output "ip" ["link"; "show"; name] ; se_ret (out_ok out).

(** [read_mtu_sysfs], [read_primary_ipv4], [probe_uplink]. *)
Definition read_mtu_sysfs (iface : string) : NetM Z :=
  do! w <- se_gets at_world ;
  match read_to_string ("/sys/class/net/" +:+ iface +:+ "/mtu") w with
  | None => se_fail (UplinkProbeError iface "reading")
  | Some raw => se_of (ok_or (UplinkProbeError iface "parsing MTU") (parse_u32 (trim raw)))
  end.
Fixpoint first_some {A B} (f : A -> option B) (l : list A) : option B :=
  match l with
  | [] => None
  | x :: l' => match f x with Some b => Some b | None => first_some f l' end
  end.
Definition read_primary_ipv4 (iface : string) : NetM string :=
  do! out <- net_output "ip" ["-o"; "-4"; "addr"; "show"; "dev"; iface] ;
  if negb (out_ok out) then se_fail (UplinkProbeError iface (trim (out_stderr out))) else
  se_of (ok_or (UplinkProbeError iface "no IPv4 address assigned")
               (first_some (fun l => inet_address (split_whitespace l)) (lines (out_stdout out)))).
Definition probe_uplink (bridge : string) : NetM UplinkProbe :=
  do! mtu <- read_mtu_sysfs bridge ;
  do! vtep <- read_primary_ipv4 bridge ;
  se_ret {| up_mtu := mtu; up_vtep_address := vtep |}.

(** [UplinkBridge::validate]. *)
Definition validate_uplink (u : UplinkBridge) : NetM unit :=
  do! nic <- net_output "ip" ["link"; "show"; ub_physical_nic u] ;
  if negb (out_ok nic) then se_fail (UplinkProbeError (ub_physical_nic u) "interface not found") else
  do! br <- net_output "ip" ["link"; "show"; ub_bridge_name u] ;
  if negb (out_ok br) then se_ret tt else
  do! slaves <- net_output "ip" ["-o"; "link"; "show"; "master"; ub_bridge_name u] ;
  if existsb (fun l => match split_whitespace l !! 1%nat with
                       | Some s => link_name s =$ ub_physical_nic u
                       | None => false
                       end) (lines (out_stdout slaves))
  then se_ret tt
  else se_fail (UplinkNicNotOnBridge (ub_bridge_name u) (ub_physical_nic u)).

(** [ensure_iptables_rule] and [delete_iptables_rule]. *)
Definition ensure_iptables_rule (table chain : string) (spec : list string) : NetM unit :=
  do! out <- net_output "iptables" (["-t"; table; "-C"; chain] ++ spec) ;
  if out_ok out then se_ret tt else net_cmd "iptables" (["-t"; table; "-A"; chain] ++ spec).
Definition delete_iptables_rule (table chain : string) (spec : list string) : NetM unit :=
  run! world (run "iptables" (["-t"; table; "-D"; chain] ++ spec)) ; se_ret tt.

Definition masquerade_spec (cidr uplink : string) : list string :=
  ["-s"; cidr; "-o"; uplink; "-j"; "MASQUERADE"].
Definition mss_spec (cidr : string) : list string :=
  ["-s"; cidr; "-p"; "tcp"; "--tcp-flags"; "SYN,RST"; "SYN"; "-j"; "TCPMSS"; "--clamp-mss-to-pmtu"].
(** [ensure_cluster_masquerade] and [remove_cluster_masquerade]. *)
Definition ensure_cluster_masquerade (cidr uplink : string) : NetM unit :=
  run! ensure_iptables_rule "nat" "POSTROUTING" (masquerade_spec cidr uplink) ;
  ensure_iptables_rule "mangle" "FORWARD" (mss_spec cidr).
Definition remove_cluster_masquerade (cidr uplink : string) : NetM unit :=
  run! delete_iptables_rule "nat" "POSTROUTING" (masquerade_spec cidr uplink) ;
  delete_iptables_rule "mangle" "FORWARD" (mss_spec cidr).
(** [ensure_vxlan_spoof_guard]. *)
Definition ensure_vxlan_spoof_guard : NetM unit :=
  ensure_iptables_rule "filter" "FORWARD" ["-p"; "udp"; "--dport"; "4789"; "-j"; "DROP"].

(** [UplinkBridge::ensure] and [ensure_uplink_bridge]. *)
Definition ensure_uplink (u : UplinkBridge) : NetM unit :=
  do! out <- net_output "ip" ["link"; "show"; ub_bridge_name u] ;
  run! (if out_ok out then se_ret tt
        else run! net_cmd "ip" ["link"; "add"; ub_bridge_name u; "type"; "bridge"] ;
             net_cmd "ip" ["link"; "set"; ub_physical_nic u; "master"; ub_bridge_name u]) ;
  net_cmd "ip" ["link"; "set"; ub_bridge_name u; "up"].
Definition ensure_uplink_bridge (u : UplinkBridge) : NetM unit :=
  run! ensure_uplink u ; ensure_vxlan_spoof_guard.

(** [ensure_tap_on_bridge], [delete_tap_by_name], [detach_vm_taps]. *)
Definition ensure_tap_on_bridge (tap bridge : string) : NetM unit :=
  do! exists_ <- link_exists tap ;
  run! (if exists_ : bool then se_ret tt
        else net_cmd "ip" ["tuntap"; "add"; tap; "mode"; "tap"; "multi_queue"]) ;
  run! se_map_err (fun _ => TapInconsistent tap) (net_cmd "ip" ["link"; "set"; tap; "master"; bridge]) ;
  se_map_err (fun _ => TapInconsistent tap) (net_cmd "ip" ["link"; "set"; tap; "up"]).
Definition delete_tap_by_name (name : string) : NetM unit :=
  run! se_try (F:=NetworkError) (net_cmd "ip" ["link"; "delete"; name]) ; se_ret tt.
Definition detach_vm_taps (vm_id : string) : NetM unit := delete_tap_by_name (primary_tap_name vm_id).
End net.
