(* ===== verification/Dataplane.v ===== *)
(** * The cluster dataplane (crates/basis-agent/src/network/cluster.rs)

    One bridge and one VXLAN device per cluster, prefix routes in the main
    table and in the VRF of the cluster's trust domain, proxy ARP on the
    uplink, and the forwarding database of the VXLAN device. A [BTreeSet] is
    walked in order; a [HashMap] or a [HashSet] in the order of [elements]. *)

From Stdlib Require Import Ascii.
From stdpp Require Import sorting.
From S2P Require Import Prelude Ipv4 Ipnet Ctl Text HashName Host Net.

Definition BRIDGE_PREFIX : string := "brc".
Definition VXLAN_PREFIX : string := "vxc".
Definition VRF_PREFIX : string := "bvrf-".
Definition VXLAN_PORT : Z := 4789.

Definition bridge_name (vni : Z) : string := BRIDGE_PREFIX +:+ pretty vni.
Definition vxlan_name (vni : Z) : string := VXLAN_PREFIX +:+ pretty vni.

(** [fnv1a_64] and [vrf_for]. *)
Definition fnv1a_64 (bs : list Z) : Z :=
  fold_left (fun h b => as_u64 (Z.lxor h b * 0x100000001b3)) bs 0xcbf29ce484222325.
Definition vrf_for (trust_domain : string) : TreeVrf :=
  let h := fnv1a_64 (bytes_of trust_domain) in {|
  vrf_name := VRF_PREFIX +:+ hex_pad 10 (Z.land h 0xffffffffff);
  vrf_table_id := (Z.land (as_u32 h) 0x7fffffff) mod 4000000000 + 10000 |}.

(** The documented part of [Ipv4Net::hosts] the code uses. *)
Class IpnetHosts `(I : Ipnet) := { net_hosts : Ipv4Net -> list Z }.
Class IpnetHostsLaws `(IH : IpnetHosts) := {
  net_hosts_in (n : Ipv4Net) (a : Z) : a ∈ net_hosts n -> in_net n a;
}.

(** The order of [BTreeSet<String>]. *)
Definition string_le (a b : string) : Prop := Is_true (String.leb a b).
Definition vni_le (a b : Z * string) : Prop := fst a <= fst b.
#[global] Instance vni_le_dec a b : Decision (vni_le a b).
Proof. unfold vni_le. apply _. Defined.
Definition btree (X : gset string) : list string := merge_sort string_le (elements X).

(** The parsers of what [ip] and [bridge] print. *)
Fixpoint token_after (key : string) (toks : list string) : option (option string) :=
  match toks with
  | [] => None
  | t :: toks' => if t =$ key then Some (head toks') else token_after key toks'
  end.
Definition parse_routes (out : string) : gset string :=
  list_to_set (omap (fun line =>
    if contains "proto kernel" line || contains " via " line then None
    else first ← head (split_whitespace line);
         Some (if contains "/" first then first else first +:+ "/32")) (lines out)).
Definition parse_proxy_arp (out : string) : gset string :=
  list_to_set (omap (fun line => head (split_whitespace line)) (lines out)).
Definition parse_fdb (out : string) : gset string :=
  list_to_set (omap (fun line =>
    if starts_with "00:00:00:00:00:00" line
    then mjoin (token_after "dst" (split_whitespace line)) else None) (lines out)).

Definition live_default : ClusterLive := {|
  cl_cidr := None; cl_prefixes := ∅; cl_proxy_arp_addrs := ∅; cl_vrf := None |}.

Record ClusterManager := { cm_vtep_address : string; cm_uplink_mtu : Z; cm_uplink_bridge : string }.

(** [inner_mtu]. *)
Definition inner_mtu (m : ClusterManager) : Z := as_u32 (cm_uplink_mtu m - VXLAN_OVERHEAD).

Section dataplane.
Context `{H : Host} `{IH : IpnetHosts}.

Abbreviation NetM A := (SE Agt NetworkError A).

(** [expand_lan_vips]: the prefixes to route, and the addresses to answer ARP
    for. *)
Fixpoint expand_lan_vips (vips : list ClusterVip) (self_host_id : string) : gset string * gset string :=
  match vips with
  | [] => (∅, ∅)
  | vip :: vips' =>
      let '(prefixes, addrs) := expand_lan_vips vips' self_host_id in
      match net_parse (cv_cidr vip) with
      | None => (prefixes, addrs)
      | Some net =>
          ({[cv_cidr vip]} ∪ prefixes,
           if (cv_owner_host_id vip =$ self_host_id) && (self_host_id <>$ "")
           then list_to_set (map ip_to_string (net_hosts net)) ∪ addrs else addrs)
      end
  end.
(** [expand_tree_prefixes]. *)
Definition expand_tree_prefixes (prefixes : list string) : gset string :=
  list_to_set (List.filter (fun s => bool_decide (is_Some (net_parse s))) prefixes).

(** ** Devices *)

Definition set_mtu (name : string) (mtu : Z) : NetM unit :=
  net_cmd "ip" ["link"; "set"; name; "mtu"; pretty mtu].
Definition ensure_vrf (vrf : TreeVrf) : NetM unit :=
  do! there <- link_exists (vrf_name vrf) ;
  run! (if there : bool then se_ret tt
        else net_cmd "ip" ["link"; "add"; vrf_name vrf; "type"; "vrf"; "table"; pretty (vrf_table_id vrf)]) ;
  net_cmd "ip" ["link"; "set"; vrf_name vrf; "up"].
Definition enslave_to_vrf (bridge vrf : string) : NetM unit :=
  net_cmd "ip" ["link"; "set"; bridge; "master"; vrf].
Definition delete_vrf_if_unused (vrf : string) : NetM unit :=
  do! out <- net_output "ip" ["-o"; "link"; "show"; "master"; vrf] ;
  if negb (out_ok out) then se_ret tt
  else match split_whitespace (out_stdout out) with
  | _ :: _ => se_ret tt
  | [] => run! se_try (F:=NetworkError) (net_cmd "ip" ["link"; "delete"; vrf]) ; se_ret tt
  end.
Definition read_link_master (link : string) : NetM (option string) :=
  do! out <- net_output "ip" ["-o"; "link"; "show"; link] ;
  se_ret (if out_ok out then mjoin (token_after "master" (split_whitespace (out_stdout out))) else None).
Definition ensure_bridge_address (bridge ip : string) (prefix : Z) : NetM unit :=
  net_cmd "ip" ["addr"; "replace"; ip +:+ "/" +:+ pretty prefix; "dev"; bridge].

(** [ip_route]. *)
Definition route_args (action prefix : string) (next_hop : option string) (bridge : string)
    (table : option Z) : list string :=
  ["route"; action; prefix] ++ from_option (fun nh => ["via"; nh]) [] next_hop ++
  ["dev"; bridge] ++ from_option (fun t => ["table"; pretty t]) [] table.
Definition ip_route (action prefix : string) (next_hop : option string) (bridge : string)
    (table : option Z) : NetM unit := net_cmd "ip" (route_args action prefix next_hop bridge table).

Definition add_proxy_arp (addr uplink : string) : NetM unit :=
  net_cmd "ip" ["neigh"; "replace"; "proxy"; addr; "dev"; uplink].
Definition del_proxy_arp (addr uplink : string) : NetM unit :=
  net_cmd "ip" ["neigh"; "del"; "proxy"; addr; "dev"; uplink].
Definition send_garp (addr uplink : string) : NetM unit :=
  run! world (run "arping" ["-c"; "3"; "-w"; "1"; "-A"; "-I"; uplink; addr]) ; se_ret tt.
Definition tables_for (vrf : option Z) : list (option Z) :=
  None :: from_option (fun t => [Some t]) [] vrf.

(** ** Reading the kernel *)

Definition list_kernel_cluster_vnis : NetM (list Z) :=
  do! w <- se_gets at_world ;
  se_ret (match read_dir "/sys/class/net" w with
          | None => []
          | Some entries => omap (fun e => strip_prefix BRIDGE_PREFIX (fst e) ≫= parse_u32) entries
          end).
Definition show_routes_args (bridge : string) (table : option Z) : list string :=
  ["route"; "show"; "dev"; bridge] ++ from_option (fun t => ["table"; pretty t]) [] table.
Definition list_kernel_prefix_routes (bridge : string) (table : option Z) : NetM (gset string) :=
  do! out <- net_output "ip" (show_routes_args bridge table) ;
  se_ret (if out_ok out then parse_routes (out_stdout out) else ∅).
Definition list_kernel_proxy_arp (uplink : string) : NetM (gset string) :=
  do! out <- net_output "ip" ["neigh"; "show"; "proxy"; "dev"; uplink] ;
  se_ret (if out_ok out then parse_proxy_arp (out_stdout out) else ∅).
Definition inet_cidr (line : string) : option string :=
  match split_whitespace line with
  | "inet" :: addr :: _ =>
      net ← net_parse addr;
      Some (ip_to_string (net_network net) +:+ "/" +:+ pretty (net_prefix_len net))
  | _ => None
  end.
Definition read_bridge_cluster_cidr (bridge : string) : NetM (option string) :=
  do! out <- net_output "ip" ["-4"; "addr"; "show"; "dev"; bridge] ;
  se_ret (if out_ok out then first_some inet_cidr (lines (out_stdout out)) else None).
Definition list_fdb_bum_dsts (vxlan : string) : NetM (gset string) :=
  do! out <- net_output "bridge" ["fdb"; "show"; "dev"; vxlan] ;
  if out_ok out then se_ret (parse_fdb (out_stdout out))
  else se_fail (BridgeFailed ("bridge fdb show dev " +:+ vxlan +:+ ": " +:+ out_stderr out)).

(** ** One cluster *)

Definition fdb_args (action vxlan dst : string) : list string :=
  ["fdb"; action; "00:00:00:00:00:00"; "dev"; vxlan; "dst"; dst].
(** [reconcile_fdb]. *)
Definition fdb_desired (m : ClusterManager) (peers : list string) : gset string :=
  list_to_set (List.filter (fun p => (p <>$ cm_vtep_address m) && (p <>$ "")) peers).
Definition reconcile_fdb (m : ClusterManager) (vxlan : string) (peers : list string) : NetM unit :=
  let desired := fdb_desired m peers in
  do! current <- list_fdb_bum_dsts vxlan ;
  run! se_for (elements (desired ∖ current)) (fun new => net_cmd "bridge" (fdb_args "append" vxlan new)) ;
  se_for (elements (current ∖ desired)) (fun stale =>
    run! se_try (F:=NetworkError) (net_cmd "bridge" (fdb_args "del" vxlan stale)) ; se_ret tt).

(** [ensure_cluster_inner]. *)
Definition ensure_cluster_inner (m : ClusterManager) (c : ClusterState) : NetM (option TreeVrf) :=
  let bridge := bridge_name (cs_vni c) in
  let vxlan := vxlan_name (cs_vni c) in
  do! there <- link_exists bridge ;
  run! (if there : bool then se_ret tt else net_cmd "ip" ["link"; "add"; bridge; "type"; "bridge"]) ;
  run! set_mtu bridge (inner_mtu m) ;
  run! net_cmd "ip" ["link"; "set"; bridge; "up"] ;
  do! vrf <- (if cs_trust_domain c =$ "" then se_ret None
              else let v := vrf_for (cs_trust_domain c) in
                   run! ensure_vrf v ; run! enslave_to_vrf bridge (vrf_name v) ; se_ret (Some v)) ;
  do! there <- link_exists vxlan ;
  run! (if there : bool then se_ret tt
        else run! net_cmd "ip" ["link"; "add"; vxlan; "type"; "vxlan"; "id"; pretty (cs_vni c);
                                "dstport"; pretty VXLAN_PORT; "local"; cm_vtep_address m] ;
             net_cmd "ip" ["link"; "set"; vxlan; "master"; bridge]) ;
  run! set_mtu vxlan (inner_mtu m) ;
  run! net_cmd "ip" ["link"; "set"; vxlan; "up"] ;
  run! (if (cs_gateway_ip c <>$ "") && (0 <? cs_prefix_len c)
        then ensure_bridge_address bridge (cs_gateway_ip c) (cs_prefix_len c) else se_ret tt) ;
  run! (if (cs_gateway_ip c <>$ "") && (cs_cidr c <>$ "")
        then ensure_cluster_masquerade (cs_cidr c) (cm_uplink_bridge m) else se_ret tt) ;
  run! (if bool_decide (is_Some vrf) && (cs_gateway_ip c <>$ "") && (cs_cidr c <>$ "")
        then net_cmd "ip" ["route"; "replace"; cs_cidr c; "dev"; bridge; "table"; "main"] else se_ret tt) ;
  run! reconcile_fdb m vxlan (cs_vtep_addresses c) ;
  se_ret vrf.

(** [ensure_bootstrap] and [attach_vm_primary]. *)
Definition bootstrap_state (vni : Z) : ClusterState := {|
  cs_cluster_id := ""; cs_vni := vni; cs_cidr := ""; cs_gateway_ip := ""; cs_prefix_len := 0;
  cs_vtep_addresses := []; cs_trust_domain := ""; cs_cluster_vips := []; cs_internal_cluster_vips := [] |}.
Definition or_default (vni : Z) (live : gmap Z ClusterLive) : gmap Z ClusterLive :=
  match live !! vni with Some _ => live | None => <[vni := live_default]> live end.
Definition ensure_bootstrap (m : ClusterManager) (vni : Z) : NetM unit :=
  run! ensure_cluster_inner m (bootstrap_state vni) ;
  se_modify (set_live (or_default vni)).
Definition attach_vm_primary (m : ClusterManager) (vm_id : string) (vni : Z) : NetM string :=
  run! ensure_bootstrap m vni ;
  run! ensure_tap_on_bridge (primary_tap_name vm_id) (bridge_name vni) ;
  se_ret (primary_tap_name vm_id).

(** ** Reconciliation *)

(** What the kernel should have for a cluster. *)
Definition want_main (vrf : option TreeVrf) (c : ClusterState) (lan tree : gset string) : gset string :=
  match vrf with
  | Some _ => if cs_cidr c <>$ "" then {[cs_cidr c]} ∪ lan else lan
  | None => lan ∪ tree
  end.
Definition want_combined (vrf : option TreeVrf) (c : ClusterState) (lan tree : gset string) : gset string :=
  if bool_decide (is_Some vrf) && (cs_gateway_ip c =$ "") && (cs_cidr c <>$ "")
  then {[cs_cidr c]} ∪ (lan ∪ tree) else lan ∪ tree.

(** One routing table of the bridge: add before delete, a failed delete is
    logged. *)
Definition reconcile_routes (bridge : string) (table : option Z) (want : gset string) : NetM unit :=
  do! kernel <- list_kernel_prefix_routes bridge table ;
  run! se_for (btree (want ∖ kernel)) (fun new => ip_route "replace" new None bridge table) ;
  se_for (btree (kernel ∖ want)) (fun stale =>
    run! se_try (F:=NetworkError) (ip_route "del" stale None bridge table) ; se_ret tt).

(** One turn of the loop of [reconcile]. *)
Definition reconcile_cluster (m : ClusterManager) (c : ClusterState) : NetM unit :=
  do! vrf <- ensure_cluster_inner m c ;
  do! self_host_id <- se_gets at_host_id ;
  let '(lan, addrs) := expand_lan_vips (cs_cluster_vips c) self_host_id in
  let tree := expand_tree_prefixes (cs_internal_cluster_vips c) in
  let bridge := bridge_name (cs_vni c) in
  let combined := want_combined vrf c lan tree in
  run! reconcile_routes bridge None (want_main vrf c lan tree) ;
  run! (match vrf with
        | Some v => reconcile_routes bridge (Some (vrf_table_id v)) combined
        | None => se_ret tt
        end) ;
  se_modify (set_live (<[cs_vni c := {|
    cl_cidr := if cs_cidr c =$ "" then None else Some (cs_cidr c);
    cl_prefixes := combined; cl_proxy_arp_addrs := addrs; cl_vrf := vrf |}]>)).

(** Bridges of an earlier process. *)
Definition recover_cluster (vni : Z) : NetM unit :=
  do! live <- se_gets at_live ;
  match live !! vni with
  | Some _ => se_ret tt
  | None =>
      do! cidr <- read_bridge_cluster_cidr (bridge_name vni) ;
      se_modify (set_live (<[vni := {| cl_cidr := cidr; cl_prefixes := ∅;
                                       cl_proxy_arp_addrs := ∅; cl_vrf := None |}]>))
  end.

Definition live_addrs (live : gmap Z ClusterLive) : gset string :=
  ⋃ (map (fun kv => cl_proxy_arp_addrs (snd kv)) (map_to_list live)).
Definition reconcile_proxy_arp (m : ClusterManager) : NetM unit :=
  do! live <- se_gets at_live ;
  let desired := live_addrs live in
  do! current <- list_kernel_proxy_arp (cm_uplink_bridge m) ;
  run! se_for (btree (desired ∖ current)) (fun new =>
    run! add_proxy_arp new (cm_uplink_bridge m) ; send_garp new (cm_uplink_bridge m)) ;
  se_for (btree (current ∖ desired)) (fun stale =>
    run! se_try (F:=NetworkError) (del_proxy_arp stale (cm_uplink_bridge m)) ; se_ret tt).

(** [ClusterManager::reconcile]. *)
Definition reconcile (m : ClusterManager) (desired : list ClusterState) : NetM unit :=
  do! vnis <- list_kernel_cluster_vnis ;
  run! se_for vnis recover_cluster ;
  run! se_for desired (reconcile_cluster m) ;
  reconcile_proxy_arp m.

(** [tombstone_cluster]. *)
Definition tombstone_cluster (m : ClusterManager) (vni : Z) (cidr : string) : NetM unit :=
  let bridge := bridge_name vni in
  do! live <- se_gets at_live ;
  let removed := live !! vni in
  let rest := base.delete vni live in
  run! se_modify (set_live (fun _ => rest)) ;
  do! vrf <- (match removed ≫= cl_vrf with
              | Some v => se_ret (Some (vrf_name v))
              | None => read_link_master bridge
              end) ;
  run! (match removed with
        | Some entry =>
            se_for (btree (cl_proxy_arp_addrs entry)) (fun addr =>
              if bool_decide (addr ∈ live_addrs rest) then se_ret tt
              else run! se_try (F:=NetworkError) (del_proxy_arp addr (cm_uplink_bridge m)) ; se_ret tt)
        | None => se_ret tt
        end) ;
  run! (match (if cidr <>$ "" then Some cidr else removed ≫= cl_cidr) with
        | Some c => remove_cluster_masquerade c (cm_uplink_bridge m)
        | None => se_ret tt
        end) ;
  run! se_try (F:=NetworkError) (net_cmd "ip" ["link"; "delete"; vxlan_name vni]) ;
  run! se_try (F:=NetworkError) (net_cmd "ip" ["link"; "delete"; bridge]) ;
  match vrf with
  | Some v => if starts_with VRF_PREFIX v then delete_vrf_if_unused v else se_ret tt
  | None => se_ret tt
  end.

(** ** Inventory and learned routes *)

Fixpoint inventory_bridges (vnis : list Z) (out : gmap Z string) : NetM (gmap Z string) :=
  match vnis with
  | [] => se_ret out
  | vni :: vnis' =>
      match out !! vni with
      | Some _ => inventory_bridges vnis' out
      | None =>
          do! cidr <- read_bridge_cluster_cidr (bridge_name vni) ;
          inventory_bridges vnis' (match cidr with Some c => <[vni := c]> out | None => out end)
      end
  end.
(** [inventory]: in the order of the VNIs. *)
Definition inventory : NetM (list (Z * string)) :=
  do! live <- se_gets at_live ;
  do! vnis <- list_kernel_cluster_vnis ;
  do! out <- inventory_bridges vnis (omap cl_cidr live) ;
  se_ret (merge_sort vni_le (map_to_list out)).

(** [locate_next_hop]: the first live cluster whose network has the address. *)
Definition locate_next_hop (next_hop : Z) (live : gmap Z ClusterLive) : option (string * option Z) :=
  first_some (fun '(vni, lc) =>
    cidr ← cl_cidr lc; net ← net_parse cidr;
    if net_contains net next_hop then Some (bridge_name vni, vrf_table_id <$> cl_vrf lc) else None)
    (map_to_list live).
Definition install_learned_route (prefix : string) (next_hop : Z) : NetM unit :=
  do! live <- se_gets at_live ;
  match locate_next_hop next_hop live with
  | None => se_ret tt
  | Some (bridge, vrf_table) =>
      se_for (tables_for vrf_table) (fun t => ip_route "replace" prefix (Some (ip_to_string next_hop)) bridge t)
  end.
Definition withdraw_learned_route (prefix : string) (next_hop : Z) : NetM unit :=
  do! live <- se_gets at_live ;
  match locate_next_hop next_hop live with
  | None => se_ret tt
  | Some (bridge, vrf_table) =>
      se_for (tables_for vrf_table) (fun t =>
        run! se_try (F:=NetworkError) (ip_route "del" prefix (Some (ip_to_string next_hop)) bridge t) ; se_ret tt)
  end.
End dataplane.
