(* ===== verification/Image.v ===== *)
(** * Node images (crates/basis-agent/src/image.rs)

    The cache of node images: the layers of an OCI artifact on disk, the
    golden volume made from the first, and the cloud-init disk of a VM. The
    OCI client, SHA-256 and the reading of [qemu-img]'s JSON are parameters. *)

From Stdlib Require Import Ascii.
From S2P Require Import Prelude Ipv4 DbTypes Text HashName Nvlink Host Lvm.

Inductive ImageError :=
  | BadReference (image_ref : string)
  | PullFailed (what : string)
  | MissingLayer (media_type : string)
  | DigestMismatch (media_type expected actual : string)
  | UnsupportedDigest (alg : string)
  | CloudInitFailed (what : string)
  | ImageLvm (e : LvmError)
  | ImageInfo (what : string)
  | ImagesDirUnwritable (path : string)
  | IsoToolMissing
  | QemuImgMissing
  | ImageIo.

Definition MEDIA_TYPE_QCOW2 : string := "application/vnd.lattice.node.v1+qcow2".
Definition MEDIA_TYPE_KERNEL : string := "application/vnd.lattice.node.v1+kernel".
Definition MEDIA_TYPE_INITRD : string := "application/vnd.lattice.node.v1+initrd".

Record CachedImage := {
  im_image_hash : string; im_kernel : string; im_initrd : string; im_virtual_size_gib : Z;
}.
Record GuestNetwork := {
  gn_mac : string; gn_ip_address : string; gn_gateway : string; gn_prefix_len : Z;
  gn_dns_servers : list string; gn_mtu : Z;
}.
Record ImageManager := {
  ig_images_dir : string; ig_auth : gmap string (string * string); ig_iso_tool : string;
}.

(** [image_ref_to_prefix]. *)
Fixpoint image_ref_to_prefix (s : string) : string :=
  match s with
  | EmptyString => EmptyString
  | String c s' =>
      String (if existsb (Ascii.eqb c) ["/"%char; ":"%char; "."%char] then "_"%char else c)
             (image_ref_to_prefix s')
  end.

(** [hex_lower] and [eq_ignore_ascii_case]. *)
Fixpoint hex_lower (bs : list Z) : string :=
  match bs with
  | [] => ""
  | b :: bs' => String (hex_digit (Z.shiftr b 4)) (String (hex_digit (Z.land b 15)) (hex_lower bs'))
  end.
Definition eq_ignore_ascii_case (a b : string) : bool := to_lowercase a =$ to_lowercase b.

(** [verify_digest]. *)
Definition verify_digest (media_type expected : string) (actual : list Z) : result ImageError unit :=
  match split_once ":"%char expected with
  | None => Err (UnsupportedDigest expected)
  | Some (alg, hex_expected) =>
      if alg <>$ "sha256" then Err (UnsupportedDigest alg)
      else if eq_ignore_ascii_case hex_expected (hex_lower actual) then Ok tt
      else Err (DigestMismatch media_type expected ("sha256:" +:+ hex_lower actual))
  end.

Definition nl : string := String LF "".
(** [network_config]. *)
Definition network_config (p : GuestNetwork) : string :=
  "network:" +:+ nl +:+ "  version: 2" +:+ nl +:+ "  ethernets:" +:+ nl +:+ "    primary:" +:+ nl +:+
  "      match:" +:+ nl +:+ "        macaddress: " +:+ String "034"%char (gn_mac p +:+ String "034"%char nl) +:+
  "      mtu: " +:+ pretty (gn_mtu p) +:+ nl +:+ "      addresses:" +:+ nl +:+
  "        - " +:+ gn_ip_address p +:+ "/" +:+ pretty (gn_prefix_len p) +:+ nl +:+
  "      gateway4: " +:+ gn_gateway p +:+ nl +:+ "      nameservers:" +:+ nl +:+ "        addresses:" +:+ nl +:+
  foldr (fun d acc => "          - " +:+ d +:+ nl +:+ acc) "" (gn_dns_servers p).

(** ** The registry *)

Record Layer := { ly_media_type : string; ly_digest : string; ly_size : Z }.
(** What a blob stream delivered before it ended ([true]), failed or stalled. *)
Record Blob := { bl_chunks : list string; bl_complete : bool }.

Class Oci `{H : Host} := {
  (** [Reference]'s parser: the registry of a reference. *)
  oci_registry : string -> option string;
  oci_manifest : string -> option (string * string) -> World -> World * option (list Layer);
  oci_blob : string -> Layer -> World -> World * option Blob;
  sha256 : string -> list Z;
  (** [serde_json] on the output of [qemu-img info]: not JSON, or the field
      [virtual-size] when it is a [u64]. *)
  json_virtual_size : string -> option (option Z);
}.

Section image.
Context `{O : Oci}.

Abbreviation ImgM A := (SE Agt ImageError A).

Definition io (ok : bool) : ImgM unit := if ok then se_ret tt else se_fail ImageIo.
Definition exists_path (p : string) : ImgM bool := se_gets (fun s => path_exists p (at_world s)).

(** [validate_tools]. *)
Definition have (cmd : string) : ImgM bool :=
  do! o <- world (run cmd ["--version"]) ; se_ret (from_option out_ok false o).
Definition validate_tools : ImgM string :=
  do! q <- have "qemu-img" ;
  if negb q then se_fail QemuImgMissing else
  do! g <- have "genisoimage" ;
  if g : bool then se_ret "genisoimage" else
  do! k <- have "mkisofs" ;
  if k : bool then se_ret "mkisofs" else se_fail IsoToolMissing.

(** [ImageManager::with_auth]. *)
Definition image_mgr_with_auth (dir : string) (auth : gmap string (string * string)) (tool : string)
    : ImgM ImageManager :=
  do! ok <- world (create_dir_all dir) ;
  if ok : bool then se_ret {| ig_images_dir := dir; ig_auth := auth; ig_iso_tool := tool |}
  else se_fail (ImagesDirUnwritable dir).

(** [qcow2_virtual_size_gib]. *)
Definition qcow2_virtual_size_gib (qcow2 : string) : ImgM Z :=
  do! o <- world (run "qemu-img" ["info"; "--output=json"; qcow2]) ;
  match o with
  | None => se_fail (ImageInfo "spawn")
  | Some out =>
      if negb (out_ok out) then se_fail (ImageInfo (out_stderr out))
      else match json_virtual_size (out_stdout out) with
      | None => se_fail (ImageInfo "parsing qemu-img info output")
      | Some None => se_fail (ImageInfo "virtual-size missing from qemu-img info")
      | Some (Some bytes) => se_ret ((bytes + (GIB - 1)) / GIB)
      end
  end.

(** [decompress_qcow2_in_place]. *)
Definition decompress_qcow2_in_place (src dst : string) : ImgM unit :=
  do! o <- world (run "qemu-img" ["convert"; "-f"; "qcow2"; "-O"; "qcow2"; src; dst]) ;
  match o with
  | None => se_fail (PullFailed "qemu-img spawn")
  | Some out =>
      if out_ok out then se_ret tt
      else run! world (remove_file dst) ; se_fail (PullFailed "qemu-img convert failed")
  end.

(** The chunks of a blob, each written as it arrives; the bytes so far. *)
Fixpoint write_chunks (tmp : string) (chunks : list string) (acc : string) : ImgM string :=
  match chunks with
  | [] => se_ret acc
  | c :: chunks' =>
      do! ok <- world (write_file tmp (acc +:+ c)) ;
      run! io ok ; write_chunks tmp chunks' (acc +:+ c)
  end.

(** [dest.with_extension("partial")] of [stem.ext]. *)
Definition partial_of (stem : string) : string := stem +:+ ".partial".

(** One layer of [pull_oci]. *)
Definition pull_layer (image_ref stem : string) (layers : list Layer) (media_type dest : string) : ImgM unit :=
  do! there <- exists_path dest ;
  if there : bool then se_ret tt else
  match select1 (fun l => ly_media_type l =$ media_type) layers with
  | None => se_fail (MissingLayer media_type)
  | Some layer =>
      let tmp := partial_of stem in
      do! ok <- world (write_file tmp "") ;
      run! io ok ;
      do! blob <- world (oci_blob image_ref layer) ;
      match blob with
      | None => se_fail (PullFailed "fetching blob")
      | Some b =>
          do! bytes <- write_chunks tmp (bl_chunks b) "" ;
          if negb (bl_complete b) then se_fail (PullFailed "reading blob") else
          match verify_digest media_type (ly_digest layer) (sha256 bytes) with
          | Err e => run! world (remove_file tmp) ; se_fail e
          | Ok _ =>
              if media_type =$ MEDIA_TYPE_QCOW2 then
                run! decompress_qcow2_in_place tmp dest ;
                run! world (remove_file tmp) ; se_ret tt
              else do! ok <- world (rename_file tmp dest) ; io ok
          end
      end
  end.

(** [pull_oci]. *)
Definition pull_oci (m : ImageManager) (image_ref stem : string) (targets : list (string * string)) : ImgM unit :=
  match oci_registry image_ref with
  | None => se_fail (BadReference image_ref)
  | Some registry =>
      do! manifest <- world (oci_manifest image_ref (ig_auth m !! registry)) ;
      match manifest with
      | None => se_fail (PullFailed "fetching manifest")
      | Some layers =>
          se_for targets (fun '(media_type, dest) => pull_layer image_ref stem layers media_type dest)
      end
  end.

(** [ensure_cached]. *)
Definition ensure_cached (m : ImageManager) (st : Storage) (image_ref : string) : ImgM CachedImage :=
  let prefix := image_ref_to_prefix image_ref in
  let stem := path_join (ig_images_dir m) prefix in
  let rootfs := stem +:+ ".qcow2" in
  let kernel := stem +:+ ".vmlinuz" in
  let initrd := stem +:+ ".initrd" in
  let cached gib := {| im_image_hash := prefix; im_kernel := kernel; im_initrd := initrd;
                       im_virtual_size_gib := gib |} in
  do! r <- exists_path rootfs ;
  do! k <- exists_path kernel ;
  do! i <- exists_path initrd ;
  do! lv <- exists_path (image_lv_path st prefix) ;
  if r && k && i && lv then do! gib <- qcow2_virtual_size_gib rootfs ; se_ret (cached gib)
  else
    run! (if r && k && i then se_ret tt
          else pull_oci m image_ref stem
                 [(MEDIA_TYPE_QCOW2, rootfs); (MEDIA_TYPE_KERNEL, kernel); (MEDIA_TYPE_INITRD, initrd)]) ;
    do! gib <- qcow2_virtual_size_gib rootfs ;
    run! se_map_err ImageLvm (ensure_image_lv st prefix rootfs gib) ;
    se_ret (cached gib).

(** [create_cloud_init_iso]. *)
Definition create_cloud_init_iso (m : ImageManager) (vm_dir instance_id hostname userdata : string)
    (primary : GuestNetwork) : ImgM string :=
  let cidata := path_join vm_dir "cidata" in
  do! ok <- world (create_dir_all cidata) ; run! io ok ;
  do! ok <- world (write_file (path_join cidata "user-data") userdata) ; run! io ok ;
  do! ok <- world (write_file (path_join cidata "meta-data")
    ("instance-id: " +:+ instance_id +:+ nl +:+ "local-hostname: " +:+ hostname +:+ nl)) ; run! io ok ;
  do! ok <- world (write_file (path_join cidata "network-config") (network_config primary)) ; run! io ok ;
  let iso := path_join vm_dir "cidata.iso" in
  do! o <- world (run (ig_iso_tool m) ["-output"; iso; "-volid"; "cidata"; "-joliet"; "-rock"; cidata]) ;
  match o with
  | None => se_fail (CloudInitFailed ("spawning " +:+ ig_iso_tool m))
  | Some out =>
      if out_ok out then run! world (remove_dir_all cidata) ; se_ret iso
      else se_fail (CloudInitFailed (ig_iso_tool m +:+ " failed: " +:+ out_stderr out))
  end.
End image.
