(* ===== verification/HostVm.v ===== *)
(** * VMs on a host (crates/basis-agent/src/vm.rs, handlers.rs)

    The VM manager (one transient systemd unit per VM), creating a VM with
    its rollback, deleting one, and the periodic state report. *)

From Stdlib Require Import Ascii.
From S2P Require Import Prelude Ipv4 Ipnet Proto DbTypes Vms Ctl Agent Text HashName Nvlink Host Lvm Gpu Net Dataplane Image.

Inductive VmError := SpawnFailed (what : string) | VmIo.

(** What [anyhow::Error] carries in the handlers. *)
Inductive AgentError :=
  | AeImage (e : ImageError)
  | AeLvm (e : LvmError)
  | AeNet (e : NetworkError)
  | AeGpu (e : GpuError)
  | AeVm (e : VmError)
  | AeIo
  | AeDb
  | ChannelClosed
  | Bail (what : string).

Record BootArtifacts := {
  ba_kernel : string; ba_initrd : string; ba_rootfs : string; ba_cloud_init : string;
  ba_data_disks : list string;
}.

(** The [Display]s of [DiskSpec] and [NetSpec]. *)
Inductive DiskSpec :=
  | DsRootfs (path : string) (vcpus : Z)
  | DsData (path : string) (vcpus : Z)
  | DsCloudInit (path : string).
Definition disk_spec (d : DiskSpec) : string :=
  match d with
  | DsRootfs p v | DsData p v =>
      "path=" +:+ p +:+ ",image_type=raw,direct=on,num_queues=" +:+ pretty v +:+ ",queue_size=256"
  | DsCloudInit p => "path=" +:+ p
  end.
Definition net_spec (tap mac : string) (vcpus : Z) : string :=
  "tap=" +:+ tap +:+ ",mac=" +:+ mac +:+ ",num_queues=" +:+ pretty (as_u32 (2 * Z.max vcpus 1)) +:+
  ",queue_size=256".

(** The disks of a VM in the order the guest sees them: root, cloud-init,
    then the data disks. *)
Definition vm_disks (cpu : Z) (boot : BootArtifacts) : list DiskSpec :=
  DsRootfs (ba_rootfs boot) cpu :: DsCloudInit (ba_cloud_init boot) ::
  map (fun p => DsData p cpu) (ba_data_disks boot).

(** The arguments of [systemd-run]. *)
Definition ch_args (vm_dir : string) (cmd : CreateVmCommand) (boot : BootArtifacts) (tap : string)
    (vfio : list string) : list string :=
  ["--api-socket=" +:+ path_join vm_dir "cloud-hypervisor.sock";
   "--cpus=boot=" +:+ pretty (cmd_cpu cmd);
   "--memory=size=" +:+ pretty (cmd_memory_mib cmd) +:+ "M";
   "--kernel=" +:+ ba_kernel boot;
   "--initramfs=" +:+ ba_initrd boot;
   "--cmdline=root=/dev/vda1 ro console=ttyS0 transparent_hugepage=never";
   "--net"; net_spec tap (primary_mac (cmd_vm_id cmd)) (cmd_cpu cmd);
   "--serial=tty"; "--console=off"; "--disk"] ++
  map disk_spec (vm_disks (cmd_cpu cmd) boot) ++
  (match vfio with [] => [] | _ => "--device" :: map (fun d => "path=" +:+ d) vfio end).
Definition systemd_args (vm_dir : string) (cmd : CreateVmCommand) (boot : BootArtifacts) (tap : string)
    (vfio : list string) : list string :=
  ["--unit=" +:+ unit_name_for_vm (cmd_vm_id cmd); "--service-type=exec"; "--remain-after-exit";
   "--description=Basis VM " +:+ cmd_vm_id cmd; "--"; "cloud-hypervisor"] ++
  ch_args vm_dir cmd boot tap vfio.

(** The VM ids of the units a listing names. *)
Definition unit_vm_id (line : string) : option string :=
  strip_prefix "basis-vm-" (unwrap_or "" (head (split_whitespace line))) ≫= strip_suffix ".service".

(** The handles of [VmHandlerCtx]; [hx_open] says whether the controller
    still reads the channel. *)
Record VmHandlerCtx := {
  hx_vms_dir : string;
  hx_image_mgr : ImageManager;
  hx_storage : Storage;
  hx_net : ClusterManager;
  hx_open : bool;
}.

Section hostvm.
Context `{O : Oci} `{IH : IpnetHosts} `{J : AgentJson}.

Abbreviation VmM A := (SE Agt VmError A).
Abbreviation AgtM A := (SE Agt AgentError A).

(** ** [VmManager] *)

Definition mark_pending (vm : string) : AgtM unit := se_modify (set_vm_pending (fun p => {[vm]} ∪ p)).
Definition clear_pending (vm : string) : AgtM unit := se_modify (set_vm_pending (fun p => p ∖ {[vm]})).
Definition is_pending (vm : string) (s : Agt) : bool := bool_decide (vm ∈ at_pending s).

(** [VmManager::create_vm]. *)
Definition vm_mgr_create (vms_dir : string) (cmd : CreateVmCommand) (boot : BootArtifacts) (tap : string)
    (vfio : list string) : VmM unit :=
  let vm_dir := path_join vms_dir (cmd_vm_id cmd) in
  do! ok <- world (create_dir_all vm_dir) ;
  if negb ok then se_fail VmIo else
  do! o <- world (run "systemd-run" (systemd_args vm_dir cmd boot tap vfio)) ;
  match o with
  | None => se_fail (SpawnFailed "spawn")
  | Some out =>
      if negb (out_ok out) then se_fail (SpawnFailed ("systemd-run failed: " +:+ out_stderr out))
      else se_modify (set_tracked (<[cmd_vm_id cmd := {| tv_unit_name := unit_name_for_vm (cmd_vm_id cmd);
                                                         tv_vm_dir := vm_dir |}]>))
  end.

(** [VmManager::delete_vm]: every command is best effort. *)
Definition tracked_or_default (vms_dir vm : string) (t : option TrackedVm) : TrackedVm :=
  unwrap_or {| tv_unit_name := unit_name_for_vm vm; tv_vm_dir := path_join vms_dir vm |} t.
Definition vm_mgr_delete (vms_dir vm : string) : AgtM unit :=
  do! t <- se_gets (fun s => at_tracked s !! vm) ;
  run! se_modify (set_tracked (base.delete vm)) ;
  let t := tracked_or_default vms_dir vm t in
  run! world (run "systemctl" ["stop"; tv_unit_name t]) ;
  run! world (run "udevadm" ["settle"; "--timeout=5"]) ;
  do! w <- se_gets at_world ;
  run! (if path_exists (tv_vm_dir t) w
        then run! world (remove_dir_all (tv_vm_dir t)) ; se_ret tt else se_ret tt) ;
  run! world (run "systemctl" ["reset-failed"; tv_unit_name t]) ;
  se_ret tt.

(** [list_all_unit_vm_ids] and [reconcile_running]. *)
Definition list_all_unit_vm_ids : AgtM (list string) :=
  do! o <- world (run "systemctl" ["list-units"; "--type=service"; "--all"; "--no-legend"; "--plain"; "basis-vm-*"]) ;
  match o with
  | None => se_fail (AeVm VmIo)
  | Some out => se_ret (omap unit_vm_id (lines (out_stdout out)))
  end.
Definition reconcile_running (vms_dir : string) : AgtM (list string) :=
  do! o <- world (run "systemctl" ["list-units"; "--type=service"; "--state=running"; "--no-legend"; "--plain"; "basis-vm-*"]) ;
  match o with
  | None => se_fail (AeVm VmIo)
  | Some out =>
      let ids := omap unit_vm_id (lines (out_stdout out)) in
      run! se_for ids (fun vm => se_modify (set_tracked (<[vm := {|
        tv_unit_name := unit_name_for_vm vm; tv_vm_dir := path_join vms_dir vm |}]>))) ;
      se_ret ids
  end.

(** [live_vm_ids]. *)
Definition live_vm_ids (s : Agt) : gset string := dom (at_tracked s) ∪ at_pending s.

(** [has_live_process]. *)
Definition has_live_process (vm : string) : AgtM bool :=
  do! t <- se_gets (fun s => at_tracked s !! vm) ;
  do! o <- world (run "systemctl" ["show"; "--property=SubState"; "--value";
                                   from_option tv_unit_name (unit_name_for_vm vm) t]) ;
  se_ret (match o with Some out => out_ok out && (trim (out_stdout out) =$ "running") | None => false end).

(** ** Messages *)

(** [sender.send(msg).await]. *)
Definition send (open : bool) (msg : AgentMessage) : AgtM unit :=
  if open then se_modify (set_sent (fun l => l ++ [msg])) else se_fail ChannelClosed.
(** [send_vm_state]. *)
Definition send_vm_state (open : bool) (vm : string) (state : MachineState) (err : string) (transient : bool)
    : AgtM unit :=
  send open (MsgVmState {| vr_vm_id := vm; vr_state := machine_state_num state; vr_error_message := err;
                           vr_transient := transient |}).

(** [report_local_vm_states]. *)
Definition report_local_vm_states (open : bool) : AgtM unit :=
  do! vms <- se_gets (fun s => local_vms (at_db s)) ;
  se_for vms (fun vm =>
    do! p <- se_gets (is_pending (lr_vm_id vm)) ;
    if p : bool then se_ret tt else
    do! live <- has_live_process (lr_vm_id vm) ;
    if live : bool then send_vm_state open (lr_vm_id vm) Running "" false
    else send_vm_state open (lr_vm_id vm) Failed "cloud-hypervisor process exited" false).

(** ** [delete_vm] *)

Definition update_local_vms f : AgtM unit := se_modify (set_agent_db (set_local_vms f)).

(** Unbinding is best effort, device by device. *)
Definition unbind_all (addrs : list string) : AgtM unit :=
  se_for addrs (fun a => run! se_try (F:=AgentError) (unbind_vfio a) ; se_ret tt).

Definition delete_vm (x : VmHandlerCtx) (vm : string) : AgtM unit :=
  do! record <- se_gets (fun s => local_get_vm vm (at_db s)) ;
  run! vm_mgr_delete (hx_vms_dir x) vm ;
  run! se_try (F:=AgentError) (detach_vm_taps vm) ;
  run! (match record ≫= (fun r => gpus_of_json (lr_gpu_pci_addresses r)) with
        | Some addrs => unbind_all addrs
        | None => se_ret tt
        end) ;
  run! se_map_err AeLvm (remove_vm_rootfs (hx_storage x) vm) ;
  run! se_map_err AeLvm (release_vm_disks (hx_storage x) vm) ;
  se_modify (set_agent_db (local_delete_vm vm)).

(** ** [create_vm] *)

(** The checks of every commanded disk before anything is allocated. *)
Definition validate_disk (st : Storage) (d : CommandedDisk) : AgtM unit :=
  match storage_pool st (cd_pool d) with
  | None => se_fail (Bail "unknown pool")
  | Some b =>
      do! devices <- se_map_err AeLvm (backend_devices b) ;
      match select1 (fun v => dv_id v =$ cd_device_id d) devices with
      | None => se_fail (Bail "device not a member of pool")
      | Some dev =>
          if negb (dv_ready dev) then se_fail (Bail "device is not ready")
          else if dv_free_gib dev <? cd_min_size_gib d then se_fail (Bail "device has too little free")
          else se_ret tt
      end
  end.

Definition local_row (cmd : CreateVmCommand) (now : string) : LocalVmRow := {|
  lr_vm_id := cmd_vm_id cmd; lr_name := cmd_name cmd; lr_unit_name := unit_name_for_vm (cmd_vm_id cmd);
  lr_ip_address := cmd_ip_address cmd; lr_cpu := cmd_cpu cmd; lr_memory_mib := cmd_memory_mib cmd;
  lr_disk_gib := cmd_disk_gib cmd; lr_gpu_pci_addresses := gpus_to_json (cmd_gpu_pci_addresses cmd);
  lr_image := cmd_image cmd; lr_vni := cmd_vni cmd; lr_cluster_id := cmd_cluster_id cmd;
  lr_created_at := now; lr_storage_disks := "[]" |}.
Definition with_local_disks (t : string) (r : LocalVmRow) : LocalVmRow := {|
  lr_vm_id := lr_vm_id r; lr_name := lr_name r; lr_unit_name := lr_unit_name r;
  lr_ip_address := lr_ip_address r; lr_cpu := lr_cpu r; lr_memory_mib := lr_memory_mib r;
  lr_disk_gib := lr_disk_gib r; lr_gpu_pci_addresses := lr_gpu_pci_addresses r;
  lr_image := lr_image r; lr_vni := lr_vni r; lr_cluster_id := lr_cluster_id r;
  lr_created_at := lr_created_at r; lr_storage_disks := t |}.

Definition insert_local (row : LocalVmRow) : AgtM unit :=
  do! db <- se_gets at_db ;
  match local_insert_vm row db with
  | Some db' => se_modify (set_agent_db (fun _ => db'))
  | None => se_fail AeDb
  end.

Definition request_of (vm : string) (d : CommandedDisk) : DiskAllocationRequest := {|
  rq_assignment_id := cd_assignment_id d; rq_device_id := cd_device_id d; rq_vm_id := vm;
  rq_disk_index := cd_disk_index d; rq_min_size_gib := cd_min_size_gib d |}.
Definition local_disk (d : CommandedDisk) (p : DiskPurpose) (a : Allocation) : LocalStorageDisk := {|
  ls_assignment_id := cd_assignment_id d; ls_pool := cd_pool d; ls_device_id := cd_device_id d;
  ls_disk_index := cd_disk_index d; ls_size_gib := al_actual_size_gib a;
  ls_purpose := disk_purpose_as_db_str p; ls_device_path := al_path a |}.
Definition disk_report (vm : string) (d : CommandedDisk) (a : Allocation) : AgentMessage :=
  MsgDiskAssignment (Some {| da_assignment_id := cd_assignment_id d; da_vm_id := vm;
    da_disk_index := cd_disk_index d; da_pool := cd_pool d; da_device_id := cd_device_id d;
    da_actual_size_gib := al_actual_size_gib a; da_device_path := al_path a |}).

(** Allocate one disk and report it; the report is best effort. *)
Definition allocate_disk (x : VmHandlerCtx) (vm : string) (d : CommandedDisk) : AgtM LocalStorageDisk :=
  match storage_pool (hx_storage x) (cd_pool d) with
  | None => se_fail (Bail "panic: validated above")
  | Some b =>
      match disk_purpose_try_from (cd_purpose d) with
      | None => se_fail (Bail "invalid DiskPurpose")
      | Some p =>
          do! a <- se_map_err AeLvm (allocate b (request_of vm d)) ;
          run! se_try (F:=AgentError) (send (hx_open x) (disk_report vm d a)) ;
          se_ret (local_disk d p a)
      end
  end.

(** [create_vm_inner]. *)
Definition create_vm_inner (x : VmHandlerCtx) (cmd : CreateVmCommand) (now : string) : AgtM unit :=
  let vm := cmd_vm_id cmd in
  let st := hx_storage x in
  let vm_dir := path_join (hx_vms_dir x) vm in
  do! ok <- world (create_dir_all vm_dir) ;
  if negb ok then se_fail AeIo else
  do! base <- se_map_err AeImage (ensure_cached (hx_image_mgr x) st (cmd_image cmd)) ;
  if cmd_disk_gib cmd <? im_virtual_size_gib base then se_fail (Bail "disk_gib is smaller than image") else
  run! se_for (cmd_storage_disks cmd) (validate_disk st) ;
  run! insert_local (local_row cmd now) ;
  do! rootfs <- se_map_err AeLvm (create_vm_rootfs st vm (im_image_hash base) (cmd_disk_gib cmd)) ;
  do! disks <- se_map (cmd_storage_disks cmd) (allocate_disk x vm) ;
  run! update_local_vms (update_where (fun r => lr_vm_id r =$ vm) (with_local_disks (local_disks_to_json disks))) ;
  do! iso <- se_map_err AeImage (create_cloud_init_iso (hx_image_mgr x) vm_dir vm (cmd_name cmd)
    (String.string_of_list_byte (cmd_bootstrap_data cmd))
    {| gn_mac := primary_mac vm; gn_ip_address := cmd_ip_address cmd; gn_gateway := cmd_gateway cmd;
       gn_prefix_len := cmd_prefix_len cmd; gn_dns_servers := cmd_dns_servers cmd;
       gn_mtu := inner_mtu (hx_net x) |}) ;
  do! tap <- se_map_err AeNet (attach_vm_primary (hx_net x) vm (cmd_vni cmd)) ;
  do! vfio <- se_map (cmd_gpu_pci_addresses cmd) (fun pci => se_map_err AeGpu (bind_vfio pci)) ;
  se_map_err AeVm (vm_mgr_create (hx_vms_dir x) cmd
    {| ba_kernel := im_kernel base; ba_initrd := im_initrd base; ba_rootfs := rootfs; ba_cloud_init := iso;
       ba_data_disks := map ls_device_path disks |} tap vfio).

(** [create_vm]: the rollback's own failure is dropped. *)
Definition create_vm (x : VmHandlerCtx) (cmd : CreateVmCommand) (now : string) : AgtM unit :=
  run! mark_pending (cmd_vm_id cmd) ;
  do! r <- se_try (create_vm_inner x cmd now) ;
  run! clear_pending (cmd_vm_id cmd) ;
  match r with
  | Ok _ => se_ret tt
  | Err e => run! se_try (F:=AgentError) (delete_vm x (cmd_vm_id cmd)) ; se_fail e
  end.

(** ** main.rs: dispatching a create *)

(** Backpressure of the volume groups is the one transient failure. *)
Definition is_transient (e : AgentError) : bool :=
  match e with
  | AeLvm (Busy _) | AeImage (ImageLvm (Busy _)) => true
  | _ => false
  end.
(** [spawn_create] with [send_terminal_vm_state]; [text] is the error's
    [Display]. *)
Definition spawn_create (x : VmHandlerCtx) (cmd : CreateVmCommand) (now : string)
    (text : AgentError -> string) : AgtM unit :=
  do! r <- se_try (create_vm x cmd now) ;
  run! se_try (F:=AgentError)
    (match r with
     | Ok _ => send_vm_state (hx_open x) (cmd_vm_id cmd) Running "" false
     | Err e => send_vm_state (hx_open x) (cmd_vm_id cmd) Failed (text e) (is_transient e)
     end) ;
  se_ret tt.
End hostvm.
