(* ===== verification/Sweep.v ===== *)
(** * Restart and garbage collection of a host (crates/basis-agent/src/reconcile.rs)

    The orphan sweep with its three collectors, the restart of VMs after a
    reboot, and the start of the agent. Work the code runs concurrently
    ([join_all], [buffer_unordered]) is done here in list order. *)

From S2P Require Import Prelude Ipv4 Ipnet Proto DbTypes Ctl Agent Text HashName Host Lvm Gpu Net Dataplane Image HostVm.

Definition ORPHAN_LV_BATCH : nat := 50.

Record SweepReport := { sw_recovered : nat; sw_restarted : nat; sw_orphans : nat; sw_lost : nat; sw_failed : nat }.

Inductive RestartError := DiskMissing (lv_path cidata_path : string) | GpuBindFailed | RestartOther (e : AgentError).
Inductive RestartOutcome := Restarted | Lost | RestartFailed.

Section sweep.
Context `{O : Oci} `{IH : IpnetHosts} `{J : AgentJson}.

Abbreviation AgtM A := (SE Agt AgentError A).

(** ** The sweep *)

(** [collect]: how many were reclaimed. *)
Fixpoint reclaim_all (reclaim : string -> AgtM unit) (ids : list string) : AgtM nat :=
  match ids with
  | [] => se_ret 0%nat
  | id :: ids' =>
      do! r <- se_try (F:=AgentError) (reclaim id) ;
      do! n <- reclaim_all reclaim ids' ;
      se_ret (if is_ok r then Datatypes.S n else n)
  end.
Definition collect (list_ : AgtM (list string)) (reclaim : string -> AgtM unit) (known : gset string)
    (batch : option nat) : AgtM nat :=
  do! listed <- se_try (F:=AgentError) list_ ;
  match listed with
  | Err _ => se_ret 0%nat
  | Ok ids =>
      let orphans := List.filter (fun id => negb (bool_decide (id ∈ known))) ids in
      reclaim_all reclaim (match batch with Some n => take n orphans | None => orphans end)
  end.

(** The collectors: units, volumes, directories. *)
Definition lv_list (x : VmHandlerCtx) : AgtM (list string) :=
  se_map_err AeLvm (list_managed_vm_ids (hx_storage x)).
Definition lv_reclaim (x : VmHandlerCtx) (vm : string) : AgtM unit :=
  run! se_map_err AeLvm (remove_vm_rootfs (hx_storage x) vm) ;
  se_map_err AeLvm (release_vm_disks (hx_storage x) vm).
(** A missing directory and an unreadable one both come as [None]. *)
Definition dir_list (x : VmHandlerCtx) : AgtM (list string) :=
  do! w <- se_gets at_world ;
  match read_dir (hx_vms_dir x) w with
  | None => se_ret []
  | Some entries => se_ret (map fst (List.filter snd entries))
  end.
Definition dir_reclaim (x : VmHandlerCtx) (vm : string) : AgtM unit :=
  do! ok <- world (remove_dir_all (path_join (hx_vms_dir x) vm)) ;
  if ok : bool then se_ret tt else se_fail AeIo.

(** [sweep_orphans]. *)
Definition sweep_orphans (x : VmHandlerCtx) (known : gset string) : AgtM nat :=
  do! units <- collect list_all_unit_vm_ids (delete_vm x) known None ;
  do! lvs <- collect (lv_list x) (lv_reclaim x) known (Some ORPHAN_LV_BATCH) ;
  do! dirs <- collect (dir_list x) (dir_reclaim x) known None ;
  se_ret (units + lvs + dirs)%nat.

Definition known_ids (s : Agt) : gset string := list_to_set (map lr_vm_id (local_vms (at_db s))).
(** [periodic_sweep]. *)
Definition periodic_sweep (x : VmHandlerCtx) : AgtM nat :=
  do! known <- se_gets (fun s => known_ids s ∪ live_vm_ids s) ;
  sweep_orphans x known.

(** ** Restart after a reboot *)

Definition narrow_u32 (v : Z) : SE Agt RestartError Z :=
  if (0 <=? v) && (v <=? u32_max) then se_ret v else se_fail (RestartOther (Bail "out of u32 range")).
Definition other {A} (m : AgtM A) : SE Agt RestartError A := se_map_err RestartOther m.

(** The data disks still there. *)
Fixpoint stored_paths (cidata : string) (disks : list LocalStorageDisk) : SE Agt RestartError (list string) :=
  match disks with
  | [] => se_ret []
  | d :: disks' =>
      do! w <- se_gets at_world ;
      if negb (path_exists (ls_device_path d) w) then se_fail (DiskMissing (ls_device_path d) cidata)
      else do! rest <- stored_paths cidata disks' ; se_ret (ls_device_path d :: rest)
  end.

(** Binding the GPUs again; on a failure the devices bound so far are passed
    to [unbind_vfio]. *)
Fixpoint rebind (addrs bound : list string) : SE Agt RestartError (list string) :=
  match addrs with
  | [] => se_ret bound
  | a :: addrs' =>
      do! r <- se_try (F:=RestartError) (bind_vfio a) ;
      match r with
      | Ok path => rebind addrs' (bound ++ [path])
      | Err _ =>
          run! se_for bound (fun p => run! se_try (F:=RestartError) (unbind_vfio p) ; se_ret tt) ;
          se_fail GpuBindFailed
      end
  end.

Definition restart_disk (cluster_id : string) (d : LocalStorageDisk) : CommandedDisk := {|
  cd_assignment_id := ls_assignment_id d; cd_min_size_gib := ls_size_gib d; cd_pool := ls_pool d;
  cd_device_id := ls_device_id d; cd_disk_index := ls_disk_index d; cd_cluster_id := cluster_id;
  cd_purpose := disk_purpose_num (if ls_purpose d =$ "replicated" then Replicated else GenericData) |}.

(** [restart_vm]. *)
Definition restart_vm (x : VmHandlerCtx) (r : LocalVmRow) : SE Agt RestartError unit :=
  let vm := lr_vm_id r in
  let st := hx_storage x in
  let rootfs := vm_lv_path st vm in
  let cidata := path_join (path_join (hx_vms_dir x) vm) "cidata.iso" in
  do! w <- se_gets at_world ;
  if negb (path_exists rootfs w) || negb (path_exists cidata w) then se_fail (DiskMissing rootfs cidata) else
  do! disks <- se_of (ok_or (RestartOther (Bail "malformed storage_disks")) (local_disks_of_json (lr_storage_disks r))) ;
  do! paths <- stored_paths cidata disks ;
  do! cached <- other (se_map_err AeImage (ensure_cached (hx_image_mgr x) st (lr_image r))) ;
  do! vni <- narrow_u32 (lr_vni r) ;
  run! other (se_map_err AeNet (ensure_bootstrap (hx_net x) vni)) ;
  do! tap <- other (se_map_err AeNet (attach_vm_primary (hx_net x) vm vni)) ;
  do! gpus <- se_of (ok_or (RestartOther (Bail "malformed gpu_pci_addresses")) (gpus_of_json (lr_gpu_pci_addresses r))) ;
  do! vfio <- rebind gpus [] ;
  do! cpu <- narrow_u32 (lr_cpu r) ;
  do! mem <- narrow_u32 (lr_memory_mib r) ;
  do! disk <- narrow_u32 (lr_disk_gib r) ;
  let cmd := {|
    cmd_vm_id := vm; cmd_name := lr_name r; cmd_cpu := cpu; cmd_memory_mib := mem; cmd_disk_gib := disk;
    cmd_image := lr_image r; cmd_bootstrap_data := []; cmd_ip_address := lr_ip_address r; cmd_gateway := "";
    cmd_prefix_len := 0; cmd_gpus := 0; cmd_gpu_constraints := None; cmd_dns_servers := [];
    cmd_gpu_pci_addresses := gpus; cmd_storage_disks := map (restart_disk (lr_cluster_id r)) disks;
    cmd_cluster_id := lr_cluster_id r; cmd_vni := vni |} in
  other (se_map_err AeVm (vm_mgr_create (hx_vms_dir x) cmd
    {| ba_kernel := im_kernel cached; ba_initrd := im_initrd cached; ba_rootfs := rootfs;
       ba_cloud_init := cidata; ba_data_disks := paths |} tap vfio)).

Definition restart_outcome (r : result RestartError unit) : RestartOutcome :=
  match r with
  | Ok _ => Restarted
  | Err (DiskMissing _ _) => Lost
  | Err GpuBindFailed | Err (RestartOther _) => RestartFailed
  end.
Definition count_outcome (o : RestartOutcome) (rep : SweepReport) : SweepReport :=
  match o with
  | Restarted => {| sw_recovered := sw_recovered rep; sw_restarted := Datatypes.S (sw_restarted rep);
                    sw_orphans := sw_orphans rep; sw_lost := sw_lost rep; sw_failed := sw_failed rep |}
  | Lost => {| sw_recovered := sw_recovered rep; sw_restarted := sw_restarted rep;
               sw_orphans := sw_orphans rep; sw_lost := Datatypes.S (sw_lost rep); sw_failed := sw_failed rep |}
  | RestartFailed => {| sw_recovered := sw_recovered rep; sw_restarted := sw_restarted rep;
               sw_orphans := sw_orphans rep; sw_lost := sw_lost rep; sw_failed := Datatypes.S (sw_failed rep) |}
  end.
Fixpoint restart_all (x : VmHandlerCtx) (vms : list LocalVmRow) (rep : SweepReport) : AgtM SweepReport :=
  match vms with
  | [] => se_ret rep
  | vm :: vms' =>
      do! r <- se_try (F:=AgentError) (restart_vm x vm) ;
      restart_all x vms' (count_outcome (restart_outcome r) rep)
  end.

(** [reconcile_on_startup]. *)
Definition reconcile_on_startup (x : VmHandlerCtx) : AgtM SweepReport :=
  do! running <- reconcile_running (hx_vms_dir x) ;
  do! vms <- se_gets (fun s => local_vms (at_db s)) ;
  let here vm := existsb (String.eqb (lr_vm_id vm)) running in
  do! known <- se_gets known_ids ;
  do! rep <- restart_all x (List.filter (fun vm => negb (here vm)) vms)
    {| sw_recovered := length (List.filter here vms); sw_restarted := 0; sw_orphans := 0; sw_lost := 0;
       sw_failed := 0 |} ;
  do! n <- sweep_orphans x known ;
  se_ret {| sw_recovered := sw_recovered rep; sw_restarted := sw_restarted rep; sw_orphans := n;
            sw_lost := sw_lost rep; sw_failed := sw_failed rep |}.
End sweep.
