(* ===== verification/AgentMain.v ===== *)
(** * The agent's session (crates/basis-agent/src/main.rs)

    Registration, the handshake, and applying a reconcile command with its
    tombstones. The BGP speaker is a parameter. *)

From S2P Require Import Prelude Ipv4 Ipnet Proto DbTypes Hosts Vms Ctl Agent Text Host Lvm Gpu Net Dataplane Image HostVm.

(** ** Capacity on the wire *)

Definition pool_capacity_to_proto (p : HostPoolCapacity) : PoolCapacity := {|
  pcap_pool := hc_pool p; pcap_backend := pool_backend_as_str (hc_backend p); pcap_labels := hc_labels p;
  pcap_configured_total_bytes := hc_configured_total_bytes p;
  pcap_ready_total_bytes := hc_ready_total_bytes p;
  pcap_schedulable_total_bytes := hc_schedulable_total_bytes p;
  pcap_schedulable_free_bytes := hc_schedulable_free_bytes p;
  pcap_devices := map (fun d => {|
    dc_device_id := dv_id d; dc_total_bytes := as_u64 (dv_total_gib d * GIB);
    dc_free_bytes := as_u64 (dv_free_gib d * GIB);
    dc_physical := device_health_num (health_as_proto (dv_physical d));
    dc_physical_reason := dv_physical_reason d |}) (hc_devices p) |}.
Definition storage_capacity_to_proto (c : HostStorageCapacity) : StorageCapacity := {|
  sc_rootfs := Some {| rc_total_bytes := rb_total (hs_rootfs c); rc_free_bytes := rb_free (hs_rootfs c);
                       rc_metadata_total_bytes := rb_metadata_total (hs_rootfs c);
                       rc_metadata_free_bytes := rb_metadata_free (hs_rootfs c) |};
  sc_pools := map pool_capacity_to_proto (hs_pools c) |}.

(** [Speaker::update_routes] of bgp.rs, which talks to gobgpd; [false] on an
    error. *)
Class Speaker `{H : Host} `{I : Ipnet} := {
  update_routes : list Ipv4Net -> World -> World * bool;
  (** [Speaker::start]. *)
  speaker_start : Z -> string -> string -> World -> World * bool;
}.

(** What [AgentRuntime] fixes for a session, beside the handles of the VM
    operations. *)
Record SessionCtx := {
  sx_vm : VmHandlerCtx;
  sx_hostname : string;
  sx_total_cpu : Z;
  sx_total_memory_mib : Z;
  sx_gpus : list GpuInfo;
  sx_vtep_address : string;
  sx_rank : Z;
  sx_labels : gmap string string;
}.

Section session.
Context `{O : Oci} `{IH : IpnetHosts} `{J : AgentJson} `{Sp : !Speaker}.

Abbreviation AgtM A := (SE Agt AgentError A).

(** ** Reconcile *)

(** The tombstones of a kind: those that succeeded are acknowledged. *)
Fixpoint apply_each {A B} (apply : A -> AgtM unit) (key : A -> B) (ts : list A) : AgtM (list B) :=
  match ts with
  | [] => se_ret []
  | t :: ts' =>
      do! r <- se_try (F:=AgentError) (apply t) ;
      do! rest <- apply_each apply key ts' ;
      se_ret (if is_ok r then key t :: rest else rest)
  end.

(** The prefixes announced: every parseable LAN VIP of the command. *)
Definition announced (clusters : list ClusterState) : list Ipv4Net :=
  omap (fun v => net_parse (cv_cidr v)) (concat (map cs_cluster_vips clusters)).

(** [apply_reconcile]; [bgp] says whether the speaker is up. *)
Definition apply_reconcile (x : VmHandlerCtx) (bgp : bool) (cmd : ReconcileHostCommand) : AgtM unit :=
  run! se_map_err AeNet (reconcile (hx_net x) (rc_clusters cmd)) ;
  do! vnis <- apply_each (fun t => se_map_err AeNet (tombstone_cluster (hx_net x) (ct_vni t) (ct_cidr t)))
                ct_vni (rc_cluster_tombstones cmd) ;
  do! vms <- apply_each (delete_vm x) (fun vm => vm) (rc_vm_tombstones cmd) ;
  run! (match vnis, vms with
        | [], [] => se_ret tt
        | _, _ => run! se_try (F:=AgentError) (send (hx_open x) (MsgTombstoneAck vnis vms)) ; se_ret tt
        end) ;
  if bgp then run! world (update_routes (announced (rc_clusters cmd))) ; se_ret tt else se_ret tt.

(** ** Registration *)

(** [send_register]: an inventory that cannot be read is sent empty. *)
Definition send_register (x : SessionCtx) (capacity : HostStorageCapacity) : AgtM unit :=
  do! vms <- se_gets (fun s => map lr_vm_id (local_vms (at_db s))) ;
  do! inv <- se_try (F:=AgentError) inventory ;
  let clusters := match inv with
                  | Ok pairs => map (fun p => {| inv_vni := fst p; inv_cidr := snd p |}) pairs
                  | Err _ => []
                  end in
  send (hx_open (sx_vm x)) (MsgRegister {|
    rg_hostname := sx_hostname x; rg_total_cpu := sx_total_cpu x; rg_total_memory_mib := sx_total_memory_mib x;
    rg_storage_capacity := Some (storage_capacity_to_proto capacity); rg_gpus := sx_gpus x;
    rg_vtep_address := sx_vtep_address x; rg_rank := sx_rank x; rg_labels := sx_labels x;
    rg_current_inventory := Some {| inv_vm_ids := vms; inv_clusters := clusters |} |}).

(** [handshake] on the first command of the stream; whether the speaker is
    up afterwards. *)
Definition handshake (x : SessionCtx) (bgp : bool) (first : option ControllerCommand) : AgtM bool :=
  match first with
  | Some (RegisterAck ack) =>
      run! se_modify (set_agent_db (set_host_id (rr_host_id ack))) ;
      run! se_modify (set_self (fun _ => rr_host_id ack)) ;
      run! apply_reconcile (sx_vm x) bgp (rr_initial_state ack) ;
      match ip_parse (sx_vtep_address x), ip_parse (rr_bgp_reflector_address ack) with
      | Some _, Some _ =>
          if bgp then se_ret true
          else do! up <- world (speaker_start (rr_bgp_asn ack) (sx_vtep_address x) (rr_bgp_reflector_address ack)) ;
               se_ret up
      | _, _ => se_fail (Bail "not a valid IPv4 address")
      end
  | _ => se_fail (Bail "expected RegisterHostResponse as first command")
  end.

(** One command of [process_inbound]; each is a task of its own in the code. *)
Definition process_command (x : VmHandlerCtx) (bgp : bool) (now : string) (text : AgentError -> string)
    (cmd : ControllerCommand) : AgtM unit :=
  match cmd with
  | RegisterAck _ => se_ret tt
  | CreateVm _ create => spawn_create x create now text
  | ReconcileHost c => run! se_try (F:=AgentError) (apply_reconcile x bgp c) ; se_ret tt
  end.
End session.
