(* ===== verification/AgentStart.v ===== *)
(** * The agent process (crates/basis-agent/src/main.rs)

    Starting up, reloading the configuration, and the process as a transition
    system: the main loop with its session, the tasks that outlive a session,
    and the tasks of the commands that were received. A task is one step; the
    code runs tasks concurrently, so steps come in any order. *)

From S2P Require Import Prelude Ipv4 Ipnet Proto Config Overcommit DbTypes Hosts Vms Scheduler Ctl Agent Text Host Lvm Resources Nvlink Capacity Gpu Net Dataplane Image HostVm Sweep AgentMain.

(** ** The runtime *)

(** [AgentRuntime]: what [initialize_runtime] found, the configuration, the
    last capacity read, and the cancellation tokens ([art_token] is the one of
    [reconnect_signal]). *)
Record AgentRuntime := {
  art_session : SessionCtx;
  art_spec : HostSpec;
  art_capacity : HostStorageCapacity;
  art_token : nat;
  art_cancelled : gset nat;
  art_bgp : bool;
}.
Definition set_capacity (c : HostStorageCapacity) (rt : AgentRuntime) : AgentRuntime := {|
  art_session := art_session rt; art_spec := art_spec rt; art_capacity := c; art_token := art_token rt;
  art_cancelled := art_cancelled rt; art_bgp := art_bgp rt |}.
Definition set_bgp (b : bool) (rt : AgentRuntime) : AgentRuntime := {|
  art_session := art_session rt; art_spec := art_spec rt; art_capacity := art_capacity rt; art_token := art_token rt;
  art_cancelled := art_cancelled rt; art_bgp := b |}.
Definition with_endpoint (e : string) (h : HostSpec) : HostSpec := {|
  hsp_controller_endpoint := e; hsp_data_dir := hsp_data_dir h; hsp_network := hsp_network h;
  hsp_storage := hsp_storage h; hsp_tls := hsp_tls h; hsp_registries := hsp_registries h;
  hsp_metrics_listen := hsp_metrics_listen h; hsp_gobgpd_endpoint := hsp_gobgpd_endpoint h;
  hsp_rank := hsp_rank h; hsp_labels := hsp_labels h |}.
(** Cancel the current token and take a new one. *)
Definition reconnect_to (e : string) (rt : AgentRuntime) : AgentRuntime := {|
  art_session := art_session rt; art_spec := with_endpoint e (art_spec rt); art_capacity := art_capacity rt;
  art_token := S (art_token rt); art_cancelled := {[art_token rt]} ∪ art_cancelled rt; art_bgp := art_bgp rt |}.

(** The handlers' context with the stream open or closed. *)
Definition with_open (b : bool) (x : VmHandlerCtx) : VmHandlerCtx := {|
  hx_vms_dir := hx_vms_dir x; hx_image_mgr := hx_image_mgr x; hx_storage := hx_storage x; hx_net := hx_net x;
  hx_open := b |}.
Definition vm_ctx (b : bool) (rt : AgentRuntime) : VmHandlerCtx := with_open b (sx_vm (art_session rt)).
Definition session_ctx (rt : AgentRuntime) : SessionCtx :=
  let x := art_session rt in {|
  sx_vm := vm_ctx true rt; sx_hostname := sx_hostname x; sx_total_cpu := sx_total_cpu x;
  sx_total_memory_mib := sx_total_memory_mib x; sx_gpus := sx_gpus x; sx_vtep_address := sx_vtep_address x;
  sx_rank := sx_rank x; sx_labels := sx_labels x |}.

Section start.
Context `{O : Oci} `{IH : IpnetHosts} `{J : AgentJson} `{Sp : !Speaker} `{Y : ConfigYaml HostSpec ControllerSpec}.

Abbreviation AgtM A := (SE Agt AgentError A).

(** ** Startup *)

Definition make_dir (p : string) : AgtM unit :=
  do! ok <- world (create_dir_all p) ; if ok : bool then se_ret tt else se_fail AeIo.
(** [spec.registries] as a map: a later entry for a host replaces an earlier. *)
Definition registry_auth (rs : list RegistryCredentials) : gmap string (string * string) :=
  foldl (fun m r => <[rgc_host r := (rgc_username r, rgc_password r)]> m) ∅ rs.

(** The checks of [try_join!]; they read the host, here one after the other. *)
Definition preflight (st : Storage) (uplink : UplinkBridge) : AgtM (HostStorageCapacity * string) :=
  do! capacity <- se_map_err AeLvm (storage_validate st) ;
  do! iso_tool <- se_map_err AeImage validate_tools ;
  run! se_map_err AeGpu validate_iommu ;
  run! se_map_err AeNet (validate_uplink uplink) ;
  se_ret (capacity, iso_tool).

(** [initialize_runtime]; the database file is opened with what it holds. *)
Definition initialize_runtime (parallelism : option Z) (host : ResourceOf HostSpec) : AgtM AgentRuntime :=
  let spec := res_spec host in
  let images_dir := path_join (hsp_data_dir spec) "images" in
  let vms_dir := path_join (hsp_data_dir spec) "vms" in
  run! make_dir (hsp_data_dir spec) ;
  run! make_dir images_dir ;
  run! make_dir vms_dir ;
  do! probe <- se_map_err AeNet (probe_uplink (nsp_bridge (hsp_network spec))) ;
  let uplink := {| ub_bridge_name := nsp_bridge (hsp_network spec);
                   ub_physical_nic := nsp_physical_nic (hsp_network spec); ub_uplink_mtu := up_mtu probe |} in
  let net := {| cm_vtep_address := up_vtep_address probe; cm_uplink_mtu := up_mtu probe;
                cm_uplink_bridge := nsp_bridge (hsp_network spec) |} in
  do! st <- se_of (ok_or (Bail "storage spec was not validated") (from_host_spec (hsp_storage spec))) ;
  do! checked <- preflight st uplink ;
  run! se_map_err AeNet (ensure_uplink_bridge uplink) ;
  do! images <- se_map_err AeImage (image_mgr_with_auth images_dir (registry_auth (hsp_registries spec)) (snd checked)) ;
  let x := {| hx_vms_dir := vms_dir; hx_image_mgr := images; hx_storage := st; hx_net := net; hx_open := false |} in
  run! reconcile_on_startup x ;
  do! mem <- se_gets (fun s => total_memory_mib (at_world s)) ;
  do! gpus <- se_map_err AeGpu discover_gpus ;
  se_ret {|
    art_session := {| sx_vm := x; sx_hostname := res_name host; sx_total_cpu := num_cpus parallelism;
                      sx_total_memory_mib := mem; sx_gpus := gpus; sx_vtep_address := up_vtep_address probe;
                      sx_rank := hsp_rank spec; sx_labels := hsp_labels spec |};
    art_spec := spec; art_capacity := fst checked; art_token := 0; art_cancelled := ∅; art_bgp := false |}.

(** A new process: the machine and the database as they are, no memory. *)
Definition fresh_process (s : Agt) : Agt := {|
  at_world := at_world s; at_db := at_db s; at_tracked := ∅; at_pending := ∅; at_host_id := ""; at_live := ∅;
  at_sent := at_sent s |}.

(** ** Reload *)

(** [reload_config]: of what changed, only the endpoint is taken over. *)
Definition reload_config (read : string -> option string) (path : string) (rt : AgentRuntime)
    : result ResourceError AgentRuntime :=
  match load_host read path with
  | Err e => Err e
  | Ok host =>
      let endpoint := hsp_controller_endpoint (res_spec host) in
      if endpoint <>$ hsp_controller_endpoint (art_spec rt) then Ok (reconnect_to endpoint rt) else Ok rt
  end.

(** ** The process *)

(** The main loop: the process is down, between sessions, about to dial with a
    token taken, dialling an endpoint, or in a session. *)
Inductive Session :=
  | Down
  | Between
  | Dialling (token : nat)
  | Dialled (token : nat) (endpoint : string)
  | InSession (token : nat) (endpoint : string).

Record Proc := { pr_rt : AgentRuntime; pr_agt : Agt; pr_session : Session }.

(** [run_session] up to its loops: register, the handshake, the first report. *)
Definition session_setup (rt : AgentRuntime) (first : option ControllerCommand) : AgtM bool :=
  run! send_register (session_ctx rt) (art_capacity rt) ;
  do! bgp <- handshake (session_ctx rt) (art_bgp rt) first ;
  run! report_local_vm_states true ;
  se_ret bgp.

(** One tick of [spawn_heartbeat_loop] and of [spawn_storage_capacity_loop];
    the latter may time out instead. *)
Definition heartbeat_tick (rt : AgentRuntime) : AgtM unit :=
  send true (MsgHeartbeat (Some (storage_capacity_to_proto (art_capacity rt)))).
Definition capacity_tick (rt : AgentRuntime) : SE Agt LvmError AgentRuntime :=
  do! c <- storage_capacity (hx_storage (sx_vm (art_session rt))) ; se_ret (set_capacity c rt).
(** One round of [spawn_orphan_sweep_loop]: how many seconds until the next. *)
Definition ORPHAN_SWEEP_IDLE_INTERVAL : Z := 60.
Definition ORPHAN_SWEEP_BUSY_INTERVAL : Z := 5.
Definition sweep_tick (rt : AgentRuntime) : AgtM Z :=
  do! swept <- se_try (F:=AgentError) (periodic_sweep (vm_ctx false rt)) ;
  se_ret (match swept with
          | Ok n => if Nat.eqb n 0 then ORPHAN_SWEEP_IDLE_INTERVAL else ORPHAN_SWEEP_BUSY_INTERVAL
          | Err _ => ORPHAN_SWEEP_IDLE_INTERVAL
          end).
(** One tick of [spawn_periodic_reconciler]: whether the loop goes on. *)
Definition report_tick (open : bool) : AgtM bool :=
  do! r <- se_try (F:=AgentError) (report_local_vm_states open) ;
  se_ret (match r with Err ChannelClosed => false | _ => true end).

Lemma sweep_tick_state rt s : fst (sweep_tick rt s) = fst (periodic_sweep (vm_ctx false rt) s).
Proof. unfold sweep_tick, se_bind, se_try. by destruct (periodic_sweep _ s). Qed.
Lemma report_tick_state open s : fst (report_tick open s) = fst (report_local_vm_states open s).
Proof. unfold report_tick, se_bind, se_try. by destruct (report_local_vm_states open s) as [s' r]. Qed.
End start.
