(* ===== verification/Bgp.v ===== *)
(** * BGP on the controller and on a host (crates/basis-controller/src/bgp.rs,
      crates/basis-agent/src/bgp.rs, bgp_routes.rs)

    The controller is the cell's route reflector: three reconcilers mirror the
    database into the daemon's neighbors, into its import policy and into a
    firewall. A host announces the LAN addresses of the clusters it carries
    and turns the routes it learns into kernel routes. *)

From Stdlib Require Import Ascii.
From S2P Require Import Prelude Ipv4 Ipnet CidrNet Proto Config Overcommit DbTypes JsonText Ipam Clusters Hosts Vms Text HashName IpAddr Gobgp Host Net Dataplane AgentMain.

(** ** Route reflector *)

Record ReflectorConfig := { rf_asn : Z; rf_router_id : Z }.

(** A list folded into a map of clusters, VM by VM: [nodes.push]. *)
Definition push_node (vm : VmRow) (m : gmap string ClusterIngress) : gmap string ClusterIngress :=
  match ip_addr_parse (vm_ip_address vm) with
  | None => m
  | Some addr =>
      alter (fun c => {| ci_ingress_id := ci_ingress_id c; ci_allowed_prefixes := ci_allowed_prefixes c;
                         ci_nodes := ci_nodes c ++ [addr] |}) (vm_cluster_id vm) m
  end.

(** The prefixes the nodes of a cluster may announce. *)
Definition endpoint_host (c : ClusterRow) : string :=
  match rsplit_once ":"%char (c_control_plane_endpoint c) with
  | Some (h, _) => h
  | None => c_control_plane_endpoint c
  end.
Definition allowed_prefixes (c : ClusterRow) : list string :=
  (if c_cidr c =$ "" then [] else [c_cidr c]) ++
  (if c_service_block_cidr c =$ "" then [] else [c_service_block_cidr c]) ++
  (if is_apiserver_public c && (c_control_plane_endpoint c <>$ "")
   then match ip_addr_parse (endpoint_host c) with
        | Some addr => [ip_addr_to_string addr +:+ "/32"]
        | None => []
        end
   else []).

(** [compute_ingress_policy]. *)
Definition compute_ingress_policy : DbM IngressPolicySpec :=
  do! hosts <- list_hosts ;
  do! clusters <- list_clusters ;
  do! vms <- list_vms None ;
  let empty := foldl (fun m c => <[c_id c := {| ci_ingress_id := c_id c; ci_allowed_prefixes := allowed_prefixes c;
                                               ci_nodes := [] |}]> m) (∅ : gmap string ClusterIngress) clusters in
  let full := foldl (fun m vm => push_node vm m) empty vms in
  se_ret {| ip_clusters := map snd (map_to_list full);
            ip_hypervisors := omap (fun h => ip_addr_parse (h_vtep_address h)) hosts |}.

(** [legitimate_sources]. *)
Definition legitimate_sources : DbM (gset IpAddr) :=
  do! hosts <- list_hosts ;
  do! vms <- list_vms None ;
  se_ret (list_to_set (omap (fun h => ip_addr_parse (h_vtep_address h)) hosts ++
                       omap (fun v => ip_addr_parse (vm_ip_address v)) vms)).

(** [render_acl_ruleset]. *)
Definition NFT_TABLE : string := "basis_bgp".
Definition NFT_CHAIN : string := "input".
Definition nl : string := String LF "".
Definition render_acl_ruleset (allowed : gset IpAddr) : string :=
  let v4 := omap (fun a => match a with V4 v => Some (ip_to_string v) | V6 _ => None end) (ip_btree allowed) in
  "add table inet " +:+ NFT_TABLE +:+ nl +:+
  "flush table inet " +:+ NFT_TABLE +:+ nl +:+
  "table inet " +:+ NFT_TABLE +:+ " {" +:+ nl +:+
  "    chain " +:+ NFT_CHAIN +:+ " { type filter hook input priority -100; policy accept;" +:+ nl +:+
  (if bool_decide (v4 = []) then ""
   else "        ip saddr { " +:+ join ", " v4 +:+ " } tcp dport 179 accept" +:+ nl) +:+
  "        tcp dport 179 drop" +:+ nl +:+ "    }" +:+ nl +:+ "}" +:+ nl.

Section reflector.
Context `{G : Gobgp} `{I : Ipnet} `{I6 : Ipnet6}.

(** What the reconcilers see: the database and the local daemon. *)
Record Rr := { rr_db : Db; rr_gobgp : GWorld }.
Abbreviation RrM A := (SE Rr BgpError A).

Definition rr_read {A} (m : DbM A) : RrM A :=
  fun s => let '(db, r) := m (rr_db s) in
           ({| rr_db := db; rr_gobgp := rr_gobgp s |}, map_err (fun _ => BgpDb) r).
Definition rr_call {A} (m : SE GWorld BgpError A) : RrM A :=
  fun s => let '(w, r) := m (rr_gobgp s) in ({| rr_db := rr_db s; rr_gobgp := w |}, r).

(** [Reflector::ensure_running], [update_peers] and [update_ingress_policy]. *)
Definition reflector_ensure_running (cfg : ReflectorConfig) : SE GWorld BgpError unit :=
  start_bgp (rf_asn cfg) (rf_router_id cfg) [Ipv4Unicast].
Definition update_peers (cfg : ReflectorConfig) (peers : list PeerSpec) : SE GWorld BgpError unit :=
  run! reflector_ensure_running cfg ; reconcile_peers peers true.
Definition update_ingress_policy (cfg : ReflectorConfig) (spec : IngressPolicySpec) : SE GWorld BgpError unit :=
  run! reflector_ensure_running cfg ; reconcile_ingress_policy spec.

(** One tick of [peer_reconciler] and of [policy_reconciler]. *)
Definition peer_specs (cfg : ReflectorConfig) (sources : gset IpAddr) : list PeerSpec :=
  map (fun a => {| ps_address := a; ps_asn := rf_asn cfg |})
    (List.filter (fun a => negb (bool_decide (a = V4 (rf_router_id cfg)))) (ip_btree sources)).
Definition peer_tick (cfg : ReflectorConfig) : RrM unit :=
  do! sources <- rr_read legitimate_sources ;
  rr_call (update_peers cfg (peer_specs cfg sources)).
Definition policy_tick (cfg : ReflectorConfig) : RrM unit :=
  do! spec <- rr_read compute_ingress_policy ;
  rr_call (update_ingress_policy cfg spec).

(** [reconcile_loop]: an error is logged and the next tick tries again. *)
Fixpoint reconcile_loop (ticks : nat) (apply : RrM unit) (s : Rr) : Rr :=
  match ticks with
  | O => s
  | S n => reconcile_loop n apply (fst (apply s))
  end.
End reflector.

(** [acl_reconciler]: one tick, with [nft -f -] as a parameter. *)
Definition acl_tick {W} (nft : string -> W -> W * bool) (s : Db * W) : Db * W * result BgpError unit :=
  let '(db, w) := s in
  match legitimate_sources db with
  | (db', Err _) => (db', w, Err BgpDb)
  | (db', Ok allowed) =>
      let '(w', ok) := nft (render_acl_ruleset allowed) w in
      (db', w', if ok : bool then Ok tt else Err (RpcFailed "nft"))
  end.

(** ** Host speaker (bgp.rs) *)

Record SpeakerConfig := { sp_asn : Z; sp_router_id : Z; sp_reflector_address : Z; sp_endpoint : string }.

Section speaker.
Context `{G : Gobgp} `{I : Ipnet}.

Definition speaker_ensure_running (cfg : SpeakerConfig) : SE GWorld BgpError unit :=
  run! start_bgp (sp_asn cfg) (sp_router_id cfg) [Ipv4Unicast] ;
  if sp_router_id cfg =? sp_reflector_address cfg then se_ret tt
  else reconcile_peers [{| ps_address := V4 (sp_reflector_address cfg); ps_asn := sp_asn cfg |}] false.
(** [Speaker::start]. *)
Definition start_speaker (cfg : SpeakerConfig) : SE GWorld BgpError unit :=
  run! rpc "connect" (gobgp_connect (sp_endpoint cfg)) ; speaker_ensure_running cfg.
(** [Speaker::update_routes]. *)
Definition speaker_update_routes (cfg : SpeakerConfig) (prefixes : list Ipv4Net) : SE GWorld BgpError unit :=
  run! speaker_ensure_running cfg ;
  reconcile_ipv4_paths (map net_to_string prefixes) (sp_router_id cfg).
End speaker.

(** The daemon is a part of the host. *)
Class HostGobgp `{H : Host} `{G : Gobgp} := {
  gobgp_of : World -> GWorld;
  with_gobgp : GWorld -> World -> World;
}.

Section host.
Context `{H : Host} `{G : Gobgp} `{HG : !HostGobgp} `{I : Ipnet}.

Definition on_gobgp {A} (m : SE GWorld BgpError A) (w : World) : World * result BgpError A :=
  let '(g, r) := m (gobgp_of w) in (with_gobgp g w, r).

(** The agent's speaker, as the session uses it. *)
Definition gobgp_speaker (cfg : SpeakerConfig) : Speaker := {|
  update_routes rs w := let '(w', r) := on_gobgp (speaker_update_routes cfg rs) w in (w', is_ok r);
  speaker_start asn router reflector w :=
    match ip_parse router, ip_parse reflector with
    | Some id, Some rr =>
        let '(w', r) := on_gobgp (start_speaker {| sp_asn := asn; sp_router_id := id;
                                                   sp_reflector_address := rr;
                                                   sp_endpoint := sp_endpoint cfg |}) w in (w', is_ok r)
    | _, _ => (w, false)
    end |}.

(** ** Learned routes (bgp_routes.rs) *)

(** The kernel routes of one event. The networks of live clusters are IPv4, so
    an IPv6 next hop is in none of them. *)
Definition apply_learned (r : LearnedRoute) : SE Agt NetworkError unit :=
  match lr_next_hop r with
  | V6 _ => se_ret tt
  | V4 nh => if lr_is_withdraw r then withdraw_learned_route (lr_prefix r) nh
             else install_learned_route (lr_prefix r) nh
  end.

(** The loop of [watch_once]: each route of the stream, errors logged. *)
Fixpoint consume (fuel : nat) (st : LearnedRouteStream) : SE Agt NetworkError unit :=
  match fuel with
  | O => se_ret tt
  | S fuel' =>
      match stream_next st with
      | (_, None) => se_ret tt
      | (st', Some r) =>
          run! se_try (F:=NetworkError) (apply_learned r) ; consume fuel' st'
      end
  end.

(** The paths a stream can still give. *)
Definition stream_size (st : LearnedRouteStream) : nat :=
  length (ls_buffered st) +
  sum_list_with (fun i => match i with Some (Some (EventTable ps)) => length ps | _ => 0%nat end) (ls_inner st).

Definition watch_once (endpoint : string) : SE Agt NetworkError (result BgpError unit) :=
  fun s =>
    let '(w, r) := on_gobgp (run! rpc "connect" (gobgp_connect endpoint) ; watch_paths) (at_world s) in
    match r with
    | Err e => (set_world (fun _ => w) s, Ok (Err e))
    | Ok st => (run! consume (S (stream_size st)) st ; se_ret (Ok tt)) (set_world (fun _ => w) s)
    end.
End host.
