(* ===== verification/ControllerMain.v ===== *)
(** * The controller process (crates/basis-controller/src/main.rs)

    Loading and checking the configuration, opening the database, bringing up
    the route reflector, and serving; and the life of a controller over any
    number of restarts, with the database as the only thing that survives. *)

From S2P Require Import Prelude Ipv4 Ipnet CidrNet Proto Config Overcommit DbTypes JsonText Ipam Clusters Hosts Vms Teardown Outbox Schema Scheduler Ctl Wire Api Agent Service Text Lvm Resources IpAddr Gobgp Triple Gauges Metrics Bgp.

(** What the process asks of its host: the files it reads, the data directory,
    SQLite and the listening socket. *)
Class ControllerHost := {
  config_text : string -> option string;
  pem_file : string -> option (list Byte.byte);
  make_data_dir : string -> bool;
  (** [connect_with] on both pools, then the tables that are missing *)
  database_opens : string -> bool;
  socket_binds : string -> bool;
}.

Inductive MainError :=
  | MainLoad (e : ResourceError)
  | MainInvalid (e : SpecError)
  | MainDataDir
  | MainDatabase
  | MainMetrics (e : MetricsError DbError)
  | MainReflector (e : BgpError)
  | MainPanicked
  | MainBind
  | MainTls (path : string).

Section main.
Context `{I : Ipnet} `{G : Gobgp} `{Y : ConfigYaml HostSpec ControllerSpec} `{C : ControllerHost}.

Abbreviation MainM A := (SE GWorld MainError A).

(** [Reflector::start]. *)
Definition reflector_start (cfg : ReflectorConfig) (endpoint : string) : SE GWorld BgpError unit :=
  run! rpc "connect" (gobgp_connect endpoint) ; reflector_ensure_running cfg.

(** [TlsConfig::server_config]: the three files are read in turn. *)
Definition tls_files (t : TlsConfig) : result MainError unit :=
  foldr (fun path rest => match pem_file path with Some _ => rest | None => Err (MainTls path) end)
        (Ok tt) [tls_cert t; tls_key t; tls_ca t].

Definition db_path (c : ControllerSpec) : string := path_join (csp_data_dir c) "controller.db".
(** [BgpConfig::router_id_ipv4] panics on a text that is not an address. *)
Definition router_id_ipv4 (b : BgpConfig) : result MainError Z := ok_or MainPanicked (ip_parse (bgc_router_id b)).

(** A server without agents or waiters on a database: [BasisServer::new]. *)
Definition new_server (db : Db) : Ctl := set_db (fun _ => db) ctl_init.

(** [main] up to serving, with the rows the database file holds. *)
Definition controller_main (path : string) (db : Db) : MainM (CtlConfig * Ctl * Series Family) :=
  do! config <- se_of (map_err MainLoad (load_controller config_text path)) ;
  run! se_of (map_err MainInvalid (validate_controller config)) ;
  run! (if make_data_dir (csp_data_dir config) then se_ret tt else se_fail MainDataDir) ;
  run! (if database_opens (db_path config) then se_ret tt else se_fail MainDatabase) ;
  do! metrics <- se_of (map_err MainMetrics (metrics_new (csp_cpu_overcommit_ratio config))) ;
  do! router_id <- se_of (router_id_ipv4 (csp_bgp config)) ;
  run! se_map_err MainReflector (reflector_start {| rf_asn := bgc_asn (csp_bgp config); rf_router_id := router_id |}
                                   (bgc_gobgpd_endpoint (csp_bgp config))) ;
  run! (if socket_binds (csp_listen config) then se_ret tt else se_fail MainBind) ;
  run! se_of (tls_files (csp_tls config)) ;
  se_ret (server_config config, new_server db, metrics).
End main.

(** ** The life of a controller *)

Section life.
Context `{I : Ipnet} `{J : DbJson} `{S : Sqlite} `{HO : HashOrder} `{P : Prost}.
Context `{G : Gobgp} `{Y : ConfigYaml HostSpec ControllerSpec}.

(** Halted, with what the database file holds; or serving. *)
Inductive Controller := Halted (db : Db) | Up (cfg : CtlConfig) (s : Ctl).

Inductive life_step : Controller -> Controller -> Prop :=
  (** a start, with whatever configuration file and host it finds *)
  | life_start (C : ControllerHost) path db w w' cfg s metrics :
      controller_main path db w = (w', Ok (cfg, s, metrics)) -> life_step (Halted db) (Up cfg s)
  | life_serve cfg s s' : ctl_step cfg s s' -> life_step (Up cfg s) (Up cfg s')
  (** a stop or a crash: the memory is lost *)
  | life_stop cfg s : life_step (Up cfg s) (Halted (ctl_db s)).

Lemma controller_main_ok (C : ControllerHost) path db w w' cfg s metrics :
  controller_main path db w = (w', Ok (cfg, s, metrics)) ->
  s = new_server db /\ exists config, load_controller config_text path = Ok config /\
    validate_controller config = Ok tt /\ cfg = server_config config.
Proof.
  unfold controller_main. intros (w1 & config & E1 & H)%se_bind_ok.
  apply se_bind_ok in H as (w2 & [] & E2 & H). do 6 (apply se_bind_ok in H as (? & ? & _ & H)).
  apply se_bind_ok in H as (? & ? & _ & H). injection H as <- <- <- <-. split; [done|]. exists config.
  unfold se_of, map_err in E1, E2. destruct (load_controller config_text path) as [c|]; [|done]. injection E1 as -> ->.
  destruct (validate_controller config) as [[]|]; [|done]. done.
Qed.

(** What holds of a controller at every moment. *)
Definition sound (c : Controller) : Prop :=
  match c with
  | Halted db => db_wf db
  | Up cfg s => db_wf (ctl_db s) /\ exists config, validate_controller config = Ok tt /\ cfg = server_config config
  end.

Lemma life_step_sound c c' : life_step c c' -> sound c -> sound c'.
Proof.
  intros [C path db w w' cfg s metrics E|cfg s s' E|cfg s]; cbn.
  - intros Hdb. apply controller_main_ok in E as (-> & config & _ & Hv & ->). split; [done|]. by exists config.
  - intros [Hdb Hc]. split; [by apply (ctl_step_wf cfg s s')|done].
  - by intros [Hdb _].
Qed.
End life.

