(* ===== verification/BgpFacts.v ===== *)
(** * What the BGP reconcilers guarantee

    Under the documented behaviour of GoBGP ([GobgpLaws]): the neighbor set
    and the announced prefixes after a reconcile, what the import policy
    computed from the database lets through, and the order in which learned
    routes reach the kernel. *)

From Stdlib Require Import Ascii.
From S2P Require Import Prelude Ipv4 Ipnet CidrNet Proto Config Overcommit DbTypes JsonText Ipam Clusters Hosts Vms Text HashName IpAddr Gobgp Host Net Dataplane AgentMain Bgp Triple.

(** The text of a path's prefix, as the daemon lists it. *)
Definition path_text (p : Path) : option string :=
  n ← pa_nlri p; n ← n;
  match n with
  | NlriPrefix ip => Some (ip_prefix_addr ip +:+ "/" +:+ pretty (ip_prefix_len ip))
  | NlriOther => None
  end.

(** ** The daemon *)

Section semantics.
Context `{I : Ipnet}.

Definition within (a n : Ipv4Net) : Prop := forall x, in_net a x -> in_net n x.

(** A prefix set matches an announcement inside one of its entries, with a
    length in the entry's range; a neighbor set of host routes matches the
    addresses it lists. *)
Definition prefix_set_has (ds : DefinedSet) (ann : Ipv4Net) : Prop :=
  exists px n, px ∈ ds_prefixes ds /\ net_parse (px_ip_prefix px) = Some n /\ within ann n /\
    px_mask_length_min px <= net_prefix_len ann <= px_mask_length_max px.
Definition set_named (sets : list DefinedSet) (t : DefinedType) (name : string) (ds : DefinedSet) : Prop :=
  ds ∈ sets /\ ds_type ds = t /\ ds_name ds = name.
Definition statement_matches (sets : list DefinedSet) (peer : IpAddr) (ann : Ipv4Net) (st : Statement) : Prop :=
  (forall n, st_neighbor_set st = Some n ->
     exists ds, set_named sets DefinedNeighbor n ds /\ host_route peer ∈ ds_list ds) /\
  (forall n, st_prefix_set st = Some n ->
     exists ds, set_named sets DefinedPrefix n ds /\ prefix_set_has ds ann).
(** Policies all of whose statements accept, over a default that rejects. *)
Definition accept_list (a : PolicyAssignment) : Prop :=
  as_default_action a = RouteReject /\
  forall p st, p ∈ as_policies a -> st ∈ po_statements p -> st_action st = RouteAccept.
Definition host_sets (sets : list DefinedSet) : Prop :=
  forall ds, ds ∈ sets -> exists l, Forall canonical l /\ ds_list ds = map host_route l.
Definition some_statement (sets : list DefinedSet) (a : PolicyAssignment) (peer : IpAddr) (ann : Ipv4Net) : Prop :=
  exists p st, p ∈ as_policies a /\ st ∈ po_statements p /\ statement_matches sets peer ann st.
End semantics.

(** What GoBGP v4 is documented to do with each call. A call that fails
    changes nothing. *)
Class GobgpLaws `(G : Gobgp) `{I : Ipnet} := {
  g_peers : GWorld -> gset string;
  (** prefixes of the global table that this daemon originates, and those it
      learned from its peers *)
  g_local : GWorld -> gset string;
  g_learned : GWorld -> gset string;
  g_sets : GWorld -> list DefinedSet;
  g_import : GWorld -> option PolicyAssignment;
  g_accepts : GWorld -> IpAddr -> Ipv4Net -> bool;
  g_routes w := (g_peers w, g_local w, g_learned w);
  g_policy w := (g_sets w, g_import w);
  (** reads *)
  g_get_bgp w : g_routes (fst (get_bgp w)) = g_routes w /\ g_policy (fst (get_bgp w)) = g_policy w;
  g_list_path f w :
    g_routes (fst (list_path f w)) = g_routes w /\ g_policy (fst (list_path f w)) = g_policy w;
  g_list_path_items w l xs name :
    snd (list_path (to_family Ipv4Unicast) w) = Some l -> items name l = Ok xs ->
    list_to_set (omap (fun o => o) xs) = g_local w ∪ g_learned w;
  g_list_peer w : g_routes (fst (list_peer w)) = g_routes w /\ g_policy (fst (list_peer w)) = g_policy w;
  g_list_peer_items w l xs name :
    snd (list_peer w) = Some l -> items name l = Ok xs ->
    list_to_set (omap (fun o => o) xs) = g_peers w;
  (** writes *)
  g_start_bgp c w : g_routes (fst (start_bgp_rpc c w)) = g_routes w /\ g_policy (fst (start_bgp_rpc c w)) = g_policy w;
  g_add_peer p w :
    g_routes (fst (add_peer p w)) =
      (if snd (add_peer p w) then {[bp_neighbor_address p]} ∪ g_peers w else g_peers w, g_local w, g_learned w) /\
    g_policy (fst (add_peer p w)) = g_policy w;
  g_delete_peer a w :
    g_routes (fst (delete_peer a w)) =
      (if snd (delete_peer a w) then g_peers w ∖ {[a]} else g_peers w, g_local w, g_learned w) /\
    g_policy (fst (delete_peer a w)) = g_policy w;
  g_add_path p t w :
    path_text p = Some t ->
    g_routes (fst (add_path p w)) =
      (g_peers w, if snd (add_path p w) then {[t]} ∪ g_local w else g_local w, g_learned w) /\
    g_policy (fst (add_path p w)) = g_policy w;
  g_delete_path p t w :
    path_text p = Some t ->
    g_routes (fst (delete_path p w)) =
      (g_peers w, if snd (delete_path p w) then g_local w ∖ {[t]} else g_local w, g_learned w) /\
    g_policy (fst (delete_path p w)) = g_policy w;
  (** the assignments outlive a replacement of the policies *)
  g_set_policies ds ps w :
    g_policy (fst (set_policies ds ps w)) = (if snd (set_policies ds ps w) then ds else g_sets w, g_import w);
  g_delete_assignment a w :
    g_policy (fst (delete_policy_assignment a true w)) =
      (g_sets w, if snd (delete_policy_assignment a true w) then None else g_import w);
  (** an assignment is extended, but not by a policy it already has *)
  g_add_assignment a w :
    g_import w = None ->
    g_policy (fst (add_policy_assignment a w)) =
      (g_sets w, if snd (add_policy_assignment a w) then Some a else g_import w);
  g_add_duplicate a old p q w :
    g_import w = Some old -> p ∈ as_policies a -> q ∈ as_policies old -> po_name p = po_name q ->
    snd (add_policy_assignment a w) = false /\ g_policy (fst (add_policy_assignment a w)) = g_policy w;
  (** the import policy *)
  g_accepts_listed w a peer ann :
    g_import w = Some a -> accept_list a -> host_sets (g_sets w) -> canonical peer ->
    g_accepts w peer ann = true <-> some_statement (g_sets w) a peer ann;
}.

Class Ipnet6Laws `(I6 : Ipnet6) `{I : Ipnet} := {
  net6_not_v4 raw t l : net6_parse raw = Some (t, l) -> net_parse t = None;
}.

(** ** Calls and their effect *)

Section routes.
Context `{L : GobgpLaws}.

Definition show_set (l : list IpAddr) : gset string := list_to_set (map ip_addr_to_string l).

Lemma elem_of_show_set l t : t ∈ show_set l <-> exists a, a ∈ l /\ t = ip_addr_to_string a.
Proof. unfold show_set. rewrite elem_of_list_to_set, list_elem_of_fmap. naive_solver. Qed.

(** Components of [g_routes]. *)
Lemma routes_eq w w' : g_routes w' = g_routes w -> g_peers w' = g_peers w /\ g_local w' = g_local w /\ g_learned w' = g_learned w.
Proof. by intros [= -> -> ->]. Qed.

Lemma rpc_ok name call w : rpc name call w = (fst (call w), if snd (call w) then Ok tt else Err (RpcFailed name)).
Proof. unfold rpc. by destruct (call w). Qed.

Lemma fixes_start {T} (f : GWorld -> T) asn rid fs :
  (forall w, f (fst (get_bgp w)) = f w) -> (forall fam w, f (fst (list_path fam w)) = f w) ->
  (forall c w, f (fst (start_bgp_rpc c w)) = f w) ->
  fixes f (start_bgp asn rid fs).
Proof.
  intros Hg Hl Hs. unfold start_bgp. apply fixes_bind.
  - intros w. unfold has_running_bgp_with. pose proof (Hg w) as H1. destruct (get_bgp w) as [w1 r]. simpl in H1.
    destruct r as [[[a id]|]|]; [|done..]. destruct (_ || _); [done|]. rewrite <- H1.
    clear -Hl. revert w1. induction fs as [|fam fs IH]; intros w; [done|]. simpl.
    pose proof (Hl (to_family fam) w) as H2. destruct (list_path (to_family fam) w) as [w2 [l|]]; [|done].
    simpl in H2. by rewrite IH.
  - intros []; [apply fixes_ret|]. intros w. rewrite rpc_ok. apply Hs.
Qed.

Lemma fixes_routes_start asn rid fs : fixes g_routes (start_bgp asn rid fs).
Proof. apply fixes_start; intros; [apply g_get_bgp|apply g_list_path|apply g_start_bgp]. Qed.

Lemma fixes_policy_start asn rid fs : fixes g_policy (start_bgp asn rid fs).
Proof. apply fixes_start; intros; [apply g_get_bgp|apply g_list_path|apply g_start_bgp]. Qed.

(** Listing peers and prefixes. *)
Lemma list_peers_triple P T :
  triple (fun w => g_peers w = P /\ g_routes w = T) list_peer_addresses
    (fun cur w => g_routes w = T /\ forall a, a ∈ cur <-> exists t, t ∈ P /\ ip_addr_parse t = Some a)
    (fun w => g_routes w = T).
Proof.
  intros w [<- <-]. unfold list_peer_addresses, rpc_stream, se_bind.
  pose proof (g_list_peer w) as [H1 _]. destruct (list_peer w) as [w1 r] eqn:E. simpl in *.
  destruct r as [l|]; [|done]. destruct (items "ListPeer" l) as [xs|e] eqn:Ei; [|done]. simpl.
  split; [done|]. intros a. rewrite <- (g_list_peer_items w l xs "ListPeer") by (done || by rewrite E).
  rewrite elem_of_list_to_set, list_elem_of_omap. setoid_rewrite elem_of_list_to_set.
  setoid_rewrite list_elem_of_omap. split.
  - intros ([t|] & Hx & Ha); [|done]. exists t. split; [by exists (Some t)|done].
  - intros (t & (o & Ho & ->) & Ha). by exists (Some t).
Qed.

Lemma list_prefixes_triple T :
  triple (fun w => g_routes w = T) list_ipv4_prefixes
    (fun cur w => g_routes w = T /\ cur = g_local w ∪ g_learned w) (fun w => g_routes w = T).
Proof.
  intros w <-. unfold list_ipv4_prefixes, rpc_stream, se_bind.
  pose proof (g_list_path (to_family Ipv4Unicast) w) as [H1 _].
  destruct (list_path _ w) as [w1 r] eqn:E. simpl in H1.
  destruct r as [l|]; [|done]. destruct (items "ListPath" l) as [xs|e] eqn:Ei; [|done]. simpl.
  split; [done|]. apply routes_eq in H1 as (_ & -> & ->).
  eapply g_list_path_items; [|done]. by rewrite E.
Qed.

(** A loop of calls that each move one element into, or out of, a set. *)
Section converge.
Context {S E A : Type} (view : S -> gset string) (name : A -> string).

Lemma triple_grow (body : A -> SE S E unit) (K : S -> Prop) (P : gset string) l :
  (forall x, x ∈ l -> triple (fun s => K s) (body x) (fun _ s => K s) K) ->
  (forall x s, x ∈ l -> K s ->
     view (fst (body x s)) = if is_ok (snd (body x s)) then {[name x]} ∪ view s else view s) ->
  triple (fun s => K s /\ view s = P) (se_for l body)
    (fun _ s => K s /\ view s = P ∪ list_to_set (map name l))
    (fun s => K s /\ P ⊆ view s /\ view s ⊆ P ∪ list_to_set (map name l)).
Proof.
  revert P. induction l as [|x l IH]; intros P HK Hv; simpl.
  - intros s [Hs <-]. split; [done|]. set_solver.
  - intros s [Hs <-]. unfold se_bind.
    pose proof (HK x ltac:(set_solver) s Hs) as H1. pose proof (Hv x s ltac:(set_solver) Hs) as H2.
    destruct (body x s) as [s1 [[]|e]]; simpl in *.
    + specialize (IH ({[name x]} ∪ view s) ltac:(intros; apply HK; set_solver)
                     ltac:(intros; apply Hv; set_solver) s1 (conj H1 H2)).
      destruct (se_for l body s1) as [s2 [[]|e]].
      * destruct IH as [? ->]. split; [done|]. set_solver.
      * destruct IH as (? & Hl & Hu). split; [done|]. set_solver.
    + rewrite H2. split; [done|]. set_solver.
Qed.

Lemma triple_shrink (body : A -> SE S E unit) (K : S -> Prop) (P : gset string) l :
  (forall x, x ∈ l -> triple (fun s => K s) (body x) (fun _ s => K s) K) ->
  (forall x s, x ∈ l -> K s ->
     view (fst (body x s)) = if is_ok (snd (body x s)) then view s ∖ {[name x]} else view s) ->
  triple (fun s => K s /\ view s = P) (se_for l body)
    (fun _ s => K s /\ view s = P ∖ list_to_set (map name l))
    (fun s => K s /\ P ∖ list_to_set (map name l) ⊆ view s /\ view s ⊆ P).
Proof.
  revert P. induction l as [|x l IH]; intros P HK Hv; simpl.
  - intros s [Hs <-]. split; [done|]. set_solver.
  - intros s [Hs <-]. unfold se_bind.
    pose proof (HK x ltac:(set_solver) s Hs) as H1. pose proof (Hv x s ltac:(set_solver) Hs) as H2.
    destruct (body x s) as [s1 [[]|e]]; simpl in *.
    + specialize (IH (view s ∖ {[name x]}) ltac:(intros; apply HK; set_solver)
                     ltac:(intros; apply Hv; set_solver) s1 (conj H1 H2)).
      destruct (se_for l body s1) as [s2 [[]|e]].
      * destruct IH as [? ->]. split; [done|]. set_solver.
      * destruct IH as (? & Hl & Hu). split; [done|]. set_solver.
    + rewrite H2. split; [done|]. set_solver.
Qed.
End converge.

Lemma converge_sets (P W A D : gset string) :
  A ⊆ W -> (forall t, t ∈ D <-> t ∈ P /\ t ∉ W) -> (forall t, t ∈ W -> t ∈ P ∪ A) -> (P ∪ A) ∖ D = W.
Proof.
  intros HA HD HW. apply set_eq. intros t. specialize (HA t). specialize (HD t). specialize (HW t).
  rewrite elem_of_difference, elem_of_union in *. destruct (decide (t ∈ W)); tauto.
Qed.

(** ** Peers *)

(** The neighbors were configured by address. *)
Definition readable (P : gset string) : Prop :=
  forall t, t ∈ P -> exists a, canonical a /\ t = ip_addr_to_string a.

Lemma add_peer_view spec rr w T : (g_local w, g_learned w) = T ->
  let m := rpc "AddPeer" (add_peer (peer_message spec rr)) in
  g_peers (fst (m w)) = (if is_ok (snd (m w)) then {[ip_addr_to_string (ps_address spec)]} ∪ g_peers w else g_peers w) /\
  (g_local (fst (m w)), g_learned (fst (m w))) = T.
Proof.
  intros <- m. unfold m. rewrite rpc_ok. simpl.
  pose proof (g_add_peer (peer_message spec rr) w) as [[= H1 H2 H3] _].
  rewrite H1, H2, H3. by destruct (snd (add_peer _ w)).
Qed.

Lemma delete_peer_view a w T : (g_local w, g_learned w) = T ->
  let m := rpc "DeletePeer" (delete_peer (ip_addr_to_string a)) in
  g_peers (fst (m w)) = (if is_ok (snd (m w)) then g_peers w ∖ {[ip_addr_to_string a]} else g_peers w) /\
  (g_local (fst (m w)), g_learned (fst (m w))) = T.
Proof.
  intros <- m. unfold m. rewrite rpc_ok. simpl.
  pose proof (g_delete_peer (ip_addr_to_string a) w) as [[= H1 H2 H3] _].
  rewrite H1, H2, H3. by destruct (snd (delete_peer _ w)).
Qed.

(** A call whose view is known keeps the rest in both outcomes. *)
Lemma triple_of_view {S E B} (K : S -> Prop) (m : SE S E B) :
  (forall s, K s -> K (fst (m s))) -> triple K m (fun _ => K) K.
Proof. intros H s Hs. specialize (H s Hs). by destruct (m s) as [s' [a|e]]. Qed.

Definition wanted (desired : list PeerSpec) : gset string := show_set (map ps_address desired).

(** What a listing of the peers gives when their texts are canonical, and
    which peers the two loops add and delete. *)
Section listing.
Context (desired : list PeerSpec) (P : gset string) (cur : gset IpAddr).
Hypothesis Hd : Forall canonical (map ps_address desired).
Hypothesis HP : readable P.
Hypothesis Hcur : forall a, a ∈ cur <-> exists t, t ∈ P /\ ip_addr_parse t = Some a.

Definition to_add : list PeerSpec :=
  List.filter (fun p => negb (bool_decide (ps_address p ∈ cur))) desired.
Definition to_delete : list IpAddr := ip_btree (cur ∖ list_to_set (map ps_address desired)).

Lemma listed_iff a : canonical a -> a ∈ cur <-> ip_addr_to_string a ∈ P.
Proof.
  intros Ha. rewrite Hcur. split; [|intros Hin; by exists (ip_addr_to_string a)].
  intros (t & Hin & Hpa). destruct (HP t Hin) as (a' & Ha' & ->). unfold canonical in Ha'.
  rewrite Hpa in Ha'. by injection Ha' as ->.
Qed.

Lemma listed_canonical a : a ∈ cur -> canonical a.
Proof.
  intros (t & Ht & Hpa)%Hcur. destruct (HP t Ht) as (a' & Ha' & ->).
  unfold canonical in Ha'. rewrite Hpa in Ha'. by injection Ha' as ->.
Qed.

Lemma to_add_wanted :
  list_to_set (map (fun p => ip_addr_to_string (ps_address p)) to_add) ⊆@{gset string} wanted desired.
Proof.
  intros t. rewrite elem_of_list_to_set, list_elem_of_fmap. intros (p & -> & Hin%list_elem_of_In).
  apply filter_In in Hin as [Hin%list_elem_of_In _]. apply elem_of_show_set. eexists. split; [|done].
  apply list_elem_of_fmap. by exists p.
Qed.

Lemma wanted_covered t :
  t ∈ wanted desired -> t ∈ P ∪ list_to_set (map (fun p => ip_addr_to_string (ps_address p)) to_add).
Proof.
  intros (a & (p & -> & Hin)%list_elem_of_fmap & ->)%elem_of_show_set. rewrite Forall_forall in Hd.
  assert (canonical (ps_address p)) as Ha by (apply Hd; apply list_elem_of_fmap; by exists p).
  destruct (decide (ps_address p ∈ cur)) as [Hin'|Hn]; [apply listed_iff in Hin'; set_solver|].
  apply elem_of_union_r, elem_of_list_to_set, list_elem_of_fmap. exists p. split; [done|].
  apply list_elem_of_In, filter_In. split; [by apply list_elem_of_In|]. by apply negb_true_iff, bool_decide_eq_false.
Qed.

Lemma elem_of_to_delete t :
  t ∈ (list_to_set (map ip_addr_to_string to_delete) : gset string) <-> t ∈ P /\ t ∉ wanted desired.
Proof.
  rewrite elem_of_list_to_set, list_elem_of_fmap. unfold wanted. rewrite elem_of_show_set. split.
  - intros (a & -> & [Hin Hn]%elem_of_ip_btree%elem_of_difference).
    pose proof (listed_canonical a Hin) as Ha. split; [by apply listed_iff|].
    intros (b & Hb & E). apply Hn. rewrite elem_of_list_to_set.
    rewrite Forall_forall in Hd. by rewrite (canonical_inj _ _ Ha (Hd _ Hb) E).
  - intros [Hin Hn]. destruct (HP t Hin) as (a & Ha & ->). exists a. split; [done|].
    apply elem_of_ip_btree, elem_of_difference. split; [by apply listed_iff|].
    rewrite elem_of_list_to_set. intros Hb. apply Hn. by exists a.
Qed.
End listing.

Lemma reconcile_peers_triple desired rr P T :
  Forall canonical (map ps_address desired) -> readable P ->
  triple (fun w => g_peers w = P /\ (g_local w, g_learned w) = T) (reconcile_peers desired rr)
    (fun _ w => (g_local w, g_learned w) = T /\ g_peers w = wanted desired)
    (fun w => (g_local w, g_learned w) = T /\ P ∩ wanted desired ⊆ g_peers w /\ g_peers w ⊆ P ∪ wanted desired).
Proof.
  intros Hd HP w [Hp Ht]. unfold reconcile_peers, se_bind.
  pose proof (list_peers_triple P (g_routes w) w (conj Hp eq_refl)) as H1.
  destruct (list_peer_addresses w) as [w1 [cur|e]].
  2:{ apply routes_eq in H1 as (-> & -> & ->). rewrite Hp. split; [done|]. set_solver. }
  destruct H1 as [H1 Hcur]. apply routes_eq in H1 as (Hp1 & Hl1 & Hr1). rewrite Hp in Hp1.
  rewrite <- Hl1, <- Hr1 in Ht. clear Hl1 Hr1.
  change (List.filter _ desired) with (to_add desired cur). change (ip_btree _) with (to_delete desired cur).
  pose proof (triple_grow g_peers (fun p => ip_addr_to_string (ps_address p)) (E:=BgpError)
    (fun spec => rpc "AddPeer" (add_peer (peer_message spec rr)))
    (fun w => (g_local w, g_learned w) = T) P (to_add desired cur)) as Hg.
  specialize (Hg ltac:(intros; apply triple_of_view; intros; by apply add_peer_view)
                 ltac:(intros; by eapply add_peer_view) w1 (conj Ht Hp1)).
  pose proof (to_add_wanted desired cur) as Hadds.
  pose proof (wanted_covered desired P cur Hd HP Hcur) as Hcov.
  pose proof (elem_of_to_delete desired P cur Hd HP Hcur) as Hdels.
  destruct (se_for (to_add _ _) _ w1) as [w2 [[]|e]];
    [|destruct Hg as (? & ? & ?); split; [done|]; clear Hcov Hdels; set_solver].
  destruct Hg as [Ht2 Hp2].
  pose proof (triple_shrink g_peers ip_addr_to_string (E:=BgpError)
    (fun a => rpc "DeletePeer" (delete_peer (ip_addr_to_string a)))
    (fun w => (g_local w, g_learned w) = T) (g_peers w2) (to_delete desired cur)) as Hs.
  specialize (Hs ltac:(intros; apply triple_of_view; intros; by apply delete_peer_view)
                 ltac:(intros; by eapply delete_peer_view) w2 (conj Ht2 eq_refl)).
  pose proof (converge_sets P (wanted desired) _ _ Hadds Hdels Hcov) as Hconv.
  destruct (se_for (to_delete _ _) _ w2) as [w3 [[]|e]].
  - destruct Hs as [? ->]. split; [done|]. by rewrite Hp2.
  - destruct Hs as (? & Hl & Hu). split; [done|]. rewrite Hp2, Hconv in Hl. rewrite Hp2 in Hu.
    split; [|etrans; [exact Hu|]]; clear -Hl Hadds; set_solver.
Qed.

(** ** Paths *)

(** A prefix in the form the daemon lists. *)
Definition tidy (p : string) : Prop :=
  exists a len, split_prefix p = Ok (a, len) /\ ip_addr_to_string a +:+ "/" +:+ pretty len = p.

Lemma tidy_path p nh : tidy p -> exists path, ipv4_unicast_path p nh = Ok path /\ path_text path = Some p.
Proof.
  intros (a & len & E & Ht). unfold ipv4_unicast_path. rewrite E. eexists. split; [done|].
  change (Some (ip_addr_to_string a +:+ "/" +:+ pretty len) = Some p). by rewrite Ht.
Qed.

Definition add_route (nh : Z) (p : string) : SE GWorld BgpError unit :=
  do! path <- se_of (ipv4_unicast_path p nh) ; rpc "AddPath" (add_path path).
Definition del_route (nh : Z) (p : string) : SE GWorld BgpError unit :=
  do! path <- se_of (ipv4_unicast_path p nh) ; rpc "DeletePath" (delete_path path).

Lemma add_route_view nh p w T : tidy p -> (g_peers w, g_learned w) = T ->
  g_local (fst (add_route nh p w)) =
    (if is_ok (snd (add_route nh p w)) then {[p]} ∪ g_local w else g_local w) /\
  (g_peers (fst (add_route nh p w)), g_learned (fst (add_route nh p w))) = T.
Proof.
  intros (path & E & Ht)%(tidy_path p nh) <-. unfold add_route, se_bind, se_of. rewrite E, rpc_ok.
  cbn [fst snd]. pose proof (g_add_path path p w Ht) as [[= H1 H2 H3] _].
  rewrite H1, H2, H3. by destruct (snd (add_path _ w)).
Qed.

Lemma del_route_view nh p w T : tidy p -> (g_peers w, g_learned w) = T ->
  g_local (fst (del_route nh p w)) =
    (if is_ok (snd (del_route nh p w)) then g_local w ∖ {[p]} else g_local w) /\
  (g_peers (fst (del_route nh p w)), g_learned (fst (del_route nh p w))) = T.
Proof.
  intros (path & E & Ht)%(tidy_path p nh) <-. unfold del_route, se_bind, se_of. rewrite E, rpc_ok.
  cbn [fst snd]. pose proof (g_delete_path path p w Ht) as [[= H1 H2 H3] _].
  rewrite H1, H2, H3. by destruct (snd (delete_path _ w)).
Qed.

Lemma elem_of_string_btree X p : p ∈ string_btree X <-> p ∈ X.
Proof. unfold string_btree. by rewrite merge_sort_Permutation, elem_of_elements. Qed.

Lemma string_btree_set X : list_to_set (map (fun p : string => p) (string_btree X)) = X.
Proof. apply set_eq. intros p. rewrite List.map_id, elem_of_list_to_set. apply elem_of_string_btree. Qed.

Lemma reconcile_paths_triple desired nh Lo Le P :
  (forall p, p ∈ desired \/ p ∈ Lo ∪ Le -> tidy p) ->
  let D : gset string := list_to_set desired in
  triple (fun w => g_local w = Lo /\ (g_peers w, g_learned w) = (P, Le)) (reconcile_ipv4_paths desired nh)
    (fun _ w => (g_peers w, g_learned w) = (P, Le) /\ g_local w = D ∖ (Le ∖ Lo))
    (fun w => (g_peers w, g_learned w) = (P, Le) /\ Lo ∩ D ⊆ g_local w /\ g_local w ⊆ Lo ∪ (D ∖ Le)).
Proof.
  intros Hti D w [Hlo Hpe].
  change (reconcile_ipv4_paths desired nh) with
    (do! current <- list_ipv4_prefixes ;
     run! se_for (string_btree (D ∖ current)) (add_route nh) ;
     se_for (string_btree (current ∖ D)) (del_route nh)).
  unfold se_bind at 1.
  pose proof (list_prefixes_triple (g_routes w) w eq_refl) as H1.
  destruct (list_ipv4_prefixes w) as [w1 [cur|e]].
  2:{ apply routes_eq in H1 as (-> & -> & ->). split; [done|]. rewrite Hlo. set_solver. }
  destruct H1 as [H1 ->]. apply routes_eq in H1 as (Hp1 & Hl1 & Hr1).
  rewrite <- Hp1, <- Hr1 in Hpe. rewrite Hlo in Hl1. clear Hp1 Hr1.
  pose proof Hpe as [= HP1 HE1]. rewrite Hl1, HE1.
  set (adds := D ∖ (Lo ∪ Le)). set (dels := (Lo ∪ Le) ∖ D).
  assert (forall p, p ∈ string_btree adds \/ p ∈ string_btree dels -> tidy p) as Ht.
  { intros p Hp. apply Hti. rewrite !elem_of_string_btree in Hp. unfold adds, dels, D in Hp.
    rewrite !elem_of_difference, !elem_of_list_to_set in Hp. tauto. }
  pose proof (triple_grow g_local (fun p : string => p) (E:=BgpError) (add_route nh)
    (fun w => (g_peers w, g_learned w) = (P, Le)) Lo (string_btree adds)) as Hg.
  specialize (Hg ltac:(intros; apply triple_of_view; intros; apply add_route_view; [apply Ht; by left|done])
                 ltac:(intros; eapply add_route_view; [apply Ht; by left|done]) w1 (conj Hpe Hl1)).
  unfold se_bind at 1. rewrite string_btree_set in Hg.
  destruct (se_for (string_btree adds) _ w1) as [w2 [[]|e]].
  2:{ destruct Hg as (? & ? & ?). split; [done|]. unfold adds in *. set_solver. }
  destruct Hg as [Hpe2 Hl2].
  pose proof (triple_shrink g_local (fun p : string => p) (E:=BgpError) (del_route nh)
    (fun w => (g_peers w, g_learned w) = (P, Le)) (g_local w2) (string_btree dels)) as Hs.
  specialize (Hs ltac:(intros; apply triple_of_view; intros; apply del_route_view; [apply Ht; by right|done])
                 ltac:(intros; eapply del_route_view; [apply Ht; by right|done]) w2 (conj Hpe2 eq_refl)).
  rewrite string_btree_set in Hs.
  destruct (se_for (string_btree dels) _ w2) as [w3 [[]|e]].
  - destruct Hs as [? ->]. split; [done|]. rewrite Hl2. unfold adds, dels. apply set_eq. intros t.
    rewrite !elem_of_difference, !elem_of_union, !elem_of_difference.
    destruct (decide (t ∈ D)), (decide (t ∈ Lo)), (decide (t ∈ Le)); set_solver.
  - destruct Hs as (? & Hl & Hu). split; [done|]. rewrite Hl2 in *. unfold adds, dels in *. set_solver.
Qed.

(** ** The reconcilers *)

(** Who may hold a session with the reflector. *)
Definition source (db : Db) (a : IpAddr) : Prop :=
  (exists h, h ∈ hosts db /\ ip_addr_parse (h_vtep_address h) = Some a) \/
  (exists v, v ∈ vms db /\ ip_addr_parse (vm_ip_address v) = Some a).

Lemma legitimate_sources_spec db :
  exists X, legitimate_sources db = (db, Ok X) /\ forall a, a ∈ X <-> source db a.
Proof.
  eexists. split; [done|]. intros a. rewrite elem_of_list_to_set, elem_of_app, !list_elem_of_omap. done.
Qed.

Lemma elem_of_wanted cfg X t :
  t ∈ wanted (peer_specs cfg X) <-> exists a, a ∈ X /\ a <> V4 (rf_router_id cfg) /\ t = ip_addr_to_string a.
Proof.
  unfold wanted. rewrite elem_of_show_set. unfold peer_specs. rewrite List.map_map, List.map_id.
  setoid_rewrite list_elem_of_In. setoid_rewrite filter_In. setoid_rewrite <- list_elem_of_In.
  setoid_rewrite elem_of_ip_btree. setoid_rewrite negb_true_iff. setoid_rewrite bool_decide_eq_false.
  naive_solver.
Qed.

Lemma update_peers_triple cfg desired P T :
  Forall canonical (map ps_address desired) -> readable P ->
  triple (fun w => g_peers w = P /\ (g_local w, g_learned w) = T) (update_peers cfg desired)
    (fun _ w => (g_local w, g_learned w) = T /\ g_peers w = wanted desired)
    (fun w => (g_local w, g_learned w) = T /\ P ∩ wanted desired ⊆ g_peers w /\ g_peers w ⊆ P ∪ wanted desired).
Proof.
  intros Hd HP. unfold update_peers, reflector_ensure_running.
  eapply (triple_bind _ _ _ (fun _ w => g_peers w = P /\ (g_local w, g_learned w) = T));
    [|intros []; by apply reconcile_peers_triple].
  intros w [Hp Ht]. pose proof (fixes_routes_start (rf_asn cfg) (rf_router_id cfg) [Ipv4Unicast] w) as [= H1 H2 H3].
  destruct (start_bgp _ _ _ w) as [w1 [[]|e]]; simpl in *; rewrite H1, H2, H3; [done|].
  split; [done|]. rewrite Hp. set_solver.
Qed.

(** C17: the reflector's neighbors mirror the database. When a tick of the peer
    reconciler succeeds, the daemon's neighbors are exactly the addresses of
    the registered hosts and of the VMs, without the controller's own; when it
    fails at any call, no neighbor that is wanted was dropped and none was
    added that is not. Routes are untouched and the database is only read. *)
Theorem neighbors_mirror_database cfg s :
  readable (g_peers (rr_gobgp s)) -> (forall a, source (rr_db s) a -> canonical a) ->
  let legitimate t := exists a, source (rr_db s) a /\ a <> V4 (rf_router_id cfg) /\ t = ip_addr_to_string a in
  let '(s', r) := peer_tick cfg s in
  rr_db s' = rr_db s /\
  (g_local (rr_gobgp s'), g_learned (rr_gobgp s')) = (g_local (rr_gobgp s), g_learned (rr_gobgp s)) /\
  match r with
  | Ok _ => forall t, t ∈ g_peers (rr_gobgp s') <-> legitimate t
  | Err _ => forall t, (t ∈ g_peers (rr_gobgp s) -> legitimate t -> t ∈ g_peers (rr_gobgp s')) /\
                       (t ∈ g_peers (rr_gobgp s') -> t ∈ g_peers (rr_gobgp s) \/ legitimate t)
  end.
Proof.
  intros HP Hc legitimate. unfold peer_tick, se_bind, rr_read.
  destruct (legitimate_sources_spec (rr_db s)) as (X & E & HX). rewrite E. simpl. unfold rr_call. simpl.
  set (desired := peer_specs cfg X).
  assert (forall t, t ∈ wanted desired <-> legitimate t) as Hw.
  { intros t. unfold desired. rewrite elem_of_wanted. unfold legitimate. setoid_rewrite HX. done. }
  assert (Forall canonical (map ps_address desired)) as Hd.
  { unfold desired, peer_specs. rewrite List.map_map, List.map_id. apply Forall_forall. intros a Ha.
    apply list_elem_of_In, filter_In in Ha as [Ha%list_elem_of_In _].
    apply Hc, HX. by apply elem_of_ip_btree. }
  pose proof (update_peers_triple cfg desired _ _ Hd HP (rr_gobgp s) (conj eq_refl eq_refl)) as Ht.
  destruct (update_peers cfg desired (rr_gobgp s)) as [w [[]|e]]; simpl.
  - destruct Ht as [Ht Hp]. split; [done|]. split; [done|]. intros t. by rewrite Hp.
  - destruct Ht as (Ht & Hl & Hu). split; [done|]. split; [done|]. intros t. rewrite <- Hw.
    specialize (Hl t). specialize (Hu t). set_solver.
Qed.

(** What a host announces. After [update_routes] succeeds, the host
    originates the wanted prefixes except those its daemon has learned from
    another speaker and did not originate before: the listing the difference is
    taken from is the whole global table. So of several hosts that carry a
    cluster, one that learns the VIP from another does not announce it. A
    failure drops no wanted prefix, and neither outcome originates a prefix
    that was learned. *)
Theorem learned_prefixes_not_announced cfg rs w :
  is_u32 (sp_reflector_address cfg) -> readable (g_peers w) ->
  (forall p, p ∈ map net_to_string rs \/ p ∈ g_local w ∪ g_learned w -> tidy p) ->
  let D : gset string := list_to_set (map net_to_string rs) in
  let '(w', r) := speaker_update_routes cfg rs w in
  g_learned w' = g_learned w /\
  match r with
  | Ok _ => g_local w' = D ∖ (g_learned w ∖ g_local w)
  | Err _ => g_local w ∩ D ⊆ g_local w' /\ g_local w' ⊆ g_local w ∪ (D ∖ g_learned w)
  end.
Proof.
  intros Hu HP Hti D. unfold speaker_update_routes, se_bind at 1.
  assert (match speaker_ensure_running cfg w with
          | (w1, _) => (g_local w1, g_learned w1) = (g_local w, g_learned w) end) as H1.
  { unfold speaker_ensure_running, se_bind.
    pose proof (fixes_routes_start (sp_asn cfg) (sp_router_id cfg) [Ipv4Unicast] w) as [= H1 H2 H3].
    destruct (start_bgp _ _ _ w) as [w1 [[]|e]]; simpl in *; [|congruence].
    destruct (_ =? _); [simpl; congruence|].
    set (specs := [_]).
    assert (Forall canonical (map ps_address specs)) as Hd by (repeat constructor; by apply canonical_v4).
    rewrite <- H1 in HP.
    pose proof (reconcile_peers_triple specs false _ _ Hd HP w1 (conj eq_refl eq_refl)) as Ht.
    destruct (reconcile_peers specs false w1) as [w2 [[]|e]]; destruct Ht as [-> _]; congruence. }
  destruct (speaker_ensure_running cfg w) as [w1 [[]|e]]; injection H1 as Hl1 Hr1.
  2:{ split; [done|]. rewrite Hl1. set_solver. }
  pose proof (reconcile_paths_triple (map net_to_string rs) (sp_router_id cfg) (g_local w) (g_learned w) (g_peers w1) Hti w1)
    as Ht.
  assert ((g_peers w1, g_learned w1) = (g_peers w1, g_learned w)) as Hx by congruence.
  specialize (Ht (conj Hl1 Hx)).
  destruct (reconcile_ipv4_paths _ _ w1) as [w2 [[]|e]].
  - by destruct Ht as [[= _ ->] ->].
  - by destruct Ht as ([= _ ->] & ? & ?).
Qed.
End routes.

(** ** Import policy *)

(** Names and host routes determine what they are made from. *)
Lemma rsplit_slash l r : free_of "/"%char r = true -> rsplit_once "/"%char (l +:+ "/" +:+ r) = Some (l, r).
Proof. apply rsplit_once_app. Qed.

Lemma host_route_inj a b : canonical a -> canonical b -> host_route a = host_route b -> a = b.
Proof.
  intros Ha Hb E. apply canonical_inj; [done..|].
  assert (forall c, exists r, rsplit_once "/"%char (host_route c) = Some (ip_addr_to_string c, r)) as H.
  { intros [v|v]; eexists; apply rsplit_slash; done. }
  destruct (H a) as [r1 H1], (H b) as [r2 H2]. rewrite E, H2 in H1. by injection H1.
Qed.

Lemma string_app_cancel_r s1 s2 t : s1 +:+ t = s2 +:+ t -> s1 = s2.
Proof.
  revert s2. induction s1 as [|c s1 IH]; intros [|d s2] E; [done| | |].
  - apply (f_equal String.length) in E. rewrite !length_string_app in E. simpl in E. lia.
  - apply (f_equal String.length) in E. rewrite !length_string_app in E. simpl in E. lia.
  - injection E as -> E. f_equal. by apply IH.
Qed.

Lemma cluster_set_inj (a b suffix : string) :
  "cluster-" +:+ a +:+ suffix = "cluster-" +:+ b +:+ suffix -> a = b.
Proof. intros E. by apply (inj _) in E as E%string_app_cancel_r. Qed.

Section policy.
Context `{G : Gobgp} `{I : Ipnet} `{L : !GobgpLaws G} `{IL : !IpnetLaws I} `{I6 : Ipnet6} `{L6 : !Ipnet6Laws I6}.

Lemma within_longer a n : within a n -> net_prefix_len n <= net_prefix_len a.
Proof.
  intros Hw. pose proof (Hw _ (net_network_in a)) as H1.
  assert (in_net a (net_broadcast a)) as H2.
  { unfold in_net. rewrite net_broadcast_eq. pose proof (net_size_pos a). lia. }
  apply Hw in H2. unfold in_net in *. rewrite !net_broadcast_eq in *.
  destruct (Z.le_gt_cases (net_prefix_len n) (net_prefix_len a)); [done|]. exfalso.
  pose proof (net_prefix_range a). pose proof (net_prefix_range n).
  assert (2 ^ (32 - net_prefix_len n) < 2 ^ (32 - net_prefix_len a)) by (apply Z.pow_lt_mono_r; lia). lia.
Qed.

(** The prefix set of a list of networks matches what lies inside one. *)
Lemma prefix_set_spec name prefixes ds ann :
  prefix_defined_set name prefixes = Ok ds ->
  ds_type ds = DefinedPrefix /\ ds_name ds = name /\ ds_list ds = [] /\
  (prefix_set_has ds ann <-> exists p n, p ∈ prefixes /\ net_parse p = Some n /\ within ann n).
Proof.
  unfold prefix_defined_set. destruct (prefix_entries prefixes) as [out|e] eqn:E; [|done].
  intros [= <-]. split_and!; [done..|]. unfold prefix_set_has. simpl. revert out E.
  induction prefixes as [|raw rest IH]; intros out E; simpl in E.
  { injection E as <-. split; [intros (px & n & Hin & _)|intros (p & n & Hin & _)]; by apply not_elem_of_nil in Hin. }
  destruct (ip_net raw) as [[[text len] hl]|] eqn:En; [|done].
  destruct (prefix_entries rest) as [out'|]; [|done]. injection E as <-. specialize (IH out' eq_refl).
  setoid_rewrite elem_of_cons. unfold ip_net in En. split.
  - intros (px & n & [->|Hin] & Hp & Hw & Hb).
    + simpl in Hp. destruct (net_parse raw) as [n0|] eqn:Er.
      * injection En as <- <- <-. rewrite net_parse_to_string in Hp. injection Hp as <-. eauto 8.
      * destruct (net6_parse raw) as [[t l]|] eqn:E6; [|done]. injection En as <- <- <-.
        by rewrite (net6_not_v4 _ _ _ E6) in Hp.
    + destruct (proj1 IH) as (p & n' & ? & ? & ?); eauto 8.
  - intros (p & n & [->|Hin] & Hp & Hw).
    + rewrite Hp in En. injection En as <- <- <-. eexists _, n. split; [by left|]. simpl.
      rewrite net_parse_to_string. split; [done|]. split; [done|].
      pose proof (within_longer _ _ Hw). pose proof (net_prefix_range ann). lia.
    + destruct (proj2 IH) as (px & n' & ? & ? & ? & ?); eauto 8.
Qed.

Definition used (c : ClusterIngress) : Prop := ci_allowed_prefixes c <> [] /\ ci_nodes c <> [].

(** The sets and statements of the clusters. *)
Lemma cluster_policy_spec cs sets stmts :
  cluster_policy cs = Ok (sets, stmts) ->
  (forall st, st ∈ stmts <-> exists c, c ∈ cs /\ used c /\
     st = accept_statement ("cluster-" +:+ ci_ingress_id c +:+ "-import") (cluster_node_set c) (Some (cluster_prefix_set c))) /\
  (forall ds, ds ∈ sets <-> exists c, c ∈ cs /\ used c /\
     (prefix_defined_set (cluster_prefix_set c) (ci_allowed_prefixes c) = Ok ds \/
      ds = neighbor_defined_set (cluster_node_set c) (ci_nodes c))) /\
  (forall c, c ∈ cs -> used c -> is_ok (prefix_defined_set (cluster_prefix_set c) (ci_allowed_prefixes c)) = true).
Proof.
  revert sets stmts. induction cs as [|c cs IH]; intros sets stmts; simpl.
  { intros [= <- <-]. split_and!; [intros ?|intros ?|]; set_solver. }
  destruct (_ || _) eqn:Eu.
  { intros (H1 & H2 & H3)%IH.
    assert (~ used c) as Hc by (intros [? ?]; apply orb_true_iff in Eu as [?%bool_decide_eq_true|?%bool_decide_eq_true]; done).
    setoid_rewrite elem_of_cons. split_and!; [intros st; rewrite H1|intros ds; rewrite H2|]; naive_solver. }
  apply orb_false_iff in Eu as [Ha%bool_decide_eq_false Hn%bool_decide_eq_false].
  destruct (prefix_defined_set _ _) as [ps|e] eqn:Ep; [|done].
  destruct (cluster_policy cs) as [[sets' stmts']|e]; [|done]. intros [= <- <-].
  destruct (IH _ _ eq_refl) as (H1 & H2 & H3). setoid_rewrite elem_of_cons. split_and!.
  - intros st. rewrite H1. split.
    + intros [->|(c' & ? & ? & ->)]; [exists c|exists c']; (split; [set_solver|done]).
    + intros (c' & [->|Hc'] & Hu & ->); [by left|right; by exists c'].
  - intros ds. rewrite elem_of_cons, H2. split.
    + assert (used c) as Hu by done.
      intros [->|[->|(c' & ? & ? & ?)]]; [exists c|exists c|exists c']; (split; [set_solver|split; [done|]]); auto.
    + intros (c' & [->|Hc'] & Hu & Hd).
      * rewrite Ep in Hd. destruct Hd as [[= <-]| ->]; auto.
      * right. right. by exists c'.
  - intros c' [->|Hc'] Hu; [by rewrite Ep|by apply H3].
Qed.

(** What the pushed policy accepts, in terms of its specification. *)
Definition admitted (spec : IngressPolicySpec) (peer : IpAddr) (ann : Ipv4Net) : Prop :=
  peer ∈ ip_hypervisors spec \/
  exists c p n, c ∈ ip_clusters spec /\ peer ∈ ci_nodes c /\ p ∈ ci_allowed_prefixes c /\
    net_parse p = Some n /\ within ann n.

Record spec_ok (spec : IngressPolicySpec) : Prop := {
  so_ids c1 c2 : c1 ∈ ip_clusters spec -> c2 ∈ ip_clusters spec -> ci_ingress_id c1 = ci_ingress_id c2 -> c1 = c2;
  so_nodes c a : c ∈ ip_clusters spec -> a ∈ ci_nodes c -> canonical a;
  so_hypervisors a : a ∈ ip_hypervisors spec -> canonical a;
}.

Lemma elem_of_host_routes a l : canonical a -> (forall b, b ∈ l -> canonical b) -> host_route a ∈ map host_route l <-> a ∈ l.
Proof.
  intros Ha Hl. rewrite list_elem_of_fmap. split; [|naive_solver].
  intros (b & E & Hb). by rewrite (host_route_inj a b Ha (Hl b Hb) E).
Qed.

(** The sets of a pushed policy, cluster by cluster. *)
Lemma ingress_sets spec sets pol ds :
  ingress_policy spec = Ok (sets, pol) ->
  ds ∈ sets <->
  (exists c, c ∈ ip_clusters spec /\ used c /\
     (prefix_defined_set (cluster_prefix_set c) (ci_allowed_prefixes c) = Ok ds \/
      ds = neighbor_defined_set (cluster_node_set c) (ci_nodes c))) \/
  (ip_hypervisors spec <> [] /\ ds = neighbor_defined_set HYPERVISOR_SET (ip_hypervisors spec)).
Proof.
  unfold ingress_policy. destruct (cluster_policy _) as [[s0 st0]|e] eqn:E; [|done].
  destruct (cluster_policy_spec _ _ _ E) as (_ & H2 & _). rewrite <- H2.
  case_bool_decide as Hh; intros [= <- <-]; [naive_solver|]. rewrite elem_of_app, list_elem_of_singleton. tauto.
Qed.

Lemma ingress_statements spec sets pol st :
  ingress_policy spec = Ok (sets, pol) ->
  st ∈ po_statements pol <->
  (exists c, c ∈ ip_clusters spec /\ used c /\
     st = accept_statement ("cluster-" +:+ ci_ingress_id c +:+ "-import") (cluster_node_set c) (Some (cluster_prefix_set c))) \/
  (ip_hypervisors spec <> [] /\ st = accept_statement "hypervisor-import" HYPERVISOR_SET None).
Proof.
  unfold ingress_policy. destruct (cluster_policy _) as [[s0 st0]|e] eqn:E; [|done].
  destruct (cluster_policy_spec _ _ _ E) as (H1 & _ & _). rewrite <- H1.
  case_bool_decide as Hh; intros [= <- <-]; simpl; [naive_solver|]. rewrite elem_of_app, list_elem_of_singleton. tauto.
Qed.

(** The sets a statement names are the ones of its cluster. *)
Lemma prefix_set_kind name prefixes ds : prefix_defined_set name prefixes = Ok ds -> ds_type ds = DefinedPrefix /\ ds_name ds = name /\ ds_list ds = [].
Proof. unfold prefix_defined_set. destruct (prefix_entries _); [|done]. by intros [= <-]. Qed.

Lemma node_set_of spec sets pol c ds :
  spec_ok spec -> ingress_policy spec = Ok (sets, pol) -> c ∈ ip_clusters spec -> used c ->
  set_named sets DefinedNeighbor (cluster_node_set c) ds <-> ds = neighbor_defined_set (cluster_node_set c) (ci_nodes c).
Proof.
  intros Hok Hp Hc Hu. unfold set_named. rewrite (ingress_sets _ _ _ _ Hp). split.
  - intros ([(c' & Hc' & Hu' & [Hd| ->])|[_ ->]] & Ht & Hn); [|simpl in Hn|done].
    + apply prefix_set_kind in Hd as [Ht' _]. congruence.
    + apply cluster_set_inj in Hn. by rewrite (so_ids _ Hok _ _ Hc' Hc Hn).
  - intros ->. split; [|done]. left. exists c. auto.
Qed.

Lemma prefix_set_of spec sets pol c ds :
  spec_ok spec -> ingress_policy spec = Ok (sets, pol) -> c ∈ ip_clusters spec -> used c ->
  set_named sets DefinedPrefix (cluster_prefix_set c) ds <->
  prefix_defined_set (cluster_prefix_set c) (ci_allowed_prefixes c) = Ok ds.
Proof.
  intros Hok Hp Hc Hu. unfold set_named. rewrite (ingress_sets _ _ _ _ Hp). split.
  - intros ([(c' & Hc' & Hu' & [Hd| ->])|[_ ->]] & Ht & Hn); [|done..].
    destruct (prefix_set_kind _ _ _ Hd) as (_ & Hn' & _). rewrite Hn in Hn'. apply cluster_set_inj in Hn'.
    by rewrite (so_ids _ Hok _ _ Hc Hc' Hn').
  - intros Hd. split; [|by apply prefix_set_kind in Hd as (? & ? & _)]. left. exists c. auto.
Qed.

Lemma hypervisor_set_of spec sets pol ds :
  ingress_policy spec = Ok (sets, pol) -> ip_hypervisors spec <> [] ->
  set_named sets DefinedNeighbor HYPERVISOR_SET ds <-> ds = neighbor_defined_set HYPERVISOR_SET (ip_hypervisors spec).
Proof.
  intros Hp Hh. unfold set_named. rewrite (ingress_sets _ _ _ _ Hp). split.
  - intros ([(c' & Hc' & Hu' & [Hd| ->])|[_ ->]] & Ht & Hn); [|done..].
    apply prefix_set_kind in Hd as [Ht' _]. congruence.
  - intros ->. auto.
Qed.

(** A pushed policy lets through exactly what its specification admits. *)
Lemma ingress_policy_spec spec sets pol peer ann :
  spec_ok spec -> ingress_policy spec = Ok (sets, pol) -> canonical peer ->
  some_statement sets (assignment [pol]) peer ann <-> admitted spec peer ann.
Proof.
  intros Hok Hp Hc. unfold some_statement, admitted, statement_matches. split.
  - intros (p & st & ->%list_elem_of_singleton & Hst & Hn & Hx).
    apply (ingress_statements _ _ _ _ Hp) in Hst as [(c & Hin & Hu & ->)|[Hh ->]].
    + destruct (Hn _ eq_refl) as (ds & Hds & Hl). apply (node_set_of _ _ _ _ _ Hok Hp Hin Hu) in Hds as ->.
      apply elem_of_host_routes in Hl; [|done|by intros; eapply so_nodes].
      destruct (Hx _ eq_refl) as (ds & Hds & Hpx). apply (prefix_set_of _ _ _ _ _ Hok Hp Hin Hu) in Hds.
      apply (prefix_set_spec _ _ _ ann Hds) in Hpx as (p & n & ? & ? & ?). right. by exists c, p, n.
    + destruct (Hn _ eq_refl) as (ds & Hds & Hl). apply (hypervisor_set_of _ _ _ _ Hp Hh) in Hds as ->.
      apply elem_of_host_routes in Hl; [by left|done|by apply so_hypervisors].
  - intros [Hh|(c & p & n & Hin & Hn & Ha & Hpn & Hw)].
    + assert (ip_hypervisors spec <> []) as Hne by (intros E; rewrite E in Hh; by apply not_elem_of_nil in Hh).
      exists pol, (accept_statement "hypervisor-import" HYPERVISOR_SET None).
      split; [by apply list_elem_of_singleton|]. split; [apply (ingress_statements _ _ _ _ Hp); by right|].
      split; [|done]. intros m [= <-]. eexists. split; [by apply (hypervisor_set_of _ _ _ _ Hp Hne)|].
      by apply list_elem_of_fmap_2.
    + assert (used c) as Hu by (split; intros E; rewrite E in *; set_solver).
      assert (exists ds, prefix_defined_set (cluster_prefix_set c) (ci_allowed_prefixes c) = Ok ds) as [ds Hd].
      { pose proof Hp as Hp'. unfold ingress_policy in Hp'. destruct (cluster_policy _) as [[s0 st0]|e] eqn:E; [|done].
        destruct (cluster_policy_spec _ _ _ E) as (_ & _ & H3). specialize (H3 _ Hin Hu).
        destruct (prefix_defined_set _ _); [by eexists|done]. }
      exists pol. eexists. split; [by apply list_elem_of_singleton|].
      split; [apply (ingress_statements _ _ _ _ Hp); left; by exists c|]. split; intros m [= <-].
      * eexists. split; [by apply (node_set_of _ _ _ _ _ Hok Hp Hin Hu)|]. by apply list_elem_of_fmap_2.
      * exists ds. split; [by apply (prefix_set_of _ _ _ _ _ Hok Hp Hin Hu)|].
        apply (prefix_set_spec _ _ _ ann Hd). by exists p, n.
Qed.

Lemma ingress_policy_host_sets spec sets pol :
  spec_ok spec -> ingress_policy spec = Ok (sets, pol) -> host_sets sets.
Proof.
  intros Hok Hp ds Hds. apply (ingress_sets _ _ _ _ Hp) in Hds as [(c & Hc & Hu & [Hd| ->])|[_ ->]].
  - exists []. split; [constructor|]. by apply prefix_set_kind in Hd as (_ & _ & ->).
  - exists (ci_nodes c). split; [|done]. apply Forall_forall. intros. by eapply so_nodes.
  - exists (ip_hypervisors spec). split; [|done]. apply Forall_forall. by apply so_hypervisors.
Qed.

Lemma ingress_policy_accept_list spec sets pol : ingress_policy spec = Ok (sets, pol) -> accept_list (assignment [pol]).
Proof.
  intros Hp. split; [done|]. intros p st ->%list_elem_of_singleton Hst.
  by apply (ingress_statements _ _ _ _ Hp) in Hst as [(c & _ & _ & ->)|[_ ->]].
Qed.

(** *** The policy of a database *)

Definition ingress_of (vms : list VmRow) (c : ClusterRow) : ClusterIngress := {|
  ci_ingress_id := c_id c;
  ci_allowed_prefixes := allowed_prefixes c;
  ci_nodes := omap (fun v => if vm_cluster_id v =$ c_id c then ip_addr_parse (vm_ip_address v) else None) vms;
|}.

Lemma push_nodes_lookup vms (m : gmap string ClusterIngress) k :
  foldl (fun m vm => push_node vm m) m vms !! k =
  (fun c => {| ci_ingress_id := ci_ingress_id c; ci_allowed_prefixes := ci_allowed_prefixes c;
               ci_nodes := ci_nodes c ++ omap (fun v => if vm_cluster_id v =$ k then ip_addr_parse (vm_ip_address v) else None) vms |})
    <$> m !! k.
Proof.
  revert m. induction vms as [|v vms IH]; intros m; simpl.
  - destruct (m !! k) as [[]|]; simpl; by rewrite ?app_nil_r.
  - rewrite IH. unfold push_node. destruct (ip_addr_parse (vm_ip_address v)) as [a|].
    2:{ by destruct (vm_cluster_id v =$ k). }
    destruct (String.eqb_spec (vm_cluster_id v) k) as [->|Hne].
    + rewrite lookup_alter_eq. destruct (m !! k); simpl; [|done]. by rewrite <- (assoc_L (++)).
    + by rewrite lookup_alter_ne by done.
Qed.

Lemma ingress_skeleton (cs : list ClusterRow) k ci :
  NoDup (map c_id cs) ->
  foldl (fun m c => <[c_id c := {| ci_ingress_id := c_id c; ci_allowed_prefixes := allowed_prefixes c;
                                   ci_nodes := [] |}]> m) (∅ : gmap string ClusterIngress) cs !! k = Some ci <->
  exists c, c ∈ cs /\ c_id c = k /\ ci = ingress_of [] c.
Proof.
  induction cs as [|c cs IH] using rev_ind; simpl.
  { intros _. rewrite lookup_empty. split; [done|]. intros (c & Hc & _). by apply not_elem_of_nil in Hc. }
  rewrite List.map_app. intros (Hnd & Hd & _)%NoDup_app. specialize (IH Hnd). rewrite foldl_app. simpl.
  setoid_rewrite elem_of_app. setoid_rewrite list_elem_of_singleton. destruct (decide (c_id c = k)) as [<-|Hne].
  - rewrite lookup_insert_eq. split.
    + intros [= <-]. exists c. auto.
    + intros (c' & [Hc'| ->] & E & ->); [|done]. exfalso. apply (Hd (c_id c)); [|by constructor].
      rewrite <- E. by apply list_elem_of_fmap_2.
  - rewrite lookup_insert_ne by done. rewrite IH. naive_solver.
Qed.

Lemma compute_ingress_policy_spec db :
  NoDup (map c_id (clusters db)) ->
  exists spec, compute_ingress_policy db = (db, Ok spec) /\
  ip_hypervisors spec = omap (fun h => ip_addr_parse (h_vtep_address h)) (hosts db) /\
  forall ci, ci ∈ ip_clusters spec <-> exists c, c ∈ clusters db /\ ci = ingress_of (vms db) c.
Proof.
  intros Hnd. unfold compute_ingress_policy, list_hosts, list_clusters, list_vms, se_gets, se_bind, se_ret. cbv zeta.
  eexists. split; [reflexivity|]. split; [reflexivity|]. intros ci. cbn [ip_clusters].
  rewrite list_elem_of_fmap. split.
  - intros ([k x] & -> & Hk). apply elem_of_map_to_list in Hk. rewrite push_nodes_lookup in Hk.
    apply fmap_Some in Hk as (ci & Hk & ->). apply (ingress_skeleton _ _ _ Hnd) in Hk as (c & Hc & <- & ->).
    by exists c.
  - intros (c & Hc & ->). exists (c_id c, ingress_of (vms db) c). split; [done|].
    apply elem_of_map_to_list. rewrite push_nodes_lookup.
    rewrite (proj2 (ingress_skeleton _ _ (ingress_of [] c) Hnd)); [done|by exists c].
Qed.

(** The import assignment, when there is one, is this policy's. *)
Definition owned (w : GWorld) : Prop :=
  forall a, g_import w = Some a -> exists p, p ∈ as_policies a /\ po_name p = POLICY_NAME.

Lemma reconcile_ingress_policy_spec spec :
  spec_ok spec ->
  triple owned (reconcile_ingress_policy spec)
    (fun _ w => owned w /\ forall peer ann, canonical peer -> g_accepts w peer ann = true <-> admitted spec peer ann)
    owned.
Proof.
  intros Hok w Hw. unfold reconcile_ingress_policy, se_bind, se_of.
  destruct (ingress_policy spec) as [[sets pol]|e] eqn:Ep; [|done]. simpl.
  rewrite rpc_ok. pose proof (g_set_policies sets [pol] w) as H1.
  destruct (set_policies sets [pol] w) as [w1 []]; simpl in *; [|by injection H1 as _ H1; intros a; rewrite H1; apply Hw].
  injection H1 as Hs1 Hi1. unfold se_try. rewrite rpc_ok. simpl.
  pose proof (g_delete_assignment (assignment []) w1) as H2.
  destruct (delete_policy_assignment _ true w1) as [w2 ok2]; simpl in *. injection H2 as Hs2 Hi2.
  assert (po_name pol = POLICY_NAME) as Hname.
  { unfold ingress_policy in Ep. destruct (cluster_policy _) as [[s0 st0]|]; [|done].
    destruct (bool_decide _); by injection Ep as _ <-. }
  assert (g_import w2 = None \/ g_import w2 = g_import w) as Hor by (rewrite Hi2, Hi1; destruct ok2; auto).
  rewrite rpc_ok. destruct (g_import w2) as [old|] eqn:Eo.
  - destruct Hor as [?|Hor]; [done|]. symmetry in Hor. destruct (Hw _ Hor) as (q & Hq & Hn).
    destruct (g_add_duplicate (assignment [pol]) old pol q w2 Eo) as [Hf H3];
      [by apply list_elem_of_singleton|done|congruence|].
    rewrite Hf. injection H3 as _ H3. intros a. rewrite H3, Eo, <- Hor. apply Hw.
  - pose proof (g_add_assignment (assignment [pol]) w2 Eo) as H3.
    destruct (add_policy_assignment _ w2) as [w3 []]; simpl in *; injection H3 as Hs3 Hi3.
    2:{ intros a. by rewrite Hi3, Eo. }
    split.
    { intros a. rewrite Hi3. intros [= <-]. exists pol. split; [by apply list_elem_of_singleton|done]. }
    intros peer ann Hc. rewrite <- (ingress_policy_spec spec sets pol) by done.
    replace sets with (g_sets w3) at 1 by congruence. apply g_accepts_listed; [done| | |done].
    + by eapply ingress_policy_accept_list.
    + rewrite Hs3, Hs2, Hs1. by eapply ingress_policy_host_sets.
Qed.

(** Who may announce what, by the tables. *)
Definition is_hypervisor (db : Db) (a : IpAddr) : Prop :=
  exists h, h ∈ hosts db /\ ip_addr_parse (h_vtep_address h) = Some a.
Definition is_node (db : Db) (c : ClusterRow) (a : IpAddr) : Prop :=
  exists v, v ∈ vms db /\ vm_cluster_id v = c_id c /\ ip_addr_parse (vm_ip_address v) = Some a.
Definition allowed_net (c : ClusterRow) (n : Ipv4Net) : Prop :=
  exists p, p ∈ allowed_prefixes c /\ net_parse p = Some n.
Definition may_announce (db : Db) (peer : IpAddr) (ann : Ipv4Net) : Prop :=
  is_hypervisor db peer \/
  exists c n, c ∈ clusters db /\ is_node db c peer /\ allowed_net c n /\ within ann n.

Lemma elem_of_ingress_nodes vms c a :
  a ∈ ci_nodes (ingress_of vms c) <->
  exists v, v ∈ vms /\ vm_cluster_id v = c_id c /\ ip_addr_parse (vm_ip_address v) = Some a.
Proof.
  simpl. rewrite list_elem_of_omap. split; intros (v & Hv & H); exists v; (split; [done|]).
  - destruct (String.eqb_spec (vm_cluster_id v) (c_id c)); done.
  - destruct H as [-> H]. by rewrite String.eqb_refl.
Qed.

Lemma computed_policy_admits db spec :
  compute_ingress_policy db = (db, Ok spec) -> NoDup (map c_id (clusters db)) ->
  (forall a, source db a -> canonical a) ->
  spec_ok spec /\ forall peer ann, admitted spec peer ann <-> may_announce db peer ann.
Proof.
  intros E Hnd Hcan. destruct (compute_ingress_policy_spec db Hnd) as (spec' & E' & Hh & Hc).
  rewrite E in E'. injection E' as <-. split.
  - constructor.
    + intros c1 c2 (d1 & H1 & ->)%Hc (d2 & H2 & ->)%Hc. simpl. intros Eid. f_equal.
      apply list_elem_of_lookup in H1 as [i Hi], H2 as [j Hj].
      assert (i = j) as ->; [|congruence].
      eapply (NoDup_lookup _ i j (c_id d1) Hnd); rewrite list_lookup_fmap; [by rewrite Hi|by rewrite Hj, Eid].
    + intros c a (d & Hd & ->)%Hc (v & Hv & _ & Ha)%elem_of_ingress_nodes. apply Hcan. right. by exists v.
    + intros a. rewrite Hh, list_elem_of_omap. intros (h & Hin & Ha). apply Hcan. left. by exists h.
  - intros peer ann. unfold admitted, may_announce. rewrite Hh, list_elem_of_omap. split.
    + intros [?|(ci & p & n & (c & Hin & ->)%Hc & Hn & Hp & Hpn & Hw)]; [by left|]. right.
      exists c, n. split; [done|]. split; [by apply elem_of_ingress_nodes|]. split; [by exists p|done].
    + intros [?|(c & n & Hin & Hn & (p & Hp & Hpn) & Hw)]; [by left|]. right.
      exists (ingress_of (vms db) c), p, n. split; [apply Hc; by exists c|].
      split; [by apply elem_of_ingress_nodes|done].
Qed.

(** C8: the cell's import policy. After a successful tick of the policy
    reconciler the reflector accepts an announcement exactly when it comes from
    a host, or from the address of a VM and lies inside one of the prefixes of
    that VM's cluster. So an announcement by a node that covers one address
    outside its cluster's prefixes is refused, and an address that is no VM's
    and no host's can announce nothing.
    Whatever the outcome, the database is untouched and the import assignment,
    if any, is this policy's. *)
Theorem ingress_policy_isolates cfg s :
  NoDup (map c_id (clusters (rr_db s))) -> (forall a, source (rr_db s) a -> canonical a) ->
  owned (rr_gobgp s) ->
  let '(s', r) := policy_tick cfg s in
  rr_db s' = rr_db s /\ owned (rr_gobgp s') /\
  (r = Ok tt ->
   (forall peer ann, canonical peer ->
      g_accepts (rr_gobgp s') peer ann = true <-> may_announce (rr_db s) peer ann) /\
   (forall c peer ann x, is_node (rr_db s) c peer -> ~ is_hypervisor (rr_db s) peer ->
      (forall c', c' ∈ clusters (rr_db s) -> is_node (rr_db s) c' peer -> c' = c) ->
      (forall m, allowed_net c m -> in_net m x -> False) -> in_net ann x ->
      g_accepts (rr_gobgp s') peer ann = false)).
Proof.
  intros Hnd Hcan Hw. unfold policy_tick, se_bind, rr_read.
  destruct (compute_ingress_policy_spec (rr_db s) Hnd) as (spec & E & _). rewrite E. simpl.
  destruct (computed_policy_admits _ _ E Hnd Hcan) as [Hok Had].
  unfold rr_call, update_ingress_policy, reflector_ensure_running, se_bind. simpl.
  pose proof (fixes_policy_start (rf_asn cfg) (rf_router_id cfg) [Ipv4Unicast] (rr_gobgp s)) as H1.
  destruct (start_bgp _ _ _ (rr_gobgp s)) as [w1 [[]|e]]; simpl in H1.
  2:{ split; [done|]. split; [|done]. injection H1 as _ H1. intros a. simpl. rewrite H1. apply Hw. }
  assert (owned w1) as Hw1 by (injection H1 as _ H1; intros a; rewrite H1; apply Hw).
  pose proof (reconcile_ingress_policy_spec spec Hok w1 Hw1) as H2.
  destruct (reconcile_ingress_policy spec w1) as [w2 [[]|e]]; simpl in *; [|done].
  destruct H2 as [H2 H3]. split; [done|]. split; [done|]. intros _.
  assert (forall peer ann, canonical peer -> g_accepts w2 peer ann = true <-> may_announce (rr_db s) peer ann) as H4.
  { intros peer ann Hp. by rewrite H3, Had. }
  split; [done|]. intros c peer ann x Hn Hh Hu Hdis Hx.
  apply not_true_iff_false. rewrite H4 by (destruct Hn as (v & Hv & _ & Ha); apply Hcan; right; by exists v).
  intros [?|(c' & m & Hc' & Hn' & Hm & Hwm)]; [done|]. rewrite (Hu c' Hc' Hn') in Hm. eapply Hdis; [done|]. by apply Hwm.
Qed.
End policy.

(** ** Learned routes *)

(** The routes of a batch in the order the stream gives them, and of the
    batches up to the end of the stream. *)
Definition drain (paths : list Path) : list LearnedRoute := reverse (omap from_path paths).
Fixpoint batches (inner : list (option (option WatchEvent))) : list LearnedRoute :=
  match inner with
  | Some (Some (EventTable paths)) :: inner' => drain paths ++ batches inner'
  | Some (Some EventPeer) :: inner' => batches inner'
  | _ => []
  end.

Lemma pop_route_spec n b :
  (length b <= n)%nat ->
  match drain b with
  | [] => pop_route n b = ([], None)
  | r :: rs => exists rest, pop_route n b = (rest, Some r) /\ drain rest = rs /\ (length rest < length b)%nat
  end.
Proof.
  revert b. induction n as [|n IH]; intros b Hn.
  { destruct b; [done|simpl in Hn; lia]. }
  destruct b as [|p b _] using rev_ind; [done|]. unfold drain, vec_pop. simpl.
  rewrite omap_app, !reverse_app. unfold vec_pop. rewrite reverse_app. simpl. rewrite reverse_involutive.
  rewrite length_app in Hn. simpl in Hn. destruct (from_path p) as [r|] eqn:Ep; simpl.
  - exists b. split; [done|]. split; [done|]. rewrite length_app. simpl. lia.
  - specialize (IH b ltac:(lia)). fold (drain b). destruct (drain b) as [|r rs]; [done|].
    destruct IH as (rest & ? & ? & ?). exists rest. split; [done|]. split; [done|]. rewrite length_app. simpl. lia.
Qed.

Lemma stream_next_spec inner b :
  match drain b ++ batches inner with
  | [] => snd (next_from inner b) = None
  | r :: rs => exists st, next_from inner b = (st, Some r) /\ drain (ls_buffered st) ++ batches (ls_inner st) = rs /\
                 (stream_size st < length b + stream_size {| ls_inner := inner; ls_buffered := [] |})%nat
  end.
Proof.
  revert b. induction inner as [|i inner IH]; intros b; simpl; pose proof (pop_route_spec (length b) b (le_n _)) as Hp;
    destruct (drain b) as [|r rs].
  1,3: rewrite Hp. 3,4: destruct Hp as (rest & -> & <- & Hl).
  - done.
  - destruct i as [[[ps|]|]|]; [|specialize (IH [])|done..].
    + simpl. specialize (IH ps). destruct (drain ps ++ batches inner) as [|r rs]; [done|].
      destruct IH as (st & E & Hd & Hs). exists st. split; [done|]. split; [done|]. unfold stream_size in *. simpl in *. lia.
    + simpl. change (drain [] ++ batches inner) with (batches inner) in IH. destruct (batches inner); [done|].
      destruct IH as (st & E & Hd & Hs). exists st. split; [done|]. split; [done|]. unfold stream_size in *. simpl in *. lia.
  - eexists. split; [done|]. split; [done|]. unfold stream_size. simpl. lia.
  - eexists. split; [done|]. split; [done|]. unfold stream_size. simpl. lia.
Qed.

Section watcher.
Context `{H : Host} `{G : Gobgp} `{HG : !HostGobgp} `{I : Ipnet}.

Lemma consume_drains n st s :
  (stream_size st < n)%nat ->
  consume n st s = se_for (drain (ls_buffered st) ++ batches (ls_inner st))
                     (fun r => run! se_try (F:=NetworkError) (apply_learned r) ; se_ret tt) s.
Proof.
  revert st s. induction n as [|n IH]; intros st s Hn; [lia|]. simpl. unfold stream_next.
  pose proof (stream_next_spec (ls_inner st) (ls_buffered st)) as Hx.
  destruct (drain (ls_buffered st) ++ batches (ls_inner st)) as [|r rs].
  { by destruct (next_from (ls_inner st) (ls_buffered st)) as [st' o]; simpl in Hx; rewrite Hx. }
  destruct Hx as (st' & -> & <- & Hs). simpl. unfold se_bind, se_try, se_ret.
  destruct (apply_learned r s) as [s1 r1]. apply IH. unfold stream_size in *. simpl in *. lia.
Qed.

(** Routes of one event are applied backwards. A subscription applies every
    route of every event up to the end of the stream, event by event, but the
    paths of one event from the last to the first: an announcement followed by
    its withdrawal in one event leaves the route installed. *)
Theorem learned_batch_reversed endpoint s w st :
  on_gobgp (run! rpc "connect" (gobgp_connect endpoint) ; watch_paths) (at_world s) = (w, Ok st) ->
  watch_once endpoint s =
  (run! se_for (batches (ls_inner st)) (fun r => run! se_try (F:=NetworkError) (apply_learned r) ; se_ret tt) ;
   se_ret (Ok tt)) (set_world (fun _ => w) s).
Proof.
  intros E. unfold watch_once. rewrite E.
  assert (ls_buffered st = []) as Hb.
  { unfold on_gobgp, se_bind, rpc in E. destruct (gobgp_connect endpoint (gobgp_of (at_world s))) as [g []]; [|done].
    unfold watch_paths in E. destruct (watch_event g) as [g' [inner|]]; [|done]. by injection E as _ <-. }
  unfold se_bind. rewrite consume_drains by (unfold stream_size; lia). by rewrite Hb.
Qed.
End watcher.
