(* ===== verification/Frames.v ===== *)
(** * What the agent's operations leave alone

    For each operation of the agent, the parts of its state it cannot change:
    commands only change the machine, storage operations the machine and the
    reservation ledger, network operations the machine and the live map; and
    only the storage operations touch volumes. *)

From S2P Require Import Prelude Ipv4 Ipnet Proto DbTypes Vms Ctl Agent Text HashName Nvlink Host Lvm Gpu Net Dataplane Image HostVm Triple Ledger.

Section frames.
Context `{H : Host}.
Context {B : Type} (f : Agt -> B).
Context (Hw : forall g s, f (set_world g s) = f s).

Lemma fixes_world {E A} (a : World -> World * A) : fixes f (world (E:=E) a).
Proof. intros s. unfold world. destruct (a (at_world s)). apply Hw. Qed.
Hint Resolve fixes_world : fixes.

Lemma fixes_output tool args : fixes f (output tool args).
Proof. unfold output. fixes_tac. Qed.
Lemma fixes_run_cmd tool args : fixes f (run_cmd tool args).
Proof. unfold run_cmd, output. fixes_tac. Qed.
Hint Resolve fixes_output fixes_run_cmd : fixes.
Lemma fixes_acquire role : fixes f (acquire role).
Proof. unfold acquire. fixes_tac. Qed.
Lemma fixes_lv_attr vg lv : fixes f (lv_attr vg lv).
Proof. unfold lv_attr. fixes_tac. Qed.
Lemma fixes_lvremove vg lv : fixes f (lvremove vg lv).
Proof. unfold lvremove. fixes_tac. Qed.
Lemma fixes_lvextend vg lv n : fixes f (lvextend vg lv n).
Proof. unfold lvextend. fixes_tac. Qed.
Lemma fixes_lv_names vg : fixes f (lv_names vg).
Proof. unfold lv_names. fixes_tac. Qed.
Hint Resolve fixes_acquire fixes_lv_attr fixes_lvremove fixes_lvextend fixes_lv_names : fixes.

Lemma fixes_create_vm_rootfs st vm h n : fixes f (create_vm_rootfs st vm h n).
Proof. unfold create_vm_rootfs. fixes_tac. Qed.
Lemma fixes_remove_vm_rootfs st vm : fixes f (remove_vm_rootfs st vm).
Proof. unfold remove_vm_rootfs. fixes_tac. Qed.
Lemma fixes_ensure_image_lv st h q n : fixes f (ensure_image_lv st h q n).
Proof. unfold ensure_image_lv. fixes_tac. Qed.
Lemma fixes_list_managed_vm_ids st : fixes f (list_managed_vm_ids st).
Proof. unfold list_managed_vm_ids, managed_vm_ids. fixes_tac. Qed.
Lemma fixes_backend_devices b : fixes f (backend_devices b).
Proof. unfold backend_devices, device_of, vg_capacity. fixes_tac. Qed.

(** GPUs. *)
Lemma fixes_write_or e p t : fixes f (write_or e p t).
Proof. unfold write_or. fixes_tac. Qed.
Hint Resolve fixes_write_or : fixes.
Lemma fixes_bind_vfio pci : fixes f (bind_vfio pci).
Proof. unfold bind_vfio, read_iommu_group. fixes_tac. Qed.
Lemma fixes_unbind_vfio pci : fixes f (unbind_vfio pci).
Proof. unfold unbind_vfio. fixes_tac. Qed.
Hint Resolve fixes_bind_vfio fixes_unbind_vfio : fixes.
Lemma fixes_unbind_all l : fixes f (unbind_all l).
Proof. unfold unbind_all. fixes_tac. Qed.

(** Links and rules. *)
Lemma fixes_net_cmd tool args : fixes f (net_cmd tool args).
Proof. unfold net_cmd, net_output. fixes_tac. Qed.
Lemma fixes_net_output tool args : fixes f (net_output tool args).
Proof. unfold net_output. fixes_tac. Qed.
Hint Resolve fixes_net_cmd fixes_net_output : fixes.
Lemma fixes_link_exists n : fixes f (link_exists n).
Proof. unfold link_exists. fixes_tac. Qed.
Hint Resolve fixes_link_exists : fixes.
Lemma fixes_detach_vm_taps vm : fixes f (detach_vm_taps vm).
Proof. unfold detach_vm_taps, delete_tap_by_name. fixes_tac. Qed.
Lemma fixes_ensure_tap_on_bridge t b : fixes f (ensure_tap_on_bridge t b).
Proof. unfold ensure_tap_on_bridge. fixes_tac. Qed.

Context `{I : Ipnet} `{IH : !IpnetHosts I}.
Lemma fixes_ensure_cluster_inner m c : fixes f (ensure_cluster_inner m c).
Proof.
  unfold ensure_cluster_inner, set_mtu, ensure_vrf, enslave_to_vrf, ensure_bridge_address,
    ensure_cluster_masquerade, ensure_iptables_rule, reconcile_fdb, list_fdb_bum_dsts. fixes_tac.
Qed.
Hint Resolve fixes_ensure_cluster_inner : fixes.

Context `{O : !Oci}.
Lemma fixes_write_chunks t l acc : fixes f (write_chunks t l acc).
Proof.
  revert acc. induction l as [|c l IHl]; intros acc; simpl; [apply fixes_ret|].
  apply fixes_bind; [apply fixes_world|intros ok]. unfold io. fixes_tac.
Qed.
Hint Resolve fixes_write_chunks : fixes.
Lemma fixes_ensure_cached m st r : fixes f (ensure_cached m st r).
Proof.
  unfold ensure_cached, exists_path, qcow2_virtual_size_gib, pull_oci, pull_layer, exists_path,
    decompress_qcow2_in_place, io. pose proof fixes_ensure_image_lv. fixes_tac.
Qed.
Lemma fixes_create_cloud_init_iso m d i h u p : fixes f (create_cloud_init_iso m d i h u p).
Proof. unfold create_cloud_init_iso, io. fixes_tac. Qed.

(** Operations on the ledger. *)
Context (Hr : forall g s, f (set_agent_db (set_reservations g) s) = f s).
Lemma fixes_on_ledger g : fixes f (on_ledger g).
Proof. apply fixes_modify, Hr. Qed.
Hint Resolve fixes_on_ledger : fixes.
Lemma fixes_allocate b req : fixes f (allocate b req).
Proof.
  unfold allocate, lookup_assignment, reservations, create_lv, insert_reservation, drop_reservation,
    set_reservation_state, reservations. fixes_tac.
Qed.
Lemma fixes_release b vm : fixes f (release b vm).
Proof. unfold release, reservations, set_reservation_state, drop_reservation. fixes_tac. Qed.
Hint Resolve fixes_release : fixes.
Lemma fixes_release_vm_disks st vm : fixes f (release_vm_disks st vm).
Proof. unfold release_vm_disks. fixes_tac. Qed.
End frames.

Section frames_live.
Context `{H : Host} {B : Type} (f : Agt -> B).
Context (Hw : forall g s, f (set_world g s) = f s) (Hl : forall g s, f (set_live g s) = f s).
Context `{I : Ipnet} `{IH : !IpnetHosts I}.

Lemma fixes_live g : fixes f (se_modify (E:=NetworkError) (set_live g)).
Proof. apply fixes_modify, Hl. Qed.
Hint Resolve fixes_live fixes_net_cmd fixes_net_output fixes_link_exists fixes_ensure_cluster_inner
  fixes_ensure_tap_on_bridge fixes_world : fixes.

Lemma fixes_ensure_bootstrap m vni : fixes f (ensure_bootstrap m vni).
Proof. unfold ensure_bootstrap. fixes_tac. Qed.
Hint Resolve fixes_ensure_bootstrap : fixes.
Lemma fixes_attach_vm_primary m vm vni : fixes f (attach_vm_primary m vm vni).
Proof. unfold attach_vm_primary. fixes_tac. Qed.
Lemma fixes_reconcile_routes b t w : fixes f (reconcile_routes b t w).
Proof. unfold reconcile_routes, list_kernel_prefix_routes, ip_route. fixes_tac. Qed.
Hint Resolve fixes_reconcile_routes : fixes.
Lemma fixes_reconcile m cs : fixes f (reconcile m cs).
Proof.
  unfold reconcile, list_kernel_cluster_vnis, recover_cluster, read_bridge_cluster_cidr, reconcile_cluster,
    reconcile_proxy_arp, list_kernel_proxy_arp, add_proxy_arp, send_garp, del_proxy_arp. fixes_tac.
Qed.
Lemma fixes_tombstone_cluster m vni c : fixes f (tombstone_cluster m vni c).
Proof.
  unfold tombstone_cluster, read_link_master, del_proxy_arp, remove_cluster_masquerade,
    delete_iptables_rule, delete_vrf_if_unused. fixes_tac.
Qed.
End frames_live.

(** ** Volumes *)

(** Only [lvcreate] and [lvremove] change the set of volumes, so a sequence
    of other commands changes neither volumes nor ledger. *)
Class OciLvm `{L : LvmHost} `{O : !Oci} := {
  lv_manifest r a w : lv_set (fst (oci_manifest r a w)) = lv_set w;
  lv_blob r l w : lv_set (fst (oci_blob r l w)) = lv_set w;
}.

Section volumes.
Context `{L : LvmHost}.

Lemma silent_fixes {E A} (m : SE Agt E A) : fixes (fun s => (ledger s, volumes s)) m <-> silent m.
Proof.
  split; intros Hm s; specialize (Hm s); [by injection Hm|]. destruct Hm as [-> ->]. done.
Qed.

Abbreviation lv := (fun s => (ledger s, volumes s)).

Lemma lv_world {E A} (a : World -> World * A) :
  (forall w, lv_set (fst (a w)) = lv_set w) -> fixes lv (world (E:=E) a).
Proof. intros Ha. apply silent_fixes, silent_world, Ha. Qed.
Lemma lv_run {E} tool args :
  tool <> "lvcreate" -> tool <> "lvremove" -> fixes lv (world (E:=E) (run tool args)).
Proof. intros. apply lv_world. intros w. by apply lv_frame. Qed.
Lemma lv_mkdir_all {E} p : fixes lv (world (E:=E) (create_dir_all p)).
Proof. apply lv_world, lv_mkdir. Qed.
Lemma lv_rmdir_all {E} p : fixes lv (world (E:=E) (remove_dir_all p)).
Proof. apply lv_world, lv_rmdir. Qed.
Lemma lv_write_file {E} p c : fixes lv (world (E:=E) (write_file p c)).
Proof. apply lv_world, lv_write. Qed.
Lemma lv_remove_file {E} p : fixes lv (world (E:=E) (remove_file p)).
Proof. apply lv_world, lv_unlink. Qed.
Lemma lv_rename_file {E} p q : fixes lv (world (E:=E) (rename_file p q)).
Proof. apply lv_world, lv_rename. Qed.
Hint Resolve lv_mkdir_all lv_rmdir_all lv_write_file lv_remove_file lv_rename_file : fixes.
Hint Extern 1 (fixes _ (world (run _ _))) => apply lv_run; done : fixes.

Lemma lv_net_output tool args :
  tool <> "lvcreate" -> tool <> "lvremove" -> fixes lv (net_output tool args).
Proof. intros. unfold net_output. apply fixes_bind; [by apply lv_run|]. intros. fixes_tac. Qed.
Lemma lv_net_cmd tool args : tool <> "lvcreate" -> tool <> "lvremove" -> fixes lv (net_cmd tool args).
Proof. intros. unfold net_cmd. apply fixes_bind; [by apply lv_net_output|]. intros. fixes_tac. Qed.
Hint Extern 1 (fixes _ (net_output _ _)) => apply lv_net_output; done : fixes.
Hint Extern 1 (fixes _ (net_cmd _ _)) => apply lv_net_cmd; done : fixes.
Lemma lv_link_exists n : fixes lv (link_exists n).
Proof. unfold link_exists. fixes_tac. Qed.
Lemma lv_live {E} g : fixes lv (se_modify (E:=E) (set_live g)).
Proof. done. Qed.
Hint Resolve lv_link_exists lv_live : fixes.

Lemma lv_backend_devices b : fixes lv (backend_devices b).
Proof. unfold backend_devices, device_of, vg_capacity, run_cmd, output. fixes_tac. Qed.
Lemma lv_detach_vm_taps vm : fixes lv (detach_vm_taps vm).
Proof. unfold detach_vm_taps, delete_tap_by_name. fixes_tac. Qed.
Lemma lv_bind_vfio pci : fixes lv (bind_vfio pci).
Proof. unfold bind_vfio, read_iommu_group, write_or. fixes_tac. Qed.
Lemma lv_unbind_vfio pci : fixes lv (unbind_vfio pci).
Proof. unfold unbind_vfio, write_or. fixes_tac. Qed.
Hint Resolve lv_bind_vfio lv_unbind_vfio : fixes.
Lemma lv_unbind_all l : fixes lv (unbind_all l).
Proof. unfold unbind_all. fixes_tac. Qed.

Context `{I : Ipnet} `{IH : !IpnetHosts I}.
Lemma lv_ensure_cluster_inner m c : fixes lv (ensure_cluster_inner m c).
Proof.
  unfold ensure_cluster_inner, set_mtu, ensure_vrf, enslave_to_vrf, ensure_bridge_address,
    ensure_cluster_masquerade, ensure_iptables_rule, reconcile_fdb, list_fdb_bum_dsts. fixes_tac.
Qed.
Hint Resolve lv_ensure_cluster_inner : fixes.
Lemma lv_attach_vm_primary m vm vni : fixes lv (attach_vm_primary m vm vni).
Proof. unfold attach_vm_primary, ensure_bootstrap, ensure_tap_on_bridge. fixes_tac. Qed.
Lemma lv_reconcile m cs : fixes lv (reconcile m cs).
Proof.
  unfold reconcile, list_kernel_cluster_vnis, recover_cluster, read_bridge_cluster_cidr, reconcile_cluster,
    reconcile_proxy_arp, list_kernel_proxy_arp, add_proxy_arp, send_garp, del_proxy_arp,
    reconcile_routes, list_kernel_prefix_routes, ip_route. fixes_tac.
Qed.
Lemma lv_tombstone_cluster m vni c : fixes lv (tombstone_cluster m vni c).
Proof.
  unfold tombstone_cluster, read_link_master, del_proxy_arp, remove_cluster_masquerade,
    delete_iptables_rule, delete_vrf_if_unused. fixes_tac.
Qed.

Lemma lv_vm_mgr_delete d vm : fixes lv (vm_mgr_delete d vm).
Proof. unfold vm_mgr_delete. fixes_tac; by intros s. Qed.
Lemma lv_vm_mgr_create d c b t v : fixes lv (vm_mgr_create d c b t v).
Proof. unfold vm_mgr_create. fixes_tac; by intros s. Qed.

(** The image cache; the only volume it touches is the golden one. *)
Context `{O : !Oci} `{OL : !OciLvm}.
Lemma lv_oci_manifest {E} r a : fixes lv (world (E:=E) (oci_manifest r a)).
Proof. apply lv_world, lv_manifest. Qed.
Lemma lv_oci_blob {E} r l : fixes lv (world (E:=E) (oci_blob r l)).
Proof. apply lv_world, lv_blob. Qed.
Hint Resolve lv_oci_manifest lv_oci_blob : fixes.
Lemma lv_write_chunks t l acc : fixes lv (write_chunks t l acc).
Proof.
  revert acc. induction l as [|c l IHl]; intros acc; simpl; [apply fixes_ret|]. unfold io. fixes_tac.
Qed.
Hint Resolve lv_write_chunks : fixes.
Lemma lv_pull_oci m r stem ts : fixes lv (pull_oci m r stem ts).
Proof. unfold pull_oci, pull_layer, exists_path, decompress_qcow2_in_place, io. fixes_tac. Qed.
Lemma lv_qcow2_virtual_size_gib q : fixes lv (qcow2_virtual_size_gib q).
Proof. unfold qcow2_virtual_size_gib. fixes_tac. Qed.
Lemma lv_create_cloud_init_iso m d i h u p :
  ig_iso_tool m <> "lvcreate" -> ig_iso_tool m <> "lvremove" ->
  fixes lv (create_cloud_init_iso m d i h u p).
Proof.
  intros H1 H2. pose proof (lv_run (E:=ImageError) (ig_iso_tool m)). unfold create_cloud_init_iso, io. fixes_tac.
Qed.

Definition image_lv (st : Storage) (image_ref : string) : string * string :=
  (rs_vg (st_rootfs st), IMAGE_LV_PREFIX +:+ image_ref_to_prefix image_ref).

Lemma triple_lv {E A} (m : SE Agt E A) P : fixes lv m -> triple (on P) m (fun _ => on P) (on P).
Proof. intros Hm. apply triple_silent, silent_fixes, Hm. Qed.

Lemma triple_ensure_cached P m st r :
  (forall t V, P t V -> P t (V ∖ {[image_lv st r]})) -> (forall t V, P t V -> P t ({[image_lv st r]} ∪ V)) ->
  triple (on P) (ensure_cached m st r) (fun _ => on P) (on P).
Proof.
  intros Hrem Hadd. unfold ensure_cached. cbn zeta.
  do 4 (apply (triple_bind _ _ _ (fun _ => on P)); [apply triple_lv; by intros s|intros ?]).
  case_match.
  { apply triple_lv. pose proof lv_qcow2_virtual_size_gib. fixes_tac. }
  apply (triple_bind _ _ _ (fun _ => on P)).
  { apply triple_lv. pose proof lv_pull_oci. fixes_tac. }
  intros _. apply (triple_bind _ _ _ (fun _ => on P)); [apply triple_lv, lv_qcow2_virtual_size_gib|intros gib].
  apply (triple_bind _ _ _ (fun _ => on P)); [|by intros _ s].
  apply triple_map_err. eapply triple_post, triple_ensure_image_lv; [by intros ? ? []|done|done|done].
Qed.
End volumes.
