(* ===== verification/VmFacts.v ===== *)
(** * What creating and deleting a VM guarantee

    Theorems about [delete_vm] and [create_vm] of handlers.rs under the
    behaviour of lvm2 ([LvmHost]): whatever command fails, the ledger still
    knows every data volume, and what a call returned for is done. *)

From S2P Require Import Prelude Ipv4 Ipnet Proto DbTypes Vms Ctl Agent Text HashName Host Lvm Gpu Net Dataplane Image HostVm Triple Ledger Frames.

Definition rootfs_lv (st : Storage) (vm : string) : string * string :=
  (rs_vg (st_rootfs st), VM_LV_PREFIX +:+ vm).

Section facts.
Context `{L : LvmHost} `{I : Ipnet} `{IH : !IpnetHosts I} `{O : !Oci} `{OL : !OciLvm} `{J : AgentJson}.

Lemma triple_fixes_lv {E A} (m : SE Agt E A) P :
  fixes (fun s => (ledger s, volumes s)) m -> triple (on P) m (fun _ => on P) (on P).
Proof. intros Hm. apply triple_silent, silent_fixes, Hm. Qed.

(** ** What removing volumes keeps *)

(** Facts that survive the removal of any volume and the dropping or marking
    of any row. *)
Definition shrinkable (P : list LvmReservationRow -> gset (string * string) -> Prop) : Prop :=
  (forall t V x, P t V -> P t (V ∖ {[x]})) /\
  (forall t V p, P t V -> P (delete_where p t) V) /\
  (forall t V p st, P t V -> P (update_where p (with_rv_state st) t) V).

Lemma keeps_shrinkable_release P st vm : shrinkable P -> keeps (on P) (release_vm_disks st vm).
Proof.
  intros (Hrem & Hdel & Hupd).
  assert (forall vg lv, keeps (on P) (lvremove vg lv)) as Hlv.
  { intros vg lv. apply keeps_triple. eapply triple_post, (triple_lvremove P); [by intros ? ? []|done|]. auto. }
  assert (forall role, keeps (on P) (acquire role)) as Hacq.
  { intros role. apply keeps_triple, triple_silent, silent_acquire. }
  apply keeps_for. intros b. unfold release. apply keeps_bind; [apply keeps_gets|]. intros t.
  destruct (select _ t) as [|r rows]; [apply keeps_ret|].
  apply keeps_bind; [apply keeps_for|].
  { intros q. apply keeps_modify. intros s Hs. by apply Hupd. }
  intros _. apply keeps_bind; [apply Hacq|]. intros _. apply keeps_for. intros q.
  apply keeps_bind; [apply Hlv|]. intros _. apply keeps_modify. intros s Hs. by apply Hdel.
Qed.
Lemma keeps_shrinkable_rootfs P st vm : shrinkable P -> keeps (on P) (remove_vm_rootfs st vm).
Proof.
  intros (Hrem & _). apply keeps_triple. eapply triple_post, triple_remove_vm_rootfs; [by intros ? ? []|done|].
  intros t V. apply Hrem.
Qed.

Lemma shrinkable_absent x : shrinkable (fun _ V => x ∉ V).
Proof. split_and!; intros; set_solver. Qed.
Lemma shrinkable_gone st vm : shrinkable (gone st vm).
Proof.
  split_and!.
  - intros t V x [Ht HV]. split; [done|]. intros vg n i Hvg Hin. apply (HV vg n i Hvg). set_solver.
  - intros t V p [Ht HV]. split; [|done]. intros r [Hr _]%elem_of_delete_where. by apply Ht.
  - intros t V p st' [Ht HV]. split; [|done]. intros r (q & Hq & ->)%elem_of_update_where.
    destruct (p q); by apply (Ht q).
Qed.
Lemma shrinkable_and P Q : shrinkable P -> shrinkable Q -> shrinkable (fun t V => P t V /\ Q t V).
Proof. intros (? & ? & ?) (? & ? & ?). split_and!; naive_solver. Qed.
Lemma shrinkable_all {A} (P : A -> list LvmReservationRow -> gset (string * string) -> Prop) (l : list A) :
  (forall a, shrinkable (P a)) -> shrinkable (fun t V => forall a, a ∈ l -> P a t V).
Proof. intros HP. split_and!; intros * H' a Ha; destruct (HP a) as (? & ? & ?); auto. Qed.

(** ** Deleting a VM *)

(** Nothing of the VM is left on the host's storage. *)
Definition erased (st : Storage) (vm : string) (t : list LvmReservationRow) (V : gset (string * string)) : Prop :=
  gone st vm t V /\ rootfs_lv st vm ∉ V.
Lemma shrinkable_erased st vm : shrinkable (erased st vm).
Proof. apply shrinkable_and; [apply shrinkable_gone|apply shrinkable_absent]. Qed.

(** Volumes of [V0] that are neither the VM's root nor its data disks are there. *)
Definition spares (st : Storage) (vm : string) (V0 V : gset (string * string)) : Prop :=
  spared vm (V0 ∖ {[rootfs_lv st vm]}) V.

Definition local_table (s : Agt) : list LocalVmRow := local_vms (at_db s).

Lemma spared_remove_rootfs st vm V0 V :
  spares st vm V0 V -> spares st vm V0 (V ∖ {[rootfs_lv st vm]}).
Proof. intros Hsp vg n Hin Hn. specialize (Hsp vg n Hin Hn). set_solver. Qed.

Lemma triple_teardown st vm V0 :
  triple (on (fun t V => storage_inv st t V /\ spares st vm V0 V))
    (run! remove_vm_rootfs st vm ; release_vm_disks st vm)
    (fun _ => on (fun t V => (storage_inv st t V /\ spares st vm V0 V) /\ erased st vm t V))
    (on (fun t V => storage_inv st t V /\ spares st vm V0 V)).
Proof.
  apply (triple_bind _ _ _ (fun _ => on (fun t V => (storage_inv st t V /\ spares st vm V0 V) /\
                                                     rootfs_lv st vm ∉ V))).
  { apply triple_remove_vm_rootfs. intros t V [Hinv Hsp]. split.
    - by apply storage_inv_remove_rootfs.
    - by apply spared_remove_rootfs. }
  intros _.
  pose proof (triple_frame (on (fun _ V => rootfs_lv st vm ∉ V)) _ _ _ _
    (triple_release_vm_disks st vm (V0 ∖ {[rootfs_lv st vm]}))
    (keeps_shrinkable_release _ st vm (shrinkable_absent _))) as Hrel.
  eapply triple_post, Hrel.
  - intros a s [(Hinv & Hsp & Hg) Hx]. done.
  - by intros s [? _].
Qed.

(** The part of [delete_vm] before the storage. *)
Definition delete_vm_prefix (x : VmHandlerCtx) (vm : string) : SE Agt AgentError unit :=
  do! record <- se_gets (fun s => local_get_vm vm (at_db s)) ;
  run! vm_mgr_delete (hx_vms_dir x) vm ;
  run! se_try (F:=AgentError) (detach_vm_taps vm) ;
  (match record ≫= (fun r => gpus_of_json (lr_gpu_pci_addresses r)) with
   | Some addrs => unbind_all addrs
   | None => se_ret tt
   end).
Lemma delete_vm_split x vm s :
  delete_vm x vm s =
  (run! delete_vm_prefix x vm ;
   run! se_map_err AeLvm (run! remove_vm_rootfs (hx_storage x) vm ; release_vm_disks (hx_storage x) vm) ;
   se_modify (set_agent_db (local_delete_vm vm))) s.
Proof.
  unfold delete_vm, delete_vm_prefix, se_bind, se_map_err, se_gets.
  destruct (vm_mgr_delete _ _ s) as [s1 [[]|e]]; [|done].
  destruct (se_try _ s1) as [s2 [r|e]]; [|done].
  destruct (_ ≫= _) as [addrs|]; [destruct (unbind_all addrs s2) as [s3 [[]|e]]|]; try done; simpl.
  - destruct (remove_vm_rootfs _ _ s3) as [s4 [[]|e]]; [|done]. simpl.
    by destruct (release_vm_disks _ _ s4) as [s5 [[]|e]].
  - destruct (remove_vm_rootfs _ _ s2) as [s4 [[]|e]]; [|done]. simpl.
    by destruct (release_vm_disks _ _ s4) as [s5 [[]|e]].
Qed.

(** A call that cannot fail. *)
Definition total {E A} (m : SE Agt E A) : Prop := forall s, is_ok (snd (m s)) = true.
Lemma total_bind {E A B} (m : SE Agt E A) (k : A -> SE Agt E B) :
  total m -> (forall a, total (k a)) -> total (se_bind m k).
Proof.
  intros Hm Hk s. unfold se_bind. specialize (Hm s). destruct (m s) as [s' [a|e]]; [apply Hk|done].
Qed.
Lemma total_for {E A} (l : list A) (body : A -> SE Agt E unit) :
  (forall a, total (body a)) -> total (se_for l body).
Proof. intros Hb. induction l; simpl; [by intros s|]. by apply total_bind. Qed.
Lemma total_try {E F A} (m : SE Agt E A) : total (se_try (F:=F) m).
Proof. intros s. unfold se_try. by destruct (m s). Qed.
Lemma total_world {E A} (a : World -> World * A) : total (world (E:=E) a).
Proof. intros s. unfold world. by destruct (a (at_world s)). Qed.

Lemma total_delete_vm_prefix x vm : total (delete_vm_prefix x vm).
Proof.
  apply total_bind; [done|intros r]. apply total_bind.
  - unfold vm_mgr_delete. repeat (apply total_bind; [first [done|apply total_world]|intros ?]).
    apply total_bind; [|intros ?; apply total_bind; [apply total_world|done]].
    case_match; [|done]. apply total_bind; [apply total_world|done].
  - intros _. apply total_bind; [apply total_try|intros _]. case_match; [|done].
    apply total_for. intros a. apply total_bind; [apply total_try|done].
Qed.

Lemma fixes_delete_vm_prefix {B} (f : Agt -> B) x vm :
  (forall g s, f (set_world g s) = f s) -> (forall s, f (set_tracked (base.delete vm) s) = f s) ->
  fixes f (delete_vm_prefix x vm).
Proof.
  intros Hw Ht. unfold delete_vm_prefix, vm_mgr_delete.
  pose proof (fixes_detach_vm_taps f Hw). pose proof (fixes_unbind_all f Hw).
  pose proof (fun E A => fixes_world f Hw (E:=E) (A:=A)).
  assert (fixes f (se_modify (E:=AgentError) (set_tracked (base.delete vm)))) by (by apply fixes_modify).
  fixes_tac.
Qed.

Lemma delete_vm_prefix_lv x vm : fixes (fun s => (ledger s, volumes s)) (delete_vm_prefix x vm).
Proof.
  unfold delete_vm_prefix. pose proof (lv_vm_mgr_delete (hx_vms_dir x) vm). pose proof (lv_detach_vm_taps vm).
  pose proof lv_unbind_all. fixes_tac.
Qed.

Definition untracked (vm : string) (s : Agt) : Prop := at_tracked s !! vm = None.
Lemma keeps_untracked {E A} vm (m : SE Agt E A) : fixes at_tracked m -> keeps (untracked vm) m.
Proof. apply (fixes_keeps at_tracked (fun t => t !! vm = None)). Qed.

Lemma delete_vm_prefix_untracks x vm :
  triple (fun _ => True) (delete_vm_prefix x vm) (fun _ => untracked vm) (untracked vm).
Proof.
  pose proof (@fixes_world H _ at_tracked (fun _ _ => eq_refl)) as Hw.
  pose proof (@fixes_detach_vm_taps H _ at_tracked (fun _ _ => eq_refl)) as Hd.
  pose proof (@fixes_unbind_all H _ at_tracked (fun _ _ => eq_refl)) as Hu.
  apply (triple_bind _ _ _ (fun _ _ => True)); [by intros s|intros r].
  apply (triple_bind _ _ _ (fun _ => untracked vm)).
  - apply (triple_bind _ _ _ (fun _ _ => True)); [by intros s|intros t].
    apply (triple_bind _ _ _ (fun _ => untracked vm)).
    { apply triple_modify. intros s _. unfold untracked. simpl. apply lookup_delete_eq. }
    intros _. apply keeps_triple, keeps_untracked. cbn zeta. fixes_tac.
  - intros _. apply keeps_triple, keeps_untracked. fixes_tac.
Qed.

Definition sound (st : Storage) (vm : string) (V0 : gset (string * string)) :=
  on (fun t V => storage_inv st t V /\ spares st vm V0 V).

Lemma fixes_teardown {B} (f : Agt -> B) st vm :
  (forall g s, f (set_world g s) = f s) ->
  (forall g s, f (set_agent_db (set_reservations g) s) = f s) ->
  fixes f (se_map_err AeLvm (run! remove_vm_rootfs st vm ; release_vm_disks st vm)).
Proof.
  intros Hw Hr. apply fixes_map_err, fixes_bind; [by apply fixes_remove_vm_rootfs|].
  intros _. by apply fixes_release_vm_disks.
Qed.

(** [delete_vm]: on success nothing of the VM is left; on an error its row
    stays, for a retry. *)
Lemma triple_delete_vm x vm V0 t0 :
  let st := hx_storage x in
  triple (fun s => sound st vm V0 s /\ local_table s = t0) (delete_vm x vm)
    (fun _ s => (sound st vm V0 s /\ on (erased st vm) s) /\
                local_table s = delete_where (fun r => lr_vm_id r =$ vm) t0 /\ untracked vm s)
    (fun s => sound st vm V0 s /\ local_table s = t0 /\ untracked vm s).
Proof.
  intros st.
  enough (triple (fun s => sound st vm V0 s /\ local_table s = t0)
    (run! delete_vm_prefix x vm ;
     run! se_map_err AeLvm (run! remove_vm_rootfs st vm ; release_vm_disks st vm) ;
     se_modify (set_agent_db (local_delete_vm vm)))
    (fun _ s => (sound st vm V0 s /\ on (erased st vm) s) /\
                local_table s = delete_where (fun r => lr_vm_id r =$ vm) t0 /\ untracked vm s)
    (fun s => sound st vm V0 s /\ local_table s = t0 /\ untracked vm s)) as Ht.
  { intros s Hs. specialize (Ht s Hs). by rewrite delete_vm_split. }
  apply (triple_bind _ _ _ (fun _ s => sound st vm V0 s /\ local_table s = t0 /\ untracked vm s)).
  { intros s [Hs Ht]. pose proof (delete_vm_prefix_untracks x vm s Logic.I) as Hu.
    pose proof (triple_fixes_lv _ (fun t V => storage_inv st t V /\ spares st vm V0 V)
      (delete_vm_prefix_lv x vm) s Hs) as Hlv.
    assert (local_table (fst (delete_vm_prefix x vm s)) = local_table s) as Hf
      by (by apply fixes_delete_vm_prefix).
    destruct (delete_vm_prefix x vm s) as [s' [[]|e]]; simpl in *; split_and!; congruence || done. }
  intros _.
  apply (triple_bind _ _ _ (fun _ s => (sound st vm V0 s /\ on (erased st vm) s) /\
                                       (local_table s = t0 /\ untracked vm s))).
  - eapply triple_post, triple_frame.
    + intros a s Hs. exact Hs.
    + intros s Hs. exact Hs.
    + apply triple_map_err. eapply triple_post, triple_teardown; [|done]. by intros a s [[? ?] ?].
    + intros s [Ht Hu]. unfold untracked. rewrite !fixes_teardown by done. done.
  - intros _ s [[Hs He] [Ht Hu]]. split_and!; try done. unfold local_table in *. simpl. by rewrite Ht.
Qed.

(** ** Creating a VM *)

(** [create_vm_inner] up to the local row. *)
Definition create_prepare (x : VmHandlerCtx) (cmd : CreateVmCommand) : SE Agt AgentError CachedImage :=
  do! ok <- world (create_dir_all (path_join (hx_vms_dir x) (cmd_vm_id cmd))) ;
  if negb ok then se_fail AeIo else
  do! base <- se_map_err AeImage (ensure_cached (hx_image_mgr x) (hx_storage x) (cmd_image cmd)) ;
  if cmd_disk_gib cmd <? im_virtual_size_gib base then se_fail (Bail "disk_gib is smaller than image") else
  run! se_for (cmd_storage_disks cmd) (validate_disk (hx_storage x)) ;
  se_ret base.
(** From the local row to the disks. *)
Definition create_disks (x : VmHandlerCtx) (cmd : CreateVmCommand) (base : CachedImage)
    : SE Agt AgentError (string * list LocalStorageDisk) :=
  let vm := cmd_vm_id cmd in
  do! rootfs <- se_map_err AeLvm (create_vm_rootfs (hx_storage x) vm (im_image_hash base) (cmd_disk_gib cmd)) ;
  do! disks <- se_map (cmd_storage_disks cmd) (allocate_disk x vm) ;
  run! update_local_vms (update_where (fun r => lr_vm_id r =$ vm) (with_local_disks (local_disks_to_json disks))) ;
  se_ret (rootfs, disks).
(** From the disks to the running unit. *)
Definition create_boot (x : VmHandlerCtx) (cmd : CreateVmCommand) (base : CachedImage)
    (rd : string * list LocalStorageDisk) : SE Agt AgentError unit :=
  let vm := cmd_vm_id cmd in
  do! iso <- se_map_err AeImage (create_cloud_init_iso (hx_image_mgr x) (path_join (hx_vms_dir x) vm) vm (cmd_name cmd)
    (String.string_of_list_byte (cmd_bootstrap_data cmd))
    {| gn_mac := primary_mac vm; gn_ip_address := cmd_ip_address cmd; gn_gateway := cmd_gateway cmd;
       gn_prefix_len := cmd_prefix_len cmd; gn_dns_servers := cmd_dns_servers cmd;
       gn_mtu := inner_mtu (hx_net x) |}) ;
  do! tap <- se_map_err AeNet (attach_vm_primary (hx_net x) vm (cmd_vni cmd)) ;
  do! vfio <- se_map (cmd_gpu_pci_addresses cmd) (fun pci => se_map_err AeGpu (bind_vfio pci)) ;
  se_map_err AeVm (vm_mgr_create (hx_vms_dir x) cmd
    {| ba_kernel := im_kernel base; ba_initrd := im_initrd base; ba_rootfs := rd.1; ba_cloud_init := iso;
       ba_data_disks := map ls_device_path rd.2 |} tap vfio).

Lemma create_vm_inner_split x cmd now s :
  create_vm_inner x cmd now s =
  (do! base <- create_prepare x cmd ;
   run! insert_local (local_row cmd now) ;
   do! rd <- create_disks x cmd base ;
   create_boot x cmd base rd) s.
Proof.
  unfold create_vm_inner, create_prepare, create_disks, create_boot, se_bind, se_ret, se_fail.
  destruct (world _ s) as [s1 [ok|e]]; [|done]. destruct ok; simpl; [|done].
  destruct (se_map_err AeImage (ensure_cached _ _ _) s1) as [s2 [base|e]]; [|done].
  destruct (cmd_disk_gib cmd <? im_virtual_size_gib base); [done|].
  destruct (se_for _ _ s2) as [s3 [[]|e]]; [|done]. destruct (insert_local _ s3) as [s4 [[]|e]]; [|done].
  destruct (se_map_err AeLvm _ s4) as [s5 [rootfs|e]]; [|done].
  by destruct (se_map _ _ s5) as [s6 [disks|e]].
Qed.

(** The preparation cannot change the tables, the tracked VMs or the messages. *)
Lemma fixes_create_prepare {B} (f : Agt -> B) x cmd :
  (forall g s, f (set_world g s) = f s) -> fixes f (create_prepare x cmd).
Proof.
  intros Hw. unfold create_prepare, validate_disk. pose proof (fixes_ensure_cached f Hw).
  pose proof (fixes_backend_devices f Hw). pose proof (fun E A => fixes_world f Hw (E:=E) (A:=A)). fixes_tac.
Qed.

Definition known_locally (vm : string) (s : Agt) : Prop := exists r, r ∈ local_table s /\ lr_vm_id r = vm.

Lemma insert_local_known row s :
  known_locally (lr_vm_id row) s -> insert_local row s = (s, Err AeDb).
Proof.
  intros (r & Hr & Hid). unfold insert_local, se_bind, se_gets, local_insert_vm.
  rewrite (proj2 (existsb_true _ _)); [done|]. exists r. split; [done|]. by apply String.eqb_eq.
Qed.

(** *** What allocating one disk keeps *)

(** Facts that the steps of one allocation cannot break. *)
Record alloc_stable (P : list LvmReservationRow -> gset (string * string) -> Prop)
    (b : LvmLinearBackend) (req : DiskAllocationRequest) : Prop := {
  as_remove t V vg : P t V -> P t (V ∖ {[(vg, lv_name (rq_vm_id req) (rq_disk_index req))]});
  as_add t V vg : P t V -> P t ({[(vg, lv_name (rq_vm_id req) (rq_disk_index req))]} ∪ V);
  as_drop t V : P t V -> P (delete_where (fun r => rv_assignment_id r =$ rq_assignment_id req) t) V;
  as_insert t V vg : vg_for b (rq_device_id req) = Ok vg -> P t V -> P (t ++ [reservation_of b vg req]) V;
  as_state t V st : P t V ->
    P (update_where (fun r => rv_assignment_id r =$ rq_assignment_id req) (with_rv_state st) t) V;
}.

Lemma keeps_allocate P b req : alloc_stable P b req -> keeps (on P) (allocate b req).
Proof.
  intros [Hrem Hadd Hdrop Hins Hst].
  assert (forall vg, keeps (on P) (run_cmd "lvcreate" (lvcreate_args vg
    (lv_name (rq_vm_id req) (rq_disk_index req)) (rq_min_size_gib req)))) as Hcreate.
  { intros vg. apply keeps_triple. 
    eapply triple_post, (triple_lvcreate P _ (vg, lv_name (rq_vm_id req) (rq_disk_index req)));
      [by intros ? ? []|done|intros w w' o; apply lvcreate_spec|auto]. }
  assert (forall vg, keeps (on P) (lvremove vg (lv_name (rq_vm_id req) (rq_disk_index req)))) as Hlv.
  { intros vg. apply keeps_triple. eapply triple_post, (triple_lvremove P); [by intros ? ? []|done|]. auto. }
  assert (forall vg, vg_for b (rq_device_id req) = Ok vg -> keeps (on P) (create_lv b vg req)) as Hlvm.
  { intros vg Hvg. unfold create_lv, insert_reservation, reservations.
    apply keeps_bind; [apply keeps_bind; [apply keeps_gets|intros t]|intros _].
    { case_match; [apply keeps_fail|]. apply keeps_modify. intros s Hs. by apply Hins. }
    apply keeps_bind; [apply keeps_triple, triple_silent, silent_acquire|intros _].
    apply keeps_bind; [apply keeps_triple, triple_silent, silent_lv_attr|intros stale].
    apply keeps_bind; [case_match; [apply Hlv|apply keeps_ret]|intros _].
    apply keeps_bind; [apply Hcreate|intros _].
    apply keeps_bind; [apply keeps_modify; intros s Hs; by apply Hst|intros _]. apply keeps_ret. }
  assert (keeps (on P) (do! t <- reservations ;
    if existsb (fun r => (rv_vm_id r =$ rq_vm_id req) && (rv_disk_index r =? rq_disk_index req) &&
                         (rv_assignment_id r <>$ rq_assignment_id req)) t
    then se_fail (AssignmentConflict (rq_assignment_id req) (rq_vm_id req) (rq_disk_index req))
    else do! vg <- se_of (vg_for b (rq_device_id req)) ; create_lv b vg req)) as Hfresh.
  { apply keeps_bind; [apply keeps_gets|intros t]. case_match; [apply keeps_fail|].
    intros s Hs. unfold se_bind, se_of. destruct (vg_for b (rq_device_id req)) eqn:Hvg; [|done]. by apply Hlvm. }
  unfold allocate, lookup_assignment. apply keeps_bind.
  { apply keeps_bind; [apply keeps_gets|intros; apply keeps_ret]. }
  intros [r|]; [|done]. case_match; [apply keeps_ret|]. apply keeps_bind; [|done].
  apply keeps_modify. intros s Hs. by apply Hdrop.
Qed.

(** Facts about rows that do not depend on their state. *)
Lemma alloc_stable_rows (R : LvmReservationRow -> Prop) b req :
  (forall r st, R r -> R (with_rv_state st r)) ->
  (forall vg, vg_for b (rq_device_id req) = Ok vg -> R (reservation_of b vg req)) ->
  alloc_stable (fun t _ => forall r, r ∈ t -> R r) b req.
Proof.
  intros Hst Hnew. split; try done.
  - intros t V Ht r [Hr _]%elem_of_delete_where. by apply Ht.
  - intros t V vg Hvg Ht r [Hr|Hr%list_elem_of_singleton]%elem_of_app; [by apply Ht|subst r; by apply Hnew].
  - intros t V st Ht r (q & Hq & ->)%elem_of_update_where. case_match; [apply Hst|]; by apply Ht.
Qed.
Lemma alloc_stable_spared V0 b req :
  rq_vm_id req <> "" -> is_u32 (rq_disk_index req) ->
  alloc_stable (fun _ V => spared (rq_vm_id req) V0 V) b req.
Proof.
  intros Hvm Hi. split; try done.
  - intros t V vg Hsp vg' n Hin Hn. apply elem_of_difference. split; [by apply Hsp|].
    intros [= -> ->]%elem_of_singleton. apply (Hn (rq_disk_index req)). by apply lv_name_roundtrip.
  - intros t V vg Hsp vg' n Hin Hn. apply elem_of_union. right. by apply Hsp.
Qed.

(** *** All disks of a command *)

(** A well-formed command: distinct assignments, distinct [u32] indices. *)
Record cmd_ok (cmd : CreateVmCommand) : Prop := {
  co_vm : cmd_vm_id cmd <> "";
  co_assignments : NoDup (map cd_assignment_id (cmd_storage_disks cmd));
  co_indices : NoDup (map cd_disk_index (cmd_storage_disks cmd));
  co_u32 d : d ∈ cmd_storage_disks cmd -> is_u32 (cd_disk_index d);
}.
(** Rows of earlier attempts are for the same disks. *)
Definition row_agrees (st : Storage) (cmd : CreateVmCommand) (r : LvmReservationRow) : Prop :=
  forall d, d ∈ cmd_storage_disks cmd -> rv_assignment_id r = cd_assignment_id d ->
  exists b, storage_pool st (cd_pool d) = Some b /\ rv_vm_id r = cmd_vm_id cmd /\
    rv_disk_index r = cd_disk_index d /\ rv_device_id r = cd_device_id d /\
    rv_pool r = ps_name (be_spec b) /\ vg_for b (rv_device_id r) = Ok (rv_vg r).
Definition agrees (st : Storage) (cmd : CreateVmCommand) (t : list LvmReservationRow) : Prop :=
  forall r, r ∈ t -> row_agrees st cmd r.

(** The volume of a disk: where it is, that it exists, and that its row is ready. *)
Definition disk_lv (st : Storage) (d : CommandedDisk) (vg : string) : Prop :=
  exists b, storage_pool st (cd_pool d) = Some b /\ vg_for b (cd_device_id d) = Ok vg.
Definition disk_ready (st : Storage) (vm : string) (d : CommandedDisk)
    (t : list LvmReservationRow) (V : gset (string * string)) : Prop :=
  exists vg r, disk_lv st d vg /\ (vg, lv_name vm (cd_disk_index d)) ∈ V /\ r ∈ t /\
    rv_assignment_id r = cd_assignment_id d /\ rv_state r = "Ready" /\
    row_key r = (vg, lv_name vm (cd_disk_index d)).
Definition disk_recorded (st : Storage) (vm : string) (d : CommandedDisk) (ls : LocalStorageDisk) : Prop :=
  ls_assignment_id ls = cd_assignment_id d /\ ls_disk_index ls = cd_disk_index d /\
  exists vg, disk_lv st d vg /\ ls_device_path ls = lv_path vg (lv_name vm (cd_disk_index d)).

Lemma alloc_stable_ready st vm d b req :
  vm <> "" -> is_u32 (cd_disk_index d) -> is_u32 (rq_disk_index req) -> rq_vm_id req = vm ->
  cd_assignment_id d <> rq_assignment_id req -> cd_disk_index d <> rq_disk_index req ->
  alloc_stable (disk_ready st vm d) b req.
Proof.
  intros Hvm Hi Hj <- Ha Hij.
  assert (lv_name (rq_vm_id req) (cd_disk_index d) <> lv_name (rq_vm_id req) (rq_disk_index req)) as Hne.
  { intros E. apply lv_name_inj in E as [_ E]; done. }
  split.
  - intros t V vg (vg' & r & Hlv & HV & Hr). exists vg', r. split; [done|]. split; [set_solver|done].
  - intros t V vg (vg' & r & Hlv & HV & Hr). exists vg', r. split; [done|]. split; [set_solver|done].
  - intros t V (vg' & r & Hlv & HV & Hr & Hid & Hrest). exists vg', r. split_and!; try apply Hrest; try done.
    apply elem_of_delete_where. split; [done|]. apply String.eqb_neq. congruence.
  - intros t V vg _ (vg' & r & Hlv & HV & Hr & Hrest). exists vg', r. split_and!; try apply Hrest; try done.
    apply elem_of_app. by left.
  - intros t V st' (vg' & r & Hlv & HV & Hr & Hid & Hrest). exists vg', r. split_and!; try apply Hrest; try done.
    apply elem_of_update_where. exists r. split; [done|].
    by rewrite (proj2 (String.eqb_neq _ _)) by congruence.
Qed.

Lemma alloc_stable_agrees st cmd b d :
  cmd_ok cmd -> d ∈ cmd_storage_disks cmd -> storage_pool st (cd_pool d) = Some b ->
  alloc_stable (fun t _ => agrees st cmd t) b (request_of (cmd_vm_id cmd) d).
Proof.
  intros [_ Hids _ _] Hd Hb. apply alloc_stable_rows.
  - intros r st' Hr d' Hd' Hid. by apply Hr.
  - intros vg Hvg d' Hd' Hid. simpl in *. rewrite <- (NoDup_map_inj _ _ _ _ Hids Hd Hd' Hid).
    exists b. by split_and!.
Qed.

Lemma alloc_stable_and P Q b req :
  alloc_stable P b req -> alloc_stable Q b req -> alloc_stable (fun t V => P t V /\ Q t V) b req.
Proof. intros [] []. split; naive_solver. Qed.
Lemma alloc_stable_all {A} (P : A -> list LvmReservationRow -> gset (string * string) -> Prop) (l : list A) b req :
  (forall a, a ∈ l -> alloc_stable (P a) b req) -> alloc_stable (fun t V => forall a, a ∈ l -> P a t V) b req.
Proof.
  intros HP. split.
  - intros t V vg H' a Ha. by apply (as_remove _ _ _ (HP a Ha)), H'.
  - intros t V vg H' a Ha. by apply (as_add _ _ _ (HP a Ha)), H'.
  - intros t V H' a Ha. by apply (as_drop _ _ _ (HP a Ha)), H'.
  - intros t V vg Hvg H' a Ha. by apply (as_insert _ _ _ (HP a Ha)), H'.
  - intros t V st H' a Ha. by apply (as_state _ _ _ (HP a Ha)), H'.
Qed.
Lemma alloc_stable_rootfs st b req :
  alloc_stable (fun _ V => rootfs_lv st (rq_vm_id req) ∈ V) b req.
Proof.
  assert (forall vg, rootfs_lv st (rq_vm_id req) <>
    (vg, lv_name (rq_vm_id req) (rq_disk_index req))) as Hne.
  { by intros vg [=]. }
  split; try done; intros t V vg HV; specialize (Hne vg); set_solver.
Qed.

(** What holds between two disks of the loop. *)
Definition disks_so_far (st : Storage) (cmd : CreateVmCommand) (V0 : gset (string * string))
    (dn : list CommandedDisk) (t : list LvmReservationRow) (V : gset (string * string)) : Prop :=
  spares st (cmd_vm_id cmd) V0 V /\ agrees st cmd t /\ rootfs_lv st (cmd_vm_id cmd) ∈ V /\
  forall d, d ∈ dn -> disk_ready st (cmd_vm_id cmd) d t V.

Lemma alloc_stable_so_far st cmd V0 dn b d rest :
  cmd_ok cmd -> cmd_storage_disks cmd = dn ++ d :: rest -> storage_pool st (cd_pool d) = Some b ->
  alloc_stable (disks_so_far st cmd V0 dn) b (request_of (cmd_vm_id cmd) d).
Proof.
  intros Hok Hsplit Hb. pose proof Hok as [Hvm Hids Hidx Hu].
  assert (d ∈ cmd_storage_disks cmd) as Hd by (rewrite Hsplit; set_solver).
  apply alloc_stable_and.
  { apply (alloc_stable_spared (V0 ∖ {[rootfs_lv st (cmd_vm_id cmd)]}) b (request_of (cmd_vm_id cmd) d) Hvm).
    by apply Hu. }
  apply alloc_stable_and; [by apply alloc_stable_agrees|].
  apply alloc_stable_and; [apply (alloc_stable_rootfs st b (request_of (cmd_vm_id cmd) d))|].
  apply alloc_stable_all. intros d' Hd'.
  assert (forall (A : Type) (k : CommandedDisk -> A), NoDup (map k (cmd_storage_disks cmd)) -> k d' <> k d) as Hne.
  { intros A k Hnd. rewrite Hsplit, map_app in Hnd. apply NoDup_app in Hnd as (_ & Hnd & _).
    intros E. apply (Hnd (k d')); [by apply list_elem_of_In, in_map, list_elem_of_In|]. rewrite E. by left. }
  apply alloc_stable_ready; try done; [| |apply Hne|apply Hne]; try done.
  - apply Hu. rewrite Hsplit. set_solver.
  - by apply Hu.
Qed.

Lemma storage_pool_in st name b : storage_pool st name = Some b -> b ∈ st_pools st.
Proof. by intros [? _]%select1_Some. Qed.

Lemma triple_allocate_disk x cmd V0 dn d rest :
  let st := hx_storage x in
  cmd_ok cmd -> cmd_storage_disks cmd = dn ++ d :: rest ->
  triple (on (fun t V => storage_inv st t V /\ disks_so_far st cmd V0 dn t V))
    (allocate_disk x (cmd_vm_id cmd) d)
    (fun ls s => on (fun t V => storage_inv st t V /\ disks_so_far st cmd V0 (dn ++ [d]) t V) s /\
                 disk_recorded st (cmd_vm_id cmd) d ls)
    (on (fun t V => storage_inv st t V /\ spares st (cmd_vm_id cmd) V0 V)).
Proof.
  intros st Hok Hsplit. unfold allocate_disk. fold st. set (P := disks_so_far st cmd V0 dn).
  assert (forall s, on (fun t V => storage_inv st t V /\ P t V) s ->
    on (fun t V => storage_inv st t V /\ spares st (cmd_vm_id cmd) V0 V) s) as Hweak.
  { by intros s (? & ? & _). }
  destruct (storage_pool st (cd_pool d)) as [b|] eqn:Hb; [|intros s Hs; by apply Hweak].
  destruct (disk_purpose_try_from (cd_purpose d)) as [p|]; [|intros s Hs; by apply Hweak].
  set (req := request_of (cmd_vm_id cmd) d).
  apply (triple_bind _ _ _ (fun a => on (fun t V => allocated st b req a t V /\ P t V))).
  - apply triple_map_err.
    eapply triple_post, (triple_pre _ (fun s => on (fun t V => storage_inv st t V /\ request_ok b req t) s /\ on P s)),
      triple_frame; [| | |by apply triple_allocate, (storage_pool_in _ _ _ Hb)|].
    + by intros a s [? ?].
    + intros s [? (? & _)]. by split.
    + intros s [Hinv HP]. split; [|done]. split; [done|].
      pose proof Hok as [Hvm _ _ Hu]. pose proof HP as (_ & Hag & _).
      assert (d ∈ cmd_storage_disks cmd) as Hd by (rewrite Hsplit; set_solver).
      split; [done|]. split; [by apply Hu|]. intros r Hr Hid.
      destruct (Hag r Hr d Hd Hid) as (b' & Hb' & ?). assert (b' = b) as -> by congruence. naive_solver.
    + apply keeps_allocate. by eapply alloc_stable_so_far.
  - intros a. apply (triple_bind _ _ _ (fun _ => on (fun t V => allocated st b req a t V /\ P t V))).
    { eapply (triple_try _ _ (fun _ => on (fun t V => allocated st b req a t V /\ P t V))
        (on (fun t V => allocated st b req a t V /\ P t V))); [|done].
      apply triple_fixes_lv. unfold send. case_match; by intros s. }
    intros _ s [(Hinv & vg & Hvg & Hpath & HV & r & Hr & Hid & Hst & Hk) (Hsp & Hag & Hroot & Hready)].
    assert (disk_lv st d vg) as Hlv by (by exists b).
    split.
    + split; [done|]. split_and!; try done. intros d' [Hd'| ->%list_elem_of_singleton]%elem_of_app; [by apply Hready|].
      exists vg, r. by split_and!.
    + split_and!; [done..|]. by exists vg.
Qed.

(** *** The disks, the row and the unit *)

Lemma triple_allocate_disks x cmd V0 :
  let st := hx_storage x in
  cmd_ok cmd ->
  triple (on (fun t V => storage_inv st t V /\ disks_so_far st cmd V0 [] t V))
    (se_map (cmd_storage_disks cmd) (allocate_disk x (cmd_vm_id cmd)))
    (fun ls s => on (fun t V => storage_inv st t V /\ disks_so_far st cmd V0 (cmd_storage_disks cmd) t V) s /\
                 Forall2 (disk_recorded st (cmd_vm_id cmd)) (cmd_storage_disks cmd) ls)
    (on (fun t V => storage_inv st t V /\ spares st (cmd_vm_id cmd) V0 V)).
Proof.
  intros st Hok.
  set (Inv := fun (rest : list CommandedDisk) (acc : list LocalStorageDisk) (s : Agt) =>
    exists dn, cmd_storage_disks cmd = dn ++ rest /\ Forall2 (disk_recorded st (cmd_vm_id cmd)) dn acc /\
      on (fun t V => storage_inv st t V /\ disks_so_far st cmd V0 dn t V) s).
  apply (triple_pre _ (Inv (cmd_storage_disks cmd) [])).
  { intros s Hs. exists []. by split_and!. }
  eapply triple_post, (triple_map _ Inv).
  - intros ls s (dn & Hdn & Hrec & Hs). rewrite app_nil_r in Hdn. by subst dn.
  - intros s Hs. exact Hs.
  - intros d rest acc s (dn & Hdn & Hrec & Hs).
    pose proof (triple_allocate_disk x cmd V0 dn d rest Hok Hdn s Hs) as Ht.
    destruct (allocate_disk _ _ _ s) as [s' [ls|e]]; [|done]. destruct Ht as [Hs' Hls].
    exists (dn ++ [d]). split_and!; [by rewrite <- app_assoc| |done]. by apply Forall2_app; [|constructor].
Qed.

Lemma fixes_allocate_disk {B} (f : Agt -> B) x vm d :
  (forall g s, f (set_world g s) = f s) -> (forall g s, f (set_agent_db (set_reservations g) s) = f s) ->
  (forall g s, f (set_sent g s) = f s) -> fixes f (allocate_disk x vm d).
Proof.
  intros Hw Hr Hs. unfold allocate_disk, send. pose proof (fixes_allocate f Hw Hr).
  assert (forall g, fixes f (se_modify (E:=AgentError) (set_sent g))) by (intros g; by apply fixes_modify).
  fixes_tac.
Qed.

Definition row_with_disks (vm : string) (ls : list LocalStorageDisk) (s : Agt) : Prop :=
  exists r, r ∈ local_table s /\ lr_vm_id r = vm /\ lr_storage_disks r = local_disks_to_json ls.

Lemma known_set_vms vm ls s :
  known_locally vm s ->
  row_with_disks vm ls (set_agent_db (set_local_vms
    (update_where (fun r => lr_vm_id r =$ vm) (with_local_disks (local_disks_to_json ls)))) s).
Proof.
  intros (r & Hr & Hid). exists (with_local_disks (local_disks_to_json ls) r). split_and!; try done.
  unfold local_table. simpl. apply elem_of_update_where. exists r. split; [done|].
  by rewrite Hid, String.eqb_refl.
Qed.

Lemma triple_create_disks x cmd base V0 :
  let st := hx_storage x in
  let vm := cmd_vm_id cmd in
  cmd_ok cmd ->
  triple (fun s => on (fun t V => storage_inv st t V /\ spares st vm V0 V /\ agrees st cmd t) s /\ known_locally vm s)
    (create_disks x cmd base)
    (fun rd s => on (fun t V => storage_inv st t V /\ disks_so_far st cmd V0 (cmd_storage_disks cmd) t V) s /\
                 row_with_disks vm rd.2 s /\ Forall2 (disk_recorded st vm) (cmd_storage_disks cmd) rd.2)
    (fun s => on (fun t V => storage_inv st t V /\ spares st vm V0 V) s /\ known_locally vm s).
Proof.
  intros st vm Hok. unfold create_disks. cbn zeta. fold st. fold vm.
  assert (forall E A (m : SE Agt E A), fixes local_table m -> keeps (known_locally vm) m) as Hkeep.
  { intros E A m Hm. by apply (fixes_keeps local_table (fun t => exists r, r ∈ t /\ lr_vm_id r = vm)). }
  set (P0 := fun t V => storage_inv st t V /\ spares st vm V0 V /\ agrees st cmd t).
  apply (triple_bind _ _ _ (fun _ s => on (fun t V => storage_inv st t V /\ disks_so_far st cmd V0 [] t V) s /\
                                       known_locally vm s)).
  { eapply triple_post, (triple_frame (known_locally vm)), Hkeep, fixes_map_err, fixes_create_vm_rootfs; [| | |done].
    - intros rootfs s Hs. exact Hs.
    - intros s Hs. exact Hs.
    - apply triple_map_err. eapply triple_post, (triple_create_vm_rootfs P0).
      + intros a s ((Hinv & Hsp & Hag) & Hx & _). split; [done|]. split_and!; [done..|]. by intros d ?%elem_of_nil.
      + by intros s (? & ? & _).
      + intros t V (? & ? & ?). split_and!; [by apply storage_inv_remove_rootfs|by apply spared_remove_rootfs|done].
      + intros t V (? & Hsp & ?). split_and!; [by apply storage_inv_add_rootfs| |done].
        intros vg n Hin Hn. apply elem_of_union. right. by apply Hsp. }
  intros rootfs.
  apply (triple_bind _ _ _ (fun ls s =>
    (on (fun t V => storage_inv st t V /\ disks_so_far st cmd V0 (cmd_storage_disks cmd) t V) s /\
     Forall2 (disk_recorded st vm) (cmd_storage_disks cmd) ls) /\ known_locally vm s)).
  { apply triple_frame; [by apply triple_allocate_disks|]. apply Hkeep, fixes_map. intros d.
    by apply fixes_allocate_disk. }
  intros ls. apply (triple_bind _ _ _ (fun _ s =>
    on (fun t V => storage_inv st t V /\ disks_so_far st cmd V0 (cmd_storage_disks cmd) t V) s /\
    row_with_disks vm ls s /\ Forall2 (disk_recorded st vm) (cmd_storage_disks cmd) ls)).
  - apply triple_modify. intros s [[Hs Hrec] Hk]. split_and!; [done| |done]. by apply known_set_vms.
  - by intros _ s.
Qed.

Lemma triple_create_boot x cmd base rd P :
  ig_iso_tool (hx_image_mgr x) <> "lvcreate" -> ig_iso_tool (hx_image_mgr x) <> "lvremove" ->
  triple (on P) (create_boot x cmd base rd)
    (fun _ s => on P s /\ is_Some (at_tracked s !! cmd_vm_id cmd)) (on P).
Proof.
  intros H1 H2.
  assert (fixes (fun s => (ledger s, volumes s)) (create_boot x cmd base rd)) as Hlv.
  { unfold create_boot. cbn zeta. pose proof lv_attach_vm_primary. pose proof lv_bind_vfio.
    pose proof lv_vm_mgr_create. pose proof (lv_create_cloud_init_iso (hx_image_mgr x)). fixes_tac. }
  assert (triple (fun _ => True) (create_boot x cmd base rd)
    (fun _ s => is_Some (at_tracked s !! cmd_vm_id cmd)) (fun _ => True)) as Htr.
  { do 3 (apply (triple_bind _ _ _ (fun _ _ => True)); [by intros s _; case_match; case_match|intros ?]).
    apply triple_map_err. unfold vm_mgr_create. cbn zeta.
    apply (triple_bind _ _ _ (fun _ _ => True)); [by intros s _; case_match; case_match|intros ok].
    destruct ok; [|by intros s]. simpl.
    apply (triple_bind _ _ _ (fun _ _ => True)); [by intros s _; case_match; case_match|intros o].
    destruct o as [out|]; [|by intros s]. destruct (out_ok out); [|by intros s].
    apply triple_modify. intros s _. simpl. by rewrite lookup_insert_eq. }
  intros s Hs. pose proof (triple_fixes_lv _ P Hlv s Hs) as Hp. specialize (Htr s Logic.I).
  destruct (create_boot x cmd base rd s) as [s' [[]|e]]; done.
Qed.

(** The volumes of a VM: its root and its data disks. *)
Definition vm_volume (st : Storage) (vm : string) (v : string * string) : Prop :=
  v = rootfs_lv st vm \/ (fst v ∈ data_vgs st /\ exists i, parse_data_disk_lv_name (snd v) = Some (vm, i)).
(** No volume of the VM that was not in [V0]. *)
Definition none_added (st : Storage) (vm : string) (V0 V : gset (string * string)) : Prop :=
  forall v, v ∈ V -> vm_volume st vm v -> v ∈ V0.
Lemma shrinkable_none_added st vm V0 : shrinkable (fun _ V => none_added st vm V0 V).
Proof. split_and!; try done. intros t V v HV v' Hv' Hvm. apply HV; [set_solver|done]. Qed.
Lemma erased_none_added st vm V0 t V : erased st vm t V -> none_added st vm V0 V.
Proof.
  intros [[_ HV] Hroot] v Hv [->|[Hvg [i Hi]]]; [done|]. destruct v as [vg n]. by destruct (HV vg n i).
Qed.

Lemma keeps_shrinkable_delete P x vm : shrinkable P -> keeps (on P) (delete_vm x vm).
Proof.
  intros HP s Hs. rewrite delete_vm_split. revert s Hs.
  apply keeps_bind; [apply keeps_triple, triple_fixes_lv, delete_vm_prefix_lv|intros _].
  apply keeps_bind; [|intros _; by apply keeps_modify].
  apply keeps_map_err, keeps_bind; [by apply keeps_shrinkable_rootfs|intros _; by apply keeps_shrinkable_release].
Qed.

Definition V_before (x : VmHandlerCtx) (cmd : CreateVmCommand) (V0 : gset (string * string)) :=
  V0 ∖ {[image_lv (hx_storage x) (cmd_image cmd)]}.

Lemma image_lv_not_vm st vm r : ~ vm_volume st vm (image_lv st r).
Proof. intros [[=]|[_ [i Hi]]]. done. Qed.

Lemma triple_prepare_stable x cmd P :
  (forall t V, P t V -> P t (V ∖ {[image_lv (hx_storage x) (cmd_image cmd)]})) ->
  (forall t V, P t V -> P t ({[image_lv (hx_storage x) (cmd_image cmd)]} ∪ V)) ->
  triple (on P) (create_prepare x cmd) (fun _ => on P) (on P).
Proof.
  intros Hrem Hadd. unfold create_prepare.
  apply (triple_bind _ _ _ (fun _ => on P)); [apply triple_fixes_lv, lv_mkdir_all|intros ok].
  destruct ok; [simpl|by intros s].
  apply (triple_bind _ _ _ (fun _ => on P)); [by apply triple_map_err, triple_ensure_cached|].
  intros base. case_match; [by intros s|]. apply triple_fixes_lv.
  pose proof lv_backend_devices. unfold validate_disk. fixes_tac.
Qed.

Lemma triple_create_prepare x cmd V0 :
  let st := hx_storage x in
  let vm := cmd_vm_id cmd in
  let P := fun t V => storage_inv st t V /\ spares st vm (V_before x cmd V0) V /\ agrees st cmd t /\
                      none_added st vm V0 V in
  triple (on P) (create_prepare x cmd) (fun _ => on P) (on P).
Proof.
  intros st vm P. apply triple_prepare_stable; intros t V (Hinv & Hsp & Hag & Hno); split_and!; try done.
  - by apply storage_inv_remove_rootfs.
  - intros vg n Hin Hn. specialize (Hsp vg n Hin Hn). unfold V_before in Hin. set_solver.
  - intros v Hv. apply Hno. set_solver.
  - by apply storage_inv_add_rootfs.
  - intros vg n Hin Hn. specialize (Hsp vg n Hin Hn). set_solver.
  - intros v [Hv%elem_of_singleton|Hv]%elem_of_union Hvm; [|by apply Hno].
    subst v. by apply image_lv_not_vm in Hvm.
Qed.

Lemma fixes_create_boot {B} (f : Agt -> B) x cmd base rd :
  (forall g s, f (set_world g s) = f s) -> (forall g s, f (set_live g s) = f s) ->
  (forall g s, f (set_tracked g s) = f s) -> fixes f (create_boot x cmd base rd).
Proof.
  intros Hw Hl Ht. unfold create_boot, vm_mgr_create. cbn zeta.
  pose proof (fixes_create_cloud_init_iso f Hw). pose proof (fixes_attach_vm_primary f Hw Hl).
  pose proof (fixes_bind_vfio f Hw). pose proof (fun E A => fixes_world f Hw (E:=E) (A:=A)).
  assert (forall E g, fixes f (se_modify (E:=E) (set_tracked g))) by (intros E g; by apply fixes_modify).
  fixes_tac.
Qed.

(** Everything the command asked for is there. *)
Definition created (x : VmHandlerCtx) (cmd : CreateVmCommand) (s : Agt) : Prop :=
  let st := hx_storage x in
  let vm := cmd_vm_id cmd in
  on (fun t V => rootfs_lv st vm ∈ V /\ forall d, d ∈ cmd_storage_disks cmd -> disk_ready st vm d t V) s /\
  (exists ls, row_with_disks vm ls s /\ Forall2 (disk_recorded st vm) (cmd_storage_disks cmd) ls) /\
  is_Some (at_tracked s !! vm).

Lemma triple_create_vm_inner x cmd now V0 :
  let st := hx_storage x in
  let vm := cmd_vm_id cmd in
  let V1 := V_before x cmd V0 in
  cmd_ok cmd -> ig_iso_tool (hx_image_mgr x) <> "lvcreate" -> ig_iso_tool (hx_image_mgr x) <> "lvremove" ->
  triple (on (fun t V => storage_inv st t V /\ spares st vm V1 V /\ agrees st cmd t /\ none_added st vm V0 V))
    (create_vm_inner x cmd now)
    (fun _ s => sound st vm V1 s /\ created x cmd s)
    (fun s => sound st vm V1 s /\ (known_locally vm s \/ on (fun _ V => none_added st vm V0 V) s)).
Proof.
  intros st vm V1 Hok Hi1 Hi2 s Hs. rewrite create_vm_inner_split. revert s Hs.
  set (P := fun t V => storage_inv st t V /\ spares st vm V1 V /\ agrees st cmd t /\ none_added st vm V0 V).
  assert (forall s, on P s -> sound st vm V1 s /\
    (known_locally vm s \/ on (fun _ V => none_added st vm V0 V) s)) as Hearly.
  { intros s (? & ? & _ & ?). split; [by split|]. by right. }
  eapply triple_bind.
  { eapply triple_post, triple_create_prepare; [|exact Hearly]. intros a s Hs. exact Hs. }
  intros base.
  apply (triple_bind _ _ _ (fun _ s => on (fun t V => storage_inv st t V /\ spares st vm V1 V /\ agrees st cmd t) s /\
                                       known_locally vm s)).
  { intros s Hs. unfold insert_local, se_bind, se_gets, local_insert_vm.
    destruct (existsb _ _); [by apply Hearly|]. simpl. split.
    - by destruct Hs as (? & ? & ? & _).
    - exists (local_row cmd now). split; [|done]. unfold local_table. simpl.
      apply elem_of_app. right. by left. }
  intros _.
  eapply triple_bind.
  { eapply triple_post, triple_create_disks; [| |done].
    - intros rd s Hs. exact Hs.
    - intros s [? ?]. split; [done|]. by left. }
  intros rd. set (K := fun s => row_with_disks vm rd.2 s /\ Forall2 (disk_recorded st vm) (cmd_storage_disks cmd) rd.2).
  assert (keeps K (create_boot x cmd base rd)) as HK.
  { intros s [Hr Hf]. split; [|done]. unfold row_with_disks.
    by rewrite (fixes_create_boot local_table) by done. }
  eapply triple_post, triple_frame; [| |by apply triple_create_boot|exact HK].
  - intros _ s [[(Hinv & Hsp & _ & Hroot & Hready) Htr] [Hrow Hrec]].
    split; [by split|]. split_and!; [by split|by exists rd.2|done].
  - intros s [(Hinv & Hsp & _) [(r & Hr & Hid & _) _]]. split; [by split|]. left. by exists r.
Qed.

Lemma fixes_delete_vm {B} (f : Agt -> B) x vm :
  (forall g s, f (set_world g s) = f s) -> (forall s, f (set_tracked (base.delete vm) s) = f s) ->
  (forall g s, f (set_agent_db g s) = f s) -> fixes f (delete_vm x vm).
Proof.
  intros Hw Ht Hd s. rewrite delete_vm_split. revert s.
  apply fixes_bind; [by apply fixes_delete_vm_prefix|intros _].
  apply fixes_bind; [by apply fixes_teardown|intros _]. by apply fixes_modify.
Qed.

(** The rollback of a failed create. *)
Lemma triple_rollback x vm V0 V1 :
  let st := hx_storage x in
  triple (fun s => (sound st vm V1 s /\ vm ∉ at_pending s) /\
                   (known_locally vm s \/ on (fun _ V => none_added st vm V0 V) s))
    (se_try (F:=AgentError) (delete_vm x vm))
    (fun _ s => (sound st vm V1 s /\ vm ∉ at_pending s) /\ untracked vm s /\
                (known_locally vm s \/ on (fun _ V => none_added st vm V0 V) s))
    (fun s => (sound st vm V1 s /\ vm ∉ at_pending s) /\ untracked vm s /\
              (known_locally vm s \/ on (fun _ V => none_added st vm V0 V) s)).
Proof.
  intros st s [[Hs Hp] Hor]. unfold se_try.
  pose proof (triple_delete_vm x vm V1 (local_table s) s (conj Hs eq_refl)) as Hd.
  pose proof (fixes_delete_vm at_pending x vm (fun _ _ => eq_refl) (fun _ => eq_refl) (fun _ _ => eq_refl) s) as Hpend.
  pose proof (keeps_shrinkable_delete _ x vm (shrinkable_none_added st vm V0) s) as Hk.
  destruct (delete_vm x vm s) as [s' [[]|e]]; simpl in *; rewrite Hpend.
  - destruct Hd as ((Hs' & He) & _ & Hu). split_and!; try done. right. by eapply erased_none_added.
  - destruct Hd as (Hs' & Ht & Hu). split_and!; try done. destruct Hor as [Hl|Hn]; [left|right; by apply Hk].
    unfold known_locally. by rewrite Ht.
Qed.

(** [create_vm] with its rollback. *)
Lemma triple_create_vm x cmd now V0 :
  let st := hx_storage x in
  let vm := cmd_vm_id cmd in
  let V1 := V0 ∖ {[image_lv st (cmd_image cmd)]} in
  cmd_ok cmd -> ig_iso_tool (hx_image_mgr x) <> "lvcreate" -> ig_iso_tool (hx_image_mgr x) <> "lvremove" ->
  triple (fun s => on (fun t V => storage_inv st t V /\ agrees st cmd t /\ V = V0) s)
    (create_vm x cmd now)
    (fun _ s => (sound st vm V1 s /\ vm ∉ at_pending s) /\ created x cmd s)
    (fun s => (sound st vm V1 s /\ vm ∉ at_pending s) /\ untracked vm s /\
              (known_locally vm s \/ on (fun _ V => none_added st vm V0 V) s)).
Proof.
  intros st vm V1 Hok Hi1 Hi2. unfold create_vm. fold vm.
  set (Pre := on (fun t V => storage_inv st t V /\ spares st vm V1 V /\ agrees st cmd t /\ none_added st vm V0 V)).
  apply (triple_bind _ _ _ (fun _ => Pre)).
  { apply triple_modify. intros s (Hinv & Hag & HV).
    change (Pre s). refine (conj Hinv (conj _ (conj Hag _))); [|intros v Hv _; by rewrite <- HV].
    intros vg n Hin _. rewrite HV. by apply elem_of_difference in Hin as [[??]%elem_of_difference ?]. }
  intros _.
  apply (triple_bind _ _ _ (fun r s => sound st vm V1 s /\
    match r with
    | Ok _ => created x cmd s
    | Err _ => known_locally vm s \/ on (fun _ V => none_added st vm V0 V) s
    end)).
  { apply (triple_try _ _ _ (fun s => sound st vm V1 s /\
      (known_locally vm s \/ on (fun _ V => none_added st vm V0 V) s))); [|done].
    by apply triple_create_vm_inner. }
  intros r.
  apply (triple_bind _ _ _ (fun _ s => (sound st vm V1 s /\ vm ∉ at_pending s) /\
    match r with
    | Ok _ => created x cmd s
    | Err _ => known_locally vm s \/ on (fun _ V => none_added st vm V0 V) s
    end)).
  { apply triple_modify. intros s [Hs Hr]. split; [split; [done|simpl; set_solver]|]. by destruct r. }
  intros _. destruct r as [[]|e]; [by intros s|].
  apply (triple_bind _ _ _ (fun _ s => (sound st vm V1 s /\ vm ∉ at_pending s) /\ untracked vm s /\
              (known_locally vm s \/ on (fun _ V => none_added st vm V0 V) s))); [apply triple_rollback|].
  by intros _ s.
Qed.

(** C5: creating a VM, over all failures of the commands it runs. When
    [create_vm] succeeds the root volume exists, every commanded disk has its
    volume on the commanded device with a ready row in the ledger, the local
    row records the paths of those volumes in the order of the command, and
    the unit is tracked. When it fails, after its rollback the unit is no
    longer tracked, and either the VM is still in the local table (so a later
    tombstone tears it down) or none of its volumes is left that was not there
    before. In both cases the VM is not pending, the ledger agrees with the
    volumes, and no volume of another VM was removed. *)
Theorem create_vm_sound x cmd now V0 :
  let st := hx_storage x in
  let vm := cmd_vm_id cmd in
  let V1 := V0 ∖ {[image_lv st (cmd_image cmd)]} in
  cmd_ok cmd -> ig_iso_tool (hx_image_mgr x) <> "lvcreate" -> ig_iso_tool (hx_image_mgr x) <> "lvremove" ->
  triple (fun s => on (fun t V => storage_inv st t V /\ agrees st cmd t /\ V = V0) s)
    (create_vm x cmd now)
    (fun _ s => (sound st vm V1 s /\ vm ∉ at_pending s) /\ created x cmd s)
    (fun s => (sound st vm V1 s /\ vm ∉ at_pending s) /\ untracked vm s /\
              (known_locally vm s \/ on (fun _ V => none_added st vm V0 V) s)).
Proof. apply triple_create_vm. Qed.
End facts.
