(* ===== verification/AgentFacts.v ===== *)
(** * What the sweep and a reconcile command leave alone

    The orphan sweep of reconcile.rs only touches VMs the agent does not
    know, and [apply_reconcile] of main.rs acknowledges a tombstone only for
    a VM of which nothing is left. *)

From S2P Require Import Prelude Ipv4 Ipnet Proto DbTypes Vms Ctl Agent Text HashName Host Lvm Gpu Net Dataplane Image HostVm Sweep AgentMain Triple Ledger Frames VmFacts.

(** The volume is the root or a data disk of the VM. *)
Definition belongs (st : Storage) (vm : string) (v : string * string) : Prop :=
  v = rootfs_lv st vm \/ exists i, parse_data_disk_lv_name (snd v) = Some (vm, i).

Section facts.
Context `{L : LvmHost} `{I : Ipnet} `{IH : !IpnetHosts I} `{O : !Oci} `{OL : !OciLvm} `{J : AgentJson}.

(** Between [s0] and [s] only VMs of [T] lost a volume, a ledger row, a local
    row or their unit. *)
Record only_touches (st : Storage) (T : string -> Prop) (s0 s : Agt) : Prop := {
  ot_inv : on (storage_inv st) s;
  ot_volumes v : v ∈ volumes s0 -> (forall vm, T vm -> ~ belongs st vm v) -> v ∈ volumes s;
  ot_rows r : r ∈ ledger s0 -> ~ T (rv_vm_id r) -> r ∈ ledger s;
  ot_local r : r ∈ local_table s0 -> ~ T (lr_vm_id r) -> r ∈ local_table s;
  ot_tracked vm : ~ T vm -> at_tracked s !! vm = at_tracked s0 !! vm;
}.

Lemma only_touches_refl st T s : on (storage_inv st) s -> only_touches st T s s.
Proof. by split. Qed.

(** ** Rows of other VMs *)

Definition has_row (r0 : LvmReservationRow) (t : list LvmReservationRow) (_ : gset (string * string)) : Prop :=
  NoDup (map rv_assignment_id t) /\ r0 ∈ t.

Lemma has_row_delete r0 id t V :
  has_row r0 t V -> id <> rv_assignment_id r0 -> has_row r0 (delete_where (fun r => rv_assignment_id r =$ id) t) V.
Proof.
  intros [Hnd Hin] Hid. split; [by apply NoDup_delete_where|]. apply elem_of_delete_where.
  split; [done|]. by apply String.eqb_neq.
Qed.
Lemma has_row_mark r0 id st t V :
  has_row r0 t V -> id <> rv_assignment_id r0 ->
  has_row r0 (update_where (fun r => rv_assignment_id r =$ id) (with_rv_state st) t) V.
Proof.
  intros [Hnd Hin] Hid. split; [by rewrite map_update_where|]. apply elem_of_update_where. exists r0.
  split; [done|]. by rewrite (proj2 (String.eqb_neq _ _)) by done.
Qed.

Lemma keeps_row_lvremove r0 vg lv : keeps (on (has_row r0)) (lvremove vg lv).
Proof. apply keeps_triple. eapply triple_post, (triple_lvremove (has_row r0)); [by intros ? ? []|done|done]. Qed.
Lemma keeps_row_rows r0 role rows :
  (forall q, q ∈ rows -> rv_assignment_id q <> rv_assignment_id r0) ->
  keeps (on (has_row r0))
    (run! se_for rows (fun r => set_reservation_state (rv_assignment_id r) "Deleting") ;
     run! acquire role ;
     se_for rows (fun r => run! lvremove (rv_vg r) (rv_lv_name r) ; drop_reservation (rv_assignment_id r))).
Proof.
  intros Hid. apply keeps_bind; [|intros _; apply keeps_bind; [|intros _]].
  - intros s Hs. apply se_for_inv; [|done]. intros q s' Hq Hs'. apply has_row_mark; [done|by apply Hid].
  - apply keeps_triple, triple_silent, silent_acquire.
  - intros s Hs. apply se_for_inv; [|done]. intros q s' Hq. apply keeps_bind; [apply keeps_row_lvremove|].
    intros _. apply keeps_modify. intros s1 Hs1. apply has_row_delete; [done|by apply Hid].
Qed.
Lemma keeps_row_release r0 b vm : rv_vm_id r0 <> vm -> keeps (on (has_row r0)) (release b vm).
Proof.
  intros Hvm s Hs. unfold release, reservations. cbn [se_bind se_gets]. cbn zeta.
  destruct (select _ (lvm_reservation (at_db s))) as [|q0 rows] eqn:E; [done|]. apply keeps_row_rows; [|done].
  intros q Hq Heq. rewrite <- E in Hq. apply elem_of_select in Hq as [Hq Hb]. destruct Hs as [Hnd Hin].
  rewrite (NoDup_map_inj _ _ _ _ Hnd Hq Hin Heq) in Hb. bsimp. naive_solver.
Qed.
Lemma keeps_row_teardown r0 st vm :
  rv_vm_id r0 <> vm ->
  keeps (on (has_row r0)) (run! remove_vm_rootfs st vm ; release_vm_disks st vm).
Proof.
  intros Hvm. apply keeps_bind; [|intros _; apply keeps_for; intros b; by apply keeps_row_release].
  apply keeps_triple. eapply triple_post, triple_remove_vm_rootfs; [by intros ? ? []|done|done].
Qed.
Lemma keeps_row_delete r0 x vm : rv_vm_id r0 <> vm -> keeps (on (has_row r0)) (delete_vm x vm).
Proof.
  intros Hvm s Hs. rewrite delete_vm_split. revert s Hs.
  apply keeps_bind; [apply keeps_triple, triple_fixes_lv, delete_vm_prefix_lv|intros _].
  apply keeps_bind; [by apply keeps_map_err, keeps_row_teardown|intros _]. by apply keeps_modify.
Qed.

(** ** Deleting *)

Lemma delete_vm_untracks x vm s :
  on (storage_inv (hx_storage x)) s -> at_tracked (fst (delete_vm x vm s)) = base.delete vm (at_tracked s).
Proof.
  intros Hinv.
  pose proof (fixes_delete_vm (fun s => base.delete vm (at_tracked s)) x vm (fun _ _ => eq_refl)
    ltac:(intros; simpl; by rewrite delete_delete_eq) (fun _ _ => eq_refl) s) as Hf. simpl in Hf.
  assert (sound (hx_storage x) vm ∅ s) as Hs by (split; [done|]; intros ? ? ?; set_solver).
  pose proof (triple_delete_vm x vm ∅ (local_table s) s (conj Hs eq_refl)) as Hd. simpl in Hd.
  destruct (delete_vm x vm s) as [s' [[]|e]]; simpl in *.
  - destruct Hd as (_ & _ & Hu). by rewrite <- Hf, delete_id.
  - destruct Hd as (_ & _ & Hu). by rewrite <- Hf, delete_id.
Qed.

Lemma spares_belongs st vm V V' v : spares st vm V V' -> v ∈ V -> ~ belongs st vm v -> v ∈ V'.
Proof.
  intros Hsp Hv Hb. destruct v as [vg n]. apply Hsp.
  - apply elem_of_difference. split; [done|]. intros Heq%elem_of_singleton. apply Hb. by left.
  - intros i Hi. apply Hb. right. by exists i.
Qed.

Lemma keeps_touch_delete x T s0 vm : T vm -> keeps (only_touches (hx_storage x) T s0) (delete_vm x vm).
Proof.
  set (st := hx_storage x). intros HT s [Hinv Hvol Hrows Hloc Htr].
  assert (sound st vm (volumes s) s) as Hs.
  { split; [done|]. intros vg n Hin _. by apply elem_of_difference in Hin as [? _]. }
  pose proof (delete_vm_untracks x vm s Hinv) as Hu.
  assert (forall r, r ∈ ledger s -> rv_vm_id r <> vm -> r ∈ ledger (fst (delete_vm x vm s))) as Hk.
  { intros r Hr Hne. destruct Hinv as ([Hnd _ _ _] & _). by apply (keeps_row_delete r x vm). }
  pose proof (triple_delete_vm x vm (volumes s) (local_table s) s (conj Hs eq_refl)) as Hd. cbn zeta in Hd.
  assert (sound st vm (volumes s) (fst (delete_vm x vm s)) /\
    forall r, r ∈ local_table s -> lr_vm_id r <> vm -> r ∈ local_table (fst (delete_vm x vm s))) as [[Hi Hsp] Hl].
  { destruct (delete_vm x vm s) as [s' [[]|e]]; simpl in *.
    - destruct Hd as ((Hs' & _) & Ht & _). split; [done|]. intros r Hr Hne. rewrite Ht.
      apply elem_of_delete_where. split; [done|]. by apply String.eqb_neq.
    - destruct Hd as (Hs' & Ht & _). split; [done|]. intros r Hr _. by rewrite Ht. }
  split; [done| | | |].
  - intros v Hv Hb. by apply (spares_belongs st vm _ _ v Hsp); [apply Hvol|apply Hb].
  - intros r Hr Hn. apply Hk; [by apply Hrows|congruence].
  - intros r Hr Hn. apply Hl; [by apply Hloc|congruence].
  - intros vm' Hn. rewrite Hu, lookup_delete_ne by congruence. by apply Htr.
Qed.

(** A call that changes no table, no volume and no unit. *)
Lemma keeps_touch_fixes {E A} st T s0 (m : SE Agt E A) :
  fixes (fun s => (ledger s, volumes s)) m -> fixes local_table m -> fixes at_tracked m ->
  keeps (only_touches st T s0) m.
Proof.
  intros Hlv Hl Ht s [Hinv Hvol Hrows Hloc Htr]. specialize (Hlv s). injection Hlv as Hled Hv.
  split; unfold on in *; rewrite ?Hled, ?Hv, ?Hl, ?Ht; done.
Qed.

(** ** The sweep *)

Lemma lv_reclaim_split x vm s :
  lv_reclaim x vm s =
  se_map_err AeLvm (run! remove_vm_rootfs (hx_storage x) vm ; release_vm_disks (hx_storage x) vm) s.
Proof.
  unfold lv_reclaim, se_bind, se_map_err.
  destruct (remove_vm_rootfs _ _ s) as [s1 [[]|e]]; [|done]. simpl.
  by destruct (release_vm_disks _ _ s1) as [s2 r].
Qed.
Lemma keeps_touch_reclaim x T s0 vm : T vm -> keeps (only_touches (hx_storage x) T s0) (lv_reclaim x vm).
Proof.
  set (st := hx_storage x). intros HT s [Hinv Hvol Hrows Hloc Htr]. rewrite lv_reclaim_split.
  assert (on (fun t V => storage_inv st t V /\ spares st vm (volumes s) V) s) as Hs.
  { split; [done|]. intros vg n Hin _. by apply elem_of_difference in Hin as [? _]. }
  pose proof (triple_map_err AeLvm _ _ _ _ (triple_teardown st vm (volumes s)) s Hs) as Hd.
  pose proof (fixes_teardown local_table st vm (fun _ _ => eq_refl) (fun _ _ => eq_refl) s) as Hl.
  pose proof (fixes_teardown at_tracked st vm (fun _ _ => eq_refl) (fun _ _ => eq_refl) s) as Ht.
  assert (forall r, r ∈ ledger s -> rv_vm_id r <> vm ->
    r ∈ ledger (fst (se_map_err AeLvm (run! remove_vm_rootfs st vm ; release_vm_disks st vm) s))) as Hk.
  { intros r Hr Hne. destruct Hinv as ([Hnd _ _ _] & _).
    by apply (keeps_map_err _ AeLvm _ (keeps_row_teardown r st vm Hne)). }
  fold st. destruct (se_map_err AeLvm _ s) as [s' r']. simpl in *.
  assert (on (fun t V => storage_inv st t V /\ spares st vm (volumes s) V) s') as [Hi Hsp].
  { destruct r'; [by destruct Hd|done]. }
  split; [done| | | |].
  - intros v Hv Hb. by apply (spares_belongs st vm _ _ v Hsp); [apply Hvol|apply Hb].
  - intros r Hr Hn. apply Hk; [by apply Hrows|congruence].
  - intros r Hr Hn. rewrite Hl. by apply Hloc.
  - intros vm' Hn. rewrite Ht. by apply Htr.
Qed.

Lemma keeps_reclaim_all (Q : Agt -> Prop) reclaim ids :
  (forall id, id ∈ ids -> keeps Q (reclaim id)) -> keeps Q (reclaim_all reclaim ids).
Proof.
  induction ids as [|id ids IHi]; intros Hr; simpl; [apply keeps_ret|].
  apply keeps_bind; [apply keeps_try, Hr; set_solver|intros r].
  apply keeps_bind; [apply IHi; set_solver|intros n]. apply keeps_ret.
Qed.
Lemma keeps_collect (Q : Agt -> Prop) list_ reclaim (known : gset string) batch :
  keeps Q list_ -> (forall id, id ∉ known -> keeps Q (reclaim id)) -> keeps Q (collect list_ reclaim known batch).
Proof.
  intros Hl Hr. apply keeps_bind; [by apply keeps_try|intros listed]. destruct listed as [ids|e]; [|apply keeps_ret].
  apply keeps_reclaim_all. intros id Hid. apply Hr.
  assert (id ∈ List.filter (fun id => negb (bool_decide (id ∈ known))) ids) as Hf.
  { destruct batch; [|done]. by eapply elem_of_take in Hid as (? & ?%list_elem_of_lookup_2 & _). }
  apply list_elem_of_In, filter_In in Hf as [_ Hf]. by apply negb_true_iff, bool_decide_eq_false in Hf.
Qed.

Lemma keeps_touch_lists x st T s0 :
  keeps (only_touches st T s0) list_all_unit_vm_ids /\ keeps (only_touches st T s0) (lv_list x) /\
  keeps (only_touches st T s0) (dir_list x).
Proof.
  pose proof (@fixes_world H _ local_table (fun _ _ => eq_refl)) as Hw.
  pose proof (@fixes_world H _ at_tracked (fun _ _ => eq_refl)) as Hw'.
  pose proof (@fixes_list_managed_vm_ids H _ local_table (fun _ _ => eq_refl)) as Hm.
  pose proof (@fixes_list_managed_vm_ids H _ at_tracked (fun _ _ => eq_refl)) as Hm'.
  assert (forall E args, fixes (fun s => (ledger s, volumes s)) (world (E:=E) (run "lvs" args))) as Hlvs
    by (intros E args; by apply lv_run).
  split_and!; apply keeps_touch_fixes; try (unfold list_all_unit_vm_ids, lv_list, dir_list; fixes_tac; done).
  unfold list_all_unit_vm_ids. fixes_tac. by apply lv_run.
Qed.
Lemma keeps_touch_dir x st T s0 vm : keeps (only_touches st T s0) (dir_reclaim x vm).
Proof.
  pose proof (@fixes_world H _ local_table (fun _ _ => eq_refl)) as Hw.
  pose proof (@fixes_world H _ at_tracked (fun _ _ => eq_refl)) as Hw'.
  apply keeps_touch_fixes; unfold dir_reclaim; try fixes_tac. apply lv_rmdir_all.
Qed.

Lemma keeps_touch_sweep x (known : gset string) s0 :
  keeps (only_touches (hx_storage x) (fun vm => vm ∉ known) s0) (sweep_orphans x known).
Proof.
  destruct (keeps_touch_lists x (hx_storage x) (fun vm => vm ∉ known) s0) as (Hu & Hlv & Hd).
  apply keeps_bind; [|intros n1; apply keeps_bind; [|intros n2; apply keeps_bind; [|intros n3; apply keeps_ret]]].
  - apply keeps_collect; [done|]. intros id Hid. by apply keeps_touch_delete.
  - apply keeps_collect; [done|]. intros id Hid. by apply keeps_touch_reclaim.
  - apply keeps_collect; [done|]. intros id Hid. apply keeps_touch_dir.
Qed.

(** C15: the periodic orphan sweep never takes anything from a VM the agent
    knows. For a VM that is in the local table, tracked or being created when
    the sweep starts, its local row, its ledger rows and its unit entry are
    the same afterwards, and every volume that is neither the root nor a data
    disk of some unknown VM is still there; the ledger still agrees with the
    volumes. This holds whichever commands fail. *)
Theorem periodic_sweep_spares_known x s :
  let st := hx_storage x in
  let known := known_ids s ∪ live_vm_ids s in
  let s' := fst (periodic_sweep x s) in
  on (storage_inv st) s ->
  only_touches st (fun vm => vm ∉ known) s s' /\ (forall r, r ∈ local_table s -> r ∈ local_table s') /\
  (forall vm, vm ∈ known -> rootfs_lv st vm ∈ volumes s -> rootfs_lv st vm ∈ volumes s').
Proof.
  intros st known s' Hinv.
  assert (only_touches st (fun vm => vm ∉ known) s s') as Hot.
  { apply (keeps_touch_sweep x known s). by apply only_touches_refl. }
  split_and!; [done| |].
  - intros r Hr. eapply ot_local; [done..|]. intros Hn. apply Hn. unfold known, known_ids.
    apply elem_of_union_l, elem_of_list_to_set, list_elem_of_In, in_map, list_elem_of_In, Hr.
  - intros vm Hvm Hroot. eapply ot_volumes; [done..|]. intros vm' Hn [Heq|[i Hi]]; [|done].
    unfold rootfs_lv in Heq. simplify_eq. done.
Qed.

(** ** Tombstones *)

Lemma keeps_apply_each {A B} (Q : Agt -> Prop) (apply : A -> SE Agt AgentError unit) (key : A -> B) ts :
  (forall t, t ∈ ts -> keeps Q (apply t)) -> keeps Q (apply_each apply key ts).
Proof.
  induction ts as [|t ts IHt]; intros Ht; simpl; [apply keeps_ret|].
  apply keeps_bind; [apply keeps_try, Ht; set_solver|intros r].
  apply keeps_bind; [apply IHt; set_solver|intros rest]. apply keeps_ret.
Qed.

(** Nothing of the VM is left: volumes, ledger, unit entry, local row. *)
Definition torn_down (st : Storage) (vm : string) (s : Agt) : Prop :=
  on (erased st vm) s /\ untracked vm s /\ ~ known_locally vm s.

Lemma local_after_delete x vm s :
  on (storage_inv (hx_storage x)) s ->
  let '(s', r) := delete_vm x vm s in
  on (storage_inv (hx_storage x)) s' /\
  local_table s' = (if is_ok r then delete_where (fun q => lr_vm_id q =$ vm) (local_table s) else local_table s) /\
  (is_ok r = true -> torn_down (hx_storage x) vm s').
Proof.
  intros Hinv. assert (sound (hx_storage x) vm ∅ s) as Hs by (split; [done|]; intros ? ? ?; set_solver).
  pose proof (triple_delete_vm x vm ∅ (local_table s) s (conj Hs eq_refl)) as Hd. simpl in Hd.
  destruct (delete_vm x vm s) as [s' [[]|e]]; simpl.
  - destruct Hd as (([Hi _] & He) & Ht & Hu). split_and!; [done..|]. intros _. split_and!; [done..|].
    intros (r & Hr & Hid). rewrite Ht in Hr. apply elem_of_delete_where in Hr as [_ Hne%String.eqb_neq]. done.
  - destruct Hd as ([Hi _] & Ht & _). by split_and!.
Qed.

Lemma keeps_torn_down x vm vm' :
  keeps (fun s => on (storage_inv (hx_storage x)) s /\ torn_down (hx_storage x) vm s) (delete_vm x vm').
Proof.
  intros s [Hinv (He & Hu & Hk)].
  pose proof (local_after_delete x vm' s Hinv) as Hd. pose proof (delete_vm_untracks x vm' s Hinv) as Ht.
  pose proof (keeps_shrinkable_delete _ x vm' (shrinkable_erased (hx_storage x) vm) s He) as He'.
  destruct (delete_vm x vm' s) as [s' r]; simpl in *. destruct Hd as (Hi & Hl & _).
  split; [done|]. split; [done|]. split.
  - unfold untracked in *. rewrite Ht. destruct (decide (vm = vm')) as [->|Hne];
      [by rewrite lookup_delete_eq|by rewrite lookup_delete_ne].
  - intros (q & Hq & Hid). apply Hk. exists q. split; [|done]. rewrite Hl in Hq.
    destruct (is_ok r); [|done]. by apply elem_of_delete_where in Hq as [? _].
Qed.

(** ** A create that arrives again *)

(** A create for a VM the host already has never succeeds: its local row is
    in the way, after the preparation and before anything is allocated. *)
Lemma create_vm_inner_known x cmd now s :
  known_locally (cmd_vm_id cmd) s -> on (storage_inv (hx_storage x)) s ->
  exists e s1, create_vm_inner x cmd now s = (s1, Err e) /\ on (storage_inv (hx_storage x)) s1 /\
    local_table s1 = local_table s.
Proof.
  intros Hk Hinv. rewrite create_vm_inner_split. unfold se_bind at 1.
  assert (triple (on (storage_inv (hx_storage x))) (create_prepare x cmd)
    (fun _ => on (storage_inv (hx_storage x))) (on (storage_inv (hx_storage x)))) as Hp.
  { apply triple_prepare_stable; intros t V Ht; [by apply storage_inv_remove_rootfs|by apply storage_inv_add_rootfs]. }
  specialize (Hp s Hinv). pose proof (fixes_create_prepare local_table x cmd (fun _ _ => eq_refl) s) as Hf.
  destruct (create_prepare x cmd s) as [s1 [base|e]]; simpl in *; [|by exists e, s1].
  unfold se_bind at 1. rewrite insert_local_known; [by exists AeDb, s1|].
  unfold known_locally. by rewrite Hf.
Qed.

(** A create command that arrives again for a VM the host already has
    tears that VM down. [create_vm] then always fails (the local row is
    already there) and its rollback deletes the VM as if this call had made
    it: afterwards the unit of the VM is gone, and either every volume and row
    of it is gone too or the teardown failed half way. *)
Theorem replayed_create_tears_down x cmd now s :
  let vm := cmd_vm_id cmd in
  known_locally vm s -> on (storage_inv (hx_storage x)) s ->
  match create_vm x cmd now s with
  | (s', Ok _) => False
  | (s', Err _) => untracked vm s' /\ (torn_down (hx_storage x) vm s' \/ local_table s' = local_table s)
  end.
Proof.
  intros vm Hk Hinv. unfold create_vm, se_bind, se_try, mark_pending, clear_pending, se_modify, se_fail. fold vm.
  set (s0 := set_vm_pending _ s).
  destruct (create_vm_inner_known x cmd now s0 Hk Hinv) as (e & s1 & -> & Hinv1 & Hl1).
  set (s2 := set_vm_pending _ s1).
  assert (on (storage_inv (hx_storage x)) s2) as Hinv2 by done.
  pose proof (local_after_delete x vm s2 Hinv2) as Hd. pose proof (delete_vm_untracks x vm s2 Hinv2) as Hu.
  destruct (delete_vm x vm s2) as [s3 r]. destruct Hd as (_ & Hl & Htd). simpl in *. split.
  - unfold untracked. rewrite Hu. apply lookup_delete_eq.
  - destruct (is_ok r); [left; by apply Htd|right]. rewrite Hl. exact Hl1.
Qed.

Definition in_ids (vms : list string) (r : LocalVmRow) : bool := existsb (String.eqb (lr_vm_id r)) vms.
Lemma delete_in_ids_nil t : delete_where (in_ids []) t = t.
Proof. unfold delete_where. induction t as [|r t IHt]; [done|]. simpl. by f_equal. Qed.
Lemma delete_in_ids vm vms t :
  delete_where (in_ids vms) (delete_where (fun q => lr_vm_id q =$ vm) t) = delete_where (in_ids (vm :: vms)) t.
Proof.
  unfold delete_where. induction t as [|r t IHt]; [done|]. simpl.
  destruct (lr_vm_id r =$ vm); simpl; [done|]. destruct (in_ids vms r); simpl; by rewrite IHt.
Qed.

(** The VM tombstones: what is acknowledged is torn down, what is not keeps
    its local row. *)
Lemma vm_tombstones x ts : forall s,
  on (storage_inv (hx_storage x)) s ->
  exists vms s', apply_each (delete_vm x) (fun vm => vm) ts s = (s', Ok vms) /\ vms ⊆ ts /\
    on (storage_inv (hx_storage x)) s' /\ (forall vm, vm ∈ vms -> torn_down (hx_storage x) vm s') /\
    local_table s' = delete_where (in_ids vms) (local_table s).
Proof.
  induction ts as [|t ts IHt]; intros s Hinv; simpl.
  { exists [], s. split_and!; [done..|set_solver|]. by rewrite delete_in_ids_nil. }
  unfold se_bind, se_try. pose proof (local_after_delete x t s Hinv) as Hd.
  destruct (delete_vm x t s) as [s1 r]. destruct Hd as (Hi & Hl & Hok).
  destruct (IHt s1 Hi) as (vms & s2 & Hr & Hsub & Hi' & Htd & Hl').
  pose proof (keeps_apply_each _ (delete_vm x) (fun vm => vm) ts
    (fun t' _ => keeps_torn_down x t t') s1) as Hkeep. rewrite Hr in *. simpl in *.
  exists (if is_ok r then t :: vms else vms), s2.
  split; [done|]. split; [destruct (is_ok r); set_solver|]. split; [done|]. destruct (is_ok r); split.
  - intros vm [->|Hvm]%elem_of_cons; [|by apply Htd]. by apply Hkeep; auto.
  - by rewrite Hl', Hl, delete_in_ids.
  - done.
  - by rewrite Hl', Hl.
Qed.

(** A cluster tombstone takes the cluster out of the live map, whatever
    command fails. *)
Lemma tombstone_live m vni c s :
  at_live (fst (tombstone_cluster m vni c s)) = base.delete vni (at_live s).
Proof.
  unfold tombstone_cluster. cbn zeta. unfold se_bind at 1, se_gets at 1. unfold se_bind at 1, se_modify at 1.
  set (s1 := set_live _ s). transitivity (at_live s1); [|done].
  pose proof (@fixes_world H _ at_live (fun _ _ => eq_refl)).
  pose proof (@fixes_net_cmd H _ at_live (fun _ _ => eq_refl)).
  pose proof (@fixes_net_output H _ at_live (fun _ _ => eq_refl)).
  match goal with |- at_live (fst (?m s1)) = _ => assert (fixes at_live m) as Hf; [|apply Hf] end.
  unfold read_link_master, del_proxy_arp, remove_cluster_masquerade, delete_iptables_rule, delete_vrf_if_unused.
  fixes_tac.
Qed.

Lemma fixes_apply_each {A B C} (f : Agt -> C) (apply : A -> SE Agt AgentError unit) (key : A -> B) ts :
  (forall t, fixes f (apply t)) -> fixes f (apply_each apply key ts).
Proof. intros Ht. induction ts as [|t ts IHt]; simpl; fixes_tac. Qed.

Definition apply_tombstone (m : ClusterManager) (t : ClusterTombstone) : SE Agt AgentError unit :=
  se_map_err AeNet (tombstone_cluster m (ct_vni t) (ct_cidr t)).
Lemma apply_tombstone_live m t s : at_live (fst (apply_tombstone m t s)) = base.delete (ct_vni t) (at_live s).
Proof.
  unfold apply_tombstone, se_map_err. rewrite <- (tombstone_live m (ct_vni t) (ct_cidr t)).
  by destruct (tombstone_cluster _ _ _ s).
Qed.
Lemma cluster_tombstones m ts : forall s,
  exists vnis s', apply_each (apply_tombstone m) ct_vni ts s = (s', Ok vnis) /\ vnis ⊆ map ct_vni ts /\
    forall vni, vni ∈ vnis -> at_live s' !! vni = None.
Proof.
  induction ts as [|t ts IHt]; intros s; simpl; [exists [], s; set_solver|].
  unfold se_bind, se_try. pose proof (apply_tombstone_live m t s) as Hd.
  destruct (apply_tombstone m t s) as [s1 r]. destruct (IHt s1) as (vnis & s2 & Hr & Hsub & Hl).
  assert (forall t', keeps (fun s => at_live s !! ct_vni t = None) (apply_tombstone m t')) as Hk.
  { intros t' s' Hs'. rewrite apply_tombstone_live. rewrite lookup_delete_None. auto. }
  pose proof (keeps_apply_each _ (apply_tombstone m) ct_vni ts (fun t' _ => Hk t') s1) as Hkeep.
  rewrite Hr in *. simpl in *. exists (if is_ok r then ct_vni t :: vnis else vnis), s2.
  split; [done|]. split; [destruct (is_ok r); set_solver|]. destruct (is_ok r); [|done].
  intros vni [->|Hv]%elem_of_cons; [|by apply Hl]. apply Hkeep. rewrite Hd. apply lookup_delete_eq.
Qed.

(** The speaker leaves volumes alone. *)
Class SpeakerLvm `{Sp : !Speaker} := {
  lv_update_routes rs w : lv_set (fst (update_routes rs w)) = lv_set w;
  lv_speaker_start a r p w : lv_set (fst (speaker_start a r p w)) = lv_set w;
}.

(** What the acknowledgement of a reconcile command promises. *)
Record acknowledged (x : VmHandlerCtx) (cmd : ReconcileHostCommand) (s0 s : Agt)
    (vnis : list Z) (vms : list string) : Prop := {
  ak_vnis : vnis ⊆ map ct_vni (rc_cluster_tombstones cmd);
  ak_vms : vms ⊆ rc_vm_tombstones cmd;
  ak_live vni : vni ∈ vnis -> at_live s !! vni = None;
  ak_torn_down vm : vm ∈ vms -> torn_down (hx_storage x) vm s;
  ak_local : local_table s = delete_where (in_ids vms) (local_table s0);
  ak_touches : only_touches (hx_storage x) (fun vm => vm ∈ rc_vm_tombstones cmd) s0 s;
}.

(** A call that changes none of the state [acknowledged] speaks of. *)
Definition inert {E A} (m : SE Agt E A) : Prop :=
  fixes (fun s => (ledger s, volumes s)) m /\ fixes local_table m /\ fixes at_tracked m /\ fixes at_live m.
Lemma keeps_acknowledged {E A} x cmd s0 vnis vms (m : SE Agt E A) :
  inert m -> keeps (fun s => acknowledged x cmd s0 s vnis vms) m.
Proof.
  intros (Hlv & Hl & Ht & Hli) s [H1 H2 H3 H4 H5 H6].
  split; [done|done| | |by rewrite Hl|by apply (keeps_touch_fixes _ _ _ m)].
  - intros vni Hv. rewrite Hli. by apply H3.
  - intros vm Hv. destruct (H4 vm Hv) as (He & Hu & Hk). specialize (Hlv s). injection Hlv as Hle Hvo.
    unfold torn_down, on, untracked, known_locally. by rewrite Hle, Hvo, Ht, Hl.
Qed.

(** The two rounds of tombstones. *)
Lemma tombstones_acknowledged x cmd s :
  on (storage_inv (hx_storage x)) s ->
  exists vnis vms s1 s2,
    apply_each (apply_tombstone (hx_net x)) ct_vni (rc_cluster_tombstones cmd) s = (s1, Ok vnis) /\
    apply_each (delete_vm x) (fun vm => vm) (rc_vm_tombstones cmd) s1 = (s2, Ok vms) /\
    acknowledged x cmd s s2 vnis vms /\ at_sent s2 = at_sent s.
Proof.
  intros Hinv.
  destruct (cluster_tombstones (hx_net x) (rc_cluster_tombstones cmd) s) as (vnis & s1 & H1 & Hvn & Hlive).
  assert (forall B (f : Agt -> B), (forall t, fixes f (apply_tombstone (hx_net x) t)) -> f s1 = f s) as Hfix.
  { intros B f Hf. pose proof (fixes_apply_each f _ ct_vni (rc_cluster_tombstones cmd) Hf s) as Hs. by rewrite H1 in Hs. }
  assert ((ledger s1, volumes s1) = (ledger s, volumes s)) as Hlv.
  { apply (Hfix _ (fun s => (ledger s, volumes s))). intros t. apply fixes_map_err, lv_tombstone_cluster. }
  assert (forall B (f : Agt -> B), (forall g s, f (set_world g s) = f s) -> (forall g s, f (set_live g s) = f s) ->
    f s1 = f s) as Hf1.
  { intros B f Hw Hl. apply Hfix. intros t. by apply fixes_map_err, fixes_tombstone_cluster. }
  pose proof (Hf1 _ local_table (fun _ _ => eq_refl) (fun _ _ => eq_refl)) as Hloc.
  pose proof (Hf1 _ at_tracked (fun _ _ => eq_refl) (fun _ _ => eq_refl)) as Htr.
  injection Hlv as Hle Hvo.
  assert (on (storage_inv (hx_storage x)) s1) as Hinv1 by (unfold on; by rewrite Hle, Hvo).
  destruct (vm_tombstones x (rc_vm_tombstones cmd) s1 Hinv1) as (vms & s2 & H2 & Hsub & Hinv2 & Htd & Hl2).
  exists vnis, vms, s1, s2. split; [done|]. split; [done|].
  assert (forall B (f : Agt -> B), (forall g s, f (set_world g s) = f s) -> (forall g s, f (set_tracked g s) = f s) ->
    (forall g s, f (set_agent_db g s) = f s) -> f s2 = f s1) as Hf2.
  { intros B f Hw Ht Hd. pose proof (fixes_apply_each f (delete_vm x) (fun vm => vm) (rc_vm_tombstones cmd)
      (fun t => fixes_delete_vm f x t Hw (fun s => Ht _ s) Hd) s1) as Hs. by rewrite H2 in Hs. }
  split; [split; [done|done| |done| |]|].
  - intros vni Hv. rewrite (Hf2 _ at_live); [by apply Hlive|done..].
  - by rewrite Hl2, Hloc.
  - pose proof (keeps_apply_each _ (delete_vm x) (fun vm => vm) (rc_vm_tombstones cmd)
      (fun t Ht => keeps_touch_delete x (fun vm => vm ∈ rc_vm_tombstones cmd) s t Ht) s1) as Hk.
    rewrite H2 in Hk. apply Hk. split; unfold on; rewrite ?Hle, ?Hvo, ?Hloc, ?Htr; done.
  - rewrite (Hf2 _ at_sent); [|done..]. by apply Hf1.
Qed.

Context `{Sp : !Speaker} `{SL : !SpeakerLvm}.

Lemma reconcile_inert x cmd s :
  let s' := fst (se_map_err AeNet (reconcile (hx_net x) (rc_clusters cmd)) s) in
  (ledger s', volumes s') = (ledger s, volumes s) /\ local_table s' = local_table s /\
  at_tracked s' = at_tracked s /\ at_sent s' = at_sent s.
Proof.
  split; [|split; [|split]].
  - apply (fixes_map_err (fun s => (ledger s, volumes s)) AeNet), lv_reconcile.
  - by apply fixes_map_err, fixes_reconcile.
  - by apply fixes_map_err, fixes_reconcile.
  - by apply fixes_map_err, fixes_reconcile.
Qed.
Lemma acknowledged_from x cmd s s1 s2 vnis vms :
  ledger s1 = ledger s -> volumes s1 = volumes s -> local_table s1 = local_table s ->
  at_tracked s1 = at_tracked s -> acknowledged x cmd s1 s2 vnis vms -> acknowledged x cmd s s2 vnis vms.
Proof.
  intros Hle Hvo Hloc Htr [H1 H2 H3 H4 H5 [T1 T2 T3 T4 T5]]. split; try done; [by rewrite <- Hloc|].
  rewrite Hle, Hvo, Hloc, Htr in *. by split.
Qed.

(** The message and the announcement after the tombstones. *)
Definition acks (open : bool) (vnis : list Z) (vms : list string) : list AgentMessage :=
  if open then match vnis, vms with [], [] => [] | _, _ => [MsgTombstoneAck vnis vms] end else [].
Definition send_acks (open : bool) (vnis : list Z) (vms : list string) : SE Agt AgentError unit :=
  match vnis, vms with
  | [], [] => se_ret tt
  | _, _ => run! se_try (F:=AgentError) (send open (MsgTombstoneAck vnis vms)) ; se_ret tt
  end.
Lemma send_acks_sent open vnis vms s :
  inert (send_acks open vnis vms) /\ exists s', send_acks open vnis vms s = (s', Ok tt) /\
  at_sent s' = at_sent s ++ acks open vnis vms.
Proof.
  unfold acks, send_acks, send. split.
  - destruct vnis, vms, open; by repeat split.
  - destruct vnis, vms, open; eexists; (split; [reflexivity|]); simpl; by rewrite ?app_nil_r.
Qed.
Definition announce (bgp : bool) (routes : list Ipv4Net) : SE Agt AgentError unit :=
  if bgp then run! world (update_routes routes) ; se_ret tt else se_ret tt.
Lemma announce_inert bgp routes s :
  inert (announce bgp routes) /\ exists s', announce bgp routes s = (s', Ok tt) /\ at_sent s' = at_sent s.
Proof.
  unfold announce. destruct bgp; [|split; [by repeat split|by eexists]]. split.
  - split_and!; apply fixes_bind; try done; try by apply fixes_world. apply lv_world, lv_update_routes.
  - unfold se_bind, world. destruct (update_routes routes (at_world s)). by eexists.
Qed.

Lemma apply_reconcile_outcome x bgp cmd s :
  on (storage_inv (hx_storage x)) s ->
  match apply_reconcile x bgp cmd s with
  | (s', Ok _) =>
      exists vnis vms, acknowledged x cmd s s' vnis vms /\
        at_sent s' = at_sent s ++
          acks (hx_open x) vnis vms
  | (s', Err _) =>
      at_sent s' = at_sent s /\ local_table s' = local_table s /\
      only_touches (hx_storage x) (fun _ => False) s s'
  end.
Proof.
  intros Hinv. unfold apply_reconcile. unfold se_bind at 1.
  pose proof (reconcile_inert x cmd s) as (Hlv & Hloc & Htr & Hsent).
  destruct (se_map_err AeNet (reconcile (hx_net x) (rc_clusters cmd)) s) as [s1 [[]|e]]; simpl in *; injection Hlv as Hle Hvo.
  - assert (on (storage_inv (hx_storage x)) s1) as Hinv1 by (unfold on; by rewrite Hle, Hvo).
    destruct (tombstones_acknowledged x cmd s1 Hinv1) as (vnis & vms & s2 & s3 & H1 & H2 & Hack & Hs3).
    apply (acknowledged_from x cmd s s1) in Hack; [|done..].
    unfold se_bind at 1. unfold apply_tombstone in H1. rewrite H1. unfold se_bind at 1. rewrite H2.
    destruct (send_acks_sent (hx_open x) vnis vms s3) as (Hi1 & s4 & H4 & Hs4).
    destruct (announce_inert bgp (announced (rc_clusters cmd)) s4) as (Hi2 & s5 & H5 & Hs5).
    unfold se_bind at 1. fold (send_acks (hx_open x) vnis vms). rewrite H4.
    fold (announce bgp (announced (rc_clusters cmd))). rewrite H5. exists vnis, vms. split.
    + apply (keeps_run _ _ _ _ _ (keeps_acknowledged x cmd s vnis vms _ Hi2) H5).
      by apply (keeps_run _ _ _ _ _ (keeps_acknowledged x cmd s vnis vms _ Hi1) H4).
    + by rewrite Hs5, Hs4, Hs3, Hsent.
  - split_and!; [done..|]. split; unfold on; rewrite ?Hle, ?Hvo, ?Hloc, ?Htr; done.
Qed.

End facts.
