(* ===== verification/AgentRun.v ===== *)
(** * The agent process, over any interleaving of its tasks

    The steps of [AgentStart], and two invariants of every reachable state: a
    session that dialled a superseded endpoint has been told to close, and the
    ledger of volume reservations agrees with the volumes of the host. *)

From S2P Require Import Prelude Ipv4 Ipnet Proto Config Overcommit DbTypes Hosts Vms Scheduler Ctl Agent Text HashName Host Lvm Resources Nvlink Capacity Gpu Net Dataplane Image HostVm Sweep AgentMain AgentStart Triple Ledger Frames VmFacts AgentFacts.

(** ** Steps *)

Section steps.
Context `{L : LvmHost} `{I : Ipnet} `{IH : !IpnetHosts I} `{O : !Oci} `{OL : !OciLvm} `{J : AgentJson}.
Context `{Sp : !Speaker} `{SL : !SpeakerLvm} `{Y : ConfigYaml HostSpec ControllerSpec}.
(** The storage section of the configuration, the same at every start, and the
    text of an error. *)
Variable st : Storage.
Variable text : AgentError -> string.

Definition proc (rt : AgentRuntime) (s : Agt) (se : Session) : Proc := {| pr_rt := rt; pr_agt := s; pr_session := se |}.

(** What the controller asks for: a create has an id and [u32] indices, and
    names the same disk on the same device when it repeats an assignment. *)
Definition command_ok (s : Agt) (cmd : ControllerCommand) : Prop :=
  match cmd with
  | CreateVm _ create => cmd_ok create /\ agrees st create (ledger s)
  | _ => True
  end.

Inductive agent_step : Proc -> Proc -> Prop :=
  (** the process ends, for whatever reason; it starts again *)
  | step_crash rt s se : agent_step (proc rt s se) (proc rt (fresh_process s) Down)
  | step_start rt s par host s' rt' :
      from_host_spec (hsp_storage (res_spec host)) = Some st ->
      initialize_runtime par host s = (s', Ok rt') ->
      agent_step (proc rt s Down) (proc rt' s' Between)
  | step_start_failed rt s par host s' e :
      from_host_spec (hsp_storage (res_spec host)) = Some st ->
      initialize_runtime par host s = (s', Err e) ->
      agent_step (proc rt s Down) (proc rt (fresh_process s') Down)
  (** the main loop and [run_session] *)
  | step_loop rt s : agent_step (proc rt s Between) (proc rt s (Dialling (art_token rt)))
  | step_dial rt s tok :
      agent_step (proc rt s (Dialling tok)) (proc rt s (Dialled tok (hsp_controller_endpoint (art_spec rt))))
  | step_dial_failed rt s tok ep : agent_step (proc rt s (Dialled tok ep)) (proc rt s Between)
  | step_setup rt s tok ep first s' bgp :
      session_setup rt first s = (s', Ok bgp) ->
      agent_step (proc rt s (Dialled tok ep)) (proc (set_bgp bgp rt) s' (InSession tok ep))
  | step_setup_failed rt s tok ep first s' e :
      session_setup rt first s = (s', Err e) ->
      agent_step (proc rt s (Dialled tok ep)) (proc rt s' Between)
  | step_session_end rt s tok ep : agent_step (proc rt s (InSession tok ep)) (proc rt s Between)
  (** the tasks of a session; a command's task may outlive it *)
  | step_heartbeat rt s tok ep :
      agent_step (proc rt s (InSession tok ep)) (proc rt (fst (heartbeat_tick rt s)) (InSession tok ep))
  | step_report rt s tok ep :
      agent_step (proc rt s (InSession tok ep)) (proc rt (fst (report_tick true s)) (InSession tok ep))
  | step_command rt s se open now cmd :
      se <> Down -> command_ok s cmd ->
      agent_step (proc rt s se) (proc rt (fst (process_command (vm_ctx open rt) (art_bgp rt) now text cmd s)) se)
  (** the tasks of the process *)
  | step_capacity rt s se s' rt' :
      se <> Down -> capacity_tick rt s = (s', Ok rt') -> agent_step (proc rt s se) (proc rt' s' se)
  | step_capacity_failed rt s se s' e :
      se <> Down -> capacity_tick rt s = (s', Err e) -> agent_step (proc rt s se) (proc rt s' se)
  | step_sweep rt s se : se <> Down -> agent_step (proc rt s se) (proc rt (fst (sweep_tick rt s)) se)
  | step_learn rt s se prefix nh : se <> Down ->
      agent_step (proc rt s se) (proc rt (fst (install_learned_route prefix nh s)) se)
  | step_unlearn rt s se prefix nh : se <> Down ->
      agent_step (proc rt s se) (proc rt (fst (withdraw_learned_route prefix nh s)) se)
  | step_reload rt s se read path rt' : se <> Down ->
      reload_config read path rt = Ok rt' -> agent_step (proc rt s se) (proc rt' s se).

(** ** The session follows the configuration *)

Definition tokens_ok (rt : AgentRuntime) : Prop := forall t, t ∈ art_cancelled rt -> (t < art_token rt)%nat.
Definition follows (p : Proc) : Prop :=
  let rt := pr_rt p in
  match pr_session p with
  | Down => True
  | Between => tokens_ok rt
  | Dialling tok => tokens_ok rt /\ (tok = art_token rt \/ tok ∈ art_cancelled rt)
  | Dialled tok ep | InSession tok ep =>
      tokens_ok rt /\
      ((tok = art_token rt /\ ep = hsp_controller_endpoint (art_spec rt)) \/ tok ∈ art_cancelled rt)
  end.

Lemma initialize_shape par host s s' rt :
  initialize_runtime par host s = (s', Ok rt) ->
  art_cancelled rt = ∅ /\ from_host_spec (hsp_storage (res_spec host)) = Some (hx_storage (sx_vm (art_session rt))).
Proof.
  intros Hi. unfold initialize_runtime in Hi.
  do 4 (apply se_bind_ok in Hi as (? & ? & _ & Hi)).
  apply se_bind_ok in Hi as (? & st' & Hst & Hi). unfold se_of in Hst.
  destruct (from_host_spec _) as [st0|] eqn:E; [|done]. injection Hst as <- <-.
  do 6 (apply se_bind_ok in Hi as (? & ? & _ & Hi)). by injection Hi as <- <-.
Qed.

Lemma follows_step p q : agent_step p q -> follows p -> follows q.
Proof.
  intros Hs. destruct Hs; unfold follows; simpl; try done.
  - intros _. match goal with E : initialize_runtime _ _ _ = _ |- _ => apply initialize_shape in E as [Hc _] end.
    unfold tokens_ok. rewrite Hc. intros t Ht. set_solver.
  - intros Ht. by split; [|left].
  - intros [Ht [->|Hc]]; (split; [done|]); [by left|by right].
  - by intros [Ht _].
  - by intros [Ht _].
  - by intros [Ht _].
  - unfold capacity_tick, se_bind, se_ret in *. destruct (storage_capacity _ s) as [s1 [c|e]]; [|done].
    simplify_eq. destruct se; simpl; tauto.
  - unfold reload_config in *. destruct (load_host read path) as [host|e]; [|done].
    destruct (_ <>$ _) eqn:E; simplify_eq; [|by destruct se].
    assert (tokens_ok rt -> tokens_ok (reconnect_to (hsp_controller_endpoint (res_spec host)) rt)) as Ht.
    { intros Ht t. simpl. intros [->%elem_of_singleton|Hin]%elem_of_union; [lia|]. specialize (Ht t Hin). lia. }
    destruct se; simpl; try tauto; intros [H1 H2]; (split; [tauto|]); right; set_solver.
Qed.

(** C20: a changed endpoint is never missed. In every state the process can
    reach, whatever is reloaded and when, a session that is being set up or is
    running was dialled to the endpoint of the current configuration, or its
    cancellation token has been cancelled, so that its loop ends and the next
    session dials anew; and the token the next session takes is not cancelled. *)
Theorem session_follows_reload p q :
  pr_session p = Down -> rtc agent_step p q ->
  match pr_session q with
  | Down => True
  | Between => art_token (pr_rt q) ∉ art_cancelled (pr_rt q)
  | Dialling tok => art_token (pr_rt q) ∉ art_cancelled (pr_rt q)
  | Dialled tok ep | InSession tok ep =>
      (ep = hsp_controller_endpoint (art_spec (pr_rt q)) \/ tok ∈ art_cancelled (pr_rt q)) /\
      art_token (pr_rt q) ∉ art_cancelled (pr_rt q)
  end.
Proof.
  intros Hd Hr. assert (follows q) as Hf.
  { assert (follows p) as Hp by (unfold follows; by rewrite Hd). clear Hd.
    induction Hr as [|p q' q Hs _ IHr]; [done|]. by eapply IHr, follows_step. }
  unfold follows in Hf. assert (tokens_ok (pr_rt q) -> art_token (pr_rt q) ∉ art_cancelled (pr_rt q)) as Ht.
  { intros Ht Hin. specialize (Ht _ Hin). lia. }
  destruct (pr_session q); naive_solver.
Qed.

(** ** The ledger agrees with the volumes *)

Abbreviation lv := (fun s => (ledger s, volumes s)).
Abbreviation inv := (on (storage_inv st)).

#[local] Hint Resolve lv_mkdir_all lv_rmdir_all lv_write_file lv_remove_file lv_rename_file lv_link_exists
  lv_live lv_backend_devices lv_bind_vfio lv_unbind_vfio lv_reconcile lv_attach_vm_primary : fixes.
#[local] Hint Extern 1 (fixes _ (world (run _ _))) => apply lv_run; done : fixes.
#[local] Hint Extern 1 (fixes _ (net_output _ _)) => apply lv_net_output; done : fixes.
#[local] Hint Extern 1 (fixes _ (net_cmd _ _)) => apply lv_net_cmd; done : fixes.

Lemma keeps_lv {E A} (m : SE Agt E A) : fixes lv m -> keeps inv m.
Proof. intros Hm. apply keeps_triple, triple_lv, Hm. Qed.
Lemma keeps_lv_bind {E A B} (m : SE Agt E A) (k : A -> SE Agt E B) :
  fixes lv m -> (forall a, keeps inv (k a)) -> keeps inv (se_bind m k).
Proof. intros Hm Hk. apply keeps_bind; [by apply keeps_lv|done]. Qed.

Lemma keeps_of_bind {E A B} (a : A) (k : A -> SE Agt E B) : keeps inv (k a) -> keeps inv (se_bind (se_of (Ok a)) k).
Proof. done. Qed.

Lemma lv_run_cmd tool args : tool <> "lvcreate" -> tool <> "lvremove" -> fixes lv (run_cmd tool args).
Proof. intros. unfold run_cmd, output. fixes_tac. Qed.
#[local] Hint Extern 1 (fixes _ (run_cmd _ _)) => apply lv_run_cmd; done : fixes.

Lemma lv_storage_capacity x : fixes lv (storage_capacity x).
Proof. unfold storage_capacity, thin_pool_capacity, pool_capacity. fixes_tac. Qed.
Lemma lv_preflight x u : fixes lv (preflight x u).
Proof.
  pose proof lv_storage_capacity.
  unfold preflight, storage_validate, backend_validate, check_vg_exists, check_thin_pool, check_vg_one_pv,
    check_vg_no_foreign_lvs, lv_names, output, validate_tools, have, validate_iommu, validate_uplink. fixes_tac.
Qed.
Lemma lv_ensure_uplink u : fixes lv (ensure_uplink_bridge u).
Proof. unfold ensure_uplink_bridge, ensure_uplink, ensure_vxlan_spoof_guard, ensure_iptables_rule. fixes_tac. Qed.
Lemma lv_probe b : fixes lv (probe_uplink b).
Proof. unfold probe_uplink, read_mtu_sysfs, read_primary_ipv4. fixes_tac. Qed.
Lemma lv_discover : fixes lv discover_gpus.
Proof.
  unfold discover_gpus, nvlink_groups_from_nvidia_smi, gpu_output.
  assert (forall ls, fixes lv (gpus_of_lines ls)) as Hg.
  { induction ls as [|l ls IHl]; simpl; [apply fixes_ret|]. unfold read_iommu_group. fixes_tac. }
  fixes_tac.
Qed.

(** Golden images live in the group of the root volumes, which the ledger does
    not cover. *)
Lemma keeps_ensure_cached m r : keeps inv (ensure_cached m st r).
Proof.
  apply keeps_triple, triple_ensure_cached; intros t V HV.
  - by apply storage_inv_remove_rootfs.
  - by apply storage_inv_add_rootfs.
Qed.
Lemma lv_stored_paths c ds : fixes lv (stored_paths c ds).
Proof. induction ds as [|d ds IHd]; simpl; [apply fixes_ret|]. fixes_tac. Qed.
Lemma lv_rebind addrs : forall bound, fixes lv (rebind addrs bound).
Proof. induction addrs as [|a addrs IHa]; intros bound; simpl; [apply fixes_ret|]. fixes_tac. Qed.

Lemma keeps_restart_vm x r : hx_storage x = st -> keeps inv (restart_vm x r).
Proof.
  intros Hx. unfold restart_vm, other. rewrite Hx. apply keeps_lv_bind; [apply fixes_gets|intros w].
  case_match; [apply keeps_fail|]. apply keeps_lv_bind; [apply fixes_of|intros ds].
  apply keeps_lv_bind; [apply lv_stored_paths|intros paths].
  apply keeps_bind; [apply keeps_map_err, keeps_map_err, keeps_ensure_cached|intros cached].
  pose proof lv_rebind. pose proof lv_vm_mgr_create. pose proof lv_ensure_cluster_inner.
  apply keeps_lv. unfold narrow_u32, ensure_bootstrap. fixes_tac.
Qed.

Lemma keeps_startup x : hx_storage x = st -> keeps inv (reconcile_on_startup x).
Proof.
  intros Hx. unfold reconcile_on_startup. apply keeps_lv_bind.
  { unfold reconcile_running, list_all_unit_vm_ids. fixes_tac; by intros s. }
  intros running. do 2 (apply keeps_lv_bind; [apply fixes_gets|intros ?]). apply keeps_bind.
  - generalize (List.filter (fun vm => negb (existsb (String.eqb (lr_vm_id vm)) running)) a). intros vms.
    generalize {| sw_recovered := length (List.filter (fun vm => existsb (String.eqb (lr_vm_id vm)) running) a);
      sw_restarted := 0; sw_orphans := 0; sw_lost := 0; sw_failed := 0 |}.
    induction vms as [|vm vms IHv]; intros rep; simpl; [apply keeps_ret|].
    apply keeps_bind; [by apply keeps_try, keeps_restart_vm|auto].
  - intros rep. apply keeps_bind; [|intros; apply keeps_ret]. intros s Hs. rewrite <- Hx in *.
    eapply ot_inv, (keeps_touch_sweep x a0 s). by apply only_touches_refl.
Qed.

Lemma keeps_initialize par host :
  from_host_spec (hsp_storage (res_spec host)) = Some st -> keeps inv (initialize_runtime par host).
Proof.
  intros Hst. unfold initialize_runtime, make_dir. pose proof lv_probe. pose proof lv_preflight.
  pose proof lv_ensure_uplink. pose proof lv_discover.
  do 3 (apply keeps_lv_bind; [fixes_tac|intros ?]). apply keeps_lv_bind; [fixes_tac|intros probe]. cbn zeta.
  rewrite Hst. apply keeps_of_bind. apply keeps_lv_bind; [fixes_tac|intros checked].
  do 2 (apply keeps_lv_bind; [unfold image_mgr_with_auth; fixes_tac|intros ?]).
  apply keeps_bind; [by apply keeps_startup|intros _]. apply keeps_lv. fixes_tac.
Qed.

(** ** Commands *)

Lemma keeps_reconcile_command x bgp cmd : hx_storage x = st -> keeps inv (apply_reconcile x bgp cmd).
Proof.
  intros Hx s Hs. rewrite <- Hx in *. pose proof (apply_reconcile_outcome x bgp cmd s Hs) as Ho.
  destruct (apply_reconcile x bgp cmd s) as [s' [[]|e]]; simpl.
  - destruct Ho as (vnis & vms & Ha & _). eapply ot_inv, ak_touches, Ha.
  - destruct Ho as (_ & _ & Ho). eapply ot_inv, Ho.
Qed.

Lemma create_command_inv x create now s :
  hx_storage x = st -> ig_iso_tool (hx_image_mgr x) <> "lvcreate" -> ig_iso_tool (hx_image_mgr x) <> "lvremove" ->
  cmd_ok create -> agrees st create (ledger s) -> inv s -> inv (fst (spawn_create x create now text s)).
Proof.
  intros Hx H1 H2 Hok Hag Hs. unfold spawn_create, se_bind, se_try, se_ret. rewrite <- Hx in *.
  pose proof (triple_create_vm x create now (volumes s) Hok H1 H2 s (conj Hs (conj Hag eq_refl))) as Ht.
  assert (inv (fst (create_vm x create now s))) as Hi.
  { destruct (create_vm x create now s) as [s' [[]|e]]; rewrite <- Hx; apply Ht. }
  destruct (create_vm x create now s) as [s' [[]|e]]; unfold send_vm_state, send; destruct (hx_open x); rewrite Hx; exact Hi.
Qed.

(** ** Every reachable state *)

Definition ready (rt : AgentRuntime) : Prop :=
  let x := sx_vm (art_session rt) in
  hx_storage x = st /\ ig_iso_tool (hx_image_mgr x) <> "lvcreate" /\ ig_iso_tool (hx_image_mgr x) <> "lvremove".

Lemma preflight_tool x u s s' c tool :
  preflight x u s = (s', Ok (c, tool)) -> tool = "genisoimage" \/ tool = "mkisofs".
Proof.
  unfold preflight. intros Hp. apply se_bind_ok in Hp as (? & ? & _ & Hp).
  apply se_bind_ok in Hp as (s1 & t & Ht & Hp). do 2 (apply se_bind_ok in Hp as (? & ? & _ & Hp)).
  injection Hp as _ _ <-. revert Ht. unfold se_map_err, validate_tools, have, se_bind, se_ret, se_fail, world. intros Ht.
  repeat case_match; simplify_eq/=; auto.
Qed.

Lemma initialize_ready par host s s' rt :
  from_host_spec (hsp_storage (res_spec host)) = Some st ->
  initialize_runtime par host s = (s', Ok rt) -> ready rt.
Proof.
  intros Hst Hi. unfold initialize_runtime in Hi. do 4 (apply se_bind_ok in Hi as (? & ? & _ & Hi)).
  rewrite Hst in Hi. apply se_bind_ok in Hi as (? & st' & Hs & Hi). injection Hs as <- <-.
  apply se_bind_ok in Hi as (? & [c tool] & Hp & Hi). apply preflight_tool in Hp.
  apply se_bind_ok in Hi as (? & ? & _ & Hi). apply se_bind_ok in Hi as (? & images & Hm & Hi).
  do 3 (apply se_bind_ok in Hi as (? & ? & _ & Hi)). injection Hi as <- <-.
  unfold ready. simpl. split; [done|].
  assert (ig_iso_tool images = tool) as ->; [|by destruct Hp as [->| ->]].
  revert Hm. unfold se_map_err, image_mgr_with_auth, se_bind, world, se_ret, se_fail. intros Hm.
  repeat case_match; simplify_eq/=; done.
Qed.

Lemma keeps_setup rt first : ready rt -> keeps inv (session_setup rt first).
Proof.
  intros (Hx & _). unfold session_setup, send_register, handshake, send. apply keeps_bind.
  - apply keeps_lv_bind; [apply fixes_gets|intros vms]. apply keeps_lv.
    assert (fixes lv inventory) as Hinv.
    { unfold inventory, list_kernel_cluster_vnis, read_bridge_cluster_cidr.
      assert (forall vnis out, fixes lv (inventory_bridges vnis out)) as Hb.
      { induction vnis as [|v vnis IHv]; intros out; simpl; [apply fixes_ret|]. unfold read_bridge_cluster_cidr. fixes_tac. }
      fixes_tac. }
    fixes_tac; by intros ?.
  - intros _. apply keeps_bind.
    + case_match; [|apply keeps_fail]. case_match; try apply keeps_fail.
      do 2 (apply keeps_lv_bind; [done|intros _]).
      apply keeps_bind; [by apply keeps_reconcile_command|intros _]. apply keeps_lv. repeat case_match; fixes_tac.
      apply lv_world. intros w. apply lv_speaker_start.
    + intros bgp. apply keeps_lv. unfold report_local_vm_states, has_live_process, send_vm_state, send. fixes_tac; by intros ?.
Qed.

Definition sane (p : Proc) : Prop := inv (pr_agt p) /\ (pr_session p <> Down -> ready (pr_rt p)).

Lemma inv_after {E A} (m : SE Agt E A) s s' r : keeps inv m -> inv s -> m s = (s', r) -> inv s'.
Proof. intros Hm Hs Hr. specialize (Hm s Hs). by rewrite Hr in Hm. Qed.

Lemma command_inv rt open now cmd s :
  ready rt -> command_ok s cmd -> inv s -> inv (fst (process_command (vm_ctx open rt) (art_bgp rt) now text cmd s)).
Proof.
  intros (Hx & H1 & H2) Hok Hs. destruct cmd as [v create|ack|c]; simpl; [|done|].
  - destruct Hok. by apply create_command_inv.
  - apply (keeps_bind inv); [|intros _; apply keeps_ret|done]. by apply keeps_try, keeps_reconcile_command.
Qed.

Lemma lv_learned prefix nh :
  fixes lv (install_learned_route prefix nh) /\ fixes lv (withdraw_learned_route prefix nh).
Proof. unfold install_learned_route, withdraw_learned_route, ip_route. split; fixes_tac. Qed.

Lemma sane_step p q : agent_step p q -> sane p -> sane q.
Proof.
  intros Hstep [Hs Hr]. pose proof lv_storage_capacity as Hcap.
  destruct Hstep; unfold sane in *; simpl in *; try (split; [done|]; intros; by apply Hr); try done.
  - split; [|intros _; by eapply initialize_ready]. by eapply inv_after; [apply keeps_initialize| |].
  - split; [|done]. change (inv s'). by eapply inv_after; [apply keeps_initialize| |].
  - split; [|intros _; by apply Hr]. by eapply inv_after; [apply keeps_setup, Hr| |].
  - split; [|intros _; by apply Hr]. by eapply inv_after; [apply keeps_setup, Hr| |].
  - split; [|done]. rewrite report_tick_state. apply (keeps_lv (report_local_vm_states true)); [|done].
    unfold report_local_vm_states, has_live_process, send_vm_state, send. fixes_tac; by intros ?.
  - split; [|done]. apply command_inv; auto.
  - unfold capacity_tick, se_bind, se_ret in *. destruct (storage_capacity _ s) as [s1 [c|e]] eqn:E; [|done].
    simplify_eq. split; [|intros _; by apply Hr]. by eapply inv_after; [apply keeps_lv, Hcap| |].
  - split; [|auto]. unfold capacity_tick, se_bind, se_ret in *. destruct (storage_capacity _ s) as [s1 [c|e']] eqn:E; [done|].
    simplify_eq. by eapply inv_after; [apply keeps_lv, Hcap| |].
  - split; [|done]. destruct (Hr ltac:(done)) as (Hx & _). rewrite sweep_tick_state. unfold periodic_sweep.
    apply (keeps_lv_bind (se_gets _)); [apply fixes_gets| |done]. intros known s0 Hs0.
    assert (hx_storage (vm_ctx false rt) = st) as Hx' by done. rewrite <- Hx' in *.
    eapply ot_inv, (keeps_touch_sweep (vm_ctx false rt) known s0). by apply only_touches_refl.
  - split; [|done]. by apply keeps_lv; [apply lv_learned|].
  - split; [|done]. by apply keeps_lv; [apply lv_learned|].
  - split; [done|]. intros _. unfold reload_config in *. destruct (load_host read path) as [host|e]; [|done].
    destruct (_ <>$ _); simplify_eq; by apply Hr.
Qed.

End steps.
