(* ===== verification/DataplaneFacts.v ===== *)
(** * What reconciling the dataplane guarantees

    The three loops of network/cluster.rs that bring a kernel table to a
    wanted set (the prefix routes of a bridge, the flooding peers of a VXLAN
    device, the proxy-ARP entries of the uplink), under what [ip] and
    [bridge] are assumed to do with one entry; and which host answers ARP for
    a LAN VIP. *)

From S2P Require Import Prelude Ipv4 Ipnet Ctl Text HashName Host Net Dataplane Triple Frames.

(** The kernel tables the agent reconciles. *)
Inductive KTable :=
  | KRoutes (bridge : string) (table : option Z)
  | KPeers (vxlan : string)
  | KProxy (uplink : string).

Definition k_tool (k : KTable) : string :=
  match k with KRoutes _ _ | KProxy _ => "ip" | KPeers _ => "bridge" end.
Definition k_show_args (k : KTable) : list string :=
  match k with
  | KRoutes b t => show_routes_args b t
  | KPeers v => ["fdb"; "show"; "dev"; v]
  | KProxy u => ["neigh"; "show"; "proxy"; "dev"; u]
  end.
Definition k_parse (k : KTable) : string -> gset string :=
  match k with KRoutes _ _ => parse_routes | KPeers _ => parse_fdb | KProxy _ => parse_proxy_arp end.
Definition k_add_args (k : KTable) (x : string) : list string :=
  match k with
  | KRoutes b t => route_args "replace" x None b t
  | KPeers v => fdb_args "append" v x
  | KProxy u => ["neigh"; "replace"; "proxy"; x; "dev"; u]
  end.
Definition k_del_args (k : KTable) (x : string) : list string :=
  match k with
  | KRoutes b t => route_args "del" x None b t
  | KPeers v => fdb_args "del" v x
  | KProxy u => ["neigh"; "del"; "proxy"; x; "dev"; u]
  end.

(** What the kernel tools are assumed to do. [k_text k x] says that [x] is
    printed the way it is given (a network without host bits, a canonical
    address). A command for an entry changes at most that entry of that table,
    and has done so when it exits with success. *)
Class KernelHost `{H : Host} := {
  kset : KTable -> World -> gset string;
  k_text : KTable -> string -> Prop;
  k_show k w w' o : run (k_tool k) (k_show_args k) w = (w', o) ->
    (forall j, kset j w' = kset j w) /\
    forall out, o = Some out -> out_ok out = true -> k_parse k (out_stdout out) = kset k w;
  k_add k x w w' o : run (k_tool k) (k_add_args k x) w = (w', o) -> k_text k x ->
    (forall j, j <> k -> kset j w' = kset j w) /\
    (kset k w' = kset k w \/ kset k w' = {[x]} ∪ kset k w) /\
    (forall out, o = Some out -> out_ok out = true -> x ∈ kset k w');
  k_del k x w w' o : run (k_tool k) (k_del_args k x) w = (w', o) ->
    (forall j, j <> k -> kset j w' = kset j w) /\
    (kset k w' = kset k w \/ kset k w' = kset k w ∖ {[x]}) /\
    (forall out, o = Some out -> out_ok out = true -> x ∉ kset k w');
  k_arping args w : forall j, kset j (fst (run "arping" args w)) = kset j w;
}.

Section converge.
Context `{K : KernelHost}.

(** Listing the table and deleting from it never fail. *)
Definition reliable (k : KTable) : Prop :=
  (forall w, exists out, snd (run (k_tool k) (k_show_args k) w) = Some out /\ out_ok out = true) /\
  (forall x w, exists out, snd (run (k_tool k) (k_del_args k x) w) = Some out /\ out_ok out = true).

(** Table [k] is between [A] and [B] (and within [C] when it is reliable), the
    others are as in [w0]. *)
Definition between (k : KTable) (w0 : World) (A B C : gset string) (s : Agt) : Prop :=
  A ⊆ kset k (at_world s) /\ kset k (at_world s) ⊆ B /\ (reliable k -> kset k (at_world s) ⊆ C) /\
  forall j, j <> k -> kset j (at_world s) = kset j w0.

Lemma between_mono k w0 A B C A' B' C' s :
  between k w0 A B C s -> A' ⊆ A -> B ⊆ B' -> C ⊆ C' -> between k w0 A' B' C' s.
Proof. intros (H1 & H2 & H3 & H4) HA HB HC. split_and!; [set_solver..|intros Hr; specialize (H3 Hr); set_solver|done]. Qed.

Lemma net_cmd_cases tool args s :
  let '(w, o) := run tool args (at_world s) in
  fst (net_cmd tool args s) = set_world (fun _ => w) s /\
  (is_ok (snd (net_cmd tool args s)) = true -> exists out, o = Some out /\ out_ok out = true).
Proof.
  unfold net_cmd, net_output, world, se_bind. destruct (run tool args (at_world s)) as [w [out|]]; simpl.
  - destruct (out_ok out) eqn:E; simpl; [eauto|done].
  - done.
Qed.

Lemma triple_k_add k w0 A B C x :
  k_text k x ->
  triple (between k w0 A B C) (net_cmd (k_tool k) (k_add_args k x))
    (fun _ => between k w0 ({[x]} ∪ A) ({[x]} ∪ B) ({[x]} ∪ C)) (between k w0 A ({[x]} ∪ B) ({[x]} ∪ C)).
Proof.
  intros Hx s (H1 & H2 & H3 & H4). pose proof (net_cmd_cases (k_tool k) (k_add_args k x) s) as Hc.
  destruct (run (k_tool k) (k_add_args k x) (at_world s)) as [w o] eqn:Hr.
  destruct (k_add k x _ _ _ Hr Hx) as (Hj & Hk & Hin). destruct Hc as [Hs Hok].
  assert (between k w0 A ({[x]} ∪ B) ({[x]} ∪ C) (set_world (fun _ => w) s)) as Hb.
  { unfold between. simpl. split_and!.
    - destruct Hk as [-> | ->]; clear -H1; set_solver.
    - destruct Hk as [-> | ->]; clear -H2; set_solver.
    - intros Hrel. specialize (H3 Hrel). destruct Hk as [-> | ->]; clear -H3; set_solver.
    - intros j Hne. by rewrite Hj, H4. }
  destruct (net_cmd _ _ s) as [s' [[]|e]]; simpl in Hs, Hok; subst s'; [|done].
  destruct (Hok eq_refl) as (out & Ho & Hout). specialize (Hin out Ho Hout).
  destruct Hb as (Hb1 & Hb2 & Hb3 & Hb4). split_and!; try done. simpl in *.
  clear -Hb1 Hin. set_solver.
Qed.

Lemma triple_k_del k w0 A B C x :
  triple (between k w0 A B C) (run! se_try (F:=NetworkError) (net_cmd (k_tool k) (k_del_args k x)) ; se_ret tt)
    (fun _ => between k w0 (A ∖ {[x]}) B (C ∖ {[x]})) (fun _ => False).
Proof.
  intros s (H1 & H2 & H3 & H4). pose proof (net_cmd_cases (k_tool k) (k_del_args k x) s) as Hc.
  destruct (run (k_tool k) (k_del_args k x) (at_world s)) as [w o] eqn:Hr.
  destruct (k_del k x _ _ _ Hr) as (Hj & Hk & Hnot). destruct Hc as [Hs _].
  unfold se_bind, se_try. destruct (net_cmd _ _ s) as [s' r]. simpl in *. subst s'.
  unfold between. simpl. split_and!; [| | |intros j Hne; by rewrite Hj, H4].
  { destruct Hk as [-> | ->]; clear -H1; set_solver. }
  { destruct Hk as [-> | ->]; clear -H2; set_solver. }
  intros Hrel. specialize (H3 Hrel). destruct Hrel as [_ Hdel].
  destruct (Hdel x (at_world s)) as (out & Ho & Hout). rewrite Hr in Ho. simpl in Ho.
  specialize (Hnot out Ho Hout). destruct Hk as [Hk|Hk]; rewrite Hk in *; clear -H3 Hnot; set_solver.
Qed.

(** The loop that adds, and the loop that deletes. *)
Lemma triple_adds k w0 (body : string -> SE Agt NetworkError unit) l : forall A B C,
  (forall x A B C, x ∈ l -> triple (between k w0 A B C) (body x)
    (fun _ => between k w0 ({[x]} ∪ A) ({[x]} ∪ B) ({[x]} ∪ C)) (between k w0 A ({[x]} ∪ B) ({[x]} ∪ C))) ->
  triple (between k w0 A B C) (se_for l body)
    (fun _ => between k w0 (list_to_set l ∪ A) (list_to_set l ∪ B) (list_to_set l ∪ C))
    (between k w0 A (list_to_set l ∪ B) (list_to_set l ∪ C)).
Proof.
  induction l as [|x l IH]; intros A B C Hb; simpl.
  { intros s Hs. simpl. eapply between_mono; [done|set_solver..]. }
  apply (triple_bind _ _ _ (fun _ => between k w0 ({[x]} ∪ A) ({[x]} ∪ B) ({[x]} ∪ C))).
  { eapply triple_post, Hb; [done| |set_solver].
    intros s Hs. eapply between_mono; [done|set_solver..]. }
  intros _. eapply triple_post, IH; [| |set_solver].
  - intros a s Hs. eapply between_mono; [exact Hs|set_solver..].
  - intros s Hs. eapply between_mono; [done|set_solver..].
Qed.
Lemma triple_dels k w0 l : forall A B C,
  triple (between k w0 A B C)
    (se_for l (fun x => run! se_try (F:=NetworkError) (net_cmd (k_tool k) (k_del_args k x)) ; se_ret tt))
    (fun _ => between k w0 (A ∖ list_to_set l) B (C ∖ list_to_set l)) (fun _ => False).
Proof.
  induction l as [|x l IH]; intros A B C; simpl.
  { intros s Hs. simpl. eapply between_mono; [done|set_solver..]. }
  apply (triple_bind _ _ _ (fun _ => between k w0 (A ∖ {[x]}) B (C ∖ {[x]}))); [apply triple_k_del|]. intros _. eapply triple_post, IH; [|done].
  intros a s Hs. eapply between_mono; [exact Hs|set_solver..].
Qed.

(** Bringing table [k] to [W]: an entry that is wanted is never removed,
    nothing is removed before everything wanted is there, no entry but the
    wanted ones is added, and on success everything wanted is there and, when
    listing and deleting work, nothing else. *)
Definition converges (P : Agt -> Prop) (k : KTable) (W : gset string) (m : SE Agt NetworkError unit) : Prop :=
  forall w0, let K0 := kset k w0 in
  triple (fun s => at_world s = w0 /\ P s) m
    (fun _ => between k w0 W (W ∪ K0) W) (between k w0 K0 (W ∪ K0) (W ∪ K0)).

Lemma triple_converge k w0 W kernel (body : string -> SE Agt NetworkError unit) ladd ldel :
  let K0 := kset k w0 in
  kernel = K0 \/ (kernel = ∅ /\ ~ reliable k) ->
  list_to_set ladd = W ∖ kernel -> list_to_set ldel = kernel ∖ W ->
  (forall x A B C, x ∈ ladd -> triple (between k w0 A B C) (body x)
    (fun _ => between k w0 ({[x]} ∪ A) ({[x]} ∪ B) ({[x]} ∪ C)) (between k w0 A ({[x]} ∪ B) ({[x]} ∪ C))) ->
  triple (between k w0 K0 K0 K0)
    (run! se_for ladd body ;
     se_for ldel (fun x => run! se_try (F:=NetworkError) (net_cmd (k_tool k) (k_del_args k x)) ; se_ret tt))
    (fun _ => between k w0 W (W ∪ K0) W) (between k w0 K0 (W ∪ K0) (W ∪ K0)).
Proof.
  intros K0 Hk Hadd Hdel Hb.
  apply (triple_bind _ _ _ (fun _ => between k w0 ((W ∖ kernel) ∪ K0) ((W ∖ kernel) ∪ K0) ((W ∖ kernel) ∪ K0))).
  { rewrite <- Hadd. eapply triple_post, triple_adds; [done| |done].
    intros s Hs. eapply between_mono; [exact Hs|done|set_solver..]. }
  intros _. eapply triple_post, triple_dels; [|done]. intros a s Hs. cbn beta in Hs. rewrite Hdel in Hs.
  destruct Hk as [->|[-> Hrel]].
  - eapply between_mono; [exact Hs| |set_solver|set_solver].
    intros x Hx. destruct (decide (x ∈ K0)); set_solver.
  - destruct Hs as (H1 & H2 & _ & H4). split_and!; [|clear -H2; set_solver|done|done].
    clear -H1. set_solver.
Qed.

(** Reading a table. *)
Lemma triple_k_show k w0 P :
  let K0 := kset k w0 in
  triple (fun s => at_world s = w0 /\ P s) (net_output (k_tool k) (k_show_args k))
    (fun out => fun s => between k w0 K0 K0 K0 s /\
       (out_ok out = true /\ k_parse k (out_stdout out) = K0 \/ out_ok out = false /\ ~ reliable k))
    (between k w0 K0 K0 K0).
Proof.
  intros K0 s [<- _]. unfold net_output, world, se_bind, se_of.
  destruct (run (k_tool k) (k_show_args k) (at_world s)) as [w o] eqn:Hr.
  destruct (k_show k _ _ _ Hr) as [Hsame Hparse].
  assert (between k (at_world s) K0 K0 K0 (set_world (fun _ => w) s)) as Hb.
  { unfold between. simpl. rewrite Hsame. split_and!; [done..|]. intros j _. apply Hsame. }
  destruct o as [out|]; simpl; [|done]. split; [done|]. destruct (out_ok out) eqn:Hok.
  - left. split; [done|]. by apply Hparse.
  - right. split; [done|]. intros [Hshow _]. destruct (Hshow (at_world s)) as (out' & Ho & Hok').
    rewrite Hr in Ho. simpl in Ho. simplify_eq. congruence.
Qed.

Lemma btree_set X : list_to_set (btree X) = X.
Proof.
  unfold btree. apply set_eq. intros x. rewrite elem_of_list_to_set, merge_sort_Permutation. apply elem_of_elements.
Qed.
Lemma elem_of_btree x X : x ∈ btree X <-> x ∈ X.
Proof. unfold btree. rewrite merge_sort_Permutation. apply elem_of_elements. Qed.

Lemma routes_converge P bridge table want :
  (forall x, x ∈ want -> k_text (KRoutes bridge table) x) ->
  converges P (KRoutes bridge table) want (reconcile_routes bridge table want).
Proof.
  intros Htext w0 K0. set (k := KRoutes bridge table).
  apply (triple_bind _ _ _ (fun kernel s => between k w0 K0 K0 K0 s /\ (kernel = K0 \/ (kernel = ∅ /\ ~ reliable k)))).
  { eapply triple_bind; [eapply triple_post, (triple_k_show k w0 P); [done|]|].
    - intros s Hs. eapply between_mono; [exact Hs|set_solver..].
    - intros out s [Hb [[Hok Hp]|[Hok Hr]]]; simpl; rewrite Hok; (split; [done|]); [left|right]; done. }
  intros kernel s [Hb Hk]. revert s Hb. apply (triple_converge k w0 want kernel); [done|apply btree_set..|].
  intros x A B C [Hx _]%elem_of_btree%elem_of_difference. by apply (triple_k_add k), Htext.
Qed.

Lemma peers_converge P m vxlan peers :
  (forall x, x ∈ fdb_desired m peers -> k_text (KPeers vxlan) x) ->
  converges P (KPeers vxlan) (fdb_desired m peers) (reconcile_fdb m vxlan peers).
Proof.
  intros Htext w0 K0. set (k := KPeers vxlan). set (W := fdb_desired m peers) in *.
  apply (triple_bind _ _ _ (fun kernel s => between k w0 K0 K0 K0 s /\ kernel = K0)).
  { eapply triple_bind; [eapply triple_post, (triple_k_show k w0 P); [done|]|].
    - intros s Hs. eapply between_mono; [exact Hs|set_solver..].
    - intros out s [Hb [[Hok Hp]|[Hok Hr]]]; simpl; rewrite Hok; [done|]. simpl.
      eapply between_mono; [exact Hb|set_solver..]. }
  intros kernel s [Hb Hk]. revert s Hb.
  apply (triple_converge k w0 W kernel); [by left|apply list_to_set_elements_L..|].
  intros x A B C [Hx _]%elem_of_elements%elem_of_difference. by apply (triple_k_add k), Htext.
Qed.

Lemma proxy_converges m live :
  (forall x, x ∈ live_addrs live -> k_text (KProxy (cm_uplink_bridge m)) x) ->
  converges (fun s => at_live s = live) (KProxy (cm_uplink_bridge m)) (live_addrs live) (reconcile_proxy_arp m).
Proof.
  intros Htext w0 K0. set (k := KProxy (cm_uplink_bridge m)).
  apply (triple_bind _ _ _ (fun l s => (at_world s = w0 /\ True) /\ l = live)); [by intros s [? ?]|].
  intros l s [Hs ->]. revert s Hs. cbn zeta.
  apply (triple_bind _ _ _ (fun kernel s => between k w0 K0 K0 K0 s /\ (kernel = K0 \/ (kernel = ∅ /\ ~ reliable k)))).
  { eapply triple_bind; [eapply triple_post, (triple_k_show k w0 (fun _ => True)); [done|]|].
    - intros s Hs. eapply between_mono; [exact Hs|set_solver..].
    - intros out s [Hb [[Hok Hp]|[Hok Hr]]]; simpl; rewrite Hok; (split; [done|]); [left|right]; done. }
  intros kernel s [Hb Hk]. revert s Hb.
  apply (triple_converge k w0 (live_addrs live) kernel); [done|apply btree_set..|].
  intros x A B C [Hx _]%elem_of_btree%elem_of_difference.
  apply (triple_bind _ _ _ (fun _ => between k w0 ({[x]} ∪ A) ({[x]} ∪ B) ({[x]} ∪ C))).
  { by apply (triple_k_add k), Htext. }
  intros _ s Hs. unfold send_garp, se_bind, world.
  pose proof (k_arping ["-c"; "3"; "-w"; "1"; "-A"; "-I"; cm_uplink_bridge m; x] (at_world s)) as Ha.
  destruct (run "arping" _ (at_world s)) as [w o]. simpl in *. unfold between in *. simpl.
  rewrite Ha. destruct Hs as (H1 & H2 & H3 & H4). split_and!; [done..|]. intros j Hj. rewrite Ha. by apply H4.
Qed.
End converge.


(** ** Who answers for a LAN VIP *)

Section responder.
Context `{N : Ipnet} `{NL : !IpnetLaws N} `{NH : !IpnetHosts N} `{NHL : !IpnetHostsLaws NH}.

Lemma elem_of_arp_addrs vips h a :
  a ∈ snd (expand_lan_vips vips h) <->
  exists v net x, v ∈ vips /\ net_parse (cv_cidr v) = Some net /\ cv_owner_host_id v = h /\ h <> "" /\
    x ∈ net_hosts net /\ a = ip_to_string x.
Proof.
  induction vips as [|v vips IHv]; simpl; [set_solver|].
  destruct (expand_lan_vips vips h) as [prefixes addrs]. simpl in IHv.
  destruct (net_parse (cv_cidr v)) as [net|] eqn:Hp; simpl.
  - destruct ((cv_owner_host_id v =$ h) && (h <>$ "")) eqn:Ho.
    + apply andb_true_iff in Ho as [Ho%String.eqb_eq Hne%negb_true_iff%String.eqb_neq].
      rewrite elem_of_union, elem_of_list_to_set, IHv. split.
      * intros [Ha|(w & net' & x & Hw & ?)].
        -- apply list_elem_of_fmap in Ha as (x & -> & Hx). exists v, net, x. set_solver.
        -- exists w, net', x. split; [set_solver|done].
      * intros (w & net' & x & [->|Hw]%elem_of_cons & Hp' & Ho' & _ & Hx & ->).
        -- left. simplify_eq. apply list_elem_of_fmap. eauto.
        -- right. exists w, net', x. done.
    + rewrite IHv. split.
      * intros (w & net' & x & Hw & ?). exists w, net', x. split; [set_solver|done].
      * intros (w & net' & x & [->|Hw]%elem_of_cons & Hp' & Ho' & Hne & Hx & ->); [|by exists w, net', x].
        apply andb_false_iff in Ho as [Ho%String.eqb_neq|Ho%negb_false_iff%String.eqb_eq]; congruence.
  - rewrite IHv. split.
    + intros (w & net' & x & Hw & ?). exists w, net', x. split; [set_solver|done].
    + intros (w & net' & x & [->|Hw]%elem_of_cons & Hp' & ?); [congruence|by exists w, net', x].
Qed.

Lemma in_net_u32 n a : in_net n a -> is_u32 a.
Proof.
  unfold in_net. pose proof (net_network_u32 n) as H1. pose proof (net_broadcast_u32 n) as H2.
  unfold is_u32 in *. lia.
Qed.

End responder.
