(* ===== verification/NameFacts.v ===== *)
(** * What the agent's configuration and its names guarantee

    The storage configuration that validation accepts is the one the agent
    can build its backends from, with disjoint pools; the network devices of
    a host have names the kernel accepts, apart from each other, and the
    routing tables of trust domains stay clear of the reserved ones. *)

From Stdlib Require Import Ascii.
From stdpp Require Import pretty.
From S2P Require Import Prelude Ipv4 Text HashName Host Lvm Dataplane.

(** ** Storage *)

Lemma existsb_eqb_elem x l : existsb (String.eqb x) l = bool_decide (x ∈ l).
Proof.
  apply eq_true_iff_eq. rewrite existsb_exists, bool_decide_eq_true. split.
  - intros (y & Hy & ->%String.eqb_eq). by apply list_elem_of_In.
  - intros Hx. exists x. split; [by apply list_elem_of_In|apply String.eqb_refl].
Qed.

Lemma nodup_insert {A} (l1 l2 : list A) x : NoDup (l1 ++ x :: l2) <-> NoDup (x :: l1 ++ l2).
Proof. by rewrite <- Permutation_middle. Qed.

Lemma reverse_snoc_app {A} (x : A) l a : reverse (x :: l) ++ a = reverse l ++ x :: a.
Proof. by rewrite reverse_cons, <- app_assoc. Qed.

(** Validating the devices of a pool collects exactly the device table the
    backend is built from, as long as nothing occurs twice. *)
Lemma validate_devices_ok pool ds : forall a b s,
  NoDup a -> NoDup b ->
  validate_devices pool (a, b) ds = Ok s <->
  exists t, device_vgs_of ds = Some t /\
    s = (reverse (map fst t) ++ a, reverse (map snd t) ++ b) /\ NoDup (fst s) /\ NoDup (snd s).
Proof.
  induction ds as [|d ds IH]; intros a b s Ha Hb; simpl.
  - split; [intros [= <-]; by exists []|]. intros (t & [= <-] & -> & _). done.
  - rewrite existsb_eqb_elem. case_bool_decide as Hd.
    { split; [done|]. intros (t & Ht & -> & Hn & _). destruct (pd_vg d); [|done]. simpl in Ht.
      destruct (device_vgs_of ds); [|done]. injection Ht as <-. simpl in Hn.
      rewrite reverse_snoc_app, nodup_insert in Hn. apply NoDup_cons in Hn as [Hn _].
      set_solver. }
    destruct (pd_vg d) as [vg|]; simpl; [|split; [done|by intros (t & ? & _)]].
    rewrite existsb_eqb_elem. case_bool_decide as Hv.
    { split; [done|]. intros (t & Ht & -> & _ & Hn).
      destruct (device_vgs_of ds); [|done]. injection Ht as <-. simpl in Hn.
      rewrite reverse_snoc_app, nodup_insert in Hn. apply NoDup_cons in Hn as [Hn _].
      set_solver. }
    rewrite IH by (by constructor). split.
    + intros (t & -> & -> & Hn). exists ((pd_id d, vg) :: t). simpl.
      by rewrite !reverse_snoc_app.
    + intros (t & Ht & -> & Hn). destruct (device_vgs_of ds) as [t'|]; [|done].
      injection Ht as <-. exists t'. simpl in Hn |- *.
      by rewrite !reverse_snoc_app in Hn |- *.
Qed.

Definition backend_names (bs : list LvmLinearBackend) : list string := map (fun b => ps_name (be_spec b)) bs.
Definition built_devices (bs : list LvmLinearBackend) : list string :=
  concat (map (fun b => map fst (be_device_vgs b)) bs).
Definition backend_groups (bs : list LvmLinearBackend) : list string := concat (map backend_vgs bs).

(** Nothing of [bs] occurs twice, nor among what was seen before. *)
Definition apart (names : list string) (seen : list string * list string) (bs : list LvmLinearBackend) : Prop :=
  NoDup (backend_names bs ++ names) /\ NoDup (built_devices bs ++ fst seen) /\
  NoDup (backend_groups bs ++ snd seen).

Lemma nodup_reverse_app {A} (l1 l2 l3 : list A) : NoDup (l1 ++ reverse l2 ++ l3) <-> NoDup ((l2 ++ l1) ++ l3).
Proof. by rewrite reverse_Permutation, (Permutation_app_swap_app l1), (assoc _). Qed.

Lemma apart_cons names a b p t bs :
  apart names (a, b) ({| be_spec := p; be_device_vgs := t |} :: bs) <->
  apart (ps_name p :: names) (reverse (map fst t) ++ a, reverse (map snd t) ++ b) bs.
Proof.
  unfold apart, backend_names, built_devices, backend_groups, backend_vgs. simpl.
  by rewrite !nodup_reverse_app, nodup_insert.
Qed.

Lemma apart_seen names seen bs : apart names seen bs -> NoDup names /\ NoDup (fst seen) /\ NoDup (snd seen).
Proof. intros (?%NoDup_app & ?%NoDup_app & ?%NoDup_app). tauto. Qed.

Lemma storage_pools_ok ps : forall names seen,
  NoDup names -> NoDup (fst seen) -> NoDup (snd seen) ->
  validate_storage_pools names seen ps = Ok tt <-> exists bs, backends_of ps = Some bs /\ apart names seen bs.
Proof.
  induction ps as [|p ps IH]; intros names [a b] Hnames Ha Hb; simpl.
  { split; [|done]. intros _. by exists []. }
  rewrite existsb_eqb_elem. case_bool_decide as Hp.
  { split; [done|]. intros (bs & Hbs & Hap & _).
    destruct (ps_backend p); try done. unfold backend_new in Hbs.
    destruct (device_vgs_of _) as [t|]; [|done]. simpl in Hbs.
    destruct (backends_of ps); [|done]. injection Hbs as <-.
    simpl in Hap. apply NoDup_cons in Hap as [Hap _]. set_solver. }
  destruct (ps_backend p); simpl; [|split; [done|by intros (? & ? & _)]..].
  unfold backend_new.
  destruct (validate_devices (ps_name p) (a, b) (ps_devices p)) as [s|e] eqn:E.
  - apply validate_devices_ok in E as (t & -> & -> & Hn1 & Hn2); [|done..]. simpl.
    rewrite IH by (done || by constructor). split.
    + intros (bs & -> & Hap). eexists. split; [done|]. by apply apart_cons.
    + intros (bs & Hbs & Hap). destruct (backends_of ps) as [bs'|]; [|done].
      injection Hbs as <-. exists bs'. split; [done|]. by apply apart_cons.
  - split; [done|]. intros (bs & Hbs & Hap).
    destruct (device_vgs_of (ps_devices p)) as [t|] eqn:Et; [|done]. simpl in Hbs.
    destruct (backends_of ps) as [bs'|]; [|done]. injection Hbs as <-.
    apply apart_cons in Hap as (_ & Hn1 & Hn2)%apart_seen.
    assert (validate_devices (ps_name p) (a, b) (ps_devices p)
            = Ok (reverse (map fst t) ++ a, reverse (map snd t) ++ b)) as Hok
      by (apply validate_devices_ok; [done..|]; by exists t).
    by rewrite E in Hok.
Qed.

(** A storage configuration is accepted exactly when the agent can build
    its backends without reaching a panic ([expect] on a missing group,
    [unreachable!] on an unsupported backend) and the pools, the devices and
    the volume groups of the result are pairwise different, so that a device
    belongs to one pool and a group to one device. *)
Theorem storage_validated_iff_builds spec :
  validate_storage spec = Ok tt <->
  exists st, from_host_spec spec = Some st /\ st_rootfs st = ss_rootfs spec /\
    NoDup (backend_names (st_pools st)) /\ NoDup (built_devices (st_pools st)) /\
    NoDup (backend_groups (st_pools st)).
Proof.
  unfold validate_storage, from_host_spec.
  rewrite storage_pools_ok by constructor. unfold apart. simpl. setoid_rewrite app_nil_r. split.
  - intros (bs & -> & H). eexists. split; [done|]. split; [done|exact H].
  - intros (st & Hst & _ & H). destruct (backends_of (ss_pools spec)) as [bs|]; [|done].
    injection Hst as <-. by exists bs.
Qed.

(** ** Names of network devices *)

Lemma pretty_go_length k : forall x s,
  (x < 10 ^ N.of_nat k)%N -> (String.length (pretty_N_go x s) <= k + String.length s)%nat.
Proof.
  induction k as [|k IH]; intros x s Hx.
  - assert (x = 0)%N as -> by (simpl in Hx; lia). by rewrite pretty_N_go_0.
  - destruct (decide (x = 0)%N) as [->|Hne]; [rewrite pretty_N_go_0; lia|].
    rewrite pretty_N_go_step by lia.
    assert (x `div` 10 < 10 ^ N.of_nat k)%N as Hd
      by (apply N.Div0.div_lt_upper_bound; rewrite Nat2N.inj_succ, N.pow_succ_r' in Hx; lia).
    specialize (IH _ (String (pretty_N_char (x `mod` 10)) s) Hd). simpl in IH. lia.
Qed.

Lemma pretty_u32_length n : is_u32 n -> (String.length (pretty n) <= 10)%nat.
Proof.
  intros [H0 H1]. destruct n as [|p|p]; [simpl; lia| |lia].
  change (String.length (pretty_N_go (N.pos p) "") <= 10)%nat.
  apply (pretty_go_length 10). lia.
Qed.

Lemma string_app_length s1 s2 : String.length (s1 +:+ s2) = (String.length s1 + String.length s2)%nat.
Proof. induction s1 as [|c s1 IH]; [done|]. change (S (String.length (s1 +:+ s2)) = S (String.length s1 + String.length s2)). by rewrite IH. Qed.

(** What the kernel takes as an interface name ([IFNAMSIZ] is 16, with the
    terminator). *)
Definition fits_ifnamsiz (s : string) : Prop := (String.length s <= 15)%nat.

(** The names of the bridge and of the VXLAN device of any VNI, of the
    VRF of any trust domain and of the tap of any VM fit the kernel's limit;
    a name of one sort is never a name of another; bridges and VXLAN devices
    of different VNIs have different names; and the table of a trust domain
    is a 32-bit number above the reserved tables 0 to 255. *)
Theorem device_names_fit vni vni' td vm :
  is_u32 vni -> is_u32 vni' ->
  fits_ifnamsiz (bridge_name vni) /\ fits_ifnamsiz (vxlan_name vni) /\
  fits_ifnamsiz (vrf_name (vrf_for td)) /\ fits_ifnamsiz (primary_tap_name vm) /\
  NoDup [bridge_name vni; vxlan_name vni'; vrf_name (vrf_for td); primary_tap_name vm] /\
  (bridge_name vni = bridge_name vni' -> vni = vni') /\
  (vxlan_name vni = vxlan_name vni' -> vni = vni') /\
  255 < vrf_table_id (vrf_for td) /\ is_u32 (vrf_table_id (vrf_for td)).
Proof.
  intros Hv Hv'. unfold fits_ifnamsiz, bridge_name, vxlan_name. rewrite !string_app_length.
  pose proof (pretty_u32_length vni Hv). split_and!; try (simpl; lia).
  - rewrite !NoDup_cons, !not_elem_of_cons.
    split_and!; discriminate || apply not_elem_of_nil || constructor.
  - intros [= Heq]. by apply pretty_Z_inj.
  - intros [= Heq]. by apply pretty_Z_inj.
  - simpl. pose proof (Z.mod_pos_bound (Z.land (as_u32 (fnv1a_64 (bytes_of td))) 0x7fffffff) 4000000000). lia.
  - simpl. change 0x7fffffff with (Z.ones 31). rewrite Z.land_ones by done.
    set (x := as_u32 _). unfold is_u32.
    assert (0 <= x mod 2 ^ 31 < 2 ^ 31) as Hx by (apply Z.mod_pos_bound; lia).
    rewrite (Z.mod_small (x mod 2 ^ 31)) by lia. lia.
Qed.

Lemma device_names_fit_witness :
  is_u32 16777215 /\ is_u32 7 /\ fits_ifnamsiz (bridge_name 16777215).
Proof.
  assert (is_u32 16777215) as H1 by done. assert (is_u32 7) as H2 by done.
  split; [exact H1|]. split; [exact H2|].
  exact (proj1 (device_names_fit 16777215 7 "tree" "vm-1" H1 H2)).
Defined.
