(* ===== verification/SimHost.v ===== *)
(** * A simulated machine

    A concrete instance of the interfaces of the agent: volumes as a set of
    (group, name), files as a set of paths, the output of the other commands
    from a table, every command line in a log, and commands that can be told
    to fail. It has the behaviour [LvmHost] assumes of lvm2, so the theorems
    of the agent apply to runs of the operations that can be evaluated. *)

From Stdlib Require Import Ascii.
From S2P Require Import Prelude Ipv4 Ipnet CidrNet Text Host Lvm Dataplane Image AgentMain Triple Ledger Frames AgentFacts.

Record SimWorld := {
  sim_lvs : gset (string * string);
  sim_files : gset string;
  (** contents of files and targets of links *)
  sim_text : gmap string string;
  (** what command lines print *)
  sim_stdout : gmap string string;
  (** command lines that exit with an error *)
  sim_fails : gset string;
  sim_log : list string;
}.

(** Names lvm2 accepts: not empty, no white space, no slash. *)
Fixpoint plain (s : string) : bool :=
  match s with
  | EmptyString => true
  | String c s' => negb (is_space c) && plain s'
  end.
Definition clean (s : string) : bool := (s <>$ "") && (plain s && free_of "/" s).
Definition clean_lv (v : string * string) : Prop := Is_true (clean v.1 && clean v.2).

Definition sim_set (w : SimWorld) : gset (string * string) := filter clean_lv (sim_lvs w).
Definition sim_put (vs : gset (string * string)) (w : SimWorld) : SimWorld := {|
  sim_lvs := vs; sim_files := sim_files w; sim_text := sim_text w; sim_stdout := sim_stdout w;
  sim_fails := sim_fails w; sim_log := sim_log w |}.
Definition sim_touch (fs : gset string) (w : SimWorld) : SimWorld := {|
  sim_lvs := sim_lvs w; sim_files := fs; sim_text := sim_text w; sim_stdout := sim_stdout w;
  sim_fails := sim_fails w; sim_log := sim_log w |}.
Definition sim_logged (l : string) (w : SimWorld) : SimWorld := {|
  sim_lvs := sim_lvs w; sim_files := sim_files w; sim_text := sim_text w; sim_stdout := sim_stdout w;
  sim_fails := sim_fails w; sim_log := sim_log w ++ [l] |}.

Definition printed (t : string) : option Output := Some {| out_ok := true; out_stdout := t; out_stderr := "" |}.
Definition refused : option Output := Some {| out_ok := false; out_stdout := ""; out_stderr := "refused" |}.

(** One line per name. *)
Definition as_lines (ns : list string) : string := foldr (fun n acc => n +:+ String LF acc) "" ns.
Definition names_in (vg : string) (V : gset (string * string)) : list string :=
  omap (fun v => if v.1 =$ vg then Some v.2 else None) (elements V).

Definition sim_lvcreate (vg lv : string) (w : SimWorld) : SimWorld * option Output :=
  if clean vg && clean lv then (sim_put ({[(vg, lv)]} ∪ sim_lvs w) w, printed "") else (w, refused).
(** The group of [vg/lv]. *)
Definition sim_split (path : string) : string * string := unwrap_or ("", "") (split_once "/"%char path).

Definition sim_lvs_cmd (args : list string) (w : SimWorld) : string :=
  match args with
  | ["--noheadings"; "-o"; "lv_attr"; "-S"; sel; vg] =>
      match strip_prefix "lv_name=" sel with
      | Some lv => if bool_decide ((vg, lv) ∈ sim_set w) then "-wi-a-----" else ""
      | None => ""
      end
  | ["--noheadings"; "-o"; "lv_name"; vg] => as_lines (names_in vg (sim_set w))
  | _ => unwrap_or "" (sim_stdout w !! join " " ("lvs" :: args))
  end.
Definition sim_create_cmd (args : list string) (w : SimWorld) : SimWorld * option Output :=
  match args with
  | ["--wipesignatures"; _; _; _; _; _; lv; vg] => sim_lvcreate vg lv w
  | ["--snapshot"; _; lv; _; _; _; _; path] =>
      if clean (sim_split path).2 then sim_lvcreate (sim_split path).1 lv w else (w, refused)
  | ["--virtualsize"; _; _; _; lv; path] =>
      if clean (sim_split path).2 then sim_lvcreate (sim_split path).1 lv w else (w, refused)
  | _ => (w, refused)
  end.
Definition sim_remove_cmd (args : list string) (w : SimWorld) : SimWorld * option Output :=
  match args with
  | [_; path] =>
      let v := sim_split path in
      if clean v.1 && clean v.2 then (sim_put (sim_lvs w ∖ {[v]}) w, printed "") else (w, refused)
  | _ => (w, refused)
  end.

Definition sim_run (tool : string) (args : list string) (w0 : SimWorld) : SimWorld * option Output :=
  let line := join " " (tool :: args) in
  let w := sim_logged line w0 in
  if bool_decide (line ∈ sim_fails w) then (w, refused)
  else if tool =$ "lvs" then (w, printed (sim_lvs_cmd args w))
  else if tool =$ "lvcreate" then sim_create_cmd args w
  else if tool =$ "lvremove" then sim_remove_cmd args w
  else (w, printed (unwrap_or "" (sim_stdout w !! line))).

#[global] Instance sim_host : Host := {|
  World := SimWorld;
  run := sim_run;
  permit _ w := (w, true);
  path_exists p w := bool_decide (p ∈ sim_files w);
  create_dir_all p w := (sim_touch ({[p]} ∪ sim_files w) w, true);
  remove_dir_all p w := (sim_touch (sim_files w ∖ {[p]}) w, true);
  write_file p _ w := (sim_touch ({[p]} ∪ sim_files w) w, true);
  remove_file p w := (sim_touch (sim_files w ∖ {[p]}) w, true);
  rename_file p q w := (sim_touch ({[q]} ∪ (sim_files w ∖ {[p]})) w, true);
  read_link p w := sim_text w !! p;
  read_to_string p w := sim_text w !! p;
  read_dir p w := Some (map (fun n => (n, true)) (lines (unwrap_or "" (sim_text w !! p))));
|}.

(** ** Facts about the text *)

Lemma free_of_app c a b : free_of c (a +:+ String c b) = false.
Proof.
  induction a as [|d a IH]; simpl; [by rewrite Ascii.eqb_refl|].
  change (String d a +:+ String c b) with (String d (a +:+ String c b)). simpl. rewrite IH. apply andb_false_r.
Qed.
Lemma split_once_dirty a b :
  free_of "/" a = false -> exists l r, split_once "/" (a +:+ String "/" b) = Some (l, r) /\ free_of "/" r = false.
Proof.
  induction a as [|c a IH]; [done|]. change (String c a +:+ String "/" b) with (String c (a +:+ String "/" b)). simpl.
  destruct (Ascii.eqb c "/") eqn:E; simpl; intros Hf.
  - eexists _, _. split; [done|]. apply free_of_app.
  - destruct (IH Hf) as (l & r & -> & Hr). by eexists _, _.
Qed.
Lemma sim_split_clean vg lv :
  clean (sim_split (vg +:+ "/" +:+ lv)).2 = true -> sim_split (vg +:+ "/" +:+ lv) = (vg, lv).
Proof.
  change (vg +:+ "/" +:+ lv) with (vg +:+ String "/" lv). unfold sim_split.
  destruct (free_of "/" vg) eqn:E; [by rewrite split_once_app by done|].
  destruct (split_once_dirty vg lv E) as (l & r & -> & Hr). unfold clean. simpl. rewrite Hr, !andb_false_r. done.
Qed.

Lemma plain_free c s : is_space c = true -> plain s = true -> free_of c s = true.
Proof.
  intros Hc. induction s as [|d s IH]; [done|]. simpl. intros [Hd Hs]%andb_true_iff. rewrite IH by done.
  destruct (Ascii.eqb d c) eqn:E; [|done]. apply Ascii.eqb_eq in E as ->. by rewrite Hc in Hd.
Qed.
Lemma chomp_free s : free_of CR s = true -> chomp s = s.
Proof.
  intros Hs. unfold chomp. enough (strip_suffix (String CR "") s = None) as -> by done.
  induction s as [|c s IH]; [done|]. simpl in *. apply andb_true_iff in Hs as [Hc Hs]. rewrite IH by done.
  destruct (Ascii.eqb c CR) eqn:E; [|done]. done.
Qed.
Lemma trim_plain n : plain n = true -> trim n = n.
Proof.
  intros Hn. unfold trim. assert (trim_start n = n) as ->.
  { destruct n as [|c n]; [done|]. simpl in *. by destruct (is_space c). }
  induction n as [|c n IH]; [done|]. simpl in *. apply andb_true_iff in Hn as [Hc Hn].
  rewrite IH by done. destruct n; [by destruct (is_space c)|done].
Qed.

Lemma split_char_line c n rest :
  free_of c n = true -> split_char c (n +:+ String c rest) = n :: split_char c rest.
Proof.
  unfold split_char. induction n as [|b n IH]; simpl; [by rewrite Ascii.eqb_refl|].
  intros [Hb Hn]%andb_true_iff. apply negb_true_iff in Hb.
  change (String b n +:+ String c rest) with (String b (n +:+ String c rest)). simpl.
  rewrite Ascii.eqb_sym, Hb, IH by done. done.
Qed.
Definition one_line (n : string) : Prop := free_of LF n = true /\ free_of CR n = true.
Lemma plain_one_line n : plain n = true -> one_line n.
Proof. intros Hn. split; by apply plain_free. Qed.
Lemma lines_as_lines ns : Forall one_line ns -> lines (as_lines ns) = ns.
Proof.
  intros Hp. unfold lines.
  assert (split_char LF (as_lines ns) = ns ++ [""]) as ->.
  { induction Hp as [|n ns [Hn _] _ IH]; [done|]. simpl. by rewrite split_char_line, IH. }
  rewrite reverse_app. simpl. rewrite reverse_involutive.
  induction Hp as [|n ns [_ Hn] _ IH]; [done|]. simpl. by rewrite IH, chomp_free.
Qed.

(** ** The laws *)

Lemma sim_set_names w v : v ∈ sim_set w -> plain v.2 = true /\ v.2 <> "".
Proof.
  unfold sim_set. rewrite elem_of_filter. intros [Hc _]. unfold clean_lv, clean in Hc. apply Is_true_true in Hc.
  apply andb_true_iff in Hc as [_ Hc]. apply andb_true_iff in Hc as [Hne Hp].
  apply andb_true_iff in Hp as [Hp _]. split; [done|].
  apply negb_true_iff, String.eqb_neq in Hne. done.
Qed.
Lemma names_in_plain vg w : Forall (fun n => plain n = true) (names_in vg (sim_set w)).
Proof.
  apply Forall_forall. intros n (v & Hv & Hn)%list_elem_of_omap. destruct (_ =$ _); [|done]. simplify_eq.
  apply elem_of_elements, sim_set_names in Hv as [Hp _]. done.
Qed.
Lemma elem_of_names_in vg w n : n ∈ names_in vg (sim_set w) <-> (vg, n) ∈ sim_set w.
Proof.
  unfold names_in. rewrite list_elem_of_omap. setoid_rewrite elem_of_elements. split.
  - intros ([vg' n'] & Hv & Hn). simpl in Hn. destruct (vg' =$ vg) eqn:E; [|done].
    apply String.eqb_eq in E. by simplify_eq.
  - intros Hv. exists (vg, n). simpl. by rewrite String.eqb_refl.
Qed.

Lemma sim_put_add v w : clean v.1 && clean v.2 = true -> sim_set (sim_put ({[v]} ∪ sim_lvs w) w) = {[v]} ∪ sim_set w.
Proof.
  intros Hc. unfold sim_set. simpl. apply set_eq. intros u.
  rewrite elem_of_filter, !elem_of_union, elem_of_filter, elem_of_singleton. split; [naive_solver|].
  intros [->|?]; [|naive_solver]. split; [|by left]. unfold clean_lv. by rewrite Hc.
Qed.
Lemma sim_put_remove v w : sim_set (sim_put (sim_lvs w ∖ {[v]}) w) = sim_set w ∖ {[v]}.
Proof. unfold sim_set. simpl. set_solver. Qed.

Lemma sim_lvcreate_spec vg lv w w' o :
  sim_lvcreate vg lv w = (w', o) ->
  (sim_set w' = sim_set w \/ sim_set w' = {[(vg, lv)]} ∪ sim_set w) /\ (succeeded o -> (vg, lv) ∈ sim_set w').
Proof.
  unfold sim_lvcreate. destruct (clean vg && clean lv) eqn:Hc; intros [= <- <-].
  - rewrite sim_put_add by done. split; [by right|set_solver].
  - split; [by left|]. by intros (out & [= <-] & ?).
Qed.
Lemma refused_not : ~ succeeded refused.
Proof. by intros (out & [= <-] & ?). Qed.

(** Creation through a path with a group and a second name. *)
Lemma sim_lvcreate_path vg lv other w w' o :
  (if clean (sim_split (vg +:+ "/" +:+ other)).2 then sim_lvcreate (sim_split (vg +:+ "/" +:+ other)).1 lv w
   else (w, refused)) = (w', o) ->
  (sim_set w' = sim_set w \/ sim_set w' = {[(vg, lv)]} ∪ sim_set w) /\ (succeeded o -> (vg, lv) ∈ sim_set w').
Proof.
  destruct (clean _) eqn:Hc.
  - rewrite (sim_split_clean vg other Hc). apply sim_lvcreate_spec.
  - intros [= <- <-]. split; [by left|]. by intros ?%refused_not.
Qed.
Lemma sim_remove_path vg lv w w' o :
  sim_remove_cmd (lvremove_args vg lv) w = (w', o) ->
  (sim_set w' = sim_set w \/ sim_set w' = sim_set w ∖ {[(vg, lv)]}) /\ (succeeded o -> (vg, lv) ∉ sim_set w').
Proof.
  simpl. destruct (clean _ && clean _) eqn:Hc; intros [= <- <-].
  - apply andb_true_iff in Hc as [_ Hc]. rewrite (sim_split_clean vg lv Hc), sim_put_remove.
    split; [by right|set_solver].
  - split; [by left|]. by intros ?%refused_not.
Qed.

Lemma sim_attr vg lv w :
  sim_lvs_cmd (lvs_attr_args vg lv) w = if bool_decide ((vg, lv) ∈ sim_set w) then "-wi-a-----" else "".
Proof. unfold lvs_attr_args, sim_lvs_cmd. by rewrite strip_prefix_app. Qed.

Definition sim_line (tool : string) (args : list string) (w : SimWorld) : SimWorld :=
  sim_logged (join " " (tool :: args)) w.
Definition sim_broken (tool : string) (args : list string) (w : SimWorld) : bool :=
  bool_decide (join " " (tool :: args) ∈ sim_fails w).
Lemma sim_run_lvs args w : sim_run "lvs" args w =
  if sim_broken "lvs" args w then (sim_line "lvs" args w, refused)
  else (sim_line "lvs" args w, printed (sim_lvs_cmd args (sim_line "lvs" args w))).
Proof. done. Qed.
Lemma sim_run_lvcreate args w : sim_run "lvcreate" args w =
  if sim_broken "lvcreate" args w then (sim_line "lvcreate" args w, refused)
  else sim_create_cmd args (sim_line "lvcreate" args w).
Proof. done. Qed.
Lemma sim_run_lvremove args w : sim_run "lvremove" args w =
  if sim_broken "lvremove" args w then (sim_line "lvremove" args w, refused)
  else sim_remove_cmd args (sim_line "lvremove" args w).
Proof. done. Qed.
Lemma sim_names vg w n :
  n ∈ map trim (lines (sim_lvs_cmd (lvs_names_args vg) w)) <-> (vg, n) ∈ sim_set w.
Proof.
  unfold lvs_names_args, sim_lvs_cmd. rewrite lines_as_lines.
  2:{ eapply Forall_impl; [apply names_in_plain|]. apply plain_one_line. }
  rewrite <- elem_of_names_in.
  replace (map trim _) with (names_in vg (sim_set w)); [done|].
  induction (names_in_plain vg w) as [|m ns Hm _ IH]; [done|]. simpl. by rewrite <- IH, trim_plain.
Qed.

#[global] Instance sim_lvm : @LvmHost sim_host.
Proof.
  unshelve econstructor; [exact sim_set|..].
  - intros tool args w Hc Hr. simpl. unfold sim_run. destruct (bool_decide _); [done|].
    destruct (tool =$ "lvs"); [done|]. rewrite !(proj2 (String.eqb_neq _ _)) by done. done.
  - done.
  - done.
  - done.
  - done.
  - done.
  - done.
  - intros vg lv w w' out. cbn [run sim_host]. rewrite sim_run_lvs, sim_attr.
    destruct (sim_broken _ _ _); intros [= <- <-] Hok; [done|]. cbn [printed out_stdout].
    destruct (bool_decide _) eqn:E; [apply bool_decide_eq_true in E|apply bool_decide_eq_false in E]; done.
  - intros vg w w' out. cbn [run sim_host]. rewrite sim_run_lvs.
    destruct (sim_broken _ _ _); intros [= <- <-] Hok n Hn; [done|]. cbn [printed out_stdout].
    apply (sim_names vg (sim_line "lvs" (lvs_names_args vg) w)).
  - intros vg lv w w' o. cbn [run sim_host]. rewrite sim_run_lvremove. destruct (sim_broken _ _ _).
    + intros [= <- <-]. split; [by left|]. by intros ?%refused_not.
    + intros Hr. by apply sim_remove_path in Hr.
  - intros vg lv gib w w' o. cbn [run sim_host]. rewrite sim_run_lvcreate. destruct (sim_broken _ _ _).
    + intros [= <- <-]. split; [by left|]. by intros ?%refused_not.
    + intros Hr. by apply sim_lvcreate_spec in Hr.
  - intros vg lv origin w w' o. cbn [run sim_host]. rewrite sim_run_lvcreate. destruct (sim_broken _ _ _).
    + intros [= <- <-]. split; [by left|]. by intros ?%refused_not.
    + intros Hr. by apply sim_lvcreate_path in Hr.
  - intros vg pool lv gib w w' o. cbn [run sim_host]. rewrite sim_run_lvcreate. destruct (sim_broken _ _ _).
    + intros [= <- <-]. split; [by left|]. by intros ?%refused_not.
    + intros Hr. by apply sim_lvcreate_path in Hr.
Defined.
