(* ===== verification/AgentDemo.v ===== *)
(** * Runs of the agent on the simulated machine

    Instances of the registry, of the speaker and of the rest of [ipnet], one
    host with one data pool, a create command, and the theorems of the agent
    applied to runs on them. *)

From S2P Require Import Prelude Ipv4 Ipnet CidrNet Proto DbTypes Vms Ctl Agent Text HashName Host Lvm Gpu Net Dataplane Image HostVm Sweep AgentMain Triple Ledger Frames VmFacts AgentFacts SimHost.

(** The host addresses of a network: all of a /31 or /32, otherwise without
    the first and the last. *)
#[global] Instance cidr_hosts : IpnetHosts cidr_ipnet := {|
  net_hosts n :=
    let a := cidr_network n in
    let b := cidr_broadcast n in
    if 31 <=? cidr_len n then seqZ a (b - a + 1) else seqZ (a + 1) (b - a - 1);
|}.
#[global] Instance cidr_hosts_laws : IpnetHostsLaws cidr_hosts.
Proof.
  split. intros n a. simpl. unfold in_net. simpl.
  destruct (31 <=? cidr_len n); intros Ha%elem_of_seqZ; lia.
Qed.

(** A registry that is never reached: the image is in the cache. *)
#[global] Instance demo_oci : Oci := {|
  oci_registry _ := Some "registry";
  oci_manifest _ _ w := (w, None);
  oci_blob _ _ w := (w, None);
  sha256 _ := [];
  json_virtual_size t := if t =$ "" then None else Some (parse_u64 t);
|}.
#[global] Instance demo_oci_lvm : OciLvm.
Proof. by split. Qed.
#[global] Instance demo_speaker : Speaker := {|
  update_routes _ w := (w, true);
  speaker_start _ _ _ w := (w, true);
|}.
#[global] Instance demo_speaker_lvm : SpeakerLvm.
Proof. by split. Qed.

Definition demo_pool : PoolSpec := {|
  ps_name := "nvme"; ps_backend := LvmLinear; ps_labels := ∅;
  ps_devices := [{| pd_id := "nvme0"; pd_vg := Some "vg-data"; pd_size_gib := 100 |}] |}.
Definition demo_storage : Storage := {|
  st_rootfs := {| rs_vg := "vg-root"; rs_thin_pool := "thin" |};
  st_pools := [{| be_spec := demo_pool; be_device_vgs := [("nvme0", "vg-data")] |}] |}.
Definition demo_x : VmHandlerCtx := {|
  hx_vms_dir := "/vms";
  hx_image_mgr := {| ig_images_dir := "/images"; ig_auth := ∅; ig_iso_tool := "mkisofs" |};
  hx_storage := demo_storage;
  hx_net := {| cm_vtep_address := "10.9.0.1"; cm_uplink_mtu := 1500; cm_uplink_bridge := "br-lan" |};
  hx_open := true |}.
Definition demo_disk : CommandedDisk := {|
  cd_assignment_id := "as-1"; cd_min_size_gib := 10; cd_pool := "nvme"; cd_device_id := "nvme0";
  cd_disk_index := 0; cd_cluster_id := "c1"; cd_purpose := disk_purpose_num GenericData |}.
Definition demo_cmd : CreateVmCommand := {|
  cmd_vm_id := "vm-a"; cmd_name := "node"; cmd_cpu := 2; cmd_memory_mib := 1024; cmd_disk_gib := 20;
  cmd_image := "img"; cmd_bootstrap_data := []; cmd_ip_address := "10.0.0.5"; cmd_gateway := "10.0.0.1";
  cmd_prefix_len := 24; cmd_gpus := 0; cmd_gpu_constraints := None; cmd_dns_servers := [];
  cmd_gpu_pci_addresses := []; cmd_storage_disks := [demo_disk]; cmd_cluster_id := "c1"; cmd_vni := 7 |}.

(** The machine: the image is cached, the data group has 50 GiB free. *)
Definition demo_stem : string := path_join "/images" (image_ref_to_prefix "img").
Definition demo_world : SimWorld := {|
  sim_lvs := {[("vg-root", IMAGE_LV_PREFIX +:+ image_ref_to_prefix "img"); ("vg-root", "vm-other")]};
  sim_files := {[demo_stem +:+ ".qcow2"; demo_stem +:+ ".vmlinuz"; demo_stem +:+ ".initrd";
                 image_lv_path demo_storage (image_ref_to_prefix "img")]};
  sim_text := ∅;
  sim_stdout := {[
    "qemu-img info --output=json " +:+ demo_stem +:+ ".qcow2" := "10737418240";
    "vgs --noheadings --separator=| --units b --nosuffix -o vg_size,vg_free vg-data" :=
      "107374182400|53687091200" ]};
  sim_fails := ∅;
  sim_log := [] |}.
Definition demo_db : AgentDb := {| agent_state := ∅; local_vms := []; lvm_reservation := []; cached_images := [] |}.
Definition demo_s : Agt := {|
  at_world := demo_world : @World sim_host; at_db := demo_db; at_tracked := ∅; at_pending := ∅;
  at_host_id := "h1"; at_live := ∅; at_sent := [] |}.

Lemma demo_inv : on (storage_inv demo_storage) demo_s.
Proof.
  split; [|split].
  - split; [constructor..|]. intros r Hr. by apply elem_of_nil in Hr.
  - intros vg n Hin Hvg. apply elem_of_filter in Hin as [_ Hin].
    apply list_elem_of_singleton in Hvg as ->. set_solver.
  - intros r Hr. by apply elem_of_nil in Hr.
Qed.
Lemma demo_cmd_ok : cmd_ok demo_cmd.
Proof.
  split; simpl; [done|apply NoDup_singleton..|]. intros d ->%list_elem_of_singleton. by vm_compute.
Qed.
Lemma demo_agrees : agrees demo_storage demo_cmd (ledger demo_s).
Proof. intros r Hr. by apply elem_of_nil in Hr. Qed.

(** The host with the VM of the command on it. *)
Definition demo_row : LvmReservationRow := {|
  rv_assignment_id := "as-1"; rv_pool := "nvme"; rv_device_id := "nvme0"; rv_vg := "vg-data";
  rv_lv_name := "basis-data-vm-a-0"; rv_vm_id := "vm-a"; rv_disk_index := 0; rv_size_gib := 10;
  rv_state := "Ready" |}.
Definition demo_running : Agt := {|
  at_world := sim_put ({[("vg-root", "vm-vm-a"); ("vg-data", "basis-data-vm-a-0")]} ∪ sim_lvs demo_world) demo_world
    : @World sim_host;
  at_db := {| agent_state := ∅; local_vms := [local_row demo_cmd "t0"]; lvm_reservation := [demo_row];
              cached_images := [] |};
  at_tracked := {["vm-a" := {| tv_unit_name := unit_name_for_vm "vm-a"; tv_vm_dir := "/vms/vm-a" |}]};
  at_pending := ∅; at_host_id := "h1"; at_live := {[7 := live_default]}; at_sent := [] |}.

Lemma demo_running_inv : on (storage_inv demo_storage) demo_running.
Proof.
  split; [|split].
  - split; [apply NoDup_singleton..|]. intros r ->%list_elem_of_singleton. split_and!; [done|by vm_compute|done|].
    exists {| be_spec := demo_pool; be_device_vgs := [("nvme0", "vg-data")] |}. split_and!; [set_solver|done..].
  - intros vg n Hin Hvg _. apply elem_of_filter in Hin as [_ Hin].
    apply list_elem_of_singleton in Hvg as ->. exists demo_row. split; [set_solver|].
    simpl in Hin. set_solver.
  - intros r ->%list_elem_of_singleton _.
    apply (bool_decide_unpack (row_key demo_row ∈ volumes demo_running)). vm_compute. exact Logic.I.
Qed.
Lemma demo_known : known_locally "vm-a" demo_running.
Proof. exists (local_row demo_cmd "t0"). split; [set_solver|done]. Qed.

Lemma create_vm_sound_witness : created demo_x demo_cmd (fst (create_vm demo_x demo_cmd "now" demo_s)).
Proof.
  pose proof (create_vm_sound demo_x demo_cmd "now" (volumes demo_s) demo_cmd_ok ltac:(done) ltac:(done) demo_s
    (conj demo_inv (conj demo_agrees eq_refl))) as Hc.
  assert (is_ok (snd (create_vm demo_x demo_cmd "now" demo_s)) = true) as Hok by (vm_compute; reflexivity).
  destruct (create_vm demo_x demo_cmd "now" demo_s) as [s [a|e]]; [exact (proj2 Hc)|discriminate].
Defined.

Lemma replayed_create_tears_down_witness :
  torn_down demo_storage "vm-a" (fst (create_vm demo_x demo_cmd "later" demo_running)).
Proof.
  pose proof (replayed_create_tears_down demo_x demo_cmd "later" demo_running demo_known demo_running_inv) as Hr.
  assert (local_table (fst (create_vm demo_x demo_cmd "later" demo_running)) = []) as Hl by (vm_compute; reflexivity).
  destruct (create_vm demo_x demo_cmd "later" demo_running) as [s [a|e]]; [done|].
  destruct Hr as [_ [Ht|Ht]]; [exact Ht|]. cbn [fst] in Hl. rewrite Ht in Hl. discriminate Hl.
Defined.

Lemma periodic_sweep_spares_known_witness :
  let s' := fst (periodic_sweep demo_x demo_running) in
  ("vg-root", "vm-vm-a") ∈ volumes s' /\ ("vg-root", "vm-other") ∉ volumes s'.
Proof.
  split.
  - apply (proj2 (proj2 (periodic_sweep_spares_known demo_x demo_running demo_running_inv)) "vm-a").
    + apply (bool_decide_unpack ("vm-a" ∈ known_ids demo_running ∪ live_vm_ids demo_running)). vm_compute. exact Logic.I.
    + apply (bool_decide_unpack (rootfs_lv demo_storage "vm-a" ∈ volumes demo_running)). vm_compute. exact Logic.I.
  - apply (bool_decide_unpack (("vg-root", "vm-other") ∉ volumes (fst (periodic_sweep demo_x demo_running)))).
    vm_compute. exact Logic.I.
Defined.

Definition demo_reconcile : ReconcileHostCommand := {|
  rc_clusters := []; rc_cluster_tombstones := [{| ct_vni := 7; ct_cluster_id := "c1"; ct_cidr := "10.0.0.0/24" |}];
  rc_vm_tombstones := ["vm-a"; "vm-a"] |}.
