(* ===== verification/RunDemo.v ===== *)
(** * A run of the agent process on the simulated machine

    The host boots, registers, is given a VM and a new controller endpoint;
    the invariants of [AgentRun] hold of this run. *)

From S2P Require Import Prelude Ipv4 Ipnet CidrNet Proto Config Overcommit DbTypes Hosts Vms Scheduler Ctl Agent Text HashName Host Lvm Resources Nvlink Capacity Gpu Net Dataplane Image HostVm Sweep AgentMain AgentStart Triple Ledger Frames VmFacts AgentFacts AgentRun SimHost AgentDemo.

(** The configuration, with the endpoint it names. *)
Definition boot_host (endpoint : string) : ResourceOf HostSpec := {|
  res_api_version := RESOURCE_API_VERSION; res_kind := HOST_KIND; res_name := "node1";
  res_spec := {|
    hsp_controller_endpoint := endpoint; hsp_data_dir := "/";
    hsp_network := {| nsp_bridge := "br-lan"; nsp_physical_nic := "eno1" |};
    hsp_storage := {| ss_rootfs := st_rootfs demo_storage; ss_pools := [demo_pool] |};
    hsp_tls := {| tls_cert := "c"; tls_key := "k"; tls_ca := "a" |}; hsp_registries := [];
    hsp_metrics_listen := ""; hsp_gobgpd_endpoint := ""; hsp_rank := 0; hsp_labels := ∅ |} |}.
(** Files whose text is the endpoint. *)
#[local] Instance boot_yaml : ConfigYaml HostSpec ControllerSpec := {|
  CValue := HostSpec;
  envelope_of_yaml t := Some (boot_host t);
  host_spec_of_yaml := Some;
  controller_spec_of_yaml _ := None |}.

Definition boot_world : SimWorld := {|
  sim_lvs := sim_lvs demo_world; sim_files := {["/sys/kernel/iommu_groups"]} ∪ sim_files demo_world;
  sim_text := {["/sys/class/net/br-lan/mtu" := "1500"; "/sys/kernel/iommu_groups" := "0"]};
  sim_stdout := {[
    "ip -o -4 addr show dev br-lan" := "3: br-lan inet 10.9.0.1/24 brd 10.9.0.255 scope global br-lan";
    "ip -o link show master br-lan" := "2: eno1: <BROADCAST> mtu 1500 master br-lan";
    "vgs --noheadings -o vg_name vg-root" := "vg-root";
    "vgs --noheadings -o vg_name vg-data" := "vg-data";
    "vgs --noheadings --separator=| -o pv_name vg-data" := "/dev/nvme0n1";
    "lvs --noheadings --separator=| -o lv_name,lv_attr vg-root/thin" := "thin|twi-aotz--";
    "lvs --noheadings --separator=| --units b --nosuffix -o lv_size,data_percent,lv_metadata_size,metadata_percent vg-root/thin" :=
      "107374182400|25.00|1073741824|1.50" ]} ∪ sim_stdout demo_world;
  sim_fails := ∅; sim_log := [] |}.
Definition boot_s : Agt := {|
  at_world := boot_world : @World sim_host; at_db := demo_db; at_tracked := ∅; at_pending := ∅;
  at_host_id := ""; at_live := ∅; at_sent := [] |}.

Definition boot : Agt * result AgentError AgentRuntime :=
  initialize_runtime (H:=sim_host) (Some 16) (boot_host "https://old:7443") boot_s.
Definition down_rt : AgentRuntime := {|
  art_session := {| sx_vm := demo_x; sx_hostname := ""; sx_total_cpu := 0; sx_total_memory_mib := 0; sx_gpus := [];
                    sx_vtep_address := ""; sx_rank := 0; sx_labels := ∅ |};
  art_spec := res_spec (boot_host ""); art_capacity := {| hs_rootfs := {| rb_total := 0; rb_free := 0;
    rb_metadata_total := 0; rb_metadata_free := 0 |}; hs_pools := [] |};
  art_token := 0; art_cancelled := ∅; art_bgp := false |}.
Definition boot_rt : AgentRuntime := match snd boot with Ok rt => rt | Err _ => down_rt end.

Lemma boot_capacity : hs_rootfs (art_capacity boot_rt) =
  {| rb_total := 107374182400; rb_free := 80530636800; rb_metadata_total := 1073741824; rb_metadata_free := 1057635697 |}.
Proof. vm_compute. reflexivity. Qed.

(** ** The run *)

Definition boot_ack : ControllerCommand := RegisterAck {|
  rr_host_id := "h1"; rr_initial_state := {| rc_clusters := []; rc_cluster_tombstones := []; rc_vm_tombstones := [] |};
  rr_bgp_asn := 64512; rr_bgp_reflector_address := "10.0.0.1" |}.
Definition run_setup : Agt * result AgentError bool := session_setup boot_rt (Some boot_ack) (fst boot).
Definition run_rt : AgentRuntime := set_bgp true boot_rt.
Definition run_create : Agt :=
  fst (process_command (vm_ctx true run_rt) (art_bgp run_rt) "now" (fun _ => "") (CreateVm "r1" demo_cmd) (fst run_setup)).
Definition new_rt : AgentRuntime := reconnect_to "https://new:7443" run_rt.

Lemma boot_ok :
  initialize_runtime (H:=sim_host) (Some 16) (boot_host "https://old:7443") boot_s = (fst boot, Ok boot_rt).
Proof.
  assert (is_ok (snd boot) = true) as Hb by (vm_compute; reflexivity). unfold boot_rt, boot in *.
  destruct (initialize_runtime _ _ boot_s) as [s [rt|e]]; [reflexivity|discriminate Hb].
Qed.
Lemma setup_ok : session_setup boot_rt (Some boot_ack) (fst boot) = (fst run_setup, Ok true).
Proof.
  assert (snd run_setup = Ok true) as Hs by (vm_compute; reflexivity). unfold run_setup in *.
  destruct (session_setup _ _ _) as [s r]. cbn [fst snd] in *. by rewrite Hs.
Qed.

Abbreviation step := (agent_step demo_storage (fun _ => "")).
Definition old_session : Session := InSession 0 "https://old:7443".

Lemma boot_step : step (proc down_rt boot_s Down) (proc boot_rt (fst boot) Between).
Proof.
  exact (step_start _ _ down_rt boot_s (Some 16) (boot_host "https://old:7443") (fst boot) boot_rt eq_refl boot_ok).
Qed.
Lemma dial_steps : rtc step (proc boot_rt (fst boot) Between) (proc boot_rt (fst boot) (Dialled 0 "https://old:7443")).
Proof.
  assert (art_token boot_rt = 0%nat) as Ht by (vm_compute; reflexivity).
  assert (hsp_controller_endpoint (art_spec boot_rt) = "https://old:7443") as He by (vm_compute; reflexivity).
  pose proof (step_loop demo_storage (fun _ => "") boot_rt (fst boot)) as H1.
  pose proof (step_dial demo_storage (fun _ => "") boot_rt (fst boot) 0) as H2.
  rewrite Ht in H1. rewrite He in H2. exact (rtc_l _ _ _ _ H1 (rtc_once _ _ H2)).
Qed.
Lemma setup_step :
  step (proc boot_rt (fst boot) (Dialled 0 "https://old:7443")) (proc run_rt (fst run_setup) old_session).
Proof. exact (step_setup _ _ boot_rt (fst boot) 0 _ (Some boot_ack) (fst run_setup) true setup_ok). Qed.
Lemma command_step : step (proc run_rt (fst run_setup) old_session) (proc run_rt run_create old_session).
Proof.
  refine (step_command _ _ run_rt (fst run_setup) old_session true "now" (CreateVm "r1" demo_cmd) _ _); [discriminate|].
  split; [exact demo_cmd_ok|]. assert (ledger (fst run_setup) = []) as -> by (vm_compute; reflexivity).
  intros r Hr. exfalso. exact (not_elem_of_nil r Hr).
Qed.
Lemma reload_step : step (proc run_rt run_create old_session) (proc new_rt run_create old_session).
Proof.
  refine (step_reload _ _ run_rt run_create old_session (fun _ => Some "https://new:7443") "host.yaml" new_rt _ _);
    [discriminate|]. vm_compute. reflexivity.
Qed.
Lemma run_steps : rtc step (proc down_rt boot_s Down) (proc new_rt run_create old_session).
Proof.
  refine (rtc_l _ _ _ _ boot_step _). etransitivity; [exact dial_steps|].
  exact (rtc_l _ _ _ _ setup_step (rtc_l _ _ _ _ command_step (rtc_once _ _ reload_step))).
Qed.

Lemma session_follows_reload_witness :
  0%nat ∈ art_cancelled new_rt /\ art_token new_rt ∉ art_cancelled new_rt.
Proof.
  destruct (session_follows_reload demo_storage (fun _ => "") (proc down_rt boot_s Down)
    (proc new_rt run_create old_session) eq_refl run_steps) as [[H|H] Ht]; [|by split].
  simpl in H. discriminate H.
Defined.

Lemma boot_inv : on (storage_inv demo_storage) boot_s.
Proof.
  pose proof demo_inv as Hd. unfold on in *.
  assert (ledger boot_s = ledger demo_s) as -> by reflexivity.
  assert (volumes boot_s = volumes demo_s) as -> by reflexivity. exact Hd.
Qed.

Lemma run_ledger : map row_key (ledger run_create) = [("vg-data", "basis-data-vm-a-0")].
Proof. vm_compute. reflexivity. Qed.

