(* ===== verification/AgentMetrics.v ===== *)
(** * The agent's metrics (crates/basis-agent/src/metrics.rs)

    The families the agent registers, the storage gauges of a capacity scan
    and the per-VM gauges its poller reads from the local database and from
    systemd every five seconds; the series after a pass, and the agreement of
    the storage gauges with what the heartbeat carries. *)

From Stdlib Require Import Ascii.
From S2P Require Import Prelude Ipv4 Ipnet Proto Overcommit DbTypes Hosts Text HashName Triple Gauges Host Lvm Image HostVm AgentMain SimHost.

Inductive AgentFamily :=
  | image_ensure_cached_seconds | lv_snapshot_seconds | data_disk_create_seconds
  | cloud_init_iso_seconds | tap_create_seconds | vfio_bind_seconds | vm_spawn_seconds
  | lv_permit_wait_seconds | orphan_sweep_reclaimed_total
  | vm_info | vm_running | vm_cpu_seconds | vm_memory_bytes | vm_memory_limit_bytes
  | vm_cpu_quota | vm_rootfs_gib | vm_data_gib
  | pool_capacity_bytes | device_capacity_bytes | device_physical_state.

Definition agent_family_name (f : AgentFamily) : string :=
  match f with
  | image_ensure_cached_seconds => "basis_agent_image_ensure_cached_seconds"
  | lv_snapshot_seconds => "basis_agent_lv_snapshot_seconds"
  | data_disk_create_seconds => "basis_agent_data_disk_create_seconds"
  | cloud_init_iso_seconds => "basis_agent_cloud_init_iso_seconds"
  | tap_create_seconds => "basis_agent_tap_create_seconds"
  | vfio_bind_seconds => "basis_agent_vfio_bind_seconds"
  | vm_spawn_seconds => "basis_agent_vm_spawn_seconds"
  | lv_permit_wait_seconds => "basis_agent_lv_permit_wait_seconds"
  | orphan_sweep_reclaimed_total => "basis_agent_orphan_sweep_reclaimed_total"
  | vm_info => "basis_agent_vm_info"
  | vm_running => "basis_agent_vm_running"
  | vm_cpu_seconds => "basis_agent_vm_cpu_seconds"
  | vm_memory_bytes => "basis_agent_vm_memory_bytes"
  | vm_memory_limit_bytes => "basis_agent_vm_memory_limit_bytes"
  | vm_cpu_quota => "basis_agent_vm_cpu_quota"
  | vm_rootfs_gib => "basis_agent_vm_rootfs_gib"
  | vm_data_gib => "basis_agent_vm_data_gib"
  | pool_capacity_bytes => "basis_agent_pool_capacity_bytes"
  | device_capacity_bytes => "basis_agent_device_capacity_bytes"
  | device_physical_state => "basis_agent_device_physical_state"
  end.

Definition agent_family_labels (f : AgentFamily) : list string :=
  match f with
  | image_ensure_cached_seconds | lv_snapshot_seconds | data_disk_create_seconds
  | cloud_init_iso_seconds | tap_create_seconds | vfio_bind_seconds | vm_spawn_seconds
  | lv_permit_wait_seconds => []
  | orphan_sweep_reclaimed_total => ["kind"]
  | vm_info => ["vm_id"; "name"; "ip"; "image"]
  | vm_running | vm_cpu_seconds | vm_memory_bytes | vm_memory_limit_bytes
  | vm_cpu_quota | vm_rootfs_gib | vm_data_gib => ["vm_id"]
  | pool_capacity_bytes => ["pool"; "backend"; "layer"]
  | device_capacity_bytes => ["pool"; "device"; "kind"]
  | device_physical_state => ["pool"; "device"; "physical"]
  end.

#[global] Instance agent_family_dec : EqDecision AgentFamily.
Proof. solve_decision. Defined.
#[global] Instance agent_families : Families AgentFamily := {|
  family_eq_dec := agent_family_dec; family_name := agent_family_name; family_labels := agent_family_labels |}.

(** [Metrics::new]: the order of registration. *)
Definition agent_registration : list AgentFamily := [
  image_ensure_cached_seconds; lv_snapshot_seconds; data_disk_create_seconds; cloud_init_iso_seconds;
  tap_create_seconds; vfio_bind_seconds; vm_spawn_seconds; lv_permit_wait_seconds;
  orphan_sweep_reclaimed_total; vm_info; vm_running; vm_cpu_seconds; vm_memory_bytes;
  vm_memory_limit_bytes; vm_cpu_quota; vm_rootfs_gib; vm_data_gib; pool_capacity_bytes;
  device_capacity_bytes; device_physical_state].
Definition agent_metrics_new : result (MetricsError Empty_set) (Series AgentFamily) :=
  match se_for agent_registration register [] with (_, Err e) => Err e | (_, Ok _) => Ok (fun _ => ∅) end.

(** The labels of the two enumerations. *)
Definition health_as_str (h : DeviceHealth) : string := device_health_as_db_str (health_as_proto h).
#[global] Instance device_health_dec : EqDecision DeviceHealth.
Proof. solve_decision. Defined.

(** ** The storage gauges *)

Definition storage_device_writes (pool : string) (d : PoolDevice) : Writes AgentFamily :=
  [(device_capacity_bytes, [pool; dv_id d; "total"], IntValue (as_i64 (as_u64 (dv_total_gib d * GIB))));
   (device_capacity_bytes, [pool; dv_id d; "free"], IntValue (as_i64 (as_u64 (dv_free_gib d * GIB))))] ++
  map (fun state => (device_physical_state, [pool; dv_id d; health_as_str state],
                     IntValue (if decide (dv_physical d = state) then 1 else 0)))
    [HealthReady; HealthDegraded; HealthMissing].
Definition storage_pool_writes (p : HostPoolCapacity) : Writes AgentFamily :=
  map (fun '(layer, v) => (pool_capacity_bytes, [hc_pool p; pool_backend_as_str (hc_backend p); layer],
                           IntValue (as_i64 v)))
    [("configured", hc_configured_total_bytes p); ("ready", hc_ready_total_bytes p);
     ("schedulable_total", hc_schedulable_total_bytes p); ("schedulable_free", hc_schedulable_free_bytes p)] ++
  concat (map (storage_device_writes (hc_pool p)) (hc_devices p)).

(** [refresh_storage_gauges]. *)
Definition refresh_storage_gauges (c : HostStorageCapacity)
    : SE (Series AgentFamily) (MetricsError Empty_set) unit :=
  run! se_modify (reset [pool_capacity_bytes; device_capacity_bytes; device_physical_state]) ;
  se_for (hs_pools c) (fun p => publish (storage_pool_writes p)).

(** ** The VM gauges *)

Record UnitStats := { us_running : bool; us_cpu_nsec : option Z; us_memory_current : option Z }.

(** One line of [systemctl show]. *)
Definition unit_stats_line (stats : UnitStats) (line : string) : UnitStats :=
  match split_once "="%char line with
  | None => stats
  | Some (key, val) =>
      if key =$ "SubState" then
        {| us_running := trim val =$ "running"; us_cpu_nsec := us_cpu_nsec stats; us_memory_current := us_memory_current stats |}
      else if key =$ "CPUUsageNSec" then
        {| us_running := us_running stats; us_cpu_nsec := parse_u64 (trim val); us_memory_current := us_memory_current stats |}
      else if key =$ "MemoryCurrent" then
        {| us_running := us_running stats; us_cpu_nsec := us_cpu_nsec stats; us_memory_current := parse_u64 (trim val) |}
      else stats
  end.
Definition no_stats : UnitStats := {| us_running := false; us_cpu_nsec := None; us_memory_current := None |}.

Section vm_gauges.
Context `{H : Host} `{J : AgentJson}.

(** The agent and its series. *)
Record Metered := { mt_agent : Agt; mt_series : Series AgentFamily }.
Definition set_mt_series f (s : Metered) : Metered := {| mt_agent := mt_agent s; mt_series := f (mt_series s) |}.
Abbreviation MeterM A := (SE Metered (MetricsError Empty_set) A).

Definition on_gauges {A} (m : SE (Series AgentFamily) (MetricsError Empty_set) A) : MeterM A :=
  fun s => let '(g, r) := m (mt_series s) in (set_mt_series (fun _ => g) s, r).
Definition on_world {A} (f : World -> World * A) : MeterM A :=
  fun s => let '(w, a) := f (at_world (mt_agent s)) in
           ({| mt_agent := set_world (fun _ => w) (mt_agent s); mt_series := mt_series s |}, Ok a).

(** [read_unit_stats]. *)
Definition stats_of (o : option Output) : UnitStats :=
  match o with
  | Some out => if out_ok out then foldl unit_stats_line no_stats (lines (out_stdout out)) else no_stats
  | None => no_stats
  end.
Definition show_args (unit : string) : list string :=
  ["show"; "--property=SubState"; "--property=CPUUsageNSec"; "--property=MemoryCurrent"; unit].
Definition read_unit_stats (unit : string) : MeterM UnitStats :=
  do! o <- on_world (run "systemctl" (show_args unit)) ; se_ret (stats_of o).

(** What is known without asking systemd. *)
Definition vm_static_writes (vm : LocalVmRow) : Writes AgentFamily :=
  let id := lr_vm_id vm in
  let data_gib := match local_disks_of_json (lr_storage_disks vm) with
                  | Some disks => as_i64 (sum_of (fun d => as_i64 (ls_size_gib d)) disks)
                  | None => 0
                  end in
  [(vm_info, [id; lr_name vm; lr_ip_address vm; lr_image vm], IntValue 1);
   (vm_cpu_quota, [id], IntValue (lr_cpu vm));
   (vm_rootfs_gib, [id], IntValue (lr_disk_gib vm));
   (vm_data_gib, [id], IntValue data_gib);
   (vm_memory_limit_bytes, [id], IntValue (as_i64 (lr_memory_mib vm * 1024 * 1024)))].
Definition vm_stats_writes (id : string) (stats : UnitStats) : Writes AgentFamily :=
  [(vm_running, [id], IntValue (if us_running stats then 1 else 0))] ++
  match us_cpu_nsec stats with
  | Some ns => [(vm_cpu_seconds, [id], FloatValue (f64_div (f64_of_int ns) (f64_of_int 1000000000)))]
  | None => []
  end ++
  match us_memory_current stats with
  | Some b => [(vm_memory_bytes, [id], IntValue (as_i64 b))]
  | None => []
  end.
Definition vm_gauges (vm : LocalVmRow) : MeterM unit :=
  run! on_gauges (publish (vm_static_writes vm)) ;
  do! pending <- se_gets (fun s => is_pending (lr_vm_id vm) (mt_agent s)) ;
  if pending : bool then on_gauges (publish [(vm_running, [lr_vm_id vm], IntValue 0)])
  else
    do! stats <- read_unit_stats (unit_name_for_vm (lr_vm_id vm)) ;
    on_gauges (publish (vm_stats_writes (lr_vm_id vm) stats)).

Definition vm_families : list AgentFamily :=
  [vm_info; vm_running; vm_cpu_seconds; vm_memory_bytes; vm_memory_limit_bytes; vm_cpu_quota; vm_rootfs_gib; vm_data_gib].

(** [refresh_vm_gauges]. *)
Definition refresh_vm_gauges : MeterM unit :=
  do! vms <- se_gets (fun s => local_vms (at_db (mt_agent s))) ;
  run! se_modify (set_mt_series (reset vm_families)) ;
  se_for vms vm_gauges.
End vm_gauges.

(** ** The storage gauges and the heartbeat *)

Lemma storage_pool_fits p : Forall labels_fit (storage_pool_writes p).
Proof.
  unfold storage_pool_writes. apply Forall_app. split; [repeat constructor|].
  apply Forall_concat, Forall_fmap, Forall_forall. intros d _. repeat constructor.
Qed.
Lemma refresh_storage_run c g :
  refresh_storage_gauges c g =
    (written (concat (map storage_pool_writes (hs_pools c)))
       (reset [pool_capacity_bytes; device_capacity_bytes; device_physical_state] g), Ok tt).
Proof.
  unfold refresh_storage_gauges, se_bind at 1, se_modify. set (g0 := reset _ g). clearbody g0. revert g0.
  induction (hs_pools c) as [|p ps IH]; intros g0; [done|]. cbn [map concat se_for]. unfold se_bind.
  rewrite publish_run by apply storage_pool_fits. by rewrite IH, written_app.
Qed.

Lemma storage_pool_head p w : w ∈ storage_pool_writes p -> head (snd (fst w)) = Some (hc_pool p).
Proof.
  unfold storage_pool_writes. intros [Hw|Hw]%elem_of_app.
  - simpl in Hw. set_solver.
  - apply list_elem_of_In, in_concat in Hw as (l & (d & <- & _)%in_map_iff & Hw).
    simpl in Hw. naive_solver.
Qed.

(** What is written for a pool is what a lookup finds. *)
Lemma storage_lookup c g p w :
  NoDup (map hc_pool (hs_pools c)) -> p ∈ hs_pools c -> w ∈ storage_pool_writes p ->
  (forall v, (fst w, v) ∈ storage_pool_writes p -> v = snd w) ->
  written (concat (map storage_pool_writes (hs_pools c))) g (fst (fst w)) !! snd (fst w) = Some (snd w).
Proof.
  intros Hnd Hp Hw Hu. destruct w as [[f ls] v].
  destruct (rounds_own (fun p ws => ws = storage_pool_writes p) hc_pool (hs_pools c) (map storage_pool_writes (hs_pools c)))
    with (x := p) as (ws & -> & Hown); [|done| |done|].
  { intros x ws w -> Hin. by apply storage_pool_head. }
  { clear. induction (hs_pools c); constructor; auto. }
  pose proof (storage_pool_head _ _ Hw) as Hh. simpl in *. apply written_at.
  - by apply Hown.
  - intros v' Hv'. apply Hu. by apply Hown.
Qed.

Lemma device_write_in p d w : d ∈ hc_devices p -> w ∈ storage_device_writes (hc_pool p) d -> w ∈ storage_pool_writes p.
Proof.
  intros Hd Hw. unfold storage_pool_writes. apply elem_of_app. right.
  apply list_elem_of_In, in_concat. exists (storage_device_writes (hc_pool p) d).
  split; [by apply in_map, list_elem_of_In|by apply list_elem_of_In].
Qed.
Lemma device_write_inv p d f l v :
  NoDup (map dv_id (hc_devices p)) -> d ∈ hc_devices p -> f <> pool_capacity_bytes ->
  (f, [hc_pool p; dv_id d; l], v) ∈ storage_pool_writes p -> (f, [hc_pool p; dv_id d; l], v) ∈ storage_device_writes (hc_pool p) d.
Proof.
  intros Hnd Hd Hf. unfold storage_pool_writes. intros [Hw|Hw]%elem_of_app; [simpl in Hw; set_solver|].
  apply list_elem_of_In, in_concat in Hw as (ws & (d' & <- & Hd')%in_map_iff & Hw).
  assert (dv_id d' = dv_id d) as Hid by (simpl in Hw; naive_solver).
  apply list_elem_of_In. apply list_elem_of_In in Hd'.
  by rewrite (NoDup_map_inj dv_id _ _ _ Hnd Hd' Hd Hid) in Hw.
Qed.

(** C34: the agent's storage gauges and its heartbeat agree. From one
    capacity scan, with distinct pool names and distinct device ids in a
    pool, the refresh sets no gauge under a wrong number of labels, and for
    every pool and device of the message the heartbeat carries, each layer of
    the pool's capacity, the device's total and free bytes are published as
    in the message (as [i64]), and the physical state of the device is 1
    under the name of the state in the message and 0 under the others. *)
Theorem storage_gauges_match_heartbeat c g :
  NoDup (map hc_pool (hs_pools c)) -> (forall p, p ∈ hs_pools c -> NoDup (map dv_id (hc_devices p))) ->
  exists g', refresh_storage_gauges c g = (g', Ok tt) /\
  forall pool, pool ∈ sc_pools (storage_capacity_to_proto c) ->
    (forall layer n, (layer, n) ∈ [("configured", pcap_configured_total_bytes pool); ("ready", pcap_ready_total_bytes pool);
         ("schedulable_total", pcap_schedulable_total_bytes pool); ("schedulable_free", pcap_schedulable_free_bytes pool)] ->
       g' pool_capacity_bytes !! [pcap_pool pool; pcap_backend pool; layer] = Some (IntValue (as_i64 n))) /\
    (forall d, d ∈ pcap_devices pool ->
       g' device_capacity_bytes !! [pcap_pool pool; dc_device_id d; "total"] = Some (IntValue (as_i64 (dc_total_bytes d))) /\
       g' device_capacity_bytes !! [pcap_pool pool; dc_device_id d; "free"] = Some (IntValue (as_i64 (dc_free_bytes d))) /\
       forall h, h <> DeviceHealthUnspecified ->
         g' device_physical_state !! [pcap_pool pool; dc_device_id d; device_health_as_db_str h] =
           Some (IntValue (if device_health_num h =? dc_physical d then 1 else 0))).
Proof.
  intros Hnd Hdev. eexists. split; [apply refresh_storage_run|].
  intros pool (p & -> & Hp)%list_elem_of_fmap. specialize (Hdev p Hp).
  pose proof (fun w => storage_lookup c (reset [pool_capacity_bytes; device_capacity_bytes; device_physical_state] g) p w Hnd Hp) as Hl.
  split.
  - intros layer n Hin. cbn [pool_capacity_to_proto pcap_pool pcap_backend pcap_configured_total_bytes pcap_ready_total_bytes
      pcap_schedulable_total_bytes pcap_schedulable_free_bytes] in *.
    apply (Hl (pool_capacity_bytes, [hc_pool p; pool_backend_as_str (hc_backend p); layer], IntValue (as_i64 n))).
    + unfold storage_pool_writes. apply elem_of_app. left. simpl. set_solver.
    + intros v [Hw|Hw]%elem_of_app.
      * simpl in Hw, Hin. set_solver.
      * apply list_elem_of_In, in_concat in Hw as (l & (d & <- & _)%in_map_iff & Hw). simpl in Hw. naive_solver.
  - intros ? (d & -> & Hd)%list_elem_of_fmap. cbn [dc_device_id dc_total_bytes dc_free_bytes dc_physical pool_capacity_to_proto pcap_pool].
    assert (forall f l v, f <> pool_capacity_bytes ->
      (f, [hc_pool p; dv_id d; l], v) ∈ storage_device_writes (hc_pool p) d ->
      (forall v', (f, [hc_pool p; dv_id d; l], v') ∈ storage_device_writes (hc_pool p) d -> v' = v) ->
      written (concat (map storage_pool_writes (hs_pools c)))
        (reset [pool_capacity_bytes; device_capacity_bytes; device_physical_state] g) f !! [hc_pool p; dv_id d; l] = Some v) as Hd'.
    { intros f l v Hf Hw Hu. apply (Hl (f, [hc_pool p; dv_id d; l], v)); [by eapply device_write_in|].
      intros v' Hv'. apply Hu. by apply device_write_inv. }
    split_and!; [apply Hd'; [done|simpl; set_solver|simpl; set_solver]..|].
    intros h Hh. apply Hd'; [done| |];
      destruct (dv_physical d) eqn:E, h; unfold storage_device_writes; rewrite ?E; simpl; set_solver.
Qed.

(** ** A pass over the VMs *)

Section vm_pass.
Context `{H : Host} `{J : AgentJson}.

(** The worlds of a pass: all it does is ask systemd for units. *)
Definition shown (w w' : World) : Prop := exists unit, w' = fst (run "systemctl" (show_args unit) w).
(** The answer for a VM at a moment of a pass that began in [w0]. *)
Definition asked (w0 : World) (vm : LocalVmRow) (stats : UnitStats) : Prop :=
  exists w, rtc shown w0 w /\ stats = stats_of (snd (run "systemctl" (show_args (unit_name_for_vm (lr_vm_id vm))) w)).
(** What the poller writes of a VM that is being created, and of another. *)
Definition vm_round (w0 : World) (pending : gset string) (vm : LocalVmRow) (ws : Writes AgentFamily) : Prop :=
  if bool_decide (lr_vm_id vm ∈ pending)
  then ws = vm_static_writes vm ++ [(vm_running, [lr_vm_id vm], IntValue 0)]
  else exists stats, asked w0 vm stats /\ ws = vm_static_writes vm ++ vm_stats_writes (lr_vm_id vm) stats.

Lemma vm_stats_fits id stats : Forall labels_fit (vm_stats_writes id stats).
Proof. unfold vm_stats_writes. destruct (us_cpu_nsec stats), (us_memory_current stats); repeat constructor. Qed.

Lemma vm_gauges_run w0 vm s : rtc shown w0 (at_world (mt_agent s)) -> exists w ws, rtc shown w0 w /\
  vm_gauges vm s = ({| mt_agent := set_world (fun _ => w) (mt_agent s); mt_series := written ws (mt_series s) |}, Ok tt) /\
  vm_round w0 (at_pending (mt_agent s)) vm ws.
Proof.
  destruct s as [a g]. cbn [mt_agent]. intros Hw. unfold vm_gauges, se_bind at 1, on_gauges at 1. cbn [mt_series mt_agent].
  rewrite publish_run by repeat constructor. unfold se_bind at 1, se_gets, set_mt_series. cbn [mt_agent mt_series].
  unfold vm_round, is_pending. case_bool_decide as Hp.
  - exists (at_world a). eexists. split; [done|]. split; [|done]. unfold on_gauges. cbn [mt_series].
    rewrite publish_run by repeat constructor. rewrite written_app. unfold set_mt_series. cbn [mt_agent]. by destruct a.
  - unfold se_bind at 1, read_unit_stats, se_bind at 1, on_world. cbn [mt_agent set_mt_series mt_series].
    destruct (run "systemctl" (show_args (unit_name_for_vm (lr_vm_id vm))) (at_world a)) as [w o] eqn:E.
    exists w, (vm_static_writes vm ++ vm_stats_writes (lr_vm_id vm) (stats_of o)).
    split; [refine (rtc_r _ _ _ Hw _); exists (unit_name_for_vm (lr_vm_id vm)); by rewrite E|].
    split; [|exists (stats_of o); split; [exists (at_world a); by rewrite E|done]].
    unfold on_gauges, se_ret. cbv beta iota. cbn [mt_series]. rewrite publish_run by apply vm_stats_fits. by rewrite written_app.
Qed.

Lemma vm_gauges_loop w0 vms : forall s, rtc shown w0 (at_world (mt_agent s)) -> exists w wss, rtc shown w0 w /\
  se_for vms vm_gauges s =
    ({| mt_agent := set_world (fun _ => w) (mt_agent s); mt_series := written (concat wss) (mt_series s) |}, Ok tt) /\
  Forall2 (vm_round w0 (at_pending (mt_agent s))) vms wss.
Proof.
  induction vms as [|vm vms IH]; intros s Hs.
  { exists (at_world (mt_agent s)), []. split; [done|]. split; [|constructor]. destruct s as [[] g]. done. }
  destruct (vm_gauges_run w0 vm s Hs) as (w & ws & Hw & E & Hr). cbn [se_for]. unfold se_bind. rewrite E.
  set (s1 := {| mt_agent := _; mt_series := _ |}). destruct (IH s1 Hw) as (w' & wss & Hw' & E' & HF). rewrite E'.
  exists w', (ws :: wss). split; [done|]. split; [by cbn [concat mt_series mt_agent s1]; rewrite written_app|by constructor].
Qed.

Lemma vm_round_head w0 P vm ws w : vm_round w0 P vm ws -> w ∈ ws -> head (snd (fst w)) = Some (lr_vm_id vm).
Proof.
  unfold vm_round. case_bool_decide.
  - intros -> Hw. simpl in Hw. set_solver.
  - intros (stats & _ & ->). unfold vm_stats_writes. destruct (us_cpu_nsec stats), (us_memory_current stats); simpl; set_solver.
Qed.

(** The reading of one VM: what is found under its id. *)
Definition reading (g : Series AgentFamily) (vm : LocalVmRow) (running : bool) (cpu : option Z) (memory : option Z) : Prop :=
  let id := lr_vm_id vm in
  g vm_running !! [id] = Some (IntValue (if running then 1 else 0)) /\
  g vm_cpu_seconds !! [id] = (fun ns => FloatValue (f64_div (f64_of_int ns) (f64_of_int 1000000000))) <$> cpu /\
  g vm_memory_bytes !! [id] = (fun b => IntValue (as_i64 b)) <$> memory.

(** A round writes a series at most once. *)
Lemma round_value w0 P vm ws f ls v v' : vm_round w0 P vm ws -> (f, ls, v) ∈ ws -> (f, ls, v') ∈ ws -> v = v'.
Proof.
  unfold vm_round. case_bool_decide.
  - intros ->. simpl. set_solver.
  - intros (stats & _ & ->). unfold vm_stats_writes. destruct (us_cpu_nsec stats), (us_memory_current stats); simpl; set_solver.
Qed.

(** The series found under the id of a VM are those its round wrote. *)
Lemma round_lookup w0 P vms wss g vm : NoDup (map lr_vm_id vms) -> Forall2 (vm_round w0 P) vms wss -> vm ∈ vms ->
  exists ws, vm_round w0 P vm ws /\ forall f ls v, g f = ∅ -> head ls = Some (lr_vm_id vm) ->
    written (concat wss) g f !! ls = Some v <-> (f, ls, v) ∈ ws.
Proof.
  intros Hnd HF Hvm.
  destruct (rounds_own (vm_round w0 P) lr_vm_id vms wss (vm_round_head w0 P) Hnd HF vm Hvm) as (ws & Hr & Hown).
  exists ws. split; [done|]. intros f ls v Hg Hls.
  rewrite written_lookup; [by apply (Hown (f, ls, v))|done|].
  intros v1 v2 H1 H2. apply (Hown (f, ls, v1)) in H1; [|done]. apply (Hown (f, ls, v2)) in H2; [|done].
  by eapply round_value.
Qed.

Lemma lookup_none {K A} `{Countable K} (m : gmap K A) k : (forall v, m !! k <> Some v) -> m !! k = None.
Proof. intros Hn. destruct (m !! k) as [v|]; [by destruct (Hn v)|done]. Qed.

Lemma round_reading w0 P vm ws g :
  vm_round w0 P vm ws ->
  (forall f v, f ∈ vm_families -> g f !! [lr_vm_id vm] = Some v <-> (f, [lr_vm_id vm], v) ∈ ws) ->
  if bool_decide (lr_vm_id vm ∈ P) then reading g vm false None None
  else exists stats, asked w0 vm stats /\ reading g vm (us_running stats) (us_cpu_nsec stats) (us_memory_current stats).
Proof.
  intros Hr Hg. unfold vm_round in Hr.
  assert (forall f v, f ∈ vm_families -> (f, [lr_vm_id vm], v) ∈ ws -> g f !! [lr_vm_id vm] = Some v) as Hyes
    by (intros; by apply Hg).
  assert (forall f, f ∈ vm_families -> (forall v, (f, [lr_vm_id vm], v) ∉ ws) -> g f !! [lr_vm_id vm] = None) as Hno.
  { intros f Hf Hw. apply lookup_none. intros v Hv%Hg; [|done]. by apply (Hw v). }
  unfold vm_families in Hyes, Hno. case_bool_decide.
  - subst ws. split_and!; [apply Hyes|apply Hno|apply Hno]; simpl; set_solver.
  - destruct Hr as (stats & Ha & ->). exists stats. split; [done|]. unfold vm_stats_writes in *.
    destruct (us_cpu_nsec stats) as [ns|], (us_memory_current stats) as [b|];
      split_and!; simpl; (apply Hyes || apply Hno); simpl; set_solver.
Qed.
End vm_pass.

(** C35: a pass of the agent's poller publishes its VMs. With distinct VM ids
    in the local database the pass succeeds, changes the agent only by the
    [systemctl show] commands it runs, and afterwards every VM series belongs to a VM of
    the database; each VM has its identity, its vCPUs, its root disk and its
    memory limit; a VM being created reads not running and has no usage
    series; another VM reads running, CPU seconds and memory as systemd
    answered for its unit during the pass, with no series for a number that the
    answer does not give. *)
Theorem vm_gauges_current `{H : Host} `{J : AgentJson} (s : Metered) :
  let vms := local_vms (at_db (mt_agent s)) in
  NoDup (map lr_vm_id vms) ->
  exists w g, rtc shown (at_world (mt_agent s)) w /\
  refresh_vm_gauges s = ({| mt_agent := set_world (fun _ => w) (mt_agent s); mt_series := g |}, Ok tt) /\
  (forall f labels, f ∈ vm_families -> is_Some (g f !! labels) -> exists vm, vm ∈ vms /\ head labels = Some (lr_vm_id vm)) /\
  (forall f, f ∉ vm_families -> g f = mt_series s f) /\
  (forall vm, vm ∈ vms ->
     g vm_info !! [lr_vm_id vm; lr_name vm; lr_ip_address vm; lr_image vm] = Some (IntValue 1) /\
     g vm_cpu_quota !! [lr_vm_id vm] = Some (IntValue (lr_cpu vm)) /\
     g vm_rootfs_gib !! [lr_vm_id vm] = Some (IntValue (lr_disk_gib vm)) /\
     g vm_memory_limit_bytes !! [lr_vm_id vm] = Some (IntValue (as_i64 (lr_memory_mib vm * 1024 * 1024))) /\
     if bool_decide (lr_vm_id vm ∈ at_pending (mt_agent s)) then reading g vm false None None
     else exists stats, asked (at_world (mt_agent s)) vm stats /\ reading g vm (us_running stats) (us_cpu_nsec stats) (us_memory_current stats)).
Proof.
  intros vms Hnd. set (g0 := reset vm_families (mt_series s)).
  destruct (vm_gauges_loop (at_world (mt_agent s)) vms {| mt_agent := mt_agent s; mt_series := g0 |}) as (w & wss & Hw0 & E & HF);
    [reflexivity|].
  exists w, (written (concat wss) g0). split; [exact Hw0|]. split; [exact E|]. cbn [mt_agent] in HF.
  assert (forall f, f ∈ vm_families -> g0 f = ∅) as H0 by (intros f Hf; unfold g0, reset; by rewrite decide_True).
  assert (forall vm ws, vm_round (at_world (mt_agent s)) (at_pending (mt_agent s)) vm ws -> forall w, w ∈ ws -> fst (fst w) ∈ vm_families) as Hfam.
  { intros vm ws Hr w' Hw. unfold vm_round in Hr. case_bool_decide.
    - subst ws. simpl in Hw. unfold vm_families. set_solver.
    - destruct Hr as (stats & _ & ->). unfold vm_stats_writes in Hw. unfold vm_families.
      destruct (us_cpu_nsec stats), (us_memory_current stats); simpl in Hw; set_solver. }
  split_and!.
  - intros f ls Hf [v Hv]. apply written_inv in Hv; [|by apply H0].
    destruct (rounds_in _ _ _ _ HF Hv) as (vm & ws & Hvm & Hr & Hw). exists vm. split; [done|].
    exact (vm_round_head _ _ _ _ _ Hr Hw).
  - intros f Hf. rewrite written_family; [unfold g0, reset; by rewrite decide_False|].
    intros w' Hw <-. destruct (rounds_in _ _ _ _ HF Hw) as (vm & ws & _ & Hr & Hin). by apply Hf, (Hfam vm ws).
  - intros vm Hvm. destruct (round_lookup _ _ _ _ g0 vm Hnd HF Hvm) as (ws & Hr & Hl).
    assert (forall w', w' ∈ vm_static_writes vm -> w' ∈ ws) as Hst.
    { intros w' Hw. unfold vm_round in Hr. case_bool_decide; [subst ws|destruct Hr as (? & _ & ->)]; apply elem_of_app; by left. }
    split_and!; [apply Hl; [apply H0; unfold vm_families; set_solver|done|apply Hst; simpl; set_solver]..|].
    apply (round_reading _ _ _ ws); [done|]. intros f v Hf. apply Hl; [by apply H0|done].
Qed.

(** ** Examples *)

Definition scanned_pool : HostPoolCapacity := {|
  hc_pool := "fast"; hc_backend := LvmLinear; hc_labels := ∅;
  hc_configured_total_bytes := 200 * GIB; hc_ready_total_bytes := 100 * GIB;
  hc_schedulable_total_bytes := 100 * GIB; hc_schedulable_free_bytes := 90 * GIB;
  hc_devices := [
    {| dv_id := "nvme0"; dv_total_gib := 100; dv_free_gib := 90; dv_physical := HealthReady; dv_physical_reason := "" |};
    {| dv_id := "nvme1"; dv_total_gib := 100; dv_free_gib := 0; dv_physical := HealthMissing; dv_physical_reason := "gone" |}] |}.
Definition scanned : HostStorageCapacity := {|
  hs_rootfs := {| rb_total := 0; rb_free := 0; rb_metadata_total := 0; rb_metadata_free := 0 |};
  hs_pools := [scanned_pool] |}.

Lemma storage_gauges_match_heartbeat_witness : exists g',
  refresh_storage_gauges scanned (fun _ => ∅) = (g', Ok tt) /\
  g' device_physical_state !! ["fast"; "nvme1"; "Missing"] = Some (IntValue 1) /\
  g' pool_capacity_bytes !! ["fast"; "lvm-linear"; "schedulable_free"] = Some (IntValue (90 * GIB)).
Proof.
  destruct (storage_gauges_match_heartbeat scanned (fun _ => ∅)) as (g' & E & Hp).
  - apply (bool_decide_eq_true_1 _). vm_compute. reflexivity.
  - intros p [->|[]%not_elem_of_nil]%elem_of_cons. apply (bool_decide_eq_true_1 _). vm_compute. reflexivity.
  - exists g'. split; [exact E|].
    destruct (Hp (pool_capacity_to_proto scanned_pool)) as [Hl Hd]; [left|].
    split.
    + edestruct Hd as (_ & _ & Hph); [right; left|]. refine (Hph DeviceHealthMissing _). discriminate.
    + apply (Hl "schedulable_free" (90 * GIB)). do 3 right. left.
Defined.

Definition polled_vm (id : string) : LocalVmRow := {|
  lr_vm_id := id; lr_name := id; lr_unit_name := unit_name_for_vm id; lr_ip_address := "10.0.0.33"; lr_cpu := 4;
  lr_memory_mib := 8192; lr_disk_gib := 20; lr_gpu_pci_addresses := "[]"; lr_image := "ubuntu"; lr_vni := 10000;
  lr_cluster_id := "c1"; lr_created_at := ""; lr_storage_disks := "[]" |}.

(** [v1] runs, its memory is not accounted; [v2] is being created. *)
Definition polled : Metered := {|
  mt_agent := {|
    at_world := {| sim_lvs := ∅; sim_files := ∅; sim_text := ∅;
                   sim_stdout := {[ join " " ("systemctl" :: show_args (unit_name_for_vm "v1")) :=
                     as_lines ["SubState=running"; "CPUUsageNSec=2000000000"; "MemoryCurrent=[not set]"] ]};
                   sim_fails := ∅; sim_log := [] |};
    at_db := {| agent_state := ∅; local_vms := [polled_vm "v1"; polled_vm "v2"]; lvm_reservation := []; cached_images := [] |};
    at_tracked := ∅; at_pending := {["v2"]}; at_host_id := "h1"; at_live := ∅; at_sent := [] |};
  mt_series := fun _ => ∅ |}.

Lemma vm_gauges_current_witness : exists w g,
  refresh_vm_gauges polled = ({| mt_agent := set_world (fun _ => w) (mt_agent polled); mt_series := g |}, Ok tt) /\
  g vm_running !! ["v2"] = Some (IntValue 0) /\ g vm_memory_bytes !! ["v2"] = None.
Proof.
  destruct (vm_gauges_current polled) as (w & g & _ & E & _ & _ & Hv).
  - apply (bool_decide_eq_true_1 _). vm_compute. reflexivity.
  - exists w, g. split; [exact E|].
    destruct (Hv (polled_vm "v2")) as (_ & _ & _ & _ & Hr); [right; left|].
    rewrite bool_decide_eq_true_2 in Hr by (apply (bool_decide_eq_true_1 _); vm_compute; reflexivity).
    exact (conj (proj1 Hr) (proj2 (proj2 Hr))).
Defined.

(** The run, evaluated: [v1] reads running with its CPU time, and no memory. *)
Lemma polled_run :
  let g := mt_series (fst (refresh_vm_gauges polled)) in
  g vm_running !! ["v1"] = Some (IntValue 1) /\
  g vm_cpu_seconds !! ["v1"] = Some (FloatValue (f64_of_int 2)) /\
  g vm_memory_bytes !! ["v1"] = None /\ g vm_memory_limit_bytes !! ["v1"] = Some (IntValue (8 * GIB)).
Proof. vm_compute. repeat split. Qed.
