(* ===== verification/SimNet.v ===== *)
(** * A simulated kernel

    An instance of [KernelHost]: the tables of a kernel, each under the
    command line that lists it, with the text [ip] and [bridge] print. The
    theorem on the reconciliation of the tables is applied to it. *)

From Stdlib Require Import Ascii.
From S2P Require Import Prelude Ipv4 Ipnet CidrNet Ctl Text HashName Host Net Dataplane Image HostVm Triple DataplaneFacts SimHost AgentDemo.

(** A table is found under the line that lists it. *)
Abbreviation NetWorld := (gmap (list string) (gset string)).
Definition k_key (k : KTable) : list string := k_tool k :: k_show_args k.

Inductive KOp := OpShow (key : list string) | OpAdd (key : list string) (x : string) | OpDel (key : list string) (x : string).
Definition action_op (action : string) (key : list string) (x : string) : option KOp :=
  if action =$ "del" then Some (OpDel key x)
  else if (action =$ "replace") || (action =$ "append") then Some (OpAdd key x) else None.
Definition decode (tool : string) (args : list string) : option KOp :=
  if tool =$ "arping" then None else
  match args with
  | "route" :: "show" :: _ | "neigh" :: "show" :: _ | "fdb" :: "show" :: _ => Some (OpShow (tool :: args))
  | "route" :: action :: x :: "dev" :: rest => action_op action ("ip" :: "route" :: "show" :: "dev" :: rest) x
  | "neigh" :: action :: "proxy" :: x :: "dev" :: rest =>
      action_op action ("ip" :: "neigh" :: "show" :: "proxy" :: "dev" :: rest) x
  | ["fdb"; action; _; "dev"; v; "dst"; x] => action_op action ["bridge"; "fdb"; "show"; "dev"; v] x
  | _ => None
  end.

(** Texts that are printed as they are given: one word, and a network in a
    routing table. *)
Definition net_text (key : list string) (x : string) : bool :=
  (x <>$ "") && (plain x && (if bool_decide (take 2 key = ["ip"; "route"]) then contains "/" x else true)).
Definition net_get (key : list string) (w : NetWorld) : gset string :=
  filter (fun x => Is_true (net_text key x)) (w !!! key).
Definition net_print (key : list string) (w : NetWorld) : string :=
  as_lines (map (fun x => if bool_decide (take 1 key = ["bridge"]) then "00:00:00:00:00:00 dst " +:+ x else x)
                (elements (net_get key w))).
Definition net_run (tool : string) (args : list string) (w : NetWorld) : NetWorld * option Output :=
  match decode tool args with
  | Some (OpShow key) => (w, printed (net_print key w))
  | Some (OpAdd key x) =>
      if net_text key x then (<[key := {[x]} ∪ (w !!! key)]> w, printed "") else (w, refused)
  | Some (OpDel key x) => (<[key := (w !!! key) ∖ {[x]}]> w, printed "")
  | None => (w, printed "")
  end.

Definition net_host : Host := {|
  World := NetWorld;
  run := net_run;
  permit _ w := (w, true);
  path_exists _ _ := false;
  create_dir_all _ w := (w, true);
  remove_dir_all _ w := (w, true);
  write_file _ _ w := (w, true);
  remove_file _ w := (w, true);
  rename_file _ _ w := (w, true);
  read_link _ _ := None;
  read_to_string _ _ := None;
  read_dir _ _ := None;
|}.

Lemma k_key_inj j k : k_key j = k_key k -> j = k.
Proof.
  destruct j as [b [t|]|v|u], k as [b' [t'|]|v'|u']; intros [=]; subst; try done. f_equal. f_equal. by apply (inj pretty).
Qed.

Lemma decode_show k : decode (k_tool k) (k_show_args k) = Some (OpShow (k_key k)).
Proof. by destruct k as [b [t|]|v|u]. Qed.
Lemma decode_add k x : decode (k_tool k) (k_add_args k x) = Some (OpAdd (k_key k) x).
Proof. by destruct k as [b [t|]|v|u]. Qed.
Lemma decode_del k x : decode (k_tool k) (k_del_args k x) = Some (OpDel (k_key k) x).
Proof. by destruct k as [b [t|]|v|u]. Qed.

(** ** What is printed is read back *)

Lemma contains_plain p s : contains p s = true -> plain s = true -> plain p = true.
Proof.
  assert (forall p s, starts_with p s = true -> plain s = true -> plain p = true) as Hstart.
  { clear. intros p. unfold starts_with. induction p as [|c p IH]; intros s; [done|].
    destruct s as [|d s]; simpl; [done|]. destruct (Ascii.eqb c d) eqn:E; [|done]. apply Ascii.eqb_eq in E as ->.
    intros Hs [Hc Hp]%andb_true_iff. rewrite Hc. simpl. by apply (IH s). }
  induction s as [|d s IH]; intros Hc Hs; simpl in Hc; apply orb_true_iff in Hc as [Hc|Hc].
  - by apply (Hstart _ _ Hc).
  - done.
  - by apply (Hstart _ _ Hc).
  - simpl in Hs. apply andb_true_iff in Hs as [_ Hs]. by apply IH.
Qed.
Lemma split_on_plain s : plain s = true -> split_on is_space s = [s].
Proof.
  induction s as [|c s IH]; [done|]. simpl. intros [Hc Hs]%andb_true_iff. apply negb_true_iff in Hc.
  by rewrite Hc, IH.
Qed.
Lemma split_whitespace_plain s : plain s = true -> s <> "" -> split_whitespace s = [s].
Proof.
  intros Hp Hne. unfold split_whitespace. rewrite split_on_plain by done. simpl.
  by rewrite (proj2 (String.eqb_neq _ _) Hne).
Qed.
Lemma split_on_app a c b :
  plain a = true -> is_space c = true -> split_on is_space (a +:+ String c b) = a :: split_on is_space b.
Proof.
  intros Ha Hc. induction a as [|d a IH]; simpl; [by rewrite Hc|].
  change (String d a +:+ String c b) with (String d (a +:+ String c b)). simpl in *.
  apply andb_true_iff in Ha as [Hd Ha]. apply negb_true_iff in Hd. by rewrite Hd, IH.
Qed.

Lemma net_text_parts key x :
  Is_true (net_text key x) ->
  x <> "" /\ plain x = true /\ (take 2 key = ["ip"; "route"] -> contains "/" x = true).
Proof.
  intros Hx%Is_true_true. apply andb_true_iff in Hx as [Hne Hx]. apply andb_true_iff in Hx as [Hp Hs].
  split_and!; [by apply String.eqb_neq, negb_true_iff|done|]. intros Hk. by rewrite bool_decide_eq_true_2 in Hs.
Qed.

Lemma net_get_text key w : Forall (fun x => Is_true (net_text key x)) (elements (net_get key w)).
Proof.
  apply Forall_forall. intros x Hx. rewrite elem_of_elements in Hx. unfold net_get in Hx.
  by apply elem_of_filter in Hx as [Hx _].
Qed.
(** A parser that reads one entry per line reads the set back. *)
Lemma omap_entries {A} (f : A -> option string) (g : string -> A) (X : gset string) :
  (forall x, x ∈ X -> f (g x) = Some x) -> list_to_set (omap f (map g (elements X))) = X.
Proof.
  intros Hf. apply set_eq. intros x. rewrite elem_of_list_to_set, list_elem_of_omap. split.
  - intros (a & Ha & Hx). apply list_elem_of_fmap in Ha as (y & -> & Hy). rewrite elem_of_elements in Hy.
    rewrite Hf in Hx by done. by simplify_eq.
  - intros Hx. exists (g x). split; [|by apply Hf]. apply list_elem_of_fmap. exists x.
    split; [done|]. by rewrite elem_of_elements.
Qed.
Lemma net_print_lines key w :
  lines (net_print key w) =
  map (fun x => if bool_decide (take 1 key = ["bridge"]) then "00:00:00:00:00:00 dst " +:+ x else x)
      (elements (net_get key w)).
Proof.
  apply lines_as_lines. apply Forall_fmap. eapply Forall_impl; [apply net_get_text|].
  intros x (_ & Hp & _)%net_text_parts. apply plain_one_line in Hp as [H1 H2]. simpl.
  case_bool_decide; [|done]. split; simpl; done.
Qed.

Lemma parse_print k w : k_parse k (net_print (k_key k) w) = net_get (k_key k) w.
Proof.
  assert (forall x, x ∈ net_get (k_key k) w -> Is_true (net_text (k_key k) x)) as Htext.
  { intros x Hx. unfold net_get in Hx. by apply elem_of_filter in Hx as [Hx _]. }
  destruct k as [b t|v|u]; simpl k_parse; unfold parse_routes, parse_fdb, parse_proxy_arp; rewrite net_print_lines.
  - rewrite bool_decide_eq_false_2 by done. apply omap_entries. intros x Hx.
    apply Htext, net_text_parts in Hx as (Hne & Hp & Hs). specialize (Hs eq_refl).
    destruct (contains "proto kernel" x) eqn:E1; [by apply contains_plain in E1|].
    destruct (contains " via " x) eqn:E2; [by apply contains_plain in E2|].
    rewrite split_whitespace_plain by done. simpl. by rewrite Hs.
  - rewrite bool_decide_eq_true_2 by done. apply omap_entries. intros x Hx.
    apply Htext, net_text_parts in Hx as (Hne & Hp & _).
    change (starts_with "00:00:00:00:00:00" ("00:00:00:00:00:00 dst " +:+ x)) with true. cbv iota.
    unfold split_whitespace. change ("00:00:00:00:00:00 dst " +:+ x) with ("00:00:00:00:00:00" +:+ String " " ("dst" +:+ String " " x)).
    rewrite !split_on_app, split_on_plain by done. simpl. by rewrite (proj2 (String.eqb_neq _ _) Hne).
  - rewrite bool_decide_eq_false_2 by done. apply omap_entries. intros x Hx.
    apply Htext, net_text_parts in Hx as (Hne & Hp & _). by rewrite split_whitespace_plain.
Qed.

Lemma net_get_insert key X w : net_get key (<[key := X]> w) = filter (fun x => Is_true (net_text key x)) X.
Proof. unfold net_get. by rewrite lookup_total_insert_eq. Qed.
Lemma net_get_other j k X w : j <> k -> net_get (k_key j) (<[k_key k := X]> w) = net_get (k_key j) w.
Proof. intros Hne. unfold net_get. rewrite lookup_total_insert_ne; [done|]. intros E%k_key_inj. by apply Hne. Qed.

#[global] Instance net_kernel : @KernelHost net_host.
Proof.
  unshelve econstructor.
  - exact (fun k w => net_get (k_key k) w).
  - exact (fun k x => Is_true (net_text (k_key k) x)).
  - intros k w w' o. cbn [run net_host]. unfold net_run. rewrite decode_show. intros [= <- <-]. split; [done|].
    intros out [= <-] _. apply parse_print.
  - intros k x w w' o. cbn [run net_host]. unfold net_run. rewrite decode_add. intros Hr Hx.
    rewrite (Is_true_eq_true _ Hx) in Hr. simplify_eq. rewrite net_get_insert. split_and!.
    + intros j Hne. by apply net_get_other.
    + right. unfold net_get. apply set_eq. intros y. rewrite !elem_of_filter, !elem_of_union, elem_of_filter.
      rewrite elem_of_singleton. naive_solver.
    + intros _ _ _. apply elem_of_filter. set_solver.
  - intros k x w w' o. cbn [run net_host]. unfold net_run. rewrite decode_del. intros [= <- <-].
    rewrite net_get_insert. split_and!.
    + intros j Hne. by apply net_get_other.
    + right. unfold net_get. apply set_eq. intros y. rewrite elem_of_filter, !elem_of_difference, elem_of_filter. naive_solver.
    + intros _ _ _. rewrite elem_of_filter. set_solver.
  - done.
Defined.

(** ** Runs *)

Lemma net_reliable k : @reliable net_host k.
Proof.
  split; [intros w|intros x w]; cbn [run net_host]; unfold net_run.
  - rewrite decode_show. by eexists.
  - rewrite decode_del. by eexists.
Qed.

Definition demo_want : gset string := {["10.1.0.0/28"; "10.2.0.5/32"]}.
Definition demo_table : KTable := KRoutes "brc7" None.
Definition demo_kernel : NetWorld := {[k_key demo_table := {["10.1.0.0/28"; "10.9.0.0/24"]}]}.
Definition demo_net : @Agt net_host := {|
  at_world := demo_kernel : @World net_host; at_db := demo_db; at_tracked := ∅; at_pending := ∅;
  at_host_id := "h1"; at_live := ∅; at_sent := [] |}.


Definition demo_vips : list ClusterVip := [
  {| cv_cidr := "192.168.1.16/30"; cv_owner_host_id := "h1" |};
  {| cv_cidr := "192.168.1.20/31"; cv_owner_host_id := "h2" |} ].
