(* ===== verification/Cell.v ===== *)
(** * The controller and a host together

    One round of the teardown protocol across the two programs: the
    controller's reconcile command ([build_reconcile_command], server.rs), its
    application by the agent of the host ([apply_reconcile], main.rs), and the
    controller handling what the agent sent ([handle_agent_message]). *)

From S2P Require Import Prelude Ipv4 Ipnet Proto Config DbTypes JsonText Ipam Clusters Hosts Vms Teardown Ctl Wire Agent Machines Text Host Lvm Net Dataplane Image HostVm AgentMain Triple Ledger Frames VmFacts AgentFacts.

Section cell.
Context `{DJ : DbJson}.
Context `{L : LvmHost} `{I : Ipnet} `{IH : !IpnetHosts I} `{O : !Oci} `{OL : !OciLvm} `{J : AgentJson}.
Context `{Sp : !Speaker} `{SL : !SpeakerLvm}.
Variable cfg : CtlConfig.

(** The inbound loop of the stream: an error is logged. *)
Definition deliver (host now : string) (msgs : list AgentMessage) (c : Ctl) : Ctl :=
  foldl (fun c msg => fst (handle_agent_message host msg now c)) c msgs.

(** One round: command, its application, and the messages sent while doing
    so. *)
Definition teardown_round (x : VmHandlerCtx) (bgp : bool) (host now : string) (cs : Ctl * Agt) : Ctl * Agt :=
  let '(c, s) := cs in
  let '(db', r) := build_reconcile_command cfg host (ctl_db c) in
  let c := set_db (fun _ => db') c in
  match r with
  | Err _ => (c, s)
  | Ok cmd =>
      let s' := fst (apply_reconcile x bgp cmd s) in
      (deliver host now (drop (length (at_sent s)) (at_sent s')) c, s')
  end.

Lemma deliver_acks host now open vnis ids c :
  vms (ctl_db (deliver host now (acks open vnis ids) c)) =
  delete_where (acked_vm host (if open then ids else [])) (vms (ctl_db c)).
Proof.
  assert (forall l, acks open vnis ids = l -> l = [] /\ (open = false \/ ids = []) \/ l = [MsgTombstoneAck vnis ids] /\ open = true) as Hl.
  { intros l <-. unfold acks. destruct open; [|by auto]. destruct vnis, ids; auto. }
  destruct (Hl _ eq_refl) as [[-> He]|[-> ->]]; simpl.
  - rewrite delete_where_false; [done|]. intros v _. destruct He as [-> | ->]; [done|]. by destruct open.
  - unfold log_db, se_bind, se_try, db_call.
    destruct (ack_tombstones_steps host vnis ids (ctl_db c)) as (db1 & db2 & H1 & H2 & ->).
    destruct (ack_vms_outcome host ids (ctl_db c)) as (db1' & G1 & Gv & _).
    destruct (ack_clusters_outcome host vnis db1) as (db2' & K1 & Kv & _).
    rewrite H1 in G1. rewrite H2 in K1. simplify_eq. simpl. by rewrite Kv, Gv.
Qed.

Lemma acked_vm_true host ids v :
  acked_vm host ids v = true <->
  vm_id v ∈ ids /\ vm_host_id v = host /\ vm_state v = VM_STATE_PENDING_TEARDOWN.
Proof.
  unfold acked_vm, on_host. rewrite !andb_true_iff, existsb_string_In, String.eqb_eq, Z.eqb_eq. tauto.
Qed.

End cell.
