(* ===== verification/CellDemo.v ===== *)
(** * A round of the teardown protocol on concrete states

    The controller of Service.v with one VM being torn down, and the
    simulated host of AgentDemo.v that still runs it. *)

From S2P Require Import Prelude Ipv4 Ipnet CidrNet Proto Config DbTypes JsonText Ipam Clusters Hosts Vms Teardown Ctl Wire Agent Service Host Lvm Net Dataplane Image HostVm AgentMain Ledger VmFacts AgentFacts SimHost AgentDemo Cell.

Definition doomed_vm : VmRow := with_vm_state VM_STATE_PENDING_TEARDOWN "" "t9" (example_vm "vm-a" "h1").
Definition demo_ctl : Ctl := set_db (set_vms (fun _ => [doomed_vm; example_vm "vm-b" "h1"])) run_machine.
Definition demo_round : Ctl * Agt := teardown_round example_cfg demo_x true "h1" "t9" (demo_ctl, demo_running).

Lemma demo_ctl_vms : vms (ctl_db demo_ctl) = [doomed_vm; example_vm "vm-b" "h1"].
Proof. vm_compute. reflexivity. Qed.

