(* ===== verification/SimGobgp.v ===== *)
(** * A simulated GoBGP daemon

    A daemon that keeps its peers, its table, its policy and the events to
    come, and evaluates the import policy: it has the behaviour [GobgpLaws]
    states, and the theorems of [BgpFacts] are run on it. *)

From Stdlib Require Import Ascii.
From S2P Require Import Prelude Ipv4 Ipnet CidrNet Proto Config Overcommit DbTypes JsonText Ipam Clusters Hosts Vms Text HashName IpAddr Gobgp Host Net Dataplane AgentMain Bgp Triple BgpFacts SimHost AgentDemo.

Record Daemon := {
  gs_running : option (Z * string);
  gs_peers : gset string;
  gs_local : gset string;
  gs_learned : gset string;
  gs_sets : list DefinedSet;
  gs_import : option PolicyAssignment;
  gs_events : list (option (option WatchEvent));
}.

(** ** The import policy, evaluated *)

Definition within_b (a n : Cidr) : bool :=
  (cidr_network n <=? cidr_network a) && (cidr_broadcast a <=? cidr_broadcast n).
Definition prefix_set_has_b (ds : DefinedSet) (ann : Cidr) : bool :=
  existsb (fun px => match cidr_parse (px_ip_prefix px) with
                     | None => false
                     | Some n => within_b ann n && (px_mask_length_min px <=? cidr_len ann)
                                 && (cidr_len ann <=? px_mask_length_max px)
                     end) (ds_prefixes ds).
#[export] Instance defined_type_eq_dec : EqDecision DefinedType.
Proof. solve_decision. Defined.
Definition named_b (t : DefinedType) (name : string) (ds : DefinedSet) : bool :=
  bool_decide (ds_type ds = t) && (ds_name ds =$ name).
Definition on_set (sets : list DefinedSet) (t : DefinedType) (name : option string) (f : DefinedSet -> bool) : bool :=
  match name with None => true | Some n => existsb (fun ds => named_b t n ds && f ds) sets end.
Definition statement_matches_b (sets : list DefinedSet) (peer : IpAddr) (ann : Cidr) (st : Statement) : bool :=
  on_set sets DefinedNeighbor (st_neighbor_set st) (fun ds => bool_decide (host_route peer ∈ ds_list ds)) &&
  on_set sets DefinedPrefix (st_prefix_set st) (fun ds => prefix_set_has_b ds ann).
Definition accepts_b (d : Daemon) (peer : IpAddr) (ann : Cidr) : bool :=
  match gs_import d with
  | None => true
  | Some a => existsb (fun p => existsb (statement_matches_b (gs_sets d) peer ann) (po_statements p)) (as_policies a)
  end.

Lemma within_b_iff (a n : Cidr) : within_b a n = true <-> within a n.
Proof.
  unfold within_b, within, in_net. rewrite andb_true_iff, !Z.leb_le. simpl. split; [intros ? x ?; lia|].
  intros Hw. pose proof (net_network_in a) as Ha. unfold in_net in Ha. simpl in Ha.
  pose proof (Hw (cidr_network a) ltac:(lia)). pose proof (Hw (cidr_broadcast a) ltac:(lia)). lia.
Qed.

Lemma existsb_elem_of {A} (f : A -> bool) l : existsb f l = true <-> exists x, x ∈ l /\ f x = true.
Proof. rewrite existsb_exists. by setoid_rewrite list_elem_of_In. Qed.

Lemma prefix_set_has_b_iff ds ann : prefix_set_has_b ds ann = true <-> prefix_set_has ds ann.
Proof.
  unfold prefix_set_has_b, prefix_set_has. rewrite existsb_elem_of. split.
  - intros (px & Hin & Hx). destruct (cidr_parse _) as [n|] eqn:E; [|done].
    rewrite !andb_true_iff, within_b_iff, !Z.leb_le in Hx. exists px, n. tauto.
  - intros (px & n & Hin & E & Hw & Hl). exists px. split; [done|]. change (net_parse (px_ip_prefix px)) with (cidr_parse (px_ip_prefix px)) in E.
    rewrite E, !andb_true_iff, within_b_iff, !Z.leb_le. change (cidr_len ann) with (net_prefix_len ann). tauto.
Qed.

Lemma on_set_iff sets t name f :
  on_set sets t name f = true <->
  forall n, name = Some n -> exists ds, set_named sets t n ds /\ f ds = true.
Proof.
  unfold on_set, set_named, named_b. destruct name as [n|]; [|split; [intros _ n [=]|done]].
  rewrite existsb_elem_of. setoid_rewrite andb_true_iff. setoid_rewrite andb_true_iff.
  setoid_rewrite bool_decide_eq_true. setoid_rewrite String.eqb_eq. split.
  - intros (ds & ? & [? ?] & ?) m [= <-]. exists ds. tauto.
  - intros Hx. destruct (Hx n eq_refl) as (ds & (? & ? & ?) & ?). exists ds. tauto.
Qed.

Lemma statement_matches_b_iff sets peer ann st :
  statement_matches_b sets peer ann st = true <-> statement_matches sets peer ann st.
Proof.
  unfold statement_matches_b, statement_matches. rewrite andb_true_iff, !on_set_iff.
  setoid_rewrite bool_decide_eq_true. by setoid_rewrite prefix_set_has_b_iff.
Qed.

(** ** The calls *)

Definition set_running r (d : Daemon) : Daemon := {|
  gs_running := r; gs_peers := gs_peers d; gs_local := gs_local d; gs_learned := gs_learned d;
  gs_sets := gs_sets d; gs_import := gs_import d; gs_events := gs_events d |}.
Definition set_peers (f : gset string -> gset string) (d : Daemon) : Daemon := {|
  gs_running := gs_running d; gs_peers := f (gs_peers d); gs_local := gs_local d; gs_learned := gs_learned d;
  gs_sets := gs_sets d; gs_import := gs_import d; gs_events := gs_events d |}.
Definition set_local (f : gset string -> gset string) (d : Daemon) : Daemon := {|
  gs_running := gs_running d; gs_peers := gs_peers d; gs_local := f (gs_local d); gs_learned := gs_learned d;
  gs_sets := gs_sets d; gs_import := gs_import d; gs_events := gs_events d |}.
Definition set_policy (sets : list DefinedSet) (a : option PolicyAssignment) (d : Daemon) : Daemon := {|
  gs_running := gs_running d; gs_peers := gs_peers d; gs_local := gs_local d; gs_learned := gs_learned d;
  gs_sets := sets; gs_import := a; gs_events := gs_events d |}.

(** A path without a prefix, a duplicate peer, a peer or a path that is not
    there, and an assignment over another are refused. *)
#[export] Instance sim_gobgp : Gobgp := {|
  GWorld := Daemon;
  gobgp_connect _ d := (d, true);
  get_bgp d := (d, Some (gs_running d));
  start_bgp_rpc g d := (set_running (Some (gl_asn g, gl_router_id g)) d, true);
  list_path _ d := (d, if gs_running d is Some _ then Some (map (fun t => Some (Some t)) (elements (gs_local d ∪ gs_learned d))) else None);
  list_peer d := (d, Some (map (fun t => Some (Some t)) (elements (gs_peers d))));
  add_peer p d := if decide (bp_neighbor_address p ∈ gs_peers d) then (d, false)
                  else (set_peers (fun s => {[bp_neighbor_address p]} ∪ s) d, true);
  delete_peer a d := if decide (a ∈ gs_peers d) then (set_peers (fun s => s ∖ {[a]}) d, true) else (d, false);
  add_path p d := match path_text p with Some t => (set_local (fun s => {[t]} ∪ s) d, true) | None => (d, false) end;
  delete_path p d := match path_text p with Some t => (set_local (fun s => s ∖ {[t]}) d, true) | None => (d, false) end;
  set_policies ds _ d := (set_policy ds (gs_import d) d, true);
  delete_policy_assignment _ _ d := if gs_import d is Some _ then (set_policy (gs_sets d) None d, true) else (d, false);
  add_policy_assignment a d := if gs_import d is Some _ then (d, false) else (set_policy (gs_sets d) (Some a) d, true);
  watch_event d := (d, Some (gs_events d));
|}.

Lemma items_all name (l : list string) :
  items name (map (fun t => Some (Some t)) l) = Ok (map Some l).
Proof. induction l as [|x l IH]; simpl; [done|]. by rewrite IH. Qed.

Lemma omap_all (l : list string) : omap (fun o : option string => o) (map Some l) = l.
Proof. induction l as [|x l IH]; [done|]. simpl. f_equal. exact IH. Qed.

#[export] Instance sim_gobgp_laws : GobgpLaws sim_gobgp.
Proof.
  refine {| g_peers := gs_peers; g_local := gs_local; g_learned := gs_learned; g_sets := gs_sets;
            g_import := gs_import; g_accepts := accepts_b |}; cbn -[omap list_to_set items].
  - done.
  - done.
  - intros d l xs name. destruct (gs_running d); [|done]. intros [= <-]. rewrite items_all. intros [= <-].
    by rewrite omap_all, list_to_set_elements_L.
  - done.
  - intros d l xs name [= <-]. rewrite items_all. intros [= <-]. by rewrite omap_all, list_to_set_elements_L.
  - done.
  - intros p d. by destruct (decide _).
  - intros a d. by destruct (decide _).
  - intros p t d ->. done.
  - intros p t d ->. done.
  - done.
  - intros _ d. destruct (gs_import d) eqn:E; simpl; by rewrite ?E.
  - intros a d ->. done.
  - intros a old p q d E _ _ _. rewrite E. simpl. by rewrite E.
  - intros d a peer ann E _ _ _. unfold accepts_b, some_statement. rewrite E, existsb_elem_of.
    setoid_rewrite existsb_elem_of. setoid_rewrite statement_matches_b_iff. naive_solver.
Defined.

(** IPv6 networks: a network address without host bits, read as [ipnet] does. *)
#[export] Instance sim_ipnet6 : Ipnet6 := {|
  net6_parse raw :=
    '(a, l) ← split_once "/"%char raw;
    match ip_addr_parse a, parse_u32 l with
    | Some (V6 v), Some len =>
        if (len <=? 128) && bool_decide (cidr_parse (show_ipv6 v +:+ "/" +:+ l) = None)
        then Some (show_ipv6 v +:+ "/" +:+ l, len) else None
    | _, _ => None
    end |}.

#[export] Instance sim_ipnet6_laws : Ipnet6Laws sim_ipnet6.
Proof.
  constructor. intros raw t l. simpl. destruct (split_once _ raw) as [[a l']|]; simpl; [|done].
  destruct (ip_addr_parse a) as [[v|v]|], (parse_u32 l') as [len|]; try done.
  destruct (len <=? 128); simpl; [|done]. case_bool_decide as Hd; [|done]. by intros [= <- <-].
Qed.

(** ** Runs *)

Definition idle : Daemon := {|
  gs_running := None; gs_peers := {["10.1.0.9"]}; gs_local := ∅; gs_learned := {["192.168.100.16/28"]};
  gs_sets := []; gs_import := None; gs_events := [] |}.

(** One host, two clusters, one VM in the first. *)
Definition cell_db : Db :=
  set_vms (fun _ => [example_vm "vm-a" "h1"]) (set_hosts (fun _ => [example_host "h1" "10.1.0.1"]) race_db2).
Definition reflector : ReflectorConfig := {| rf_asn := 64512; rf_router_id := 167837951 |}.
Definition cell_rr : Rr := {| rr_db := cell_db; rr_gobgp := idle : @GWorld sim_gobgp |}.

Lemma cell_sources a : source cell_db a -> a = V4 167837697 \/ a = V4 167772193.
Proof.
  intros [(h & Hh & Ha)|(v & Hv & Ha)].
  - apply list_elem_of_singleton in Hh as ->. vm_compute in Ha. left. congruence.
  - apply list_elem_of_singleton in Hv as ->. vm_compute in Ha. right. congruence.
Qed.

Lemma cell_canonical a : source cell_db a -> canonical a.
Proof. intros [-> | ->]%cell_sources; vm_compute; reflexivity. Qed.

Lemma cell_readable : readable (gs_peers idle).
Proof.
  intros t Ht. unfold idle in Ht. cbn [gs_peers] in Ht. apply elem_of_singleton in Ht as ->.
  exists (V4 167837705). split; vm_compute; reflexivity.
Qed.

(** The stale neighbor goes, the host and the VM come. *)
Lemma neighbors_mirror_database_witness :
  gs_peers (rr_gobgp (fst (peer_tick reflector cell_rr))) = {["10.1.0.1"; "10.0.0.33"]}.
Proof.
  pose proof (neighbors_mirror_database reflector cell_rr cell_readable cell_canonical) as H.
  assert (is_ok (snd (peer_tick reflector cell_rr)) = true) as Hok by (vm_compute; reflexivity).
  destruct (peer_tick reflector cell_rr) as [s' [[]|e]]; [|discriminate].
  destruct H as (_ & _ & H). apply set_eq. intros t. rewrite elem_of_union, !elem_of_singleton.
  etransitivity; [apply H|]. split.
  - intros (a & Ha & _ & ->). apply cell_sources in Ha as [-> | ->]; [left|right]; reflexivity.
  - intros [-> | ->].
    + exists (V4 167837697). split; [|split; [discriminate|reflexivity]].
      left. eexists. split; [apply list_elem_of_singleton; reflexivity|vm_compute; reflexivity].
    + exists (V4 167772193). split; [|split; [discriminate|reflexivity]].
      right. eexists. split; [apply list_elem_of_singleton; reflexivity|vm_compute; reflexivity].
Defined.

(** The VM may announce its own cluster's network, and no other's. *)
Definition own_net : Cidr := unwrap_or (mkCidr 0 0 eq_refl) (cidr_parse "10.0.0.0/24").
Definition other_net : Cidr := unwrap_or (mkCidr 0 0 eq_refl) (cidr_parse "10.0.1.0/24").
Lemma ingress_policy_isolates_witness :
  let '(s', r) := policy_tick reflector cell_rr in
  r = Ok tt /\ (may_announce cell_db (V4 167772193) own_net <-> accepts_b (rr_gobgp s') (V4 167772193) own_net = true) /\
  accepts_b (rr_gobgp s') (V4 167772193) own_net = true /\
  accepts_b (rr_gobgp s') (V4 167772193) other_net = false /\
  accepts_b (rr_gobgp s') (V4 167837697) other_net = true.
Proof.
  pose proof (ingress_policy_isolates reflector cell_rr) as H.
  assert (match policy_tick reflector cell_rr with
          | (s', r) => is_ok r && accepts_b (rr_gobgp s') (V4 167772193) own_net &&
                       negb (accepts_b (rr_gobgp s') (V4 167772193) other_net) &&
                       accepts_b (rr_gobgp s') (V4 167837697) other_net
          end = true) as Hok by (vm_compute; reflexivity).
  destruct (policy_tick reflector cell_rr) as [s' r].
  apply andb_true_iff in Hok as [[[Hr Ho1]%andb_true_iff Ho2%negb_true_iff]%andb_true_iff Ho3].
  destruct r as [[]|e]; [|discriminate]. split; [done|].
  destruct H as (_ & _ & H).
  - apply (bool_decide_unpack (NoDup (map c_id (clusters cell_db)))). vm_compute. exact Logic.I.
  - exact cell_canonical.
  - intros a Ha. discriminate Ha.
  - destruct (H eq_refl) as [H1 _]. split; [|done]. symmetry. apply H1. vm_compute. reflexivity.
Defined.

(** A host whose daemon learned the service block from another carrier: it is
    not announced again. *)
Definition host_speaker : SpeakerConfig := {|
  sp_asn := 64512; sp_router_id := 167837697; sp_reflector_address := 167837951; sp_endpoint := "" |}.
Definition wanted_nets : list (@Ipv4Net cidr_ipnet) := omap cidr_parse ["192.168.100.16/28"; "192.168.100.32/28"].
Definition fresh : @GWorld sim_gobgp := set_peers (fun _ => ∅) idle.
Lemma learned_prefixes_not_announced_witness :
  let '(d, r) := speaker_update_routes host_speaker wanted_nets fresh in
  r = Ok tt /\ gs_local d = {["192.168.100.32/28"]}.
Proof.
  pose proof (learned_prefixes_not_announced host_speaker wanted_nets fresh) as H.
  assert (is_ok (snd (speaker_update_routes host_speaker wanted_nets fresh)) = true) as Hok by (vm_compute; reflexivity).
  destruct (speaker_update_routes host_speaker wanted_nets fresh) as [d [[]|e]]; [|discriminate].
  split; [done|]. destruct H as [_ H].
  - unfold host_speaker, is_u32. simpl. lia.
  - intros t Ht. unfold fresh in Ht. cbn in Ht. by apply elem_of_empty in Ht.
  - intros p Hp.
    assert (p = "192.168.100.16/28" \/ p = "192.168.100.32/28") as [-> | ->].
    { unfold fresh, idle in Hp. cbn in Hp. destruct Hp as [Hp|Hp].
      - change (p ∈ ["192.168.100.16/28"; "192.168.100.32/28"]) in Hp. set_solver.
      - set_solver. }
    + exists (V4 3232261136), 28. split; vm_compute; reflexivity.
    + exists (V4 3232261152), 28. split; vm_compute; reflexivity.
  - etransitivity; [exact H|]. vm_compute. reflexivity.
Defined.

(** A host that only logs its commands, with a daemon that has one event: a
    route is announced and withdrawn. *)
Definition route_host : Host := {|
  World := Daemon * list (list string);
  run tool args w := ((fst w, snd w ++ [tool :: args]), printed "");
  permit _ w := (w, true);
  path_exists _ _ := false;
  create_dir_all _ w := (w, true);
  remove_dir_all _ w := (w, true);
  write_file _ _ w := (w, true);
  remove_file _ w := (w, true);
  rename_file _ _ w := (w, true);
  read_link _ _ := None;
  read_to_string _ _ := None;
  read_dir _ _ := None;
|}.
Definition route_gobgp : @HostGobgp route_host sim_gobgp :=
  @Build_HostGobgp route_host sim_gobgp (fun w => fst w) (fun d w => (d, snd w)).

Definition lb_path (withdraw : bool) : Path := {|
  pa_nlri := Some (Some (NlriPrefix {| ip_prefix_addr := "192.168.100.17"; ip_prefix_len := 32 |}));
  pa_pattrs := [Some (AttrOrigin 0); Some (AttrNextHop "10.0.0.33")];
  pa_is_withdraw := withdraw; pa_family := Some (to_family Ipv4Unicast) |}.
Definition flap : Daemon := {|
  gs_running := None; gs_peers := ∅; gs_local := ∅; gs_learned := ∅; gs_sets := []; gs_import := None;
  gs_events := [Some (Some EventPeer); Some (Some (EventTable [lb_path false; lb_path true]))] |}.
Definition flap_agent : @Agt route_host := {|
  at_world := (flap, []) : @World route_host; at_db := demo_db; at_tracked := ∅; at_pending := ∅; at_host_id := "h1";
  at_live := {[7 := {| cl_cidr := Some "10.0.0.0/24"; cl_prefixes := ∅; cl_proxy_arp_addrs := ∅; cl_vrf := None |}]};
  at_sent := [] |}.

Lemma learned_batch_reversed_witness :
  map (fun args => args !! 2%nat) (snd (at_world (fst (watch_once (HG:=route_gobgp) "" flap_agent)))) =
  [Some "del"; Some "replace"].
Proof.
  rewrite (learned_batch_reversed (HG:=route_gobgp) "" flap_agent (flap, [])
             {| ls_inner := gs_events flap; ls_buffered := [] |}) by (vm_compute; reflexivity).
  vm_compute. reflexivity.
Defined.
