(* ===== verification/RestartDemo.v ===== *)
(** * A controller that restarts

    The simulated daemon under a controller that starts, registers a host,
    creates a cluster, crashes, and starts again on what its database holds. *)

From S2P Require Import Prelude Ipv4 Ipnet CidrNet Proto Config Overcommit DbTypes JsonText Ipam Clusters Hosts Vms Teardown Outbox Schema Scheduler Ctl Wire Api Agent Service Lvm Resources Gobgp Gauges Metrics Bgp ControllerMain SimGobgp.

Definition demo_spec : ControllerSpec := {|
  csp_listen := "0.0.0.0:7443"; csp_metrics_listen := "0.0.0.0:9100"; csp_data_dir := "/var/lib/basis";
  csp_tls := {| tls_cert := "crt"; tls_key := "key"; tls_ca := "ca" |}; csp_network := example_net;
  csp_dns_servers := ["1.1.1.1"]; csp_cpu_overcommit_ratio := ratio_4;
  csp_bgp := {| bgc_asn := 64512; bgc_router_id := "10.0.0.1"; bgc_gobgpd_endpoint := "http://127.0.0.1:50051" |};
  csp_auto_reconcile_orphan_inventory := false |}.

#[local] Instance demo_yaml : ConfigYaml HostSpec ControllerSpec := {|
  CValue := ControllerSpec;
  envelope_of_yaml _ := Some {| res_api_version := RESOURCE_API_VERSION; res_kind := CONTROLLER_KIND;
                                res_name := "cell"; res_spec := demo_spec |};
  host_spec_of_yaml _ := None;
  controller_spec_of_yaml := Some |}.
#[local] Instance demo_machine : ControllerHost := {|
  config_text _ := Some "kind: BasisController"; pem_file _ := Some []; make_data_dir _ := true;
  database_opens _ := true; socket_binds _ := true |}.

Definition metrics_at_start : Series Family :=
  match metrics_new ratio_4 with Ok g => g | Err _ => fun _ => ∅ end.
Lemma demo_start db : exists w', controller_main (G:=sim_gobgp) "/etc/basis/controller.yaml" db fresh =
  (w', Ok (example_cfg, new_server db, metrics_at_start)).
Proof. eexists. vm_compute. reflexivity. Qed.

Lemma demo_starts db : life_step (G:=sim_gobgp) (Halted db) (Up example_cfg (new_server db)).
Proof. destruct (demo_start db) as [w' E]. exact (life_start demo_machine _ _ _ _ _ _ _ E). Qed.

