(* ===== verification/BasisCtl.v ===== *)
(** * The command line (crates/basis-ctl/src/main.rs, resources.rs)

    The YAML resources, their conversion to client requests, and the commands
    over the client of [Client]. The YAML library and the file system are
    parameters; what a command prints is kept as data, one [Line] for each
    [println!], without column widths. *)

From Stdlib Require Import Ascii.
From S2P Require Import Prelude Ipv4 Ipnet CidrNet Proto Config Overcommit DbTypes JsonText Ipam Clusters Hosts Vms Teardown Outbox Schema Scheduler Ctl Api Pools Text Client Provider.

(** ** Resources (resources.rs) *)

Record CliClusterSpec := {
  ccs_external_ip_pool : string;
  ccs_external_service_ips : Z;
  ccs_apiserver_visibility : ApiserverVisibility;
  ccs_trust_domain : option string;
}.
Record CliSelector := { csel_requires : list PlacementRequirement; csel_prefers : list PlacementPreference }.
Inductive CliPurpose := CliReplicated | CliGenericData.
Record CliDisk := { cld_min_size_gib : Z; cld_selector : CliSelector; cld_purpose : CliPurpose }.
Record CliMachineSpec := {
  cms_cluster : string;
  cms_cpu : Z;
  cms_memory_mib : Z;
  cms_disk_gib : Z;
  cms_image : string;
  cms_bootstrap_data_file : option string;
  cms_gpus : Z;
  cms_min_gpu_group_size : option Z;
  cms_storage_disks : list CliDisk;
  cms_placement : CliSelector;
}.
Inductive Resource :=
  | ResCluster (name : string) (spec : CliClusterSpec)
  | ResMachine (name : string) (spec : CliMachineSpec).
Record Envelope := { env_api_version : string; env_kind : string }.

Definition API_VERSION : string := "basis.dev/v1".

Definition cli_purpose_as_proto (p : CliPurpose) : DiskPurpose :=
  match p with CliReplicated => Replicated | CliGenericData => GenericData end.

(** [is_empty], [to_proto_optional] and [to_proto] of [LabelSelectorSpec]. *)
Definition selector_is_empty (s : CliSelector) : bool :=
  bool_decide (csel_requires s = []) && bool_decide (csel_prefers s = []).
Definition selector_to_proto (s : CliSelector) : LabelSelector := {|
  ls_requires := map (fun r => {| req_key := req_key r; req_values := req_values r |}) (csel_requires s);
  ls_prefers := map (fun p => {| pref_key := pref_key p; pref_value := pref_value p; pref_weight := pref_weight p |})
                    (csel_prefers s) |}.
Definition selector_to_proto_optional (s : CliSelector) : option LabelSelector :=
  if selector_is_empty s then None else Some (selector_to_proto s).

(** What the command fails with. *)
Inductive CliError :=
  | CliSelectorSyntax (expected got : string)
  | CliNoPool (host pool : string)
  | CliNoCluster (name : string)
  | CliFlagRequired (flag : string)
  | CliRead (path : string)
  | CliYaml (path : string)
  | CliEnvelope (path : string)
  | CliApiVersion (path version : string)
  | CliKind (path kind : string)
  | CliDocument
  | CliClient (e : ClientError).

(** [Path::components] as texts, a leading slash apart: empty pieces and dots
    are dropped, a leading dot is kept. *)
Definition path_pieces (p : string) : list string :=
  match split_char "/"%char p with
  | [] => []
  | x :: l => (if x =$ "" then [] else [x]) ++ select (fun y => (y <>$ "") && (y <>$ ".")) l
  end.
(** [Path::parent], written without repeated separators and inner dots; [None]
    for the root and the empty path. *)
Definition path_parent (p : string) : option string :=
  let root := if starts_with "/" p then "/" else "" in
  match reverse (path_pieces p) with
  | [] => None
  | _ :: l => Some (root +:+ join "/" (reverse l))
  end.
(** [Path::join]: an absolute path replaces, an empty base is dropped. *)
Definition path_push (base rel : string) : string :=
  if starts_with "/" rel then rel
  else if base =$ "" then rel
  else match strip_suffix "/" base with
       | Some _ => base +:+ rel
       | None => base +:+ "/" +:+ rel
       end.

(** serde_yaml_ng: the documents of a text, each parsed or not, and their
    typed readings. *)
Class Yaml := {
  YValue : Type;
  yaml_documents : string -> list (option YValue);
  yaml_is_null : YValue -> bool;
  yaml_envelope : YValue -> option Envelope;
  yaml_cluster : YValue -> option (string * CliClusterSpec);
  yaml_machine : YValue -> option (string * CliMachineSpec);
}.

Section resources.
Context `{Y : Yaml}.
(** [fs::read]. *)
Variable fs_read : string -> option (list Byte.byte).

(** [fs::read_to_string]. *)
Definition read_to_string (path : string) : option string :=
  bytes ← fs_read path;
  if utf8_ok bytes then Some (String.string_of_list_byte bytes) else None.

(** [MachineSpec::to_request]. *)
Definition to_request (m : CliMachineSpec) (name yaml_file : string) : result CliError MachineRequest :=
  let request bootstrap := {|
    mr_cluster_id := cms_cluster m; mr_name := name; mr_cpu := cms_cpu m; mr_memory_mib := cms_memory_mib m;
    mr_disk_gib := cms_disk_gib m; mr_image := cms_image m; mr_bootstrap_data := bootstrap; mr_gpus := cms_gpus m;
    mr_min_gpu_group_size := cms_min_gpu_group_size m;
    mr_storage_disks := map (fun d => {|
      disk_min_size_gib := cld_min_size_gib d; disk_selector := selector_to_proto_optional (cld_selector d);
      disk_purpose := disk_purpose_num (cli_purpose_as_proto (cld_purpose d)) |}) (cms_storage_disks m);
    mr_placement := selector_to_proto_optional (cms_placement m) |} in
  match cms_bootstrap_data_file m with
  | None => Ok (request [])
  | Some rel =>
      let abs := path_push (unwrap_or "." (path_parent yaml_file)) rel in
      match fs_read abs with
      | Some bytes => Ok (request bytes)
      | None => Err (CliRead abs)
      end
  end.

(** [load_file]: the documents in order, up to the first that is wrong. *)
Definition load_document (path : string) (doc : option YValue) : result CliError (option Resource) :=
  match doc with
  | None => Err (CliYaml path)
  | Some v =>
      if yaml_is_null v then Ok None
      else match yaml_envelope v with
      | None => Err (CliEnvelope path)
      | Some env =>
          if env_api_version env <>$ API_VERSION then Err (CliApiVersion path (env_api_version env))
          else if env_kind env =$ "Cluster" then
            match yaml_cluster v with Some (n, c) => Ok (Some (ResCluster n c)) | None => Err CliDocument end
          else if env_kind env =$ "Machine" then
            match yaml_machine v with Some (n, m) => Ok (Some (ResMachine n m)) | None => Err CliDocument end
          else Err (CliKind path (env_kind env))
      end
  end.
Fixpoint load_documents (path : string) (docs : list (option YValue)) : result CliError (list Resource) :=
  match docs with
  | [] => Ok []
  | doc :: docs' =>
      match load_document path doc with
      | Err e => Err e
      | Ok r =>
          match load_documents path docs' with
          | Err e => Err e
          | Ok out => Ok (match r with Some x => x :: out | None => out end)
          end
      end
  end.
Definition load_file (path : string) : result CliError (list Resource) :=
  match read_to_string path with
  | None => Err (CliRead path)
  | Some body => load_documents path (yaml_documents body)
  end.
End resources.

(** ** Commands (main.rs) *)

(** What is printed, a line each. *)
Inductive Line :=
  | LinePools
  | LinePool (host pool backend : string) (free_gib total_gib : Z) (labels : gmap string string)
  | LinePoolShow (host pool backend : string) (configured ready total free : Z) (labels : gmap string string)
  | LineDevice (device : string) (free_gib total_gib : Z) (physical physical_reason scheduling scheduling_reason : string)
  | LineReservation (cluster : string) (count : Z)
  | LinePoolHealth (host pool state : string)
  | LineDeviceHealth (device physical physical_reason scheduling : string)
  | LineOk
  | LineCluster (name id : string) (vni : Z) (cidr endpoint services : string)
  | LineMachine (name id ip provider : string)
  | LineMachineNoCluster (name cluster : string)
  | LineMachineNotFound (name : string)
  | LineMachineDeleted (name id : string)
  | LineClusterNotFound (name : string)
  | LineClusterDeleted (name id : string)
  | LineNoMachines
  | LineMachines
  | LineMachineRow (id name state ip host : string).

(** [parse_host_pool] and [parse_host_pool_device]. *)
Definition parse_host_pool (s : string) : result CliError (string * string) :=
  match split_once "/"%char s with
  | Some hp => Ok hp
  | None => Err (CliSelectorSyntax "<host>/<pool>" s)
  end.
Definition parse_host_pool_device (s : string) : result CliError (string * string * string) :=
  match split_once "/"%char s with
  | Some (host, rest) =>
      match split_once "/"%char rest with
      | Some (pool, device) => Ok (host, pool, device)
      | None => Err (CliSelectorSyntax "<host>/<pool>/<device>" s)
      end
  | None => Err (CliSelectorSyntax "<host>/<pool>/<device>" s)
  end.

(** The words for the states. *)
Definition physical_word (n : Z) : string :=
  match device_health_try_from n with
  | Some DeviceHealthReady => "Ready"
  | Some DeviceHealthDegraded => "Degraded"
  | Some DeviceHealthMissing => "Missing"
  | _ => "?"
  end.
Definition pool_word (n : Z) : string :=
  match pool_health_try_from n with
  | Some PoolHealthReady => "Ready"
  | Some PoolHealthDegraded => "Degraded"
  | Some PoolHealthUnhealthy => "Unhealthy"
  | _ => "?"
  end.
Definition state_name (n : Z) : string :=
  if n =? 0 then "PENDING" else if n =? 1 then "CREATING" else if n =? 2 then "RUNNING"
  else if n =? 3 then "STOPPING" else if n =? 4 then "STOPPED" else if n =? 5 then "FAILED"
  else if n =? 6 then "PENDING_TEARDOWN" else "UNKNOWN".

(** The lines of [pool_show] and [pool_health]. *)
Definition pool_line (p : PoolStatus) : Line :=
  LinePool (ps_host_id p) (ps_pool p) (ps_backend p) (ps_schedulable_free_bytes p / GIB)
           (ps_schedulable_total_bytes p / GIB) (ps_labels p).
Definition show_lines (p : PoolStatus) : list Line :=
  LinePoolShow (ps_host_id p) (ps_pool p) (ps_backend p) (ps_configured_total_bytes p / GIB)
    (ps_ready_total_bytes p / GIB) (ps_schedulable_total_bytes p / GIB) (ps_schedulable_free_bytes p / GIB)
    (ps_labels p) ::
  mjoin (map (fun d =>
    LineDevice (ds_device_id d) (ds_free_bytes d / GIB) (ds_total_bytes d / GIB) (physical_word (ds_physical d))
      (ds_physical_reason d) (ds_scheduling_state d) (ds_scheduling_reason d) ::
    map (fun r => LineReservation (crc_cluster_id r) (crc_count r)) (ds_reservations d)) (ps_devices p)).
Definition health_lines (p : PoolStatus) : list Line :=
  let pool_state := pool_word (ps_pool_health p) in
  if pool_state =$ "Ready" then []
  else LinePoolHealth (ps_host_id p) (ps_pool p) pool_state ::
    map (fun d => LineDeviceHealth (ds_device_id d) (physical_word (ds_physical d)) (ds_physical_reason d)
                                   (ds_scheduling_state d))
        (select (fun d => negb ((physical_word (ds_physical d) =$ "Ready") && (ds_scheduling_state d =$ "enabled")))
                (ps_devices p)).

Section commands.
Context `{Y : Yaml} `{B : BasisStub}.
Variable fs_read : string -> option (list Byte.byte).

(** The client, the world and what has been printed. *)
Abbreviation CliM A := (SE ((BasisClient * NWorld) * list Line) CliError A).

Definition client_do {A} (m : SE (BasisClient * NWorld) ClientError A) : CliM A :=
  fun '(cw, out) => let '(cw', r) := m cw in ((cw', out), map_err CliClient r).
Definition println (l : list Line) : CliM unit := fun '(cw, out) => ((cw, out ++ l), Ok tt).

Definition pool_list (host : option string) : CliM unit :=
  do! pools <- client_do (client_list_pools (unwrap_or "" host)) ;
  println (LinePools :: map pool_line pools).

Definition pool_show (target : string) : CliM unit :=
  do! hp <- se_of (parse_host_pool target) ;
  let '(host, pool) := hp in
  do! pools <- client_do (client_list_pools host) ;
  match List.find (fun p => ps_pool p =$ pool) pools with
  | None => se_fail (CliNoPool host pool)
  | Some p => println (show_lines p)
  end.

Definition pool_health_cmd : CliM unit :=
  do! pools <- client_do (client_list_pools "") ;
  println (mjoin (map health_lines pools)).

Definition pool_disable (target : string) (reason : option string) : CliM unit :=
  do! hpd <- se_of (parse_host_pool_device target) ;
  let '(host, pool, device) := hpd in
  run! client_do (client_set_device_scheduling_state host pool device "disabled" (unwrap_or "" reason)) ;
  println [LineOk].

Definition pool_enable (target : string) : CliM unit :=
  do! hpd <- se_of (parse_host_pool_device target) ;
  let '(host, pool, device) := hpd in
  run! client_do (client_set_device_scheduling_state host pool device "enabled" "") ;
  println [LineOk].

(** [find_cluster_id]. *)
Definition find_cluster_id (name : string) : CliM string :=
  do! known <- client_do client_list_clusters ;
  match List.find (fun c => cl_name c =$ name) known with
  | Some c => se_ret (cl_cluster_id c)
  | None => se_fail (CliNoCluster name)
  end.

(** [apply]. *)
Definition with_cluster_id (id : string) (r : MachineRequest) : MachineRequest := {|
  mr_cluster_id := id; mr_name := mr_name r; mr_cpu := mr_cpu r; mr_memory_mib := mr_memory_mib r;
  mr_disk_gib := mr_disk_gib r; mr_image := mr_image r; mr_bootstrap_data := mr_bootstrap_data r;
  mr_gpus := mr_gpus r; mr_min_gpu_group_size := mr_min_gpu_group_size r;
  mr_storage_disks := mr_storage_disks r; mr_placement := mr_placement r |}.
Definition cli_cluster_request (name : string) (c : CliClusterSpec) : ClusterRequest := {|
  clr_name := name; clr_external_ip_pool := ccs_external_ip_pool c;
  clr_external_service_ips := ccs_external_service_ips c;
  clr_apiserver_visibility := ccs_apiserver_visibility c;
  clr_trust_domain := unwrap_or "" (ccs_trust_domain c) |}.
Definition apply_resource (file : string) (r : Resource) : CliM unit :=
  match r with
  | ResCluster name c =>
      do! created <- client_do (client_create_cluster (cli_cluster_request name c)) ;
      println [LineCluster name (cc_cluster_id created) (cc_vni created) (cc_cidr created)
                 (cc_control_plane_endpoint created)
                 (if cc_service_block_cidr created =$ "" then "none" else cc_service_block_cidr created)]
  | ResMachine name m =>
      do! cluster_id <- find_cluster_id (cms_cluster m) ;
      do! req <- se_of (to_request fs_read m name file) ;
      do! created <- client_do (client_create_machine (with_cluster_id cluster_id req)) ;
      println [LineMachine name (crm_id created) (crm_ip_address created) (crm_provider_id created)]
  end.
Definition apply_file (file : string) : CliM unit :=
  do! rs <- se_of (load_file fs_read file) ;
  se_for rs (apply_resource file).

(** [delete]: the machines of the file, then its clusters. *)
Definition file_machines (rs : list Resource) : list (string * CliMachineSpec) :=
  omap (fun r => match r with ResMachine n m => Some (n, m) | _ => None end) rs.
Definition file_clusters (rs : list Resource) : list string :=
  omap (fun r => match r with ResCluster n _ => Some n | _ => None end) rs.
Definition find_cluster (known : list Cluster) (name : string) : option string :=
  cl_cluster_id <$> List.find (fun c => cl_name c =$ name) known.
Definition delete_listed_machine (known : list Cluster) (nm : string * CliMachineSpec) : CliM unit :=
  let '(name, m) := nm in
  match find_cluster known (cms_cluster m) with
  | None => println [LineMachineNoCluster name (cms_cluster m)]
  | Some cluster_id =>
      do! ms <- client_do (client_list_machines cluster_id) ;
      match List.find (fun mm => ma_name mm =$ name) ms with
      | None => println [LineMachineNotFound name]
      | Some mm =>
          run! client_do (client_delete_machine (ma_id mm)) ;
          println [LineMachineDeleted name (ma_id mm)]
      end
  end.
Definition delete_listed_cluster (known : list Cluster) (name : string) : CliM unit :=
  match find_cluster known name with
  | None => println [LineClusterNotFound name]
  | Some id =>
      run! client_do (client_delete_cluster id) ;
      println [LineClusterDeleted name id]
  end.
Definition delete_file (file : string) : CliM unit :=
  do! rs <- se_of (load_file fs_read file) ;
  do! known <- client_do client_list_clusters ;
  run! se_for (file_machines rs) (delete_listed_machine known) ;
  se_for (file_clusters rs) (delete_listed_cluster known).

Definition get_machines (cluster : option string) : CliM unit :=
  do! ms <- client_do (client_list_machines (unwrap_or "" cluster)) ;
  match ms with
  | [] => println [LineNoMachines]
  | _ => println (LineMachines ::
           map (fun m => LineMachineRow (ma_id m) (ma_name m) (state_name (ma_state m)) (ma_ip_address m) (ma_host m)) ms)
  end.

(** [Command], and [main]: connect, then run the one command. *)
Inductive Command :=
  | CmdApply (file : string)
  | CmdDelete (file : string)
  | CmdGetMachines (cluster : option string)
  | CmdPoolList (host : option string)
  | CmdPoolShow (target : string)
  | CmdPoolHealth
  | CmdPoolDisable (target : string) (reason : option string)
  | CmdPoolEnable (target : string).
Record CliArgs := {
  cli_endpoint : option string;
  cli_tls_cert : option string;
  cli_tls_key : option string;
  cli_tls_ca : option string;
  cli_cmd : Command;
}.
Definition run_command (c : Command) : CliM unit :=
  match c with
  | CmdApply file => apply_file file
  | CmdDelete file => delete_file file
  | CmdGetMachines cluster => get_machines cluster
  | CmdPoolList host => pool_list host
  | CmdPoolShow target => pool_show target
  | CmdPoolHealth => pool_health_cmd
  | CmdPoolDisable target reason => pool_disable target reason
  | CmdPoolEnable target => pool_enable target
  end.
(** [connect], with [TlsConfig::load_identity] (crates/basis-common/src/tls.rs). *)
Definition read_pem (path : string) : result CliError (list Byte.byte) := ok_or (CliRead path) (fs_read path).
Definition load_identity (cert key ca : string) : result CliError TlsIdentity :=
  match read_pem cert with
  | Err e => Err e
  | Ok c => match read_pem key with
    | Err e => Err e
    | Ok k => match read_pem ca with
      | Err e => Err e
      | Ok a => Ok {| ti_cert := c; ti_key := k; ti_ca := a |}
      end
    end
  end.
Definition connect (args : CliArgs) : result CliError BasisClient :=
  match cli_endpoint args, cli_tls_cert args, cli_tls_key args, cli_tls_ca args with
  | None, _, _, _ => Err (CliFlagRequired "--endpoint")
  | _, None, _, _ => Err (CliFlagRequired "--tls-cert")
  | _, _, None, _ => Err (CliFlagRequired "--tls-key")
  | _, _, _, None => Err (CliFlagRequired "--tls-ca")
  | Some endpoint, Some cert, Some key, Some ca =>
      match load_identity cert key ca with
      | Err e => Err e
      | Ok identity => Ok (new_client endpoint identity)
      end
  end.
Definition ctl_main (args : CliArgs) (w : NWorld) : NWorld * list Line * result CliError unit :=
  match connect args with
  | Err e => (w, [], Err e)
  | Ok c =>
      let '(((_, w'), out), r) := run_command (cli_cmd args) ((c, w), []) in (w', out, r)
  end.
End commands.
