(* ===== verification/ClientFacts.v ===== *)
(** * What the client guarantees

    The time the retry loop can take, what it returns, and the client running
    against the controller of [Api]: the stub whose calls are the handlers. *)

From S2P Require Import Prelude Ipv4 Ipnet CidrNet Proto Config Overcommit DbTypes JsonText Ipam Clusters Hosts Vms Teardown Outbox Schema Scheduler Ctl Wire Api Pools Agent Service Machines Client.

(** ** The retry loop *)

(** Time spent in [sleep], which connecting and calling do not count. *)
Class Stopwatch `(B : BasisStub) := {
  slept : NWorld -> Z;
  slept_pause ms w : slept (pause ms w) = slept w + ms;
  slept_connect ch w : slept (fst (tls_connect ch w)) = slept w;
}.

Section retry.
Context `{W : Stopwatch}.

Lemma connected_client_slept c w :
  let '((_, w'), _) := connected_client (c, w) in slept w' = slept w.
Proof.
  unfold connected_client. destruct (bc_channel c); [done|]. destruct (negb _); [done|].
  pose proof (slept_connect {| ch_endpoint := bc_endpoint c; ch_identity := bc_identity c |} w) as H.
  by destruct (tls_connect _ w) as [w' []].
Qed.

(** The longest sequence of pauses with [n] attempts left. *)
Fixpoint budget (n : nat) (delay : Z) : Z :=
  match n with
  | S (S _ as n') => delay + budget n' (Z.min (delay * 2) 15000)
  | _ => 0
  end.

Lemma budget_nonneg n delay : 0 <= delay -> 0 <= budget n delay.
Proof.
  revert delay. induction n as [|[|n] IH]; intros delay Hd; [done|done|].
  change (budget (S (S n)) delay) with (delay + budget (S n) (Z.min (delay * 2) 15000)).
  specialize (IH (Z.min (delay * 2) 15000) ltac:(lia)). lia.
Qed.

Lemma call_loop_slept {T} n delay last (f : Channel -> NWorld -> NWorld * result StatusCode T) c w :
  (forall ch w, slept (fst (f ch w)) = slept w) -> 0 <= delay ->
  let '((_, w'), r) := call_loop n delay last f (c, w) in
  slept w <= slept w' <= slept w + budget n delay /\
  ((0 < n)%nat -> r = Err (ErrRpc (Server CodeUnavailable)) -> slept w' = slept w + budget n delay).
Proof.
  intros Hf. revert delay last c w. induction n as [|n IH]; intros delay last c w Hd; [simpl; split; [lia|intros; lia]|]. cbn [call_loop].
  unfold se_bind. pose proof (connected_client_slept c w) as Hc.
  pose proof (budget_nonneg (S n) delay Hd) as Hb.
  destruct (connected_client (c, w)) as [[c1 w1] [ch|e]] eqn:Ec.
  2:{ split; [lia|]. intros _ [= ->]. exfalso. unfold connected_client in Ec. destruct (bc_channel c); [done|].
      destruct (negb _); [done|]. by destruct (tls_connect _ w) as [? []]. }
  specialize (Hf ch w1). destruct (f ch w1) as [w2 [resp|st]]; simpl in Hf.
  { split; [lia|done]. }
  destruct (bool_decide (st = Server CodeUnavailable)) eqn:Es.
  - destruct n as [|n].
    { simpl. rewrite Hf, Hc. split; [lia|]. intros _ _. lia. }
    specialize (IH (Z.min (delay * 2) 15000) (Some st) (if drops_channel st then with_channel None c1 else c1)
                  (pause delay w2) ltac:(lia)).
    cbn [andb negb Nat.eqb].
    change (budget (S (S n)) delay) with (delay + budget (S n) (Z.min (delay * 2) 15000)).
    destruct (call_loop _ _ _ f _) as [[c3 w3] r]. rewrite slept_pause in IH. destruct IH as [IH1 IH2].
    split; [lia|]. intros _ Hr. specialize (IH2 ltac:(lia) Hr). lia.
  - cbn [andb]. split; [lia|]. intros _ [= ->]. by apply bool_decide_eq_false in Es.
Qed.

(** The retry budget. Whatever the controller answers, a call spends at most
    7.5 seconds asleep (0.5, 1, 2 and 4 between its five attempts), exactly that
    when it gives up on [Unavailable]; the cap of 15 seconds on a pause is never
    reached. *)
Theorem call_retry_budget {T} (f : Channel -> NWorld -> NWorld * result StatusCode T) c w :
  (forall ch w, slept (fst (f ch w)) = slept w) ->
  let '((_, w'), r) := call f (c, w) in
  slept w <= slept w' <= slept w + 7500 /\
  (r = Err (ErrRpc (Server CodeUnavailable)) -> slept w' = slept w + 7500).
Proof.
  intros Hf. pose proof (call_loop_slept MAX_ATTEMPTS 500 None f c w Hf ltac:(lia)) as H.
  change (budget MAX_ATTEMPTS 500) with 7500 in H. unfold call.
  destruct (call_loop _ _ _ f (c, w)) as [[c' w'] r]. destruct H as [H1 H2].
  split; [done|]. intros. apply H2; [unfold MAX_ATTEMPTS; lia|done].
Qed.
End retry.

(** What a call returns is what its last attempt returned, from a world that
    still has what connecting, calling and waiting keep. *)
Lemma call_last `{B : BasisStub} {T} (I : NWorld -> Prop) (f : Channel -> NWorld -> NWorld * result StatusCode T) c w c' w' r :
  (forall ch w, I w -> I (fst (tls_connect ch w))) -> (forall ms w, I w -> I (pause ms w)) ->
  (forall ch w, I w -> I (fst (f ch w))) ->
  I w -> call f (c, w) = ((c', w'), r) ->
  I w' /\
  match r with
  | Ok a => exists ch w0, I w0 /\ f ch w0 = (w', Ok a)
  | Err (ErrRpc st) => exists ch w0, I w0 /\ f ch w0 = (w', Err st)
  | Err _ => True
  end.
Proof.
  intros Hc Hp Hf. unfold call. assert (0 < MAX_ATTEMPTS)%nat as Hn by (unfold MAX_ATTEMPTS; lia). revert Hn.
  generalize MAX_ATTEMPTS as n, 500 as delay, (None : option StatusCode) as last. intros n. revert c w.
  induction n as [|n IH]; intros c w delay last Hn Hw; [lia|]. cbn [call_loop]. unfold se_bind.
  assert (match connected_client (c, w) with
          | ((_, w1), Ok _) => I w1 | ((_, w1), Err e) => I w1 /\ forall st, e <> ErrRpc st end) as H1.
  { unfold connected_client. destruct (bc_channel c); [done|]. destruct (negb _); [done|].
    specialize (Hc {| ch_endpoint := bc_endpoint c; ch_identity := bc_identity c |} w Hw).
    by destruct (tls_connect _ w) as [w1 []]. }
  destruct (connected_client (c, w)) as [[c1 w1] [ch|e]].
  2:{ destruct H1 as [H1 He]. intros [= <- <- <-]. split; [done|]. destruct e; naive_solver. }
  specialize (Hf ch w1 H1). destruct (f ch w1) as [w2 [a|st]] eqn:Ef; simpl in Hf.
  { intros [= <- <- <-]. split; [done|]. by exists ch, w1. }
  destruct (bool_decide _ && _) eqn:Eb; [|intros [= <- <- <-]; split; [done|]; by exists ch, w1].
  apply IH; [|by apply Hp]. apply andb_true_iff in Eb as [_ Eb]. destruct n; [done|lia].
Qed.

(** ** The controller behind the client *)

Section against_controller.
Context `{I : Ipnet} `{J : DbJson} `{S : Sqlite} `{HO : HashOrder} `{P : Prost}.
Variable cfg : CtlConfig.
(** What the other tasks of the controller do during the k-th call and in the
    pause after it, fresh ids and times, who a channel authenticates as, and
    whether a connection succeeds. *)
Variable others : nat -> nat -> Ctl -> Ctl.
Variable idle : nat -> Ctl -> Ctl.
Variables uuid now : nat -> nat -> string.
Variable peer_of : Channel -> Peer.
Variable reachable : Channel -> bool.

Record Net := { nt_ctl : Ctl; nt_calls : nat; nt_slept : Z }.

Definition ctl_call {A} (m : nat -> SE Ctl Code A) (n : Net) : Net * result StatusCode A :=
  let '(s, r) := m (nt_calls n) (nt_ctl n) in
  ({| nt_ctl := s; nt_calls := Datatypes.S (nt_calls n); nt_slept := nt_slept n |}, map_err Server r).

Definition ctl_stub : BasisStub := {|
  NWorld := Net;
  uri_ok u := u <>$ "";
  tls_connect ch n := (n, reachable ch);
  pause ms n := {| nt_ctl := idle (nt_calls n) (nt_ctl n); nt_calls := nt_calls n; nt_slept := nt_slept n + ms |};
  stub_create_cluster req ch :=
    ctl_call (fun k => create_cluster cfg (others k) (peer_of ch) req (uuid k) (now k));
  stub_delete_cluster id ch := ctl_call (fun k => api_delete_cluster cfg (peer_of ch) id (now k 0%nat));
  stub_get_cluster id ch := ctl_call (fun _ => api_get_cluster (peer_of ch) id);
  stub_list_clusters ch := ctl_call (fun _ => api_list_clusters (peer_of ch));
  stub_create_machine req ch :=
    ctl_call (fun k => create_machine cfg (others k) (peer_of ch) req (uuid k 0%nat) (now k 0%nat) (now k 1%nat));
  stub_get_machine id ch := ctl_call (fun _ => get_machine (peer_of ch) id);
  stub_delete_machine id ch := ctl_call (fun k => delete_machine cfg (peer_of ch) id (now k 0%nat));
  stub_list_machines id ch := ctl_call (fun _ => list_machines (peer_of ch) id);
  stub_list_pools h ch := ctl_call (fun _ => list_pools (peer_of ch) h);
  stub_set_device_scheduling_state h p d st re ch :=
    ctl_call (fun _ => api_set_device_scheduling_state (peer_of ch) h p d st re);
|}.

#[local] Existing Instance ctl_stub.

#[refine] Definition ctl_stopwatch : Stopwatch ctl_stub := {| slept := nt_slept |}.
Proof. all: done. Defined.

(** A client that can connect does. *)
Definition client_channel (c : BasisClient) : Channel :=
  match bc_channel c with
  | Some ch => ch
  | None => {| ch_endpoint := bc_endpoint c; ch_identity := bc_identity c |}
  end.
Definition connectable (c : BasisClient) : Prop :=
  (bc_endpoint c <>$ "") = true /\
  reachable {| ch_endpoint := bc_endpoint c; ch_identity := bc_identity c |} = true.

Lemma connected c n : connectable c ->
  connected_client (c, n : NWorld) = ((with_channel (Some (client_channel c)) c, n), Ok (client_channel c)).
Proof.
  intros [Hu Hr]. unfold connected_client, client_channel. destruct c as [e i [ch|]]; simpl in *; [done|].
  rewrite Hu. simpl. by rewrite Hr.
Qed.

(** C37: a retry adopts what a failed attempt left behind. When the first attempt
    of [create_machine] is answered with [Unavailable], as a host that sheds
    load makes the controller do, and it leaves a row with the requested name
    (it does: one on its way out), the client's own retry is answered with that
    row and the caller is told that the machine was created. *)
Theorem client_adopts_leftover req c n s1 row cl :
  let ch := client_channel c in
  let fresh := {| ch_endpoint := bc_endpoint c; ch_identity := bc_identity c |} in
  connectable c -> peer_of fresh = PeerNamed CAPI_PROVIDER_IDENTITY ->
  create_machine cfg (others (nt_calls n)) (peer_of ch) (machine_request req) (uuid (nt_calls n) 0%nat)
    (now (nt_calls n) 0%nat) (now (nt_calls n) 1%nat) (nt_ctl n) = (s1, Err CodeUnavailable) ->
  let s2 := idle (Datatypes.S (nt_calls n)) s1 in
  purposes_ok (machine_request req) = true -> cl ∈ clusters (ctl_db s2) -> c_id cl = mr_cluster_id req ->
  select1 (fun v => (vm_cluster_id v =$ mr_cluster_id req) && (vm_name v =$ mr_name req)) (vms (ctl_db s2)) = Some row ->
  vm_id row <> "" -> vm_ip_address row <> "" ->
  exists c' n', client_create_machine req (c, n : NWorld) =
    ((c', n'), Ok {| crm_id := vm_id row; crm_provider_id := provider_id (vm_id row);
                     crm_ip_address := vm_ip_address row |}) /\
  nt_ctl n' = s2.
Proof.
  intros ch fresh Hc Hp H1 s2 Hpur Hcl Hid Hrow Hne Hip.
  unfold client_create_machine, se_bind, call, MAX_ATTEMPTS. cbn [call_loop]. unfold se_bind.
  rewrite (connected c n Hc). fold ch. unfold stub_create_machine at 1. cbn [ctl_stub]. unfold ctl_call at 1.
  rewrite H1. simpl map_err. cbv iota beta zeta. rewrite bool_decide_eq_true_2 by done. cbn [andb negb Nat.eqb].
  set (c1 := if drops_channel _ then _ else _).
  assert (c1 = with_channel None c) as -> by reflexivity.
  set (n1 := pause 500 _).
  assert (connectable (with_channel None c)) as Hc1 by exact Hc.
  rewrite (connected _ n1 Hc1).
  change (client_channel (with_channel None c)) with fresh.
  unfold stub_create_machine at 1. cbn [ctl_stub]. unfold ctl_call at 1. rewrite Hp.
  erewrite (create_machine_existing cfg _ (machine_request req) _ _ _ (nt_ctl n1) cl row); [|done..].
  simpl map_err. cbv iota beta zeta. unfold vm_to_create_response. cbn [cmr_id cmr_provider_id cmr_ip_address].
  rewrite (proj2 (String.eqb_neq _ _) Hne). unfold provider_id at 1. simpl String.eqb.
  rewrite (proj2 (String.eqb_neq _ _) Hip). eexists _, _. split; reflexivity.
Qed.
End against_controller.

(** ** Runs *)

(** The host reports that it sheds load while the first call waits. *)
Definition sheds_load (vm : string) (call n : nat) (s : Ctl) : Ctl :=
  if (call =? 0)%nat && (n =? 11)%nat
  then fst (handle_agent_message "h1" (MsgVmState {| vr_vm_id := vm; vr_state := 5; vr_error_message := "lvm busy";
                                                     vr_transient := true |}) "t3" s)
  else s.
Definition web_request : MachineRequest :=
  let r := example_machine_req "web" in {|
  mr_cluster_id := cm_cluster_id r; mr_name := cm_name r; mr_cpu := cm_cpu r; mr_memory_mib := cm_memory_mib r;
  mr_disk_gib := cm_disk_gib r; mr_image := cm_image r; mr_bootstrap_data := cm_bootstrap_data r;
  mr_gpus := cm_gpus r; mr_min_gpu_group_size := cm_gpu_constraints r; mr_storage_disks := cm_storage_disks r;
  mr_placement := cm_placement r |}.
Definition demo_client : BasisClient :=
  new_client "https://controller:7443" {| ti_cert := []; ti_key := []; ti_ca := [] |}.
Definition demo_net_of (s : Ctl) : Net := {| nt_ctl := s; nt_calls := 0; nt_slept := 0 |}.
Definition demo_stub : BasisStub :=
  ctl_stub example_cfg (sheds_load "vm1") (fun _ s => s) (fun _ _ => "vm1") (fun _ _ => "t4") (fun _ => capi) (fun _ => true).

(** The caller is told that a machine was created that is being torn down. *)
Lemma client_adopts_leftover_witness :
  let '((_, n), r) := client_create_machine (B:=demo_stub) web_request (demo_client, demo_net_of run_cluster) in
  r = Ok {| crm_id := "vm1"; crm_provider_id := "basis://vm1"; crm_ip_address := "10.0.0.33" |} /\
  map vm_state (vms (ctl_db (nt_ctl n))) = [VM_STATE_PENDING_TEARDOWN].
Proof.
  set (s1 := fst (create_machine example_cfg (sheds_load "vm1" 0) capi (machine_request web_request) "vm1" "t4" "t4" run_cluster)).
  assert (exists row, select1 (fun v => (vm_cluster_id v =$ mr_cluster_id web_request) && (vm_name v =$ mr_name web_request))
            (vms (ctl_db s1)) = Some row) as [row Hrow] by (eexists; vm_compute; reflexivity).
  assert (exists cl, head (clusters (ctl_db s1)) = Some cl) as [cl Hcl] by (eexists; vm_compute; reflexivity).
  assert (vm_id row = "vm1" /\ vm_ip_address row = "10.0.0.33") as [Hid Hip]
    by (vm_compute in Hrow; injection Hrow as <-; split; reflexivity).
  destruct (client_adopts_leftover example_cfg (sheds_load "vm1") (fun _ s => s) (fun _ _ => "vm1") (fun _ _ => "t4")
              (fun _ => capi) (fun _ => true) web_request demo_client (demo_net_of run_cluster) s1 row cl)
    as (c' & n' & Hr & Hs).
  - split; reflexivity.
  - reflexivity.
  - vm_compute. reflexivity.
  - vm_compute. reflexivity.
  - destruct (clusters (ctl_db s1)) as [|x l]; [discriminate|]. injection Hcl as ->. left.
  - vm_compute in Hcl. injection Hcl as <-. reflexivity.
  - exact Hrow.
  - by rewrite Hid.
  - by rewrite Hip.
  - rewrite Hid, Hip in Hr.
    assert (client_create_machine (B:=demo_stub) web_request (demo_client, demo_net_of run_cluster) =
            ((c', n'), Ok {| crm_id := "vm1"; crm_provider_id := "basis://vm1"; crm_ip_address := "10.0.0.33" |})) as -> by exact Hr.
    split; [reflexivity|]. rewrite Hs. vm_compute. reflexivity.
Defined.

Lemma call_retry_budget_witness :
  let '((_, n), r) := call (B:=demo_stub) (fun _ n => (n, Err (Server CodeUnavailable) : result StatusCode unit))
                        (demo_client, demo_net_of ctl_init) in
  r = Err (ErrRpc (Server CodeUnavailable)) /\ nt_slept n = 7500.
Proof.
  pose proof (call_retry_budget (W:=ctl_stopwatch example_cfg (sheds_load "vm1") (fun _ s => s) (fun _ _ => "vm1")
    (fun _ _ => "t4") (fun _ => capi) (fun _ => true)) (fun _ n => (n, Err (Server CodeUnavailable) : result StatusCode unit))
    demo_client (demo_net_of ctl_init) ltac:(intros; reflexivity)) as H.
  assert (snd (call (B:=demo_stub) (fun _ n => (n, Err (Server CodeUnavailable) : result StatusCode unit))
                (demo_client, demo_net_of ctl_init)) = Err (ErrRpc (Server CodeUnavailable))) as Hr by (vm_compute; reflexivity).
  unfold demo_stub in *. destruct (call _ _) as [[c' n] r]. simpl in Hr. split; [done|]. destruct H as [_ H]. by apply H.
Defined.
