(* ===== verification/BasisCtlFacts.v ===== *)
(** * What the command line sends

    A stub that records what goes over it, and which calls [delete] makes:
    those for what the file names and the controller listed, and no other. *)

From Stdlib Require Import Ascii.
From S2P Require Import Prelude Ipv4 Ipnet CidrNet Proto Config Overcommit DbTypes JsonText Ipam Clusters Hosts Vms Teardown Outbox Schema Scheduler Ctl Wire Api Pools Agent Service Machines Text Client Provider Triple BasisCtl ClientFacts.

(** ** Selectors *)

(** A selector names its device whatever the device is called: a device path
    with slashes of its own is not cut. *)
Lemma parse_host_pool_device_print host pool device :
  free_of "/"%char host = true -> free_of "/"%char pool = true ->
  parse_host_pool_device (host +:+ "/" +:+ pool +:+ "/" +:+ device) = Ok (host, pool, device).
Proof.
  intros Hh Hp. change ("/" +:+ pool +:+ "/" +:+ device) with (String "/"%char (pool +:+ String "/"%char device)).
  unfold parse_host_pool_device. rewrite (split_once_app "/"%char host) by done.
  by rewrite (split_once_app "/"%char pool).
Qed.

(** ** A recorded line *)

Inductive Sent :=
  | ListedClusters (cs : list Cluster)
  | ListedMachines (cluster_id : string) (ms : list Machine)
  | SentCreateCluster (req : CreateClusterRequest)
  | SentDeleteCluster (id : string)
  | SentCreateMachine (req : CreateMachineRequest)
  | SentDeleteMachine (id : string)
  | SentScheduling (host pool device state reason : string).

Section recording.
Variable B : BasisStub.

Definition record {A} (sent : result StatusCode A -> list Sent) (f : Channel -> @NWorld B -> @NWorld B * result StatusCode A)
    (ch : Channel) (wl : @NWorld B * list Sent) : (@NWorld B * list Sent) * result StatusCode A :=
  let '(w', r) := f ch (fst wl) in ((w', snd wl ++ sent r), r).
(** What a read returned, when it returned. *)
Definition read_as {A} (e : A -> Sent) (r : result StatusCode A) : list Sent :=
  match r with Ok a => [e a] | Err _ => [] end.

(** The same stub, keeping a list of the calls that change something and of
    the answers that were listed. *)
Definition recording : BasisStub := {|
  NWorld := @NWorld B * list Sent;
  uri_ok := @uri_ok B;
  tls_connect ch wl := let '(w', ok) := @tls_connect B ch (fst wl) in ((w', snd wl), ok);
  pause ms wl := (@pause B ms (fst wl), snd wl);
  stub_create_cluster req := record (fun _ => [SentCreateCluster req]) (stub_create_cluster req);
  stub_delete_cluster id := record (fun _ => [SentDeleteCluster id]) (stub_delete_cluster id);
  stub_get_cluster id := record (fun _ => []) (stub_get_cluster id);
  stub_list_clusters := record (read_as ListedClusters) stub_list_clusters;
  stub_create_machine req := record (fun _ => [SentCreateMachine req]) (stub_create_machine req);
  stub_get_machine id := record (fun _ => []) (stub_get_machine id);
  stub_delete_machine id := record (fun _ => [SentDeleteMachine id]) (stub_delete_machine id);
  stub_list_machines id := record (read_as (ListedMachines id)) (stub_list_machines id);
  stub_list_pools h := record (fun _ => []) (stub_list_pools h);
  stub_set_device_scheduling_state h p d st re :=
    record (fun _ => [SentScheduling h p d st re]) (stub_set_device_scheduling_state h p d st re);
|}.
End recording.

Section sends.
Context `{Y : Yaml}.
Variable B : BasisStub.
#[local] Instance recorded : BasisStub := recording B.

Abbreviation CliState := ((BasisClient * @NWorld recorded) * list Line)%type.
Definition log_of (s : CliState) : list Sent := snd (snd (fst s)).

(** A call over the recorded line: whatever the attempts, the log grows by
    what they recorded. *)
Lemma call_recorded {A} (I : list Sent -> Prop) (J : A -> list Sent -> Prop) sent
    (f : Channel -> @NWorld B -> @NWorld B * result StatusCode A) :
  (forall log r, I log -> I (log ++ sent r)) -> (forall log a, I log -> J a (log ++ sent (Ok a))) ->
  triple (fun s : CliState => I (log_of s)) (client_do (call (record B sent f)))
    (fun a s => J a (log_of s)) (fun s => I (log_of s)).
Proof.
  intros HI HJ [[c w] out] Hs. unfold client_do.
  destruct (call (B:=recorded) (record B sent f) (c, w)) as [[c' w'] r] eqn:Ec.
  apply (call_last (B:=recorded) (fun w => I (snd w))) in Ec as [HI' Hr].
  - destruct r as [a|e]; [|exact HI']. destruct Hr as (ch & w0 & H0 & Hf). unfold record in Hf.
    destruct (f ch (fst w0)) as [w1 r1]. injection Hf as <- ->. apply HJ, H0.
  - intros ch w0 H0. simpl. by destruct (@tls_connect B ch (fst w0)).
  - done.
  - intros ch w0 H0. unfold record. destruct (f ch (fst w0)) as [w1 r1]. by apply HI.
  - exact Hs.
Qed.

Lemma println_log (P : list Sent -> Prop) l :
  triple (fun s : CliState => P (log_of s)) (println l) (fun _ s => P (log_of s)) (fun s => P (log_of s)).
Proof. by intros [cw out]. Qed.

(** ** Delete *)

Variables (rs : list Resource).

(** An entry of the log that the file accounts for. *)
Definition justified (log : list Sent) (e : Sent) : Prop :=
  match e with
  | ListedClusters _ | ListedMachines _ _ => True
  | SentDeleteMachine id => exists known name m cid ms mm,
      ListedClusters known ∈ log /\ (name, m) ∈ file_machines rs /\ find_cluster known (cms_cluster m) = Some cid /\
      ListedMachines cid ms ∈ log /\ mm ∈ ms /\ ma_name mm = name /\ ma_id mm = id
  | SentDeleteCluster id => exists known name,
      ListedClusters known ∈ log /\ name ∈ file_clusters rs /\ find_cluster known name = Some id
  | _ => False
  end.
(** Every entry is accounted for, and [seen] are among them. *)
Definition accounted (seen log : list Sent) : Prop := Forall (justified log) log /\ Forall (.∈ log) seen.

Lemma justified_mono log log' e : log ⊆ log' -> justified log e -> justified log' e.
Proof. intros Hs. destruct e; simpl; naive_solver. Qed.

Lemma accounted_extend seen log e :
  accounted seen log -> justified (log ++ [e]) e -> accounted (e :: seen) (log ++ [e]).
Proof.
  intros [Hj Hs] He. split.
  - apply Forall_app. split; [|by constructor]. eapply Forall_impl; [exact Hj|]. intros x.
    apply justified_mono. set_solver.
  - constructor; [set_solver|]. eapply Forall_impl; [exact Hs|]. set_solver.
Qed.
Lemma accounted_less seen seen' log : seen' ⊆ seen -> accounted seen log -> accounted seen' log.
Proof.
  intros Hs [Hj H]. split; [done|]. rewrite Forall_forall in H |- *. auto.
Qed.
Lemma accounted_seen seen log e : accounted seen log -> e ∈ seen -> e ∈ log.
Proof. intros [_ H] He. rewrite Forall_forall in H. by apply H. Qed.

Lemma triple_forget {A} seen P (m : SE CliState CliError A) Q :
  triple P m Q (fun s => accounted seen (log_of s)) -> triple P m Q (fun s => accounted [] (log_of s)).
Proof.
  apply triple_post; [done|]. intros s. apply accounted_less. set_solver.
Qed.

(** A read: on success its answer is in the log. *)
Lemma listed {A} (entry : A -> Sent) seen (f : Channel -> @NWorld B -> @NWorld B * result StatusCode A) :
  (forall log a, justified log (entry a)) ->
  triple (fun s : CliState => accounted seen (log_of s)) (client_do (call (record B (read_as entry) f)))
    (fun a s => accounted (entry a :: seen) (log_of s)) (fun s => accounted seen (log_of s)).
Proof.
  intros He. apply (call_recorded (accounted seen) (fun a => accounted (entry a :: seen))).
  - intros log [a|e] H; simpl; [|by rewrite app_nil_r].
    eapply accounted_less; [|by apply accounted_extend]. set_solver.
  - intros log a H. by apply accounted_extend.
Qed.

(** A call that changes something and that the answers seen so far justify. *)
Lemma sent_justified (e : Sent) seen (f : Channel -> @NWorld B -> @NWorld B * result StatusCode unit) :
  (forall log, accounted seen log -> justified log e) ->
  triple (fun s : CliState => accounted seen (log_of s))
    (client_do (run! call (record B (fun _ => [e]) f) ; se_ret tt))
    (fun _ s => accounted (e :: seen) (log_of s)) (fun s => accounted seen (log_of s)).
Proof.
  intros He. assert (forall log, accounted seen log -> accounted (e :: seen) (log ++ [e])) as Hx.
  { intros log H. apply accounted_extend; [done|]. eapply justified_mono; [|by apply He]. set_solver. }
  assert (forall log (r : result StatusCode unit), accounted seen log -> accounted seen (log ++ [e])) as Hy.
  { intros log r H. eapply accounted_less; [|by apply Hx]. set_solver. }
  intros s Hs. pose proof (call_recorded (accounted seen) (fun _ => accounted (e :: seen)) (fun _ => [e]) f
    Hy (fun log _ => Hx log) s Hs) as H. destruct s as [[c w] out]. unfold client_do, se_bind in *.
  destruct (call (B:=recorded) _ (c, w)) as [[c' w'] [[]|er]]; exact H.
Qed.

(** What [delete] owes for a machine and for a cluster of the file. *)
Definition machine_handled (known : list Cluster) (log : list Sent) (nm : string * CliMachineSpec) : Prop :=
  match find_cluster known (cms_cluster (snd nm)) with
  | None => True
  | Some cid => exists ms, ListedMachines cid ms ∈ log /\
      match List.find (fun mm => ma_name mm =$ fst nm) ms with
      | None => True
      | Some mm => SentDeleteMachine (ma_id mm) ∈ log
      end
  end.
Definition cluster_handled (known : list Cluster) (log : list Sent) (name : string) : Prop :=
  match find_cluster known name with None => True | Some id => SentDeleteCluster id ∈ log end.

Lemma delete_machine_accounted known seen nm :
  nm ∈ file_machines rs -> ListedClusters known ∈ seen ->
  triple (fun s : CliState => accounted seen (log_of s)) (delete_listed_machine known nm)
    (fun _ s => exists seen', seen ⊆ seen' /\ accounted seen' (log_of s) /\ machine_handled known seen' nm)
    (fun s => accounted [] (log_of s)).
Proof.
  intros Hin Hk. destruct nm as [name m]. unfold delete_listed_machine, machine_handled. simpl fst. simpl snd.
  destruct (find_cluster known (cms_cluster m)) as [cid|] eqn:Ec.
  2:{ intros [cw out] Hs. by exists seen. }
  eapply triple_bind.
  { apply (triple_forget seen). by apply (listed (ListedMachines cid)). }
  intros ms. cbv beta. destruct (List.find _ ms) as [mm|] eqn:Em.
  2:{ intros [cw out] Hs. exists (ListedMachines cid ms :: seen). split_and!; [set_solver|exact Hs|].
      exists ms. rewrite Em. split; [left|done]. }
  apply List.find_some in Em as Hm. destruct Hm as [Hm%list_elem_of_In Hn%String.eqb_eq].
  eapply triple_bind.
  { apply (triple_forget (ListedMachines cid ms :: seen)).
    apply (sent_justified (SentDeleteMachine (ma_id mm))). intros log Ha.
    exists known, name, m, cid, ms, mm. split_and!; try done; (eapply accounted_seen; [exact Ha|set_solver]). }
  intros []. intros [cw out] Hs. exists (SentDeleteMachine (ma_id mm) :: ListedMachines cid ms :: seen).
  split_and!; [set_solver|exact Hs|]. exists ms. rewrite Em. set_solver.
Qed.

Lemma delete_cluster_accounted known seen name :
  name ∈ file_clusters rs -> ListedClusters known ∈ seen ->
  triple (fun s : CliState => accounted seen (log_of s)) (delete_listed_cluster known name)
    (fun _ s => exists seen', seen ⊆ seen' /\ accounted seen' (log_of s) /\ cluster_handled known seen' name)
    (fun s => accounted [] (log_of s)).
Proof.
  intros Hin Hk. unfold delete_listed_cluster, cluster_handled.
  destruct (find_cluster known name) as [id|] eqn:Ec.
  2:{ intros [cw out] Hs. by exists seen. }
  eapply triple_bind.
  { apply (triple_forget seen).
    apply (sent_justified (SentDeleteCluster id)). intros log Ha.
    exists known, name. split_and!; try done. eapply accounted_seen; [exact Ha|set_solver]. }
  intros []. intros [cw out] Hs. exists (SentDeleteCluster id :: seen). split_and!; [set_solver|exact Hs|left].
Qed.

Lemma machine_handled_mono known log log' nm : log ⊆ log' -> machine_handled known log nm -> machine_handled known log' nm.
Proof.
  intros Hs. unfold machine_handled. destruct (find_cluster _ _); [|done]. intros (ms & Hm & H). exists ms.
  split; [by apply Hs|]. destruct (List.find _ _); [by apply Hs|done].
Qed.
Lemma cluster_handled_mono known log log' n : log ⊆ log' -> cluster_handled known log n -> cluster_handled known log' n.
Proof. intros Hs. unfold cluster_handled. destruct (find_cluster _ _); [apply Hs|done]. Qed.

(** A loop over part of the file: each step is accounted for and handled. *)
Lemma each_handled {A} (body : A -> SE CliState CliError unit) (handled : list Sent -> A -> Prop) seen0 (all : list A) :
  (forall log log' x, log ⊆ log' -> handled log x -> handled log' x) ->
  (forall x seen, x ∈ all -> seen0 ⊆ seen ->
     triple (fun s : CliState => accounted seen (log_of s)) (body x)
       (fun _ s => exists seen', seen ⊆ seen' /\ accounted seen' (log_of s) /\ handled seen' x)
       (fun s => accounted [] (log_of s))) ->
  triple (fun s : CliState => exists seen, seen0 ⊆ seen /\ accounted seen (log_of s)) (se_for all body)
    (fun _ s => exists seen, seen0 ⊆ seen /\ accounted seen (log_of s) /\ Forall (handled seen) all)
    (fun s => accounted [] (log_of s)).
Proof.
  intros Hmono. revert seen0. induction all as [|x all IH]; intros seen0 Hb; cbn [se_for].
  { intros s (seen & H1 & H2). by exists seen. }
  intros s (seen & H0 & Ha). unfold se_bind.
  pose proof (Hb x seen ltac:(left) H0 s Ha) as H1. destruct (body x s) as [s1 [[]|e]]; [|exact H1].
  destruct H1 as (seen1 & Hs1 & Ha1 & Hh1).
  pose proof (IH seen1 (fun y seen' Hy Hs' => Hb y seen' ltac:(by right) ltac:(set_solver)) s1
    ltac:(by exists seen1)) as H2.
  cbv beta iota. destruct (se_for all body s1) as [s2 [[]|e]]; [|exact H2]. destruct H2 as (seen2 & Hs2 & Ha2 & Hh2).
  exists seen2. split_and!; [set_solver|done|]. constructor; [|done]. by eapply Hmono.
Qed.

(** The whole command, once the file is read. *)
Lemma delete_accounted :
  triple (fun s : CliState => accounted [] (log_of s))
    (do! known <- client_do client_list_clusters ;
     run! se_for (file_machines rs) (delete_listed_machine known) ;
     se_for (file_clusters rs) (delete_listed_cluster known))
    (fun _ s => exists known seen, accounted seen (log_of s) /\ ListedClusters known ∈ seen /\
       Forall (machine_handled known seen) (file_machines rs) /\
       Forall (cluster_handled known seen) (file_clusters rs))
    (fun s => accounted [] (log_of s)).
Proof.
  eapply triple_bind; [by apply (listed ListedClusters)|]. intros known. cbv beta. eapply triple_bind.
  { eapply triple_pre; [|apply (each_handled _ (machine_handled known) [ListedClusters known])].
    - intros s Hs. by exists [ListedClusters known].
    - intros log log' x. apply machine_handled_mono.
    - intros x seen Hx Hs. apply delete_machine_accounted; [done|]. set_solver. }
  intros [] s (seen & Hk & Ha & Hm). cbv beta.
  pose proof (each_handled (delete_listed_cluster known) (cluster_handled known) seen (file_clusters rs)
    (fun log log' x => cluster_handled_mono known log log' x)
    (fun x seen' Hx Hs => delete_cluster_accounted known seen' x Hx ltac:(set_solver)) s ltac:(by exists seen)) as H.
  destruct (se_for _ _ s) as [s' [[]|e]]; [|exact H]. destruct H as (seen' & Hs' & Ha' & Hc).
  exists known, seen'. split_and!; [done|set_solver| |done].
  eapply Forall_impl; [exact Hm|]. intros x. by apply machine_handled_mono.
Qed.
End sends.


(** ** Runs *)

Definition demo_report : list PoolCapacity := [{|
  pcap_pool := "fast"; pcap_backend := "lvm-linear"; pcap_labels := {["tier" := "nvme"]};
  pcap_configured_total_bytes := 2 ^ 40; pcap_ready_total_bytes := 2 ^ 39;
  pcap_schedulable_total_bytes := 2 ^ 39; pcap_schedulable_free_bytes := 2 ^ 38;
  pcap_devices := [{| dc_device_id := "nvme1"; dc_total_bytes := 2 ^ 39; dc_free_bytes := 2 ^ 38; dc_physical := 1;
                      dc_physical_reason := "" |};
                   {| dc_device_id := "nvme0"; dc_total_bytes := 2 ^ 39; dc_free_bytes := 0; dc_physical := 3;
                      dc_physical_reason := "missing" |}] |}].
Definition run_report : Db * result DbError unit :=
  record_heartbeat "h1" "t5" capacity_default demo_report (ctl_db run_machine).
Definition run_pools : Ctl := set_db (fun _ => fst run_report) run_machine.


(** One file with a cluster and a machine of it, as the documents it parses to. *)
#[local] Instance demo_yaml : Yaml := {|
  YValue := Resource;
  yaml_documents body := if body =$ "docs" then [
    Some (ResCluster "prod" {| ccs_external_ip_pool := "cell-public"; ccs_external_service_ips := 0;
                               ccs_apiserver_visibility := ApiserverPublic; ccs_trust_domain := Some "td" |});
    Some (ResMachine "web" {| cms_cluster := "prod"; cms_cpu := 4; cms_memory_mib := 8192; cms_disk_gib := 20;
                              cms_image := "img"; cms_bootstrap_data_file := Some "init.yaml"; cms_gpus := 0;
                              cms_min_gpu_group_size := None; cms_storage_disks := [];
                              cms_placement := {| csel_requires := []; csel_prefers := [] |} |})] else [];
  yaml_is_null _ := false;
  yaml_envelope r := Some {| env_api_version := API_VERSION;
                             env_kind := match r with ResCluster _ _ => "Cluster" | ResMachine _ _ => "Machine" end |};
  yaml_cluster r := match r with ResCluster n c => Some (n, c) | _ => None end;
  yaml_machine r := match r with ResMachine n m => Some (n, m) | _ => None end |}.
Definition demo_files (path : string) : option (list Byte.byte) :=
  if path =$ "fixtures/prod.yaml" then Some (String.list_byte_of_string "docs")
  else if path =$ "fixtures/init.yaml" then Some [] else None.
Definition cli_stub : BasisStub :=
  ctl_stub example_cfg (fun k => if (k =? 2)%nat then reports_running "vm1" else quiet) (fun _ s => s)
    (fun k _ => if (k =? 0)%nat then "c1" else "vm1") (fun _ _ => "t4") (fun _ => capi) (fun _ => true).
Definition run_cli (cmd : SE ((BasisClient * @NWorld cli_stub) * list Line) CliError unit) (n : Net)
    : Net * list Line * result CliError unit :=
  let '(((_, n'), out), r) := cmd ((demo_client, n), []) in (n', out, r).
Definition cli_applied : Net * list Line * result CliError unit :=
  run_cli (apply_file (B:=cli_stub) demo_files "fixtures/prod.yaml") (demo_net_of run_register).
Definition cli_deleted : Net * list Line * result CliError unit :=
  run_cli (delete_file (B:=cli_stub) demo_files "fixtures/prod.yaml") (fst (fst cli_applied)).

(** Applying the file creates both, deleting it tears both down. *)
Lemma cli_apply_delete_run :
  snd cli_applied = Ok tt /\
  map (fun v => (vm_id v, vm_state v)) (vms (ctl_db (nt_ctl (fst (fst cli_applied))))) =
    [("vm1", machine_state_num Running)] /\
  (snd (fst cli_deleted), snd cli_deleted) =
    ([LineMachineDeleted "web" "vm1"; LineClusterDeleted "prod" "c1"], Ok tt) /\
  map (fun v => (vm_id v, vm_state v)) (vms (ctl_db (nt_ctl (fst (fst cli_deleted))))) =
    [("vm1", VM_STATE_PENDING_TEARDOWN)].
Proof. vm_compute. done. Qed.

(** A selector with no host shows the pool of some host. *)
Lemma pool_show_without_host_run :
  snd (fst (run_cli (pool_show (B:=cli_stub) "/fast") (demo_net_of run_pools))) =
    [LinePoolShow "h1" "fast" "lvm-linear" 1024 512 512 256 {["tier" := "nvme"]};
     LineDevice "nvme0" 0 512 "Missing" "missing" "enabled" "";
     LineDevice "nvme1" 256 512 "Ready" "" "enabled" ""].
Proof. vm_compute. done. Qed.
