(* ===== verification/ProviderFacts.v ===== *)
(** * What the provider guarantees

    The condition list, the requeue of a failed pass, the invariant of the
    recorded machines under the documented behaviour of the API server
    ([KubeLaws]), and the provider running against the controller. *)

From S2P Require Import Prelude Ipv4 Ipnet CidrNet Proto Config Overcommit DbTypes JsonText Ipam Clusters Hosts Vms Teardown Outbox Schema Scheduler Ctl Wire Api Agent Service Machines Text HashName Triple Client Crds Provider Reconcilers ClientFacts.

(** ** Conditions *)

Definition of_kind (k : string) (l : list Condition) : list Condition :=
  List.filter (fun c => cond_kind c =$ k) l.

Lemma upsert_kinds l c :
  map cond_kind (upsert l c) =
  if existsb (fun x => cond_kind x =$ cond_kind c) l then map cond_kind l else map cond_kind l ++ [cond_kind c].
Proof.
  induction l as [|x l IH]; simpl; [done|].
  destruct (String.eqb_spec (cond_kind x) (cond_kind c)) as [E|E]; simpl; [done|].
  rewrite IH. by destruct (existsb _ l).
Qed.

(** Conditions are merged by type. [upsert] leaves the conditions of other
    types as they are and in their order, adds at most one entry, and the first
    condition of the type then says what the new one says, with the time of the
    last change of status; doing it again changes nothing. *)
Theorem upsert_merges l c :
  (forall k, k <> cond_kind c -> of_kind k (upsert l c) = of_kind k l) /\
  (length l <= length (upsert l c) <= S (length l))%nat /\
  (NoDup (map cond_kind l) -> NoDup (map cond_kind (upsert l c))) /\
  head (of_kind (cond_kind c) (upsert l c)) =
    Some (match head (of_kind (cond_kind c) l) with Some old => update_condition old c | None => c end) /\
  upsert (upsert l c) c = upsert l c.
Proof.
  split_and!.
  - intros k Hk. induction l as [|x l IH]; simpl.
    { by rewrite (proj2 (String.eqb_neq _ _)). }
    destruct (String.eqb_spec (cond_kind x) (cond_kind c)) as [E|E]; simpl; [|by rewrite IH].
    by rewrite E, (proj2 (String.eqb_neq _ _)).
  - induction l as [|x l IH]; simpl; [lia|]. destruct (_ =$ _); simpl; lia.
  - induction l as [|x l IH]; simpl; [lia|]. destruct (_ =$ _); simpl; lia.
  - intros Hnd. rewrite upsert_kinds. destruct (existsb _ l) eqn:E; [done|].
    apply NoDup_app. split; [done|]. split; [|apply NoDup_singleton].
    intros k Hk ->%list_elem_of_singleton. apply list_elem_of_fmap in Hk as (x & Ex & Hx).
    assert (existsb (fun x => cond_kind x =$ cond_kind c) l = true) as E'; [|congruence].
    apply existsb_exists. exists x. split; [by apply list_elem_of_In|]. by apply String.eqb_eq.
  - induction l as [|x l IH]; simpl; [by rewrite String.eqb_refl|].
    destruct (cond_kind x =$ cond_kind c) eqn:E; simpl; rewrite E; [done|exact IH].
  - induction l as [|x l IH]; simpl.
    { rewrite String.eqb_refl. unfold update_condition. rewrite String.eqb_refl. by destruct c. }
    destruct (cond_kind x =$ cond_kind c) eqn:E; simpl; rewrite E; [|by rewrite IH].
    f_equal. unfold update_condition. simpl. rewrite String.eqb_refl. done.
Qed.

(** ** Requeue of a failed pass *)

(** Every failed pass waits fifteen seconds. [reconcile] turns whatever
    [apply] or [cleanup] failed with into a finalizer error, so the short
    requeue of the error policies, for back pressure and for resources that are
    not ready yet, is never taken. *)
Theorem failed_pass_requeues_late `{K : Kube} `{B : BasisStub} `{Fm : !Finalizer Prov BasisMachine MachineError}
    `{Fc : !Finalizer Prov BasisCluster ClusterError} :
  (forall m s s' e, machine_reconcile m s = (s', Err e) -> machine_error_policy e = Requeue 15) /\
  (forall c s s' e, cluster_reconcile c s = (s', Err e) -> cluster_error_policy e = Requeue 15).
Proof.
  split.
  - intros m s s' e. unfold machine_reconcile, se_map_err.
    destruct (finalizer _ _ m s) as [s1 [a|x]]; [done|]. by intros [= <- <-].
  - intros c s s' e. unfold cluster_reconcile, se_map_err.
    destruct (finalizer _ _ c s) as [s1 [a|x]]; [done|]. by intros [= <- <-].
Qed.

(** ** Recorded machines *)

Definition with_status (st : BasisMachineStatus) (m : BasisMachine) : BasisMachine := {|
  bm_meta := bm_meta m; bm_spec := bm_spec m; bm_status := Some st |}.
Definition with_provider_id (p : string) (m : BasisMachine) : BasisMachine := {|
  bm_meta := bm_meta m;
  bm_spec := {| bms_cpu := bms_cpu (bm_spec m); bms_memory_mib := bms_memory_mib (bm_spec m);
                bms_disk_gib := bms_disk_gib (bm_spec m); bms_image := bms_image (bm_spec m);
                bms_gpus := bms_gpus (bm_spec m); bms_gpu_constraints := bms_gpu_constraints (bm_spec m);
                bms_storage_disks := bms_storage_disks (bm_spec m); bms_placement := bms_placement (bm_spec m);
                bms_provider_id := Some p |};
  bm_status := bm_status m |}.
Definition status_of (m : BasisMachine) : BasisMachineStatus := unwrap_or empty_machine_status (bm_status m).

(** What the API server does: reads change nothing, a merge patch that succeeds
    changes the one object it names, a patch that fails changes nothing. *)
Class KubeLaws `(K : Kube) := {
  k_machines : KWorld -> gmap (string * string) BasisMachine;
  k_clusters : KWorld -> gmap (string * string) BasisCluster;
  k_objects w := (k_machines w, k_clusters w);
  k_get_cluster ns n w : k_objects (fst (get_basis_cluster ns n w)) = k_objects w;
  k_get_cluster_ok ns n w c : snd (get_basis_cluster ns n w) = Ok c -> k_clusters w !! (ns, n) = Some c;
  k_get_machine ns n w : k_objects (fst (get_basis_machine ns n w)) = k_objects w;
  k_get_capi ns n w : k_objects (fst (get_capi_machine ns n w)) = k_objects w;
  k_get_secret ns n w : k_objects (fst (get_secret ns n w)) = k_objects w;
  k_get_secret_opt ns n w : k_objects (fst (get_secret_opt ns n w)) = k_objects w;
  k_patch_cluster_spec ns n e b w : k_machines (fst (patch_cluster_spec ns n e b w)) = k_machines w;
  k_patch_cluster_status ns n p w : k_machines (fst (patch_cluster_status ns n p w)) = k_machines w;
  k_patch_machine_spec ns n p w :
    k_clusters (fst (patch_machine_spec ns n p w)) = k_clusters w /\
    k_machines (fst (patch_machine_spec ns n p w)) =
      if is_ok (snd (patch_machine_spec ns n p w)) then alter (with_provider_id p) (ns, n) (k_machines w) else k_machines w;
  k_patch_machine_status ns n p w :
    k_clusters (fst (patch_machine_status ns n p w)) = k_clusters w /\
    k_machines (fst (patch_machine_status ns n p w)) =
      if is_ok (snd (patch_machine_status ns n p w))
      then alter (fun m => with_status (merge_machine_status p (status_of m)) m) (ns, n) (k_machines w) else k_machines w;
  k_from_kubeconfig b w : k_objects (fst (from_kubeconfig b w)) = k_objects w;
  k_apply_object c g v k n o w : k_objects (fst (apply_object c g v k n o w)) = k_objects w;
}.

Section recorded.
Context `{L : KubeLaws} `{B : BasisStub}.

(** Recorded machines know the credentials of their VM, and cached handles are
    handles. *)
Definition has_credentials (m : BasisMachine) : Prop := is_Some (vm_id_of m) -> is_Some (creds_of m).
Record prov_ok (s : Prov) : Prop := {
  po_credentials : map_Forall (fun _ m => has_credentials m) (k_machines (pv_kube s));
  po_handles : map_Forall (fun _ i => (i < length (pv_clients s))%nat) (pv_entries s);
}.

Lemma prov_ok_kube w s : prov_ok s -> k_machines w = k_machines (pv_kube s) -> prov_ok (set_kube w s).
Proof. intros [H1 H2] E. constructor; [simpl; by rewrite E|done]. Qed.

Lemma objects_machines w w' : k_objects w' = k_objects w -> k_machines w' = k_machines w.
Proof. by intros [= -> _]. Qed.
Lemma objects_clusters w w' : k_objects w' = k_objects w -> k_clusters w' = k_clusters w.
Proof. by intros [= _ ->]. Qed.

(** An operation of the API server that leaves the machines as they are. *)
Lemma keeps_kube_read {A} (m : KWorld -> KWorld * result KubeError A) :
  (forall w, k_machines (fst (m w)) = k_machines w) -> keeps prov_ok (kube_op m).
Proof.
  intros Hm s Hs. unfold kube_op. specialize (Hm (pv_kube s)). destruct (m (pv_kube s)) as [w r].
  by apply prov_ok_kube.
Qed.

(** A patch that keeps what the machines promise. *)
Lemma keeps_kube_alter {A} (m : KWorld -> KWorld * result KubeError A) f k :
  (forall w, k_machines (fst (m w)) = if is_ok (snd (m w)) then alter f k (k_machines w) else k_machines w) ->
  (forall x, has_credentials x -> has_credentials (f x)) ->
  keeps prov_ok (kube_op m).
Proof.
  intros Hm Hf s [H1 H2]. unfold kube_op. specialize (Hm (pv_kube s)). destruct (m (pv_kube s)) as [w r]. simpl in *.
  constructor; [|done]. simpl. rewrite Hm. destruct (is_ok r); [|done].
  intros i x. rewrite lookup_alter_Some. intros [(-> & y & Hy & ->)|[_ Hx]]; [|by eapply H1].
  apply Hf. by eapply H1.
Qed.

Lemma keeps_client {A} i (m : SE (BasisClient * NWorld) ClientError A) : keeps prov_ok (client_op i m).
Proof.
  intros s [H1 H2]. unfold client_op. destruct (pv_clients s !! i) as [c|]; [|done].
  destruct (m (c, pv_net s)) as [[c' w] r]. constructor; [done|]. simpl. by rewrite length_insert.
Qed.

Lemma keeps_cache_get r ns : keeps prov_ok (cache_get r ns).
Proof.
  unfold cache_get. apply keeps_bind; [apply keeps_gets|]. intros [i|]; [apply keeps_ret|].
  apply keeps_bind.
  { unfold load_client. apply keeps_bind; [|intros; apply keeps_of]. apply keeps_map_err, keeps_kube_read.
    intros w. apply objects_machines, k_get_secret. }
  intros client s [H1 H2]. destruct (pv_entries s !! _) as [i|]; [done|].
  constructor; [done|]. simpl. rewrite length_app. simpl.
  apply map_Forall_insert_2; [lia|]. intros k i Hi. specialize (H2 k i Hi). simpl in H2. lia.
Qed.

Lemma keeps_invalidate {E} r ns : keeps prov_ok (cache_invalidate (E:=E) r ns).
Proof.
  apply keeps_modify. intros s [H1 H2]. constructor; [done|]. simpl. by apply map_Forall_delete.
Qed.

(** The patches: a VM is recorded with its credentials, or neither changes. *)
Definition sound_patch (p : MachineStatusPatch) : Prop :=
  (exists id r, msp_basis_vm_id p = Value id /\ msp_credentials_ref p = Value r) \/
  (msp_basis_vm_id p = Absent /\ msp_credentials_ref p = Absent).

Lemma merge_has_credentials p m :
  sound_patch p -> has_credentials m -> has_credentials (with_status (merge_machine_status p (status_of m)) m).
Proof.
  unfold has_credentials, vm_id_of, creds_of, status_of. simpl.
  intros [(id & r & -> & ->)|[-> ->]] Hm; [by eexists|]. simpl. by destruct (bm_status m).
Qed.

Lemma keeps_patch_status ns n p : sound_patch p -> keeps prov_ok (kube_op (patch_machine_status ns n p)).
Proof.
  intros Hp. eapply keeps_kube_alter; [intros w; apply k_patch_machine_status|]. intros m. by apply merge_has_credentials.
Qed.

Lemma keeps_patch_spec ns n p : keeps prov_ok (kube_op (patch_machine_spec ns n p)).
Proof. eapply keeps_kube_alter; [intros w; apply k_patch_machine_spec|]. done. Qed.

Lemma keeps_reads :
  (forall ns n, keeps prov_ok (kube_op (get_basis_cluster ns n))) /\
  (forall ns n, keeps prov_ok (kube_op (get_basis_machine ns n))) /\
  (forall ns n, keeps prov_ok (kube_op (get_capi_machine ns n))) /\
  (forall ns n, keeps prov_ok (kube_op (get_secret ns n))) /\
  (forall ns n, keeps prov_ok (kube_op (get_secret_opt ns n))) /\
  (forall ns n e b, keeps prov_ok (kube_op (patch_cluster_spec ns n e b))) /\
  (forall ns n p, keeps prov_ok (kube_op (patch_cluster_status ns n p))) /\
  (forall c g v k n o, keeps prov_ok (kube_op (apply_object c g v k n o))).
Proof.
  split_and!; intros; apply keeps_kube_read; intros w; first
    [apply objects_machines, k_get_cluster | apply objects_machines, k_get_machine | apply objects_machines, k_get_capi
    | apply objects_machines, k_get_secret | apply objects_machines, k_get_secret_opt | apply k_patch_cluster_spec
    | apply k_patch_cluster_status | apply objects_machines, k_apply_object].
Qed.

(** [keep_prov] walks a pass: binds, tests, and the operations above. *)
Ltac keep_prov :=
  pose proof keeps_reads as (?Hgc & ?Hgm & ?Hgp & ?Hgs & ?Hgo & ?Hps & ?Hpc & ?Hao);
  repeat first
    [ apply keeps_ret | apply keeps_fail | apply keeps_of | apply keeps_gets
    | apply keeps_client | apply keeps_cache_get | apply keeps_invalidate | apply keeps_patch_spec
    | apply keeps_patch_status; first [by left; eexists _, _ | by right]
    | match goal with
      | |- keeps _ (kube_op _) => solve [auto]
      | |- keeps _ (se_map_err _ _) => apply keeps_map_err
      | |- keeps _ (se_try _) => apply keeps_try
      | |- keeps _ (se_for _ _) => apply keeps_for; intros ?
      | |- keeps _ (se_bind _ _) => apply keeps_bind; [|intros ?]
      | |- keeps _ (match ?x with _ => _ end) => destruct x
      | |- keeps _ (let '(_, _) := ?x in _) => destruct x
      end ].

Lemma keeps_machine_failure {F} m ns err : keeps prov_ok (machine_on_failure (F:=F) m ns err).
Proof. unfold machine_on_failure, resolve_cluster_ref, record_machine_failure, kube_time. keep_prov. Qed.

Lemma keeps_machine_apply m ns : keeps prov_ok (machine_apply m ns).
Proof.
  unfold machine_apply, resolve_cluster_ref, observe_vm, record_terminal_failure, find_bootstrap_secret,
    load_bootstrap_data, commit_status, commit_spec_provider_id, kube_time. keep_prov.
Qed.

Lemma keeps_machine_cleanup m : keeps prov_ok (machine_cleanup m).
Proof. unfold machine_cleanup. keep_prov. Qed.

Lemma keeps_workload name ns : keeps prov_ok (workload_client name ns).
Proof.
  unfold workload_client. keep_prov. intros s' Hs'. match goal with |- context [from_kubeconfig ?b] => rename b into bytes end.
  pose proof (k_from_kubeconfig bytes (pv_kube s')) as Hk. destruct (from_kubeconfig bytes (pv_kube s')) as [w r].
  apply prov_ok_kube; [done|]. by apply objects_machines in Hk.
Qed.

Lemma keeps_cluster_apply c : keeps prov_ok (cluster_apply c).
Proof.
  unfold cluster_apply, apply_bgp_crds, apply_bgp_crd, kube_time. keep_prov. apply keeps_workload.
Qed.

Lemma keeps_cluster_cleanup c : keeps prov_ok (cluster_cleanup c).
Proof. unfold cluster_cleanup. keep_prov. Qed.

Lemma keeps_cluster_failure {F} c ns err : keeps prov_ok (cluster_on_failure (F:=F) c ns err).
Proof. unfold cluster_on_failure, record_cluster_failure, kube_time. keep_prov. Qed.

End recorded.

(** ** Stale clients *)

Section stale.
Context `{L : KubeLaws} `{B : BasisStub}.

Lemma fixes_entries_kube {A} (m : KWorld -> KWorld * result KubeError A) : fixes pv_entries (kube_op m).
Proof. intros s. unfold kube_op. by destruct (m (pv_kube s)). Qed.

Lemma fixes_entries_client {A} i (m : SE (BasisClient * NWorld) ClientError A) :
  fixes (fun s => (pv_entries s, pv_kube s)) (client_op i m).
Proof. intros s. unfold client_op. destruct (pv_clients s !! i); [|done]. by destruct (m _) as [[? ?] ?]. Qed.

(** A stale client outlives its cluster. A cleanup whose cached client the
    controller no longer accepts drops it by way of the [BasisCluster]; when
    that is gone already, as it may be while machines are being deleted, the
    entry stays for the next cleanup to find. *)
Theorem stale_client_kept ns m id r i cn s :
  vm_id_of m = Some id -> creds_of m = Some r ->
  pv_entries s !! resolve_key r (namespace_of (bm_meta m)) = Some i ->
  md_labels (bm_meta m) !! CLUSTER_LABEL = Some cn ->
  k_clusters (pv_kube s) !! (ns, cn) = None ->
  pv_entries (fst (machine_event ns (EvCleanup m) s)) = pv_entries s.
Proof.
  intros Hid Hr Hi Hl Hgone. unfold machine_event, se_bind, se_try.
  assert (let '(s1, _) := machine_cleanup m s in (pv_entries s1, pv_kube s1) = (pv_entries s, pv_kube s)) as H1.
  { unfold machine_cleanup. rewrite Hid, Hr. unfold se_bind at 1, se_map_err, cache_get, se_bind at 1, se_gets.
    rewrite Hi. cbn -[client_delete_machine]. unfold se_bind, se_try.
    pose proof (fixes_entries_client i (client_delete_machine id) s) as Hc.
    destruct (client_op i _ s) as [s1 [[]|e]]; simpl in *; [done|]. by destruct (client_not_found e). }
  destruct (machine_cleanup m s) as [s1 [a|err]]; injection H1 as He Hk; [done|].
  assert (pv_entries (fst (machine_on_failure (F:=MachineError) m ns err s1)) = pv_entries s1) as Hf.
  { unfold machine_on_failure. destruct (is_transient err); [done|]. unfold se_bind at 1.
    set (inv := if is_credentials_problem err then _ else _).
    assert (exists s2, inv s1 = (s2, Ok tt) /\ pv_entries s2 = pv_entries s1) as (s2 & -> & <-).
    { unfold inv. destruct (is_credentials_problem err); [|by exists s1]. rewrite Hl.
      unfold se_bind at 1, se_try, resolve_cluster_ref, se_bind at 1, se_map_err, kube_op.
      pose proof (k_get_cluster_ok ns cn (pv_kube s1)) as Ho. rewrite Hk in *.
      destruct (get_basis_cluster ns cn (pv_kube s)) as [w [c|e]]; [by rewrite (Ho c) in Hgone|]. by eexists. }
    unfold record_machine_failure. apply fixes_bind; [apply fixes_gets|]. intros now.
    apply fixes_bind; [apply fixes_try, fixes_entries_kube|]. intros _. apply fixes_ret. }
  rewrite <- He. by destruct (machine_on_failure m ns err s1) as [s2 [[]|e]].
Qed.
End stale.

(** ** The provider and the controller *)

Definition gone (id : string) (s : Ctl) : Prop :=
  forall v, v ∈ vms (ctl_db s) -> vm_id v = id -> vm_state v = VM_STATE_PENDING_TEARDOWN.

Section against.
Context `{I : Ipnet} `{J : DbJson} `{S : Sqlite} `{HO : HashOrder} `{P : Prost}.
Variable cfg : CtlConfig.

Lemma gone_push {E} id host : keeps (gone id) (push_reconcile cfg (E:=E) host).
Proof.
  intros s Hs. pose proof (owners_push cfg (E:=E) (ctl_db s) host s (same_rows_refl _)) as Ho.
  unfold gone, on_db in *. apply same_rows_tables in Ho. destruct Ho as (_ & _ & _ & Hv & _). by rewrite Hv.
Qed.

(** A [DeleteMachine] that succeeds leaves the VM gone or on its way out. *)
Lemma delete_machine_gone peer id now s s' r :
  db_wf (ctl_db s) -> delete_machine cfg peer id now s = (s', r) -> r = Ok tt \/ r = Err CodeNotFound -> gone id s'.
Proof.
  intros Hwf. unfold delete_machine. unfold se_bind at 1, se_of.
  destruct (require_capi_caller peer) as [[]|e] eqn:Ep.
  2:{ intros [= <- <-] [?|[= ->]]; [done|]. unfold require_capi_caller, peer_identity in Ep.
      destruct peer; [done|done|]. by destruct (_ =$ _). }
  unfold se_bind at 1, se_try, db_call, get_vm. cbn [fst snd].
  destruct (select1 (fun v => vm_id v =$ id) (vms (ctl_db s))) as [vm|] eqn:Es; cbn [ok_or].
  2:{ intros [= <- <-] _ v Hv E. apply (proj1 (select1_None _ _) Es) in Hv. rewrite E, String.eqb_refl in Hv. done. }
  pose proof (select1_Some _ _ _ Es) as [Hvm Hid%String.eqb_eq].
  assert (set_db (fun _ => ctl_db s) s = s) as -> by (by destruct s).
  destruct (Z.eqb_spec (vm_state vm) VM_STATE_PENDING_TEARDOWN) as [Hst|Hst]; cbn [negb].
  - intros Hp Hr. pose proof (gone_push (E:=Code) id (vm_host_id vm) s) as Hg. rewrite Hp in Hg. apply Hg.
    intros v Hv Ev. assert (v = vm) as ->; [|done].
    apply (NoDup_map_inj vm_id (vms (ctl_db s))); [apply Hwf|done|done|congruence].
  - unfold initiate_vm_teardown, lift_db, se_map_err, db_call, se_bind, mark_vm_pending_teardown.
    assert (existsb (fun v => vm_id v =$ vm_id vm) (vms (ctl_db s)) = true) as ->.
    { apply existsb_exists. exists vm. split; [by apply list_elem_of_In|]. apply String.eqb_refl. }
    cbn [map_err mark_host_cluster_pending_teardown se_modify]. intros Hp Hr.
    match type of Hp with push_reconcile _ _ ?x = _ =>
      pose proof (gone_push (E:=Code) id (vm_host_id vm) x) as Hg end.
    rewrite Hp in Hg. apply Hg. destruct s as [db]. destruct db. unfold gone. simpl. intros v Hv Ev.
    apply elem_of_update_where in Hv as (v0 & Hv0 & ->). rewrite Hid in *.
    destruct (vm_id v0 =$ id) eqn:E0; [done|]. simpl in Ev. by rewrite Ev, String.eqb_refl in E0.
Qed.

(** The provider's calls are the controller's handlers. *)
Variable others : nat -> nat -> Ctl -> Ctl.
Variable idle : nat -> Ctl -> Ctl.
Variables uuid now : nat -> nat -> string.
Variable peer_of : Channel -> Peer.
Variable reachable : Channel -> bool.
Context `{K : Kube}.

Instance ctl_here : BasisStub := ctl_stub cfg others idle uuid now peer_of reachable.

Definition ctl_of (s : Prov) : Ctl := nt_ctl (pv_net s : Net).

Lemma fixes_net_kube {A} (m : KWorld -> KWorld * result KubeError A) : fixes ctl_of (kube_op m).
Proof. intros s. unfold kube_op. by destruct (m (pv_kube s)). Qed.

Lemma fixes_net_cache r ns : fixes ctl_of (cache_get r ns).
Proof.
  unfold cache_get. apply fixes_bind; [apply fixes_gets|]. intros [i|]; [apply fixes_ret|]. apply fixes_bind.
  - unfold load_client. apply fixes_bind; [apply fixes_map_err, fixes_net_kube|intros; apply fixes_of].
  - intros c s. by destruct (pv_entries s !! _).
Qed.

Lemma client_delete_gone c (n : Net) id c' (n' : Net) r :
  (forall k s, db_wf (ctl_db s) -> db_wf (ctl_db (idle k s))) -> db_wf (ctl_db (nt_ctl n)) ->
  client_delete_machine id (c, n) = ((c', n'), r) ->
  (r = Ok tt \/ exists e, r = Err e /\ client_not_found e = true) -> gone id (nt_ctl n').
Proof.
  intros Hidle Hwf. unfold client_delete_machine, se_bind.
  destruct (call _ _) as [[c1 n1] r1] eqn:Ec.
  apply (call_last (B:=ctl_here) (fun n : Net => db_wf (ctl_db (nt_ctl n)))) in Ec as [Hwf1 Hr].
  - intros E Hres.
    assert ((n1 : Net) = n' /\ exists ch w0, db_wf (ctl_db (nt_ctl w0)) /\
              (stub_delete_machine id ch w0 = (n', Ok tt) \/ stub_delete_machine id ch w0 = (n', Err (Server CodeNotFound))))
      as [-> (ch & w0 & Hw0 & Hd)].
    { destruct r1 as [[]|e].
      - injection E as -> -> <-. split; [done|]. destruct Hr as (ch & w0 & ? & ?). exists ch, w0. auto.
      - injection E as -> -> <-. split; [done|]. destruct Hres as [?|(e' & [= <-] & Hnf)]; [done|].
        destruct e as [| | |[[]| |]|]; try done. destruct Hr as (ch & w0 & ? & ?). exists ch, w0. auto. }
    cbn in Hd. unfold ctl_call in Hd.
    destruct (delete_machine cfg (peer_of ch) id _ (nt_ctl w0)) as [s' r'] eqn:Ed.
    apply (delete_machine_gone _ _ _ _ _ _ Hw0) in Ed.
    + by destruct Hd as [[= <- _]|[= <- _]].
    + destruct Hd as [[= _ Hd]|[= _ Hd]]; destruct r' as [[]|[]]; naive_solver.
  - done.
  - intros ms w Hw. by apply Hidle.
  - intros ch w Hw. cbn. unfold ctl_call.
    pose proof (wf_delete_machine cfg (peer_of ch) id (now (nt_calls w) 0%nat) (nt_ctl w) Hw) as Hk.
    by destruct (delete_machine _ _ _ _ _).
  - done.
Qed.

(** C9: a lifted finalizer. When the cleanup of a [BasisMachine] succeeds, and
    with it the finalizer goes, the VM the machine recorded is no longer in the
    controller's tables or is on its way out; a machine that recorded no VM is
    let go without a call. *)
Theorem lifted_finalizer_means_gone ns m s s' a :
  (forall k s, db_wf (ctl_db s) -> db_wf (ctl_db (idle k s))) -> db_wf (ctl_db (ctl_of s)) ->
  machine_event ns (EvCleanup m) s = (s', Ok a) ->
  match vm_id_of m with Some id => gone id (ctl_of s') | None => s' = s end.
Proof.
  intros Hidle Hwf. unfold machine_event, se_bind at 1, se_try.
  destruct (machine_cleanup m s) as [s1 [a1|err]] eqn:Ec.
  2:{ unfold se_bind. by destruct (machine_on_failure m ns err s1) as [s2 [[]|e]]. }
  intros [= <- <-]. unfold machine_cleanup in Ec. destruct (vm_id_of m) as [id|]; [|by injection Ec].
  destruct (creds_of m) as [r|]; [|done]. unfold se_bind at 1, se_map_err in Ec.
  pose proof (fixes_net_cache r (namespace_of (bm_meta m)) s) as Hn.
  destruct (cache_get r (namespace_of (bm_meta m)) s) as [s2 [i|e]]; [|done]. simpl in Hn, Ec.
  unfold se_bind, se_try, client_op in Ec. destruct (pv_clients s2 !! i) as [c|]; [|done].
  destruct (client_delete_machine id (c, pv_net s2)) as [[c' n'] r'] eqn:Ed.
  apply client_delete_gone in Ed; [|done|by unfold ctl_of in Hn, Hwf; rewrite Hn|].
  - destruct r' as [[]|e]; [by injection Ec as <- _|]. destruct (client_not_found e); by injection Ec as <- _.
  - destruct r' as [[]|e]; [by left|]. right. exists e. split; [done|]. by destruct (client_not_found e).
Qed.

(** *** A repeated apply *)

Lemma triple_when {St E A} (Hyp : Prop) (R : St -> Prop) (f : SE St E A) (Q : A -> St -> Prop) (X : St -> Prop) :
  (Hyp -> triple R f Q X) -> triple (fun s => R s /\ Hyp) f Q X.
Proof. intros H s [Hs HP]. by apply H. Qed.

Lemma provider_purposes m cid data : purposes_ok (machine_request (provider_request m cid data)) = true.
Proof.
  unfold purposes_ok, machine_request, provider_request. simpl. apply forallb_forall. intros d Hd.
  apply in_map_iff in Hd as (x & <- & _). simpl. by destruct (sds_purpose x).
Qed.

Context `{L : !KubeLaws K}.
Variables (ns cn : string) (m : BasisMachine) (bc : BasisCluster) (cid : string) (cl : ClusterRow) (row : VmRow).
Variables (c0 : Ctl) (kc : gmap (string * string) BasisCluster).
Hypothesis Hlabel : md_labels (bm_meta m) !! CLUSTER_LABEL = Some cn.
Hypothesis Hnone : vm_id_of m = None.
Hypothesis Hbc : kc !! (ns, cn) = Some bc.
Hypothesis Hcid : (bc_status bc ≫= bct_basis_cluster_id) = Some cid.
Hypothesis Hcl : cl ∈ clusters (ctl_db c0) /\ c_id cl = cid.
Hypothesis Hrow :
  select1 (fun v => (vm_cluster_id v =$ cid) && (vm_name v =$ md_name (bm_meta m))) (vms (ctl_db c0)) = Some row.

(** The controller and the clusters stay as they are. *)
Definition calm (s : Prov) : Prop := ctl_of s = c0 /\ k_clusters (pv_kube s) = kc.

Lemma calm_kube {A} (f : KWorld -> KWorld * result KubeError A) :
  (forall w, k_clusters (fst (f w)) = k_clusters w) -> keeps calm (kube_op f).
Proof.
  intros Hf s [H1 H2]. unfold kube_op. specialize (Hf (pv_kube s)). destruct (f (pv_kube s)) as [w r].
  split; [done|]. simpl in *. congruence.
Qed.

Lemma calm_cache r n : keeps calm (cache_get r n).
Proof.
  unfold cache_get. apply keeps_bind; [apply keeps_gets|]. intros [i|]; [apply keeps_ret|]. apply keeps_bind.
  - unfold load_client. apply keeps_bind; [|intros; apply keeps_of]. apply keeps_map_err, calm_kube.
    intros w. apply objects_clusters, k_get_secret.
  - intros c s Hs. by destruct (pv_entries s !! _).
Qed.

Lemma calm_resolve :
  triple calm (resolve_cluster_ref ns cn) (fun cr s => calm s /\ fst cr = cid) calm.
Proof.
  intros s [H1 H2]. unfold resolve_cluster_ref, se_bind, se_map_err, kube_op.
  pose proof (k_get_cluster ns cn (pv_kube s)) as Hg%objects_clusters.
  pose proof (k_get_cluster_ok ns cn (pv_kube s)) as Ho.
  destruct (get_basis_cluster ns cn (pv_kube s)) as [w [c|e]]; simpl in *; [|split; [done|simpl; congruence]].
  specialize (Ho c eq_refl). assert (c = bc) as -> by congruence. rewrite Hcid. simpl.
  split; [split; [done|simpl; congruence]|done].
Qed.

(** A create whose name is taken changes nothing. *)
Lemma create_taken env peer req vm t1 t2 :
  cm_cluster_id req = cid -> cm_name req = md_name (bm_meta m) -> purposes_ok req = true ->
  create_machine cfg env peer req vm t1 t2 c0 = (c0, Ok (vm_to_create_response row)) \/
  exists e, create_machine cfg env peer req vm t1 t2 c0 = (c0, Err e) /\ e <> CodeUnavailable.
Proof.
  intros E1 E2 Hp. destruct (require_capi_caller peer) as [[]|e] eqn:Er.
  - assert (peer = PeerNamed CAPI_PROVIDER_IDENTITY) as ->.
    { unfold require_capi_caller, peer_identity in Er. destruct peer as [| |i]; [done|done|].
      by destruct (String.eqb_spec i CAPI_PROVIDER_IDENTITY) as [->|?]. }
    left. destruct Hcl as [H1 H2]. apply (create_machine_existing cfg env req vm t1 t2 c0 cl row); [done|done|congruence|].
    by rewrite E1, E2.
  - right. exists e. unfold create_machine, se_bind at 1, se_of. rewrite Er. split; [done|]. intros ->.
    unfold require_capi_caller, peer_identity in Er. destruct peer; [done|done|]. by destruct (_ =$ _).
Qed.

Lemma stub_taken ch (n : Net) req :
  nt_ctl n = c0 -> cm_cluster_id req = cid -> cm_name req = md_name (bm_meta m) -> purposes_ok req = true ->
  exists (n' : Net) r, stub_create_machine (BasisStub:=ctl_here) req ch n = (n', r) /\ nt_ctl n' = c0 /\
    (r = Ok (vm_to_create_response row) \/ exists e, r = Err (Server e) /\ e <> CodeUnavailable).
Proof.
  intros H0 E1 E2 Hp. cbn. unfold ctl_call. rewrite H0.
  destruct (create_taken (others (nt_calls n)) (peer_of ch) req (uuid (nt_calls n) 0%nat) (now (nt_calls n) 0%nat)
              (now (nt_calls n) 1%nat) E1 E2 Hp) as [-> |(e & -> & He)]; eexists _, _; (split; [done|]); eauto.
Qed.

Lemma calm_create i data :
  triple calm (client_op i (client_create_machine (provider_request m cid data)))
    (fun created s => calm s /\ crm_id created = vm_id row) calm.
Proof.
  intros s [H1 H2]. unfold client_op. destruct (pv_clients s !! i) as [c|]; [|done].
  unfold client_create_machine, se_bind, call, MAX_ATTEMPTS. cbn [call_loop]. unfold se_bind.
  assert (exists c1 r, connected_client (c, pv_net s) = ((c1, pv_net s), r)) as (c1 & r & ->).
  { unfold connected_client. destruct (bc_channel c); [by eexists _, _|]. destruct (negb _); [by eexists _, _|].
    cbn. destruct (reachable _); by eexists _, _. }
  destruct r as [ch|e]; [|done].
  destruct (stub_taken ch (pv_net s) (machine_request (provider_request m cid data)) H1 eq_refl eq_refl
              (provider_purposes _ _ _)) as (n' & r & -> & Hn & [-> |(e & -> & He)]).
  - simpl. repeat (destruct (_ =$ _); [done|]). done.
  - simpl. rewrite bool_decide_eq_false_2 by congruence. done.
Qed.

(** The stored machine records the VM. *)
Definition records (s : Prov) : Prop :=
  forall x, k_machines (pv_kube s) !! (ns, md_name (bm_meta m)) = Some x -> vm_id_of x = Some (vm_id row).

Lemma calm_commit created creds :
  crm_id created = vm_id row ->
  triple calm (commit_status ns (md_name (bm_meta m)) created creds m) (fun _ s => calm s /\ records s) calm.
Proof.
  intros Hid s [H1 H2]. unfold commit_status, kube_time, se_bind, se_gets, se_map_err, kube_op.
  set (p := running_patch _ _ _ _). pose proof (k_patch_machine_status ns (md_name (bm_meta m)) p (pv_kube s)) as [Hc Hm].
  destruct (patch_machine_status _ _ p (pv_kube s)) as [w [[]|e]]; simpl in *.
  2:{ split; [done|simpl; congruence]. }
  split; [split; [done|simpl; congruence]|]. intros x. simpl. rewrite Hm, lookup_alter_eq.
  intros (y & Hy & ->)%fmap_Some. unfold vm_id_of. simpl. by rewrite Hid.
Qed.

Lemma calm_spec p :
  triple (fun s => calm s /\ records s) (commit_spec_provider_id ns (md_name (bm_meta m)) p)
    (fun _ s => calm s /\ records s) calm.
Proof.
  intros s [[H1 H2] Hr]. unfold commit_spec_provider_id, se_map_err, kube_op.
  pose proof (k_patch_machine_spec ns (md_name (bm_meta m)) p (pv_kube s)) as [Hc Hm].
  destruct (patch_machine_spec _ _ p (pv_kube s)) as [w [[]|e]]; simpl in *.
  2:{ split; [done|simpl; congruence]. }
  split; [split; [done|simpl; congruence]|]. intros x. simpl. rewrite Hm, lookup_alter_eq.
  intros (y & Hy & ->)%fmap_Some. exact (Hr y Hy).
Qed.

Lemma calm_bootstrap : keeps calm (find_bootstrap_secret ns (md_name (bm_meta m))).
Proof.
  unfold find_bootstrap_secret. apply keeps_bind.
  - apply keeps_map_err, calm_kube. intros w. apply objects_clusters, k_get_machine.
  - intros bm. destruct (md_owner_references (bm_meta bm) ≫= _); [|apply keeps_fail]. apply keeps_bind.
    + apply keeps_map_err, calm_kube. intros w. apply objects_clusters, k_get_capi.
    + intros cm. destruct (cpm_data_secret_name cm); [apply keeps_ret|apply keeps_fail].
Qed.

Lemma calm_data secret : keeps calm (se_map_err MeBootstrap (load_bootstrap_data ns secret)).
Proof.
  apply keeps_map_err. unfold load_bootstrap_data. apply keeps_bind.
  - apply keeps_map_err, calm_kube. intros w. apply objects_clusters, k_get_secret.
  - intros sec. destruct (sec_data sec ≫= _); [apply keeps_ret|apply keeps_fail].
Qed.

(** C13: a repeated apply finds its VM. When the controller already has a VM of
    the machine's name in its cluster, because an earlier pass created it and
    could not record it, another pass creates nothing: the controller's state is
    the same whatever the outcome, and a pass that succeeds records that VM. *)
Theorem apply_reuses_vm s s' r :
  ctl_of s = c0 -> k_clusters (pv_kube s) = kc -> machine_apply m ns s = (s', r) ->
  ctl_of s' = c0 /\ (is_ok r = true -> records s').
Proof.
  intros H1 H2 E.
  assert (triple calm (machine_apply m ns) (fun _ s => calm s /\ records s) calm) as Ht.
  { unfold machine_apply. rewrite Hlabel, Hnone. eapply triple_bind; [apply calm_resolve|].
    intros [id creds]. apply triple_when. simpl. intros ->.
    eapply triple_bind; [apply triple_map_err, keeps_triple, calm_cache|]. intros i.
    eapply triple_bind; [apply keeps_triple, calm_bootstrap|]. intros secret.
    eapply triple_bind; [apply keeps_triple, calm_data|]. intros data.
    eapply triple_bind; [apply triple_map_err, calm_create|]. intros created. apply triple_when. intros Hid.
    eapply triple_bind; [by apply calm_commit|]. intros []. eapply triple_bind; [apply calm_spec|]. intros [].
    apply (triple_ret (Requeue 60) (fun _ s => calm s /\ records s)). }
  specialize (Ht s (conj H1 H2)). rewrite E in Ht. destruct r as [a|e]; [by destruct Ht as [[? _] ?]|by destruct Ht].
Qed.
End against.
