(* ===== verification/SimKube.v ===== *)
(** * A simulated API server

    A management cluster that keeps the objects the provider reads and writes,
    can refuse status patches, and runs finalizers as kube-runtime documents.
    It has the behaviour [KubeLaws] states; the provider is run on it, with the
    controller of [Service] behind its client. *)

From Stdlib Require Import Ascii.
From S2P Require Import Prelude Ipv4 Ipnet CidrNet Proto Config Overcommit DbTypes JsonText Ipam Clusters Hosts Vms Teardown Outbox Schema Scheduler Ctl Wire Api Agent Service Machines Text HashName Triple Client Crds Provider Reconcilers ClientFacts ProviderFacts.

Record KSim := {
  ks_machines : gmap (string * string) BasisMachine;
  ks_clusters : gmap (string * string) BasisCluster;
  ks_capi : gmap (string * string) CapiMachine;
  ks_secrets : gmap (string * string) Secret;
  (** status patches of machines still to be refused *)
  ks_refuse : nat;
  (** kinds and names applied to workload clusters *)
  ks_applied : list (string * string);
}.
Definition set_machines f (k : KSim) : KSim := {|
  ks_machines := f (ks_machines k); ks_clusters := ks_clusters k; ks_capi := ks_capi k; ks_secrets := ks_secrets k;
  ks_refuse := ks_refuse k; ks_applied := ks_applied k |}.
Definition set_ks_clusters f (k : KSim) : KSim := {|
  ks_machines := ks_machines k; ks_clusters := f (ks_clusters k); ks_capi := ks_capi k; ks_secrets := ks_secrets k;
  ks_refuse := ks_refuse k; ks_applied := ks_applied k |}.
Definition set_refuse n (k : KSim) : KSim := {|
  ks_machines := ks_machines k; ks_clusters := ks_clusters k; ks_capi := ks_capi k; ks_secrets := ks_secrets k;
  ks_refuse := n; ks_applied := ks_applied k |}.
Definition add_applied x (k : KSim) : KSim := {|
  ks_machines := ks_machines k; ks_clusters := ks_clusters k; ks_capi := ks_capi k; ks_secrets := ks_secrets k;
  ks_refuse := ks_refuse k; ks_applied := ks_applied k ++ [x] |}.

Definition found {A} (o : option A) : result KubeError A := match o with Some a => Ok a | None => Err (KubeApi 404) end.
Definition with_cluster_status (st : BasisClusterStatus) (c : BasisCluster) : BasisCluster := {|
  bc_meta := bc_meta c; bc_spec := bc_spec c; bc_status := Some st |}.
Definition with_endpoint (e : ControlPlaneEndpoint) (b : string) (c : BasisCluster) : BasisCluster := {|
  bc_meta := bc_meta c;
  bc_spec := {| bcs_credentials_ref := bcs_credentials_ref (bc_spec c);
                bcs_external_ip_pool := bcs_external_ip_pool (bc_spec c);
                bcs_external_service_ips := bcs_external_service_ips (bc_spec c);
                bcs_apiserver_visibility := bcs_apiserver_visibility (bc_spec c);
                bcs_control_plane_endpoint := Some e; bcs_service_block_cidr := b |};
  bc_status := bc_status c |}.

#[export] Instance sim_kube : Kube := {|
  KWorld := KSim;
  WorkloadClient := unit;
  now_rfc3339 _ := "t0";
  get_basis_cluster ns n k := (k, found (ks_clusters k !! (ns, n)));
  get_basis_machine ns n k := (k, found (ks_machines k !! (ns, n)));
  get_capi_machine ns n k := (k, found (ks_capi k !! (ns, n)));
  get_secret ns n k := (k, found (ks_secrets k !! (ns, n)));
  get_secret_opt ns n k := (k, Ok (ks_secrets k !! (ns, n)));
  patch_cluster_spec ns n e b k := (set_ks_clusters (alter (with_endpoint e b) (ns, n)) k, Ok tt);
  patch_cluster_status ns n p k :=
    (set_ks_clusters (alter (fun c => with_cluster_status
       (merge_cluster_status p (unwrap_or empty_cluster_status (bc_status c))) c) (ns, n)) k, Ok tt);
  patch_machine_spec ns n p k := (set_machines (alter (with_provider_id p) (ns, n)) k, Ok tt);
  patch_machine_status ns n p k :=
    match ks_refuse k with
    | S r => (set_refuse r k, Err (KubeApi 409))
    | O => (set_machines (alter (fun m => with_status (merge_machine_status p (status_of m)) m) (ns, n)) k, Ok tt)
    end;
  from_kubeconfig _ k := (k, Ok tt);
  apply_object _ _ _ kind n _ k := (add_applied (kind, n) k, Ok tt);
  kube_text e := match e with KubeApi _ => "api" | KubeOther => "other" end;
  status_text _ := "status";
  json_to_string j :=
    match j with JObj (_ :: (_, JStr kind) :: (_, JObj ((_, JStr n) :: _)) :: _) => Some (kind +:+ "/" +:+ n) | _ => None end;
  dynamic_from_str t :=
    '(kind, n) ← split_once "/"%char t;
    Some {| dyn_types := Some ("cilium.io/v2alpha1", kind); dyn_name := n; dyn_resource_version := None;
            dyn_managed_fields := None; dyn_rest := "" |};
|}.

#[export] Instance sim_kube_laws : KubeLaws sim_kube.
Proof.
  refine {| k_machines := ks_machines; k_clusters := ks_clusters |}; try done.
  - intros ns n w c. simpl. unfold found. destruct (ks_clusters w !! (ns, n)); [|done]. by intros [= ->].
  - intros ns n p w. simpl. by destruct (ks_refuse w).
Defined.

(** Finalizers: add, or run and, after a cleanup, remove. *)
Definition with_finalizers (f : list string) (m : BasisMachine) : BasisMachine := {|
  bm_meta := {| md_name := md_name (bm_meta m); md_namespace := md_namespace (bm_meta m);
                md_labels := md_labels (bm_meta m); md_generation := md_generation (bm_meta m);
                md_owner_references := md_owner_references (bm_meta m); md_finalizers := f;
                md_deleted := md_deleted (bm_meta m) |};
  bm_spec := bm_spec m; bm_status := bm_status m |}.
Definition set_finalizers `{B : BasisStub} (m : BasisMachine) (f : list string) (s : Prov (K:=sim_kube)) : Prov (K:=sim_kube) :=
  set_kube (K:=sim_kube) (set_machines (alter (with_finalizers f) (namespace_of (bm_meta m), md_name (bm_meta m))) (pv_kube s)) s.
#[export] Instance sim_finalizer `{B : BasisStub} : Finalizer (Prov (K:=sim_kube)) BasisMachine MachineError := {|
  finalizer name cb m s :=
    let here := bool_decide (name ∈ md_finalizers (bm_meta m)) in
    if md_deleted (bm_meta m) then
      if here then
        match cb (EvCleanup m) s with
        | (s', Ok a) => (set_finalizers m (List.filter (fun f => f <>$ name) (md_finalizers (bm_meta m))) s', Ok a)
        | (s', Err e) => (s', Err (CleanupFailed e))
        end
      else (s, Ok AwaitChange)
    else if here then se_map_err ApplyFailed (cb (EvApply m)) s
    else (set_finalizers m (md_finalizers (bm_meta m) ++ [name]) s, Ok AwaitChange);
  finalizer_text _ := "finalizer";
|}.

(** ** Runs *)

Definition bytes_of (s : string) : list Byte.byte := String.list_byte_of_string s.
Definition creds : CredentialsRef := {| cred_name := "basis"; cred_namespace := None |}.
Definition prod : BasisCluster := {|
  bc_meta := {| md_name := "prod"; md_namespace := Some "default"; md_labels := ∅; md_generation := Some 1;
                md_owner_references := None; md_finalizers := [CLUSTER_FINALIZER]; md_deleted := false |};
  bc_spec := {| bcs_credentials_ref := creds; bcs_external_ip_pool := "cell-public"; bcs_external_service_ips := 16;
                bcs_apiserver_visibility := ApiserverPublic; bcs_control_plane_endpoint := None;
                bcs_service_block_cidr := "" |};
  bc_status := Some {| bct_basis_cluster_id := Some "c1"; bct_vni := None; bct_cidr := None;
                       bct_bgp_reflector_address := None; bct_bgp_asn := None; bct_initialization := Some true;
                       bct_ready := true; bct_failure_message := None; bct_conditions := [] |} |}.
Definition web (deleted : bool) (status : option BasisMachineStatus) : BasisMachine := {|
  bm_meta := {| md_name := "web"; md_namespace := Some "default"; md_labels := {[CLUSTER_LABEL := "prod"]};
                md_generation := Some 1; md_owner_references := Some [{| or_kind := "Machine"; or_name := "web-m" |}];
                md_finalizers := [MACHINE_FINALIZER]; md_deleted := deleted |};
  bm_spec := {| bms_cpu := 4; bms_memory_mib := 8192; bms_disk_gib := 20; bms_image := "img"; bms_gpus := 0;
                bms_gpu_constraints := None; bms_storage_disks := [];
                bms_placement := {| lss_requires := []; lss_prefers := [] |}; bms_provider_id := None |};
  bm_status := status |}.
Definition secrets : gmap (string * string) Secret :=
  {[("default", "basis") := {| sec_data := Some (<["serverUrl" := bytes_of "https://controller:7443"]>
                                 (<["cert" := []]> (<["key" := []]> {["ca" := []]}))) |};
    ("default", "boot") := {| sec_data := Some {["value" := bytes_of "#cloud-config"]} |}]}.
Definition mgmt (refuse : nat) (m : BasisMachine) : KSim := {|
  ks_machines := {[("default", "web") := m]}; ks_clusters := {[("default", "prod") := prod]};
  ks_capi := {[("default", "web-m") := {| cpm_data_secret_name := Some "boot" |}]};
  ks_secrets := secrets; ks_refuse := refuse; ks_applied := [] |}.

(** The agent reports the VM running while the call waits. *)
Definition cell_stub : BasisStub :=
  ctl_stub example_cfg (fun _ => reports_running "vm1") (fun _ s => s) (fun _ _ => "vm1") (fun _ _ => "t4")
    (fun _ => capi) (fun _ => true).
Definition prov (k : KSim) (s : Ctl) : Prov (K:=sim_kube) (B:=cell_stub) := {|
  pv_kube := k : @KWorld sim_kube; pv_net := demo_net_of s : @NWorld cell_stub; pv_clients := []; pv_entries := ∅;
  pv_trust_domain := "td" |}.
Definition vm_states (s : Prov (K:=sim_kube) (B:=cell_stub)) : list (string * Z) :=
  map (fun v => (vm_id v, vm_state v)) (vms (ctl_db (nt_ctl (pv_net s : Net)))).
Definition stored (s : Prov (K:=sim_kube) (B:=cell_stub)) : option BasisMachine :=
  ks_machines (pv_kube s : KSim) !! ("default", "web").
Definition mark_deleted (m : BasisMachine) : BasisMachine := {|
  bm_meta := bm_meta (web true None); bm_spec := bm_spec m; bm_status := bm_status m |}.

(** A VM the provider could not record outlives its machine. The VM is
    created and the API server refuses the status patch that records it; the
    machine is deleted before the next pass: the finalizer is lifted, no call
    reaches the controller, and the VM keeps running with nothing that names it. *)
Theorem unrecorded_vm_outlives_machine :
  let '(s1, r1) := machine_reconcile (B:=cell_stub) (web false None) (prov (mgmt 1 (web false None)) run_cluster) in
  let deleted := mark_deleted (unwrap_or (web false None) (stored s1)) in
  let '(s2, r2) := machine_reconcile (B:=cell_stub) deleted s1 in
  is_ok r1 = false /\ r2 = Ok AwaitChange /\
  (md_finalizers ∘ bm_meta <$> stored s2) = Some [] /\ vm_states s2 = [("vm1", machine_state_num Running)].
Proof. vm_compute. done. Qed.

(** The same machine when nothing fails: the first pass records the VM and the
    cleanup has the controller tear it down. *)
Definition web_recorded : BasisMachineStatus := {|
  bmt_initialization := Some true; bmt_provider_id := Some "basis://vm1"; bmt_basis_vm_id := Some "vm1";
  bmt_credentials_ref := Some creds; bmt_addresses := [{| ma_kind := "InternalIP"; ma_address := "10.0.0.33" |}];
  bmt_ready := true; bmt_failure_message := None; bmt_conditions := [ready_true "t0" "VMRunning" (Some 1)] |}.
Example recorded_vm :
  (bm_status <$> stored (fst (machine_reconcile (B:=cell_stub) (web false None) (prov (mgmt 0 (web false None)) run_cluster)))) =
  Some (Some web_recorded).
Proof. vm_compute. reflexivity. Qed.

Lemma run_register_wf : on_db db_wf run_register.
Proof. unfold run_register. apply wf_stream_messages. exact empty_wf. Qed.
Lemma run_cluster_wf : on_db db_wf run_cluster.
Proof. unfold run_cluster. apply wf_create_cluster; [exact (fun _ _ H => H)|exact run_register_wf]. Qed.
Lemma run_machine_wf : on_db db_wf run_machine.
Proof.
  unfold run_machine. apply wf_create_machine; [|exact run_cluster_wf].
  intros n s Hs. unfold reports_running. destruct (n =? 11)%nat; [|exact Hs]. apply wf_handle_agent_message. exact Hs.
Qed.

Definition deleted_web : BasisMachine := web true (Some web_recorded).
Definition deletion := machine_event (B:=cell_stub) "default" (EvCleanup deleted_web) (prov (mgmt 0 deleted_web) run_machine).
Lemma deletion_ok : deletion = (fst deletion, Ok AwaitChange).
Proof.
  assert (snd deletion = Ok AwaitChange) as E by (vm_compute; reflexivity). rewrite <- E. apply surjective_pairing.
Qed.
Lemma lifted_finalizer_means_gone_witness :
  gone "vm1" (nt_ctl (pv_net (fst deletion) : Net)) /\ vm_states (fst deletion) = [("vm1", VM_STATE_PENDING_TEARDOWN)].
Proof.
  split; [|vm_compute; reflexivity].
  exact (lifted_finalizer_means_gone example_cfg (fun _ => reports_running "vm1") (fun _ s => s) (fun _ _ => "vm1")
    (fun _ _ => "t4") (fun _ => capi) (fun _ => true) "default" deleted_web (prov (mgmt 0 deleted_web) run_machine)
    (fst deletion) AwaitChange (fun _ _ H => H) run_machine_wf deletion_ok).
Defined.

Definition second_apply := machine_apply (B:=cell_stub) (web false None) "default" (prov (mgmt 0 (web false None)) run_machine).
Definition first_row : VmRow := unwrap_or (example_vm "none" "none") (head (vms (ctl_db run_machine))).
Definition first_cell_cluster : ClusterRow := unwrap_or fleet_cluster (head (clusters (ctl_db run_machine))).
Lemma apply_reuses_vm_witness :
  nt_ctl (pv_net (fst second_apply) : Net) = run_machine /\ is_ok (snd second_apply) = true /\
  vm_states (fst second_apply) = [("vm1", machine_state_num Running)].
Proof.
  split; [|split; vm_compute; reflexivity].
  refine (proj1 (apply_reuses_vm example_cfg (fun _ => reports_running "vm1") (fun _ s => s) (fun _ _ => "vm1")
    (fun _ _ => "t4") (fun _ => capi) (fun _ => true) "default" "prod" (web false None) prod "c1" first_cell_cluster
    first_row run_machine {[("default", "prod") := prod]} _ _ _ _ _ _
    (prov (mgmt 0 (web false None)) run_machine) (fst second_apply) (snd second_apply) _ _ (surjective_pairing second_apply))).
  - vm_compute. reflexivity.
  - reflexivity.
  - vm_compute. reflexivity.
  - reflexivity.
  - split; vm_compute; [left|reflexivity].
  - vm_compute. reflexivity.
  - reflexivity.
  - reflexivity.
Defined.


(** The cluster is gone, and the cached client is the one of an old Secret. *)
Definition orphaned : Prov (K:=sim_kube) (B:=cell_stub) := {|
  pv_kube := set_ks_clusters (fun _ => ∅) (mgmt 0 deleted_web) : @KWorld sim_kube;
  pv_net := demo_net_of run_machine : @NWorld cell_stub;
  pv_clients := [new_client "" {| ti_cert := []; ti_key := []; ti_ca := [] |}];
  pv_entries := {[resolve_key creds "default" := 0%nat]};
  pv_trust_domain := "td" |}.

Lemma stale_client_kept_witness :
  let '(s', r) := machine_event (B:=cell_stub) "default" (EvCleanup deleted_web) orphaned in
  is_ok r = false /\ pv_entries s' = pv_entries orphaned.
Proof.
  assert (is_ok (snd (machine_event (B:=cell_stub) "default" (EvCleanup deleted_web) orphaned)) = false) as Hr
    by (vm_compute; reflexivity).
  pose proof (stale_client_kept "default" deleted_web "vm1" creds 0%nat "prod" orphaned eq_refl eq_refl
    ltac:(vm_compute; reflexivity) ltac:(vm_compute; reflexivity) ltac:(vm_compute; reflexivity)) as H.
  destruct (machine_event _ _ orphaned) as [s' r]. split; [exact Hr|exact H].
Defined.
