(* ===== verification/Startup.v ===== *)
(** * Starting the provider (crates/basis-capi-provider/src/startup.rs, main.rs)

    The provider starts its reconcilers after its resource definitions are
    listable and the trust domain is derived from the Lattice CA. Both waits
    poll with a deadline. The API server, the clock and SHA-256 are
    parameters. *)

From S2P Require Import Prelude Text Host Image Provider.

Class Bootstrap := {
  BWorld : Type;
  (** [Api::<K>::all(client).list] with a limit of one, by kind *)
  list_kind : string -> BWorld -> BWorld * result KubeError unit;
  (** [Api::<Secret>::namespaced(client, ns).get_opt(name)] *)
  get_ca_secret : string -> string -> BWorld -> BWorld * result KubeError (option Secret);
  (** [Instant::now] in milliseconds, and [tokio::time::sleep] *)
  instant : BWorld -> Z;
  sleep : Z -> BWorld -> BWorld;
  sha256_of : list Byte.byte -> list Z;
}.

(** Documented behaviour: the clock is monotonic, a sleep lasts at least as
    long as asked, a digest has 32 bytes. *)
Class BootstrapLaws `(B : Bootstrap) := {
  list_kind_time k w : instant w <= instant (fst (list_kind k w));
  get_ca_time ns n w : instant w <= instant (fst (get_ca_secret ns n w));
  sleep_time d w : instant w + d <= instant (sleep d w);
  sha256_length bs : length (sha256_of bs) = 32%nat;
}.

Inductive StartupError :=
  | CrdTimeout (kind : string)
  | CaTimeout
  | CaCorrupt
  | CaNoKey
  | StartupKube (e : KubeError)
  (** the bound on the polls is used up, which never happens *)
  | Stuck.

Definition CRD_WAIT_TIMEOUT : Z := 60000.
Definition CRD_POLL_INTERVAL : Z := 2000.
Definition CA_WAIT_TIMEOUT : Z := 300000.
Definition CA_POLL_INTERVAL : Z := 5000.
Definition LATTICE_SYSTEM_NAMESPACE : string := "lattice-system".
Definition CA_SECRET : string := "lattice-ca".
Definition CA_CERT_KEY : string := "ca.crt".

Section startup.
Context `{B : Bootstrap}.

Abbreviation BootM A := (SE BWorld StartupError A).

Definition boot_call {A} (f : BWorld -> BWorld * result KubeError A) : BootM (result KubeError A) :=
  fun w => let '(w', r) := f w in (w', Ok r).

(** The loops of [wait_for_crd] and [wait_for_lattice_ca]: [probe] answers,
    fails, or ([None]) asks to retry; past the deadline a retry is [late]. *)
Fixpoint poll_loop {A} (fuel : nat) (probe : BootM (option A)) (deadline interval : Z) (late : StartupError) : BootM A :=
  match fuel with
  | O => se_fail Stuck
  | S fuel' =>
      do! answer <- probe ;
      match answer with
      | Some a => se_ret a
      | None =>
          do! t <- se_gets instant ;
          if deadline <=? t then se_fail late
          else run! se_modify (sleep interval) ; poll_loop fuel' probe deadline interval late
      end
  end.
(** One poll per interval before the deadline, and one after it. *)
Definition poll_budget (deadline interval : Z) (w : BWorld) : nat :=
  S (S (Z.to_nat ((deadline - instant w) / interval))).
Definition poll {A} (probe : BootM (option A)) (deadline interval : Z) (late : StartupError) : BootM A :=
  fun w => poll_loop (poll_budget deadline interval w) probe deadline interval late w.

(** [wait_for_crd] and [wait_for_crds]. *)
Definition crd_probe (kind : string) : BootM (option unit) :=
  do! r <- boot_call (list_kind kind) ;
  match r with
  | Ok _ => se_ret (Some tt)
  | Err (KubeApi code) => if code =? 404 then se_ret None else se_fail (StartupKube (KubeApi code))
  | Err e => se_fail (StartupKube e)
  end.
Definition wait_for_crd (kind : string) (deadline : Z) : BootM unit :=
  poll (crd_probe kind) deadline CRD_POLL_INTERVAL (CrdTimeout kind).
Definition wait_for_crds : BootM unit :=
  do! t <- se_gets instant ;
  let deadline := t + CRD_WAIT_TIMEOUT in
  run! wait_for_crd "BasisCluster" deadline ;
  run! wait_for_crd "BasisMachine" deadline ;
  wait_for_crd "BasisMachineTemplate" deadline.

(** [wait_for_lattice_ca]. *)
Definition ca_of_secret (secret : Secret) : result StartupError (list Byte.byte) :=
  match (match sec_data secret with Some d => d !! CA_CERT_KEY | None => None end) with
  | Some bytes => if utf8_ok bytes && negb (bool_decide (bytes = [])) then Ok bytes else Err CaCorrupt
  | None => Err CaNoKey
  end.
Definition ca_probe : BootM (option (list Byte.byte)) :=
  do! r <- boot_call (get_ca_secret LATTICE_SYSTEM_NAMESPACE CA_SECRET) ;
  match r with
  | Ok (Some secret) => do! pem <- se_of (ca_of_secret secret) ; se_ret (Some pem)
  | Ok None => se_ret None
  | Err e => se_fail (StartupKube e)
  end.
Definition wait_for_lattice_ca : BootM (list Byte.byte) :=
  do! t <- se_gets instant ;
  poll ca_probe (t + CA_WAIT_TIMEOUT) CA_POLL_INTERVAL CaTimeout.

(** [read_trust_domain]. *)
Definition read_trust_domain : BootM string :=
  do! cert_pem <- wait_for_lattice_ca ; se_ret (hex_lower (sha256_of cert_pem)).

(** [run] up to the reconcilers: the trust domain of their [ProviderContext]. *)
Definition provider_run : BootM string := run! wait_for_crds ; read_trust_domain.
End startup.

(** ** The waits end *)

Section facts.
Context `{L : BootstrapLaws}.

(** What the process does to the world while it waits. *)
Inductive boot_step : BWorld -> BWorld -> Prop :=
  | boot_list kind w : boot_step w (fst (list_kind kind w))
  | boot_ca w : boot_step w (fst (get_ca_secret LATTICE_SYSTEM_NAMESPACE CA_SECRET w))
  | boot_sleep d w : 0 <= d -> boot_step w (sleep d w).
(** [w'] comes after [w]. *)
Definition later : BWorld -> BWorld -> Prop := rtc boot_step.

Lemma later_time w w' : later w w' -> instant w <= instant w'.
Proof.
  induction 1 as [|w1 w2 w3 [kind w0|w0|d w0 Hd] _ IH]; [lia| | |].
  - pose proof (list_kind_time kind w0). lia.
  - pose proof (get_ca_time LATTICE_SYSTEM_NAMESPACE CA_SECRET w0). lia.
  - pose proof (sleep_time d w0). lia.
Qed.

(** What a poll needs of its probe: it only asks, and it does not itself report
    a timeout. *)
Definition probe_error (e : StartupError) : bool :=
  match e with CrdTimeout _ | CaTimeout | Stuck => false | CaCorrupt | CaNoKey | StartupKube _ => true end.
Record probe_ok {A} (probe : SE BWorld StartupError (option A)) : Prop := {
  pb_run w : later w (fst (probe w));
  pb_err w e : snd (probe w) = Err e -> probe_error e = true;
}.

(** The end of a wait: it answered, at a moment when the probe did; or it
    failed as the probe did, or late, after the deadline. *)
Definition waited {A} (probe : SE BWorld StartupError (option A)) (deadline : Z) (late : StartupError)
    (w : BWorld) (r : result StartupError A) (w' : BWorld) : Prop :=
  match r with
  | Ok a => exists w0, later w w0 /\ probe w0 = (w', Ok (Some a))
  | Err e => probe_error e = true \/ (e = late /\ deadline <= instant w')
  end.

Lemma poll_loop_waits {A} (probe : SE BWorld StartupError (option A)) deadline interval late fuel : forall w,
  probe_ok probe -> 0 < interval ->
  (1 <= fuel)%nat -> deadline - instant w < (Z.of_nat fuel - 1) * interval ->
  let '(w', r) := poll_loop fuel probe deadline interval late w in
  later w w' /\ waited probe deadline late w r w'.
Proof.
  induction fuel as [|fuel IH]; intros w Hp Hi Hf Hd; [lia|]. cbn [poll_loop]. unfold se_bind.
  pose proof (pb_run _ Hp w) as Ht. pose proof (pb_err _ Hp w) as He.
  destruct (probe w) as [w1 [[a|]|e]] eqn:Ep; cbn [fst snd] in *.
  - split; [done|]. by exists w.
  - unfold se_gets. destruct (deadline <=? instant w1) eqn:El.
    + cbn. split; [done|]. right. split; [done|lia].
    + unfold se_modify. pose proof (sleep_time interval w1) as Hs. pose proof (later_time _ _ Ht) as Hn.
      specialize (IH (sleep interval w1) Hp Hi). destruct fuel as [|fuel]; [lia|].
      specialize (IH ltac:(lia) ltac:(lia)).
      assert (later w (sleep interval w1)) as Hw by (etransitivity; [exact Ht|apply rtc_once; constructor; lia]).
      destruct (poll_loop (S fuel) probe deadline interval late (sleep interval w1)) as [w' r].
      destruct IH as [Hl Hr]. split; [by etransitivity|]. destruct r as [a|e]; [|done].
      destruct Hr as (w0 & H0 & E0). exists w0. split; [by etransitivity|done].
  - split; [done|]. left. by apply He.
Qed.

Lemma poll_waits {A} (probe : SE BWorld StartupError (option A)) deadline interval late w :
  probe_ok probe -> 0 < interval ->
  let '(w', r) := poll probe deadline interval late w in
  later w w' /\ waited probe deadline late w r w'.
Proof.
  intros Hp Hi. apply poll_loop_waits; [done|done|unfold poll_budget; lia|].
  unfold poll_budget. set (d := deadline - instant w).
  pose proof (Z.mod_pos_bound d interval Hi). pose proof (Z_div_mod_eq_full d interval).
  destruct (Z.le_gt_cases 0 (d / interval)); nia.
Qed.

Lemma crd_probe_ok kind : probe_ok (crd_probe kind).
Proof.
  unfold crd_probe, boot_call, se_bind. split; intros w; pose proof (rtc_once _ _ (boot_list kind w)) as Ht;
    destruct (list_kind kind w) as [w' [u|[c|]]]; cbn in *; try destruct (c =? 404); cbn; try done;
    intros e [= <-]; done.
Qed.
Lemma ca_probe_ok : probe_ok ca_probe.
Proof.
  unfold ca_probe, boot_call, se_bind. split; intros w;
    pose proof (rtc_once _ _ (boot_ca w)) as Ht;
    destruct (get_ca_secret LATTICE_SYSTEM_NAMESPACE CA_SECRET w) as [w' [[s|]|k]]; cbn in *; try done.
  - by destruct (ca_of_secret s).
  - intros e. unfold ca_of_secret. destruct (sec_data s) as [d|]; cbn; [|by intros [= <-]].
    destruct (d !! CA_CERT_KEY) as [bs|]; cbn; [|by intros [= <-]].
    destruct (utf8_ok bs && _); cbn; [done|by intros [= <-]].
  - by intros e [= <-].
Qed.

(** The kinds the provider watches. *)
Definition watched : list string := ["BasisCluster"; "BasisMachine"; "BasisMachineTemplate"].

Lemma crd_probe_listed kind w w' : crd_probe kind w = (w', Ok (Some tt)) -> list_kind kind w = (w', Ok tt).
Proof.
  unfold crd_probe, boot_call, se_bind. destruct (list_kind kind w) as [w1 [[]|[c|]]]; cbn; [by intros [= ->]| |done].
  by destruct (c =? 404).
Qed.
Lemma ca_probe_read w w' pem : ca_probe w = (w', Ok (Some pem)) ->
  pem <> [] /\ utf8_ok pem = true /\
  exists secret data, get_ca_secret LATTICE_SYSTEM_NAMESPACE CA_SECRET w = (w', Ok (Some secret)) /\
    sec_data secret = Some data /\ data !! CA_CERT_KEY = Some pem.
Proof.
  unfold ca_probe, boot_call, se_bind. destruct (get_ca_secret _ _ w) as [w1 [[s|]|k]]; cbn; [|done|done].
  unfold ca_of_secret. destruct (sec_data s) as [d|] eqn:Es; cbn; [|done].
  destruct (d !! CA_CERT_KEY) as [bs|] eqn:Ed; cbn; [|done]. destruct (utf8_ok bs && _) eqn:Eu; cbn; [|done].
  intros [= <- <-]. apply andb_true_iff in Eu as [Hu Hn%negb_true_iff%bool_decide_eq_false]. eauto 8.
Qed.

Lemma hex_lower_length bs : String.length (hex_lower bs) = (2 * length bs)%nat.
Proof. induction bs as [|b bs IH]; [done|]. cbn [hex_lower String.length length]. rewrite IH. lia. Qed.

(** One wait for a kind. *)
Lemma crd_waits kind deadline w :
  let '(w', r) := wait_for_crd kind deadline w in
  later w w' /\
  match r with
  | Ok _ => exists w0, later w w0 /\ list_kind kind w0 = (w', Ok tt)
  | Err e => probe_error e = true \/ (e = CrdTimeout kind /\ deadline <= instant w')
  end.
Proof.
  pose proof (poll_waits (crd_probe kind) deadline CRD_POLL_INTERVAL (CrdTimeout kind) w (crd_probe_ok kind)) as Hw.
  unfold wait_for_crd. destruct (poll _ _ _ _ w) as [w' r]. destruct Hw as [Ht Hr]; [by unfold CRD_POLL_INTERVAL|].
  split; [done|]. destruct r as [[]|e]; [|exact Hr]. destruct Hr as (w0 & Hl & H0). exists w0. split; [done|by apply crd_probe_listed].
Qed.

(** The API server listed a kind at a moment of a start. *)
Definition listed (w w' : BWorld) (kind : string) : Prop :=
  exists w0 w1, later w w0 /\ list_kind kind w0 = (w1, Ok tt) /\ later w1 w'.

(** How a start ends. *)
Definition started (w w' : BWorld) (r : result StartupError string) : Prop :=
  match r with
  | Ok trust_domain =>
      Forall (listed w w') watched /\
      exists w0 secret data pem,
        later w w0 /\ get_ca_secret LATTICE_SYSTEM_NAMESPACE CA_SECRET w0 = (w', Ok (Some secret)) /\
        sec_data secret = Some data /\ data !! CA_CERT_KEY = Some pem /\ pem <> [] /\ utf8_ok pem = true /\
        trust_domain = hex_lower (sha256_of pem) /\ String.length trust_domain = 64%nat
  | Err (CrdTimeout kind) => kind ∈ watched /\ instant w + CRD_WAIT_TIMEOUT <= instant w'
  | Err CaTimeout => instant w + CA_WAIT_TIMEOUT <= instant w'
  | Err Stuck => False
  | Err _ => True
  end.

Lemma failed_start w w' e deadline kind :
  probe_error e = true \/ (e = CrdTimeout kind /\ deadline <= instant w') -> kind ∈ watched ->
  deadline = instant w + CRD_WAIT_TIMEOUT -> started w w' (Err e).
Proof. intros [He|[-> He]] Hk ->; [by destruct e|by split]. Qed.

Lemma listed_later w w' w'' kind : later w' w'' -> listed w w' kind -> listed w w'' kind.
Proof. intros H (w0 & w1 & H0 & E & H1). exists w0, w1. split_and!; [done..|by etransitivity]. Qed.

Lemma trust_domain_read w0 w :
  later w0 w -> Forall (listed w0 w) watched ->
  let '(w', r) := read_trust_domain w in started w0 w' r.
Proof.
  intros H0 Hk. unfold read_trust_domain, wait_for_lattice_ca, se_bind, se_gets.
  pose proof (poll_waits ca_probe (instant w + CA_WAIT_TIMEOUT) CA_POLL_INTERVAL CaTimeout w ca_probe_ok) as Hw.
  destruct (poll _ _ _ _ w) as [w' r]. destruct Hw as [Ht Hr]; [by unfold CA_POLL_INTERVAL|].
  destruct r as [pem|e]; cbn [waited] in Hr.
  - destruct Hr as (w1 & Hl & Hp). apply ca_probe_read in Hp as (Hn & Hu & secret & data & Hs & Hd & Hc).
    split; [apply (Forall_impl _ _ _ Hk); intros kind; by apply listed_later|].
    exists w1, secret, data, pem. split_and!; try done; [by etransitivity|].
    by rewrite hex_lower_length, sha256_length.
  - destruct Hr as [He|[-> He]]; [by destruct e|]. apply later_time in H0. cbn. lia.
Qed.
End facts.

(** C33: the provider starts ready or fails. The polls of a start end within
    their budget, whatever the API server answers. If the reconcilers start,
    the API server listed each of the three watched kinds during the start, the
    CA certificate was read from the Lattice secret, not empty and valid UTF-8,
    and the trust domain is the 64 hexadecimal digits of its SHA-256. A start that
    gives up on the resource definitions, or on the CA, does so no earlier
    than 60 seconds, or 300 seconds, after it began. *)
Theorem starts_or_fails `{L : BootstrapLaws} w :
  let '(w', r) := provider_run w in started w w' r.
Proof.
  unfold provider_run, wait_for_crds, se_bind, se_gets. set (deadline := instant w + CRD_WAIT_TIMEOUT).
  pose proof (crd_waits "BasisCluster" deadline w) as H1.
  destruct (wait_for_crd "BasisCluster" deadline w) as [w1 [[]|e]]; destruct H1 as [T1 R1];
    [|eapply failed_start; [exact R1|unfold watched; set_solver|done]].
  pose proof (crd_waits "BasisMachine" deadline w1) as H2.
  destruct (wait_for_crd "BasisMachine" deadline w1) as [w2 [[]|e]]; destruct H2 as [T2 R2];
    [|eapply failed_start; [exact R2|unfold watched; set_solver|done]].
  pose proof (crd_waits "BasisMachineTemplate" deadline w2) as H3.
  destruct (wait_for_crd "BasisMachineTemplate" deadline w2) as [w3 [[]|e]]; destruct H3 as [T3 R3];
    [|eapply failed_start; [exact R3|unfold watched; set_solver|done]].
  destruct R1 as (v1 & L1 & E1), R2 as (v2 & L2 & E2), R3 as (v3 & L3 & E3).
  assert (later w w2) as T12 by exact (transitivity T1 T2). assert (later w w3) as T13 by exact (transitivity T12 T3).
  apply trust_domain_read; [done|]. unfold watched, listed. repeat constructor.
  - exists v1, w1. split_and!; [done..|exact (transitivity T2 T3)].
  - exists v2, w2. split_and!; [exact (transitivity T1 L2)|done|done].
  - exists v3, w3. split_and!; [exact (transitivity T12 L3)|done|reflexivity].
Qed.

(** ** A slow API server *)

(** The kinds appear one by one, the CA later; each answer takes 10 ms. *)
#[local] Instance slow_server : Bootstrap := {|
  BWorld := Z;
  list_kind kind t := (t + 10, if t <? 5000 then Err (KubeApi 404) else Ok tt);
  get_ca_secret _ _ t := (t + 10, Ok (if t <? 20000 then None
    else Some {| sec_data := Some {[ CA_CERT_KEY := [Byte.x2d; Byte.x2d] ]} |}));
  instant t := t;
  sleep d t := t + Z.max d 0;
  sha256_of _ := repeat 171 32 |}.
#[local] Instance slow_server_laws : BootstrapLaws slow_server.
Proof. split; intros; cbn; try lia. Qed.

Lemma starts_or_fails_witness :
  provider_run (B:=slow_server) 0 = (21100, Ok (hex_lower (repeat 171 32))) /\
  started (B:=slow_server) 0 21100 (Ok (hex_lower (repeat 171 32))).
Proof.
  assert (provider_run (B:=slow_server) 0 = (21100, Ok (hex_lower (repeat 171 32)))) as E by (vm_compute; reflexivity).
  split; [exact E|]. pose proof (starts_or_fails (B:=slow_server) 0) as Hs. rewrite E in Hs. exact Hs.
Defined.
